(* ===== verification/_CoqProject ===== *)
-Q . S2P
Prelude.v
Network.v
BpfMaps.v
SockOps.v
SockOpsFacts.v
SockOpsProperties.v
KernelBindings.v
SockCache.v
SockCacheFacts.v
SockCacheProperties.v
ReportData.v
NetworkEvent.v
NetworkEventFacts.v
EventFilter.v
FlowStatsProperties.v
Text.v
Runtimes.v
BuildScripts.v
SockDiag.v
VpcCidr.v
Conntrack.v
NatResolver.v
NatProperties.v
EventProvider.v
EventProviderFacts.v
EventProviderProperties.v
System.v
SystemProperties.v
Ledger.v
LedgerProperties.v
Timer.v
TimerProperties.v
Metadata.v
HostStats.v
HostStatsProperties.v
Report.v
ReportProperties.v
Publisher.v
PublisherProperties.v
Kubernetes.v
KubernetesProperties.v
RemoteNatProperties.v
HostInspection.v
NetNamespaces.v
NetNamespacesProperties.v
OpenMetrics.v
MetricsServer.v
OpenMetricsFacts.v
OpenMetricsProperties.v
ReportVerifier.v
ReportVerifierProperties.v
LoadGenerator.v
LoadGeneratorProperties.v
Traits.v
Agent.v
AgentProperties.v
Startup.v
StartupProperties.v
Testing.v
KernelTests.v
AgentTests.v
FlowTests.v
HostTests.v
ClusterTests.v
MetricsTests.v
ServerTests.v
ReportTests.v
LoopTests.v
CapacityTests.v
CompressionTests.v
