(* ===== verification/Prelude.v ===== *)
(** * A verification of the network flow monitor agent

    ** The program

    The agent measures the TCP connections of a host.  An eBPF program (nfm-bpf/src/main.rs and
    nfm-common/src/sock_ops_handler.rs) is called by the kernel for each socket event.  It samples
    new sockets and records, per CPU and socket, the properties of the socket in one BPF map and its
    statistics in another, and counts events.  Every half second the agent (nfm-controller) runs an
    aggregation cycle: it takes over new socket properties, merges the statistics of each socket
    over the CPUs, takes the deltas to the previous cycle (sock_cache.rs), replaces addresses by
    those beyond a local NAT (nat_resolver.rs, fed by conntrack_listener.rs), adds the deltas to
    flows (network_event.rs), evicts closed and stale sockets from its cache and from the BPF map,
    and adapts the sampling interval.  Every thirty seconds it publishes: it attributes flows to
    Kubernetes pods, selects those with the greatest loss, adds interface statistics, counters and
    metadata, and exports the report over OTLP.  A timer (event_timer.rs) drives both from the loop
    of lib.rs.  Beside it an optional server (open_metrics/) hands out the statistics of the
    interfaces of pods and of the instance, a verifier (verifiers/report-verifier) checks logged
    reports against generated traffic, and a load generator (load-generator) makes that traffic and
    its faults with two BPF programs of its own.

    ** Conventions

    A Rust struct is a [Module] with a record [t], its [default], and one definition per method;
    [self] is passed and returned.  A w-bit integer is a [Z] with its arithmetic written out:
    [wrapping_*], [saturating_*] where the code says so or where it runs in the eBPF object (built
    without overflow checks), and [checked_*] for the plain operators of the agent, whose release
    profile enables overflow checks and aborts on panic.  [None] is a panic throughout; errors are
    values of [Result].  [u64] tallies that count map entries are exact integers.  An [f64] is the
    rational it denotes; the casts of integers in the export round to 53 bits, quotients are exact.
    Hash maps are [gmap]s; where the code loops over one, the order of the visit is an argument and
    the theorems hold for every permutation.

    What the outside supplies is an argument: the CPU an event runs on, the outcome of setting
    callback flags, the contents of the kernel maps when they are read, clocks, random numbers, the
    choice among equal keys of the heap, the exit flag, the answers of the metadata service, of
    [ethtool], [ip] and files, decoded netlink messages, Kubernetes objects, and the outcome of a
    publication.

    ** The files

    - Prelude: notation, record update, [Result], machine integers, monadic folds, hints and tactics.
    - Network, BpfMaps, SockOps: the shared structs (network.rs, utils.rs, constants.rs), the BPF
      maps (ebpf_mocks.rs, the in-process counterpart of the kernel maps) and the event handler, in
      a state-and-panic monad over the handler object.  SockOpsFacts defines the abstract slot of a
      socket and its transition [SockSlot.step], and the step relation [MapInvariant.map_step] of
      all that happens to the maps.  SockOpsProperties has the theorems: the handler refines the
      slot transition, the invariant of all reachable maps, commutation of events of different
      sockets, the life cycle of a connection, the accounting of events, the sampling decision.
      KernelBindings (ebpf_actuals.rs) runs the handler on the kernel's own data, where the loaded
      program never faults.
    - SockCache, SockCacheFacts, SockCacheProperties: the cache of sockets.  A round acts on each
      socket by itself whatever the visiting order, deltas add up to the statistics, and a cycle
      keeps exactly the live sockets.
    - ReportData, NetworkEvent, NetworkEventFacts, EventFilter, FlowStatsProperties: the values of
      a report, flows and their statistics in closed form, the selection of flows.
    - Text, VpcCidr, Conntrack, NatResolver, NatProperties: the string functions and address
      parsers of the Rust library, VPC membership, conntrack events, and the ring of NAT maps,
      which is related to an abstract list of three generations.  Over the conntrack listener every
      mapping stems from an event received, and resolving never panics while the kernel reports
      connections of one address family.  [NatResolver] is a type class
      with its laws [NatResolverLaws]; the cycle is proved against them, and both resolvers are
      instances.
    - EventProvider, EventProviderFacts, EventProviderProperties: map sizing, adaptive sampling,
      aggregation over cores and into flows, eviction, and the whole cycle (its effect, when it
      cannot panic, and one input on which it does).
    - System, SystemProperties: the eBPF program and the agent over the same maps, as a labelled
      step relation: events on any CPU, reads of single map entries, cycles on what has been read,
      reports.  The invariant of all reachable states discharges what the theorems on single
      components assume of each other; no reachable state is stuck.
    - Ledger, LedgerProperties: the run with its books, reports given out on one side and the last
      known amounts of all sockets on the other.  They balance for every counter that flows sum up.
    - Runtimes: the executor of asynchronous calls (imds_utils.rs), credentials.rs and crypto.rs.
    - Timer, TimerProperties: clocks as a class with the law of [sleep], the heap of periodic
      events, and time arithmetic.
    - Metadata, HostStats, HostStatsProperties: the metadata providers and the statistics of
      network interfaces, whose deltas are conserved.
    - Report, ReportProperties: the report and its OTLP export, whose whole content (attributes with
      their values, metrics, counters) is given in terms of the report.
    - Publisher, PublisherProperties: the publishers of a configuration (publisher.rs) and the
      signed request to the endpoint (publisher_endpoint.rs).  What a publication does is a list of
      effects; the theorem gives them for every configuration, with the crates behind them
      constrained by the class [CratesLaws] and the texts that go into headers printable.
    - Kubernetes, KubernetesProperties, RemoteNatProperties: the watchers as a step relation of two
      tasks and the main loop over the shared map of pods, its invariant under all interleavings,
      the enrichment of flows, and the parser of conntrack lines (remote_nat_resolver.rs), which
      reads back what the kernel prints without zones and accounting; what becomes of lines with
      them is part of the theorem.
    - HostInspection: command_runner.rs, host.rs (the cached check for virtual interfaces),
      memory_inspector.rs and the core counts of cpu.rs.
    - NetNamespaces, NetNamespacesProperties: the namespaces of interfaces (namespace_manager.rs),
      their TCP counters (netns_stats.rs) and types.rs; the scans with early exits agree with
      references that read whole columns or lines.
    - OpenMetrics, MetricsServer, OpenMetricsFacts, OpenMetricsProperties: discovery.rs, the two
      providers with their gauges, and server.rs with its life cycle as a step relation.  Gauges and
      the registry are classes with laws.  Only interfaces of pods are reported, the values reported
      add up, the server never panics and owns at most one thread.
    - ReportVerifier, ReportVerifierProperties: reading, merging and checking of reports; a flow
      round-trips through JSON, merging sums what it sums, and an accepted report is exact.
    - LoadGenerator, LoadGeneratorProperties: the two BPF programs of the load generator, its client
      (set-up, connection, exchange, pacing), the echo server and the tasks of main; exactly the
      first packets of a flow are dropped, a configuration moves from the socket to its flow and
      disappears with it, the client lags behind the echo, and shaping ends before data is sent.
    - Traits, Agent, AgentProperties: the traits of the components as classes, with the components
      above as instances; options, the monitor of processor usage (cpu.rs) and the main loop, which
      is generic over the classes.  What holds of the loop by itself (its schedule, the count of
      failed reports) is proved for all components.
    - Startup, StartupProperties: [on_load], which loads the program, drops capabilities (the class
      [Caps] with its laws), builds the components and sets up the loop; when it fails, what it
      leaves, and that a well-configured agent starts.
    - BuildScripts: both build.rs; the object file announced to the compiler is the one cargo leaves
      for the arguments it was run with.
    - SockDiag: sock_diag.rs, a program of its own; it comes to an end of any data, and prints every
      message of a dump once and in order.
    - Testing, KernelTests, AgentTests, FlowTests, HostTests, ClusterTests, MetricsTests,
      ServerTests, ReportTests, LoopTests, CapacityTests, CompressionTests: the unit tests
      of the source, translated one by one under their own names.  They check the definitions against the expectations of the
      authors of the code, among them the golden files of test-data that fix the OTLP export.  They
      are evaluated on the model ([*_tests_pass]); those of CapacityTests, which fill the BPF maps,
      the socket cache and the table of flows with thousands of entries, and those of
      CompressionTests, which draw random reports, are proved to pass, by invariants of their loops
      and for all draws.  Left out are the tests of the crates behind the code (decoding of netlink
      bytes, proxies), and of the real clocks, sockets, threads and processes.

    ** Bounds and fuel

    Recursion is structural everywhere but in two loops (the readers of numbers and addresses in Text
    count down the digits and groups that the Rust library allows, and decimals have at most the
    twenty digits of 64 bits).  The fuel of the sleeping loop of the timer is the number of one-second
    fragments the wait is made of; since the loop advances its own time by each fragment, the fuel
    never runs out, which TimerProperties proves.  The fuel of the loop of SockDiag over the messages
    in a buffer is the size of the buffer, which is enough since each turn moves on by a byte at
    least, as proved there.  The ring has the three slots of the source, and the limits of maps and
    flows are the constants of constants.rs.

    ** What the theorems found

    Some theorems state defects: the sum of connection attempts over the cores overflows eight bits
    and stops the agent, the connect-time histogram counts more samples than it sums, a jitter
    longer than uptime plus period panics, an interface that cannot be read at first has its whole
    history reported as a delta, and so has one that the metrics provider misses for a round; the
    system metrics carry the node name as instance and the interface metrics are empty outside
    Kubernetes, although EC2 is documented as supported; conntrack lines with accounting or a zone
    are unparsable, and those with both can panic the reader; the verifier neither merges
    retransmissions and timeouts nor survives a report without usage data, and the client of the
    load generator detaches its shaping programs before it sends data.

    ** What is not modelled

    The code of libraries (aya, caps, reqwest, prost, flate2, aws_sign_v4, kube, prometheus, the
    netlink crates, serde_json's text parser, the regular-expression engine), whose answers are
    arguments; system calls, logging and the asynchronous plumbing of sockets; argument parsing (main.rs
    calls clap and then [on_load]) and the printing of the tools. *)

From stdpp Require Import base numbers gmap list strings.

(** The notations of the development live in a scope of their own. *)
Declare Scope nfm_scope.
Delimit Scope nfm_scope with nfm.
Open Scope Z_scope.
Open Scope nfm_scope.

Create HintDb nfm.

(** ** Functional record update

    Rust code mutates one field of a struct at a time.  [r <| p := v |>] is the record [r] with
    field [p] set to [v], [r <| p ::= f |>] the record with [f] applied to field [p].  A record
    type opts in by giving its eta expansion. *)

Class Eta (R : Type) := eta : R → R.

Class Setter {R T : Type} (p : R → T) := update_field : (T → T) → R → R.
Arguments update_field {R T} p {_} f r /.

Ltac derive_setter :=
  lazymatch goal with
  | |- @Setter ?R ?T ?p =>
      let whole := constr:(@eta R _) in
      let body := eval hnf in whole in
      lazymatch eval pattern p in body with
      | ?ctx _ =>
          let res := eval cbv beta in (fun g : T → T => ctx (fun r => g (p r))) in
          exact res
      end
  end.

#[global] Hint Extern 1 (Setter _) => derive_setter : typeclass_instances.

Notation "r <| p ::= f |>" := (update_field p f r)
  (at level 1, p at next level) : nfm_scope.
Notation "r <| p := v |>" := (update_field p (λ _, v) r)
  (at level 1, p at next level) : nfm_scope.

(** ** Rust's [Result] *)

Inductive Result (A E : Type) : Type :=
| Ok (a : A)
| Err (e : E).
Arguments Ok {A E} a.
Arguments Err {A E} e.

#[global] Instance Result_eq_dec {A E} `{EqDecision A, EqDecision E} : EqDecision (Result A E).
Proof. solve_decision. Defined.

Definition is_ok {A E} (r : Result A E) : bool :=
  match r with Ok _ => true | Err _ => false end.

Definition is_err {A E} (r : Result A E) : bool := negb (is_ok r).

(** ** Machine integers

    A [w]-bit unsigned integer is a [Z] in [[0, 2^w)].  The operations are the ones the code
    names: [wrapping_*] and [saturating_*], and the plain operators.  The user-space binaries are
    built with [overflow-checks = true] and [panic = "abort"] (Cargo.toml), so a plain operator
    either is exact or ends the process: [checked_add] and [checked_sub] return [None] for the
    panic.  The eBPF object is its own workspace without that setting; its plain operators wrap. *)

Definition in_range (w x : Z) : Prop := 0 ≤ x < 2 ^ w.
Definition in_rangeb (w x : Z) : bool := (0 <=? x) && (x <? 2 ^ w).

Definition wrap (w x : Z) : Z := x mod 2 ^ w.
Definition umax (w : Z) : Z := 2 ^ w - 1.

Definition wrapping_add (w a b : Z) : Z := wrap w (a + b).
Definition wrapping_sub (w a b : Z) : Z := wrap w (a - b).

Definition saturating_add (w a b : Z) : Z := Z.min (umax w) (a + b).
Definition saturating_mul (w a b : Z) : Z := Z.min (umax w) (a * b).
Definition saturating_sub (a b : Z) : Z := Z.max 0 (a - b).

Definition checked_add (w a b : Z) : option Z :=
  if a + b <=? umax w then Some (a + b) else None.
Definition checked_sub (a b : Z) : option Z :=
  if b <=? a then Some (a - b) else None.
Definition checked_mul (w a b : Z) : option Z :=
  if a * b <=? umax w then Some (a * b) else None.

(** [x.try_into().unwrap()] to a [w]-bit unsigned integer. *)
Definition try_into (w x : Z) : option Z :=
  if in_rangeb w x then Some x else None.

Abbreviation u8 := 8%Z.
Abbreviation u16 := 16%Z.
Abbreviation u32 := 32%Z.
Abbreviation u64 := 64%Z.
Abbreviation u128 := 128%Z.

(** [lia] with division and remainder by constants turned into linear facts. *)
Ltac mlia := cbv [umax] in *; Z.to_euclidean_division_equations; lia.

(** Closes a decidable side condition by evaluation. *)
Ltac by_eval := apply (bool_decide_unpack _); vm_compute; exact I.

(** Whether a computation succeeds, as a boolean that can be evaluated without its result. *)
Definition succeeds {A : Type} (o : option A) : bool := match o with Some _ => true | None => false end.

Lemma succeeds_None {A : Type} (o : option A) : succeeds o = true → o = None → False.
Proof. by intros H ->. Qed.

Lemma in_rangeb_spec w x : in_rangeb w x = true ↔ in_range w x.
Proof. unfold in_rangeb, in_range. lia. Qed.

#[global] Instance in_range_dec w x : Decision (in_range w x).
Proof. unfold in_range. apply _. Defined.

Lemma wrap_range w x : 0 ≤ w → in_range w (wrap w x).
Proof. intros. unfold in_range, wrap. apply Z.mod_pos_bound. lia. Qed.

Lemma wrap_id w x : in_range w x → wrap w x = x.
Proof. intros. by apply Z.mod_small. Qed.

Lemma wrap_idem w x : wrap w (wrap w x) = wrap w x.
Proof. unfold wrap. apply Zmod_mod. Qed.

Lemma wrap_add_l w a b : wrap w (wrap w a + b) = wrap w (a + b).
Proof. unfold wrap. apply Zplus_mod_idemp_l. Qed.

Lemma wrap_add_r w a b : wrap w (a + wrap w b) = wrap w (a + b).
Proof. unfold wrap. apply Zplus_mod_idemp_r. Qed.

Lemma wrap_sub_l w a b : wrap w (wrap w a - b) = wrap w (a - b).
Proof. unfold wrap. apply Zminus_mod_idemp_l. Qed.

Lemma wrap_sub_r w a b : wrap w (a - wrap w b) = wrap w (a - b).
Proof. unfold wrap. apply Zminus_mod_idemp_r. Qed.

Lemma wrapping_add_range w a b : 0 ≤ w → in_range w (wrapping_add w a b).
Proof. apply wrap_range. Qed.

Lemma wrapping_sub_range w a b : 0 ≤ w → in_range w (wrapping_sub w a b).
Proof. apply wrap_range. Qed.

(** Adding a delta back to the value it was taken from restores the minuend. *)
Lemma wrapping_add_sub w a b : in_range w a → wrapping_add w b (wrapping_sub w a b) = a.
Proof.
  intros. unfold wrapping_add, wrapping_sub. rewrite wrap_add_r.
  replace (b + (a - b)) with a by lia. by apply wrap_id.
Qed.

Lemma wrapping_sub_add w a b : in_range w b → wrapping_sub w (wrapping_add w a b) a = b.
Proof.
  intros. unfold wrapping_add, wrapping_sub. rewrite wrap_sub_l.
  replace (a + b - a) with b by lia. by apply wrap_id.
Qed.

(** Without wrap-around in between, the wrapping delta is the true difference. *)
Lemma wrapping_sub_exact w a b : 0 ≤ b ≤ a → in_range w a → wrapping_sub w a b = a - b.
Proof. unfold in_range. intros. apply wrap_id. unfold in_range. lia. Qed.

Lemma wrapping_add_comm w a b : wrapping_add w a b = wrapping_add w b a.
Proof. unfold wrapping_add. f_equal. lia. Qed.

Lemma wrapping_add_assoc w a b c :
  wrapping_add w a (wrapping_add w b c) = wrapping_add w (wrapping_add w a b) c.
Proof. unfold wrapping_add. rewrite wrap_add_l, wrap_add_r. f_equal. lia. Qed.

Lemma saturating_add_range w a b :
  in_range w a → in_range w b → in_range w (saturating_add w a b).
Proof. unfold in_range, saturating_add, umax. lia. Qed.

Lemma saturating_add_exact w a b : a + b ≤ umax w → saturating_add w a b = a + b.
Proof. unfold saturating_add. lia. Qed.

Lemma saturating_sub_range w a b : in_range w a → 0 ≤ b → in_range w (saturating_sub a b).
Proof. unfold in_range, saturating_sub. lia. Qed.

Lemma checked_add_Some w a b c : checked_add w a b = Some c ↔ c = a + b ∧ a + b ≤ umax w.
Proof.
  unfold checked_add. destruct (Z.leb_spec (a + b) (umax w)); split; intros; naive_solver lia.
Qed.

Lemma checked_add_None w a b : checked_add w a b = None ↔ umax w < a + b.
Proof. unfold checked_add. destruct (Z.leb_spec (a + b) (umax w)); split; intros; try lia; done. Qed.

Lemma checked_sub_Some a b c : checked_sub a b = Some c ↔ c = a - b ∧ b ≤ a.
Proof.
  unfold checked_sub. destruct (Z.leb_spec b a); split; intros; naive_solver lia.
Qed.

Lemma try_into_Some w x y : try_into w x = Some y ↔ y = x ∧ in_range w x.
Proof.
  unfold try_into. destruct (in_rangeb w x) eqn:E.
  - apply in_rangeb_spec in E. naive_solver.
  - split; [done|]. intros [_ H]. apply in_rangeb_spec in H. congruence.
Qed.

#[export] Hint Resolve wrap_range wrapping_add_range wrapping_sub_range
  saturating_add_range saturating_sub_range : nfm.

(** ** Loops that may panic

    A Rust [for] loop whose body may panic: [None] stops it. *)
Fixpoint foldM {A B : Type} (f : A → B → option A) (a : A) (l : list B) : option A :=
  match l with
  | [] => Some a
  | x :: l' => a' ← f a x; foldM f a' l'
  end.

Lemma foldM_app {A B} (f : A → B → option A) a l1 l2 :
  foldM f a (l1 ++ l2) = a' ← foldM f a l1; foldM f a' l2.
Proof.
  revert a. induction l1 as [|x l1 IH]; intros a; simpl; [done|].
  destruct (f a x); simpl; auto.
Qed.

Lemma foldM_snoc {A B} (f : A → B → option A) a l x :
  foldM f a (l ++ [x]) = a' ← foldM f a l; f a' x.
Proof.
  rewrite foldM_app. destruct (foldM f a l) as [a'|]; simpl; [|done]. by destruct (f a' x).
Qed.

(** An invariant of the body is an invariant of the loop. *)
Lemma foldM_inv {A B} (P : A → Prop) (f : A → B → option A) l a a' :
  (∀ a x a', x ∈ l → P a → f a x = Some a' → P a') →
  P a → foldM f a l = Some a' → P a'.
Proof.
  revert a. induction l as [|x l IH]; intros a Hstep Ha; simpl; [by intros [= <-]|].
  destruct (f a x) as [a1|] eqn:E; simpl; [|done]. apply IH.
  - intros b y b' Hy. apply Hstep. by right.
  - eapply Hstep; [|done|done]. by left.
Qed.

(** ** Lists of key-value pairs *)

Lemma list_sum_app_Z (l1 l2 : list Z) :
  foldr Z.add 0 (l1 ++ l2) = foldr Z.add 0 l1 + foldr Z.add 0 l2.
Proof. induction l1; simpl; lia. Qed.

Definition Zsum (l : list Z) : Z := foldr Z.add 0 l.

#[global] Instance Zsum_perm : Proper ((≡ₚ) ==> (=)) Zsum.
Proof. intros l1 l2 H. unfold Zsum. induction H; simpl; lia. Qed.

Lemma Zsum_nonneg l : Forall (λ x, 0 ≤ x) l → 0 ≤ Zsum l.
Proof. unfold Zsum. induction 1; simpl; lia. Qed.

Definition Zmax0 (l : list Z) : Z := foldr Z.max 0 l.

#[global] Instance Zmax0_perm : Proper ((≡ₚ) ==> (=)) Zmax0.
Proof. intros l1 l2 H. unfold Zmax0. induction H; simpl; lia. Qed.

Definition Zlor (l : list Z) : Z := foldr Z.lor 0 l.

#[global] Instance Zlor_perm : Proper ((≡ₚ) ==> (=)) Zlor.
Proof.
  intros l1 l2 H. unfold Zlor. induction H; simpl; [done| congruence | | congruence].
  rewrite !Z.lor_assoc. f_equal. apply Z.lor_comm.
Qed.

(** Filters that agree on the elements of a list. *)
Lemma filter_ext_elem {A} (P Q : A → Prop) `{∀ x, Decision (P x), ∀ x, Decision (Q x)} (l : list A) :
  (∀ x, x ∈ l → P x ↔ Q x) → filter P l = filter Q l.
Proof.
  induction l as [|x l IH]; intros Hiff; [done|]. rewrite !filter_cons, IH.
  - destruct (decide (P x)) as [HP|HP], (decide (Q x)) as [HQ|HQ]; try done.
    + by apply Hiff in HP; [|left].
    + by apply Hiff in HQ; [|left].
  - intros y Hy. apply Hiff. by right.
Qed.
