(* ===== verification/Network.v ===== *)
(** * Network: the data shared by the eBPF program and the agent

    Models nfm-common/src/network.rs, constants.rs and utils.rs: the structs that cross the BPF
    maps, the arithmetic on them (merging per-CPU statistics, taking deltas, summing counters), the
    conversion of a kernel socket context, and the link-local test on addresses.  A Rust struct is
    a [Module] with its record [t], its [default] and one definition per method.  Integers keep
    their width: [wrapping_*] where the code says so, [checked_add] where it uses [+=] under
    overflow checks. *)

From stdpp Require Import base numbers gmap list strings.
From S2P Require Import Prelude.

(** ** Constants (constants.rs, network.rs) *)

Definition SK_STATS_TO_PROPS_RATIO : Z := 3.
Definition MAX_ENTRIES_SK_PROPS_LO : Z := 250.
Definition MAX_ENTRIES_SK_STATS_LO : Z := SK_STATS_TO_PROPS_RATIO * MAX_ENTRIES_SK_PROPS_LO.
Definition MAX_ENTRIES_SK_PROPS_HI : Z := 20000.
Definition MAX_ENTRIES_SK_STATS_HI : Z := SK_STATS_TO_PROPS_RATIO * MAX_ENTRIES_SK_PROPS_HI.
Definition AGG_FLOWS_MAX_ENTRIES : Z := 10000.

Definition AF_INET : Z := 2.
Definition AF_INET6 : Z := 10.

(** ** [MinNonZero] (utils.rs) *)

Definition min_non_zero (self other : Z) : Z :=
  if (0 <? self) && (0 <? other) then Z.min self other else Z.max self other.

(** ** IP addresses (std::net)

    An IPv4 address is its 32-bit value, an IPv6 address its 16 octets in network order. *)
Module IpAddr.

Inductive t :=
| V4 (bits : Z)
| V6 (octets : list Z).

#[global] Instance eq_dec : EqDecision t.
Proof. solve_decision. Defined.

#[global] Instance countable : Countable t.
Proof.
  refine (inj_countable'
    (λ a, match a with V4 b => inl b | V6 o => inr o end)
    (λ s, match s with inl b => V4 b | inr o => V6 o end) _).
  by intros [].
Defined.

(** [Ipv4Addr::is_link_local] and [Ipv6Addr::is_unicast_link_local]. *)
Definition ipv4_is_link_local (bits : Z) : bool :=
  (wrap u8 (Z.shiftr bits 24) =? 169) && (wrap u8 (Z.shiftr bits 16) =? 254).
Definition ipv6_is_unicast_link_local (octets : list Z) : bool :=
  let segment0 := Z.lor (Z.shiftl (default 0 (octets !! 0%nat)) 8) (default 0 (octets !! 1%nat)) in
  Z.land segment0 0xffc0 =? 0xfe80.

Definition is_link_local (self : t) : bool :=
  match self with
  | V4 ipv4 => ipv4_is_link_local ipv4
  | V6 ipv6 => ipv6_is_unicast_link_local ipv6
  end.

(** [IpAddr::is_loopback]: 127.0.0.0/8, and ::1. *)
Definition is_loopback (self : t) : bool :=
  match self with
  | V4 ipv4 => wrap u8 (Z.shiftr ipv4 24) =? 127
  | V6 ipv6 => bool_decide (ipv6 = replicate 15 0 ++ [1])
  end.

(** A well-formed address: the bits of a [u32], or 16 octets. *)
Definition wf (self : t) : Prop :=
  match self with
  | V4 b => in_range u32 b
  | V6 o => length o = 16%nat ∧ Forall (in_range u8) o
  end.

End IpAddr.

(** ** [CpuSockKey] *)
Module CpuSockKey.

Record t := mk {
  cpu_id : Z;
  sock_key : Z;
}.

#[global] Instance eta_t : Eta t := λ r,
  mk (cpu_id r) (sock_key r).

Definition default : t := {|
  cpu_id := 0;
  sock_key := 0
|}.

#[global] Instance eq_dec : EqDecision t.
Proof. solve_decision. Defined.

#[global] Instance countable : Countable t.
Proof.
  refine (inj_countable' (λ k, (cpu_id k, sock_key k)) (λ p, mk p.1 p.2) _). by intros [].
Defined.

End CpuSockKey.

(** ** [ControlData] *)
Module ControlData.

Record t := mk {
  sampling_interval : Z;
}.

#[global] Instance eta_t : Eta t := λ r,
  mk (sampling_interval r).

Definition default : t := {|
  sampling_interval := 0
|}.

End ControlData.

(** ** [EventCounters] *)
Module EventCounters.

Record t := mk {
  active_connect_events : Z;
  active_established_events : Z;
  passive_established_events : Z;
  state_change_events : Z;
  rtt_events : Z;
  retrans_events : Z;
  rto_events : Z;
  other_events : Z;
  socket_events : Z;
  sockets_invalid : Z;
  map_insertion_errors : Z;
  rtts_invalid : Z;
  set_flags_errors : Z;
  other_errors : Z;
}.

#[global] Instance eta_t : Eta t := λ r,
  mk (active_connect_events r) (active_established_events r) (passive_established_events r)
    (state_change_events r) (rtt_events r) (retrans_events r) (rto_events r) (other_events r)
    (socket_events r) (sockets_invalid r) (map_insertion_errors r) (rtts_invalid r)
    (set_flags_errors r) (other_errors r).

Definition default : t := {|
  active_connect_events := 0;
  active_established_events := 0;
  passive_established_events := 0;
  state_change_events := 0;
  rtt_events := 0;
  retrans_events := 0;
  rto_events := 0;
  other_events := 0;
  socket_events := 0;
  sockets_invalid := 0;
  map_insertion_errors := 0;
  rtts_invalid := 0;
  set_flags_errors := 0;
  other_errors := 0
|}.

#[global] Instance eq_dec : EqDecision t.
Proof. solve_decision. Defined.

(** Adds to the current set of counters. *)
Definition add_from (self other : t) : t := {|
  active_connect_events := wrapping_add u32 (active_connect_events self) (active_connect_events other);
  active_established_events := wrapping_add u32 (active_established_events self) (active_established_events other);
  passive_established_events := wrapping_add u32 (passive_established_events self) (passive_established_events other);
  state_change_events := wrapping_add u32 (state_change_events self) (state_change_events other);
  rtt_events := wrapping_add u32 (rtt_events self) (rtt_events other);
  retrans_events := wrapping_add u32 (retrans_events self) (retrans_events other);
  rto_events := wrapping_add u32 (rto_events self) (rto_events other);
  other_events := wrapping_add u32 (other_events self) (other_events other);
  socket_events := wrapping_add u32 (socket_events self) (socket_events other);
  sockets_invalid := wrapping_add u32 (sockets_invalid self) (sockets_invalid other);
  map_insertion_errors := wrapping_add u32 (map_insertion_errors self) (map_insertion_errors other);
  rtts_invalid := wrapping_add u32 (rtts_invalid self) (rtts_invalid other);
  set_flags_errors := wrapping_add u32 (set_flags_errors self) (set_flags_errors other);
  other_errors := wrapping_add u32 (other_errors self) (other_errors other)
|}.

(** The difference between the current set and those supplied. *)
Definition subtract (self rhs : t) : t := {|
  active_connect_events := wrapping_sub u32 (active_connect_events self) (active_connect_events rhs);
  active_established_events := wrapping_sub u32 (active_established_events self) (active_established_events rhs);
  passive_established_events := wrapping_sub u32 (passive_established_events self) (passive_established_events rhs);
  state_change_events := wrapping_sub u32 (state_change_events self) (state_change_events rhs);
  rtt_events := wrapping_sub u32 (rtt_events self) (rtt_events rhs);
  retrans_events := wrapping_sub u32 (retrans_events self) (retrans_events rhs);
  rto_events := wrapping_sub u32 (rto_events self) (rto_events rhs);
  other_events := wrapping_sub u32 (other_events self) (other_events rhs);
  socket_events := wrapping_sub u32 (socket_events self) (socket_events rhs);
  sockets_invalid := wrapping_sub u32 (sockets_invalid self) (sockets_invalid rhs);
  map_insertion_errors := wrapping_sub u32 (map_insertion_errors self) (map_insertion_errors rhs);
  rtts_invalid := wrapping_sub u32 (rtts_invalid self) (rtts_invalid rhs);
  set_flags_errors := wrapping_sub u32 (set_flags_errors self) (set_flags_errors rhs);
  other_errors := wrapping_sub u32 (other_errors self) (other_errors rhs)
|}.

(** Every counter is a [u32]. *)
Definition wf (c : t) : Prop :=
  in_range u32 (active_connect_events c) ∧
  in_range u32 (active_established_events c) ∧
  in_range u32 (passive_established_events c) ∧
  in_range u32 (state_change_events c) ∧
  in_range u32 (rtt_events c) ∧
  in_range u32 (retrans_events c) ∧
  in_range u32 (rto_events c) ∧
  in_range u32 (other_events c) ∧
  in_range u32 (socket_events c) ∧
  in_range u32 (sockets_invalid c) ∧
  in_range u32 (map_insertion_errors c) ∧
  in_range u32 (rtts_invalid c) ∧
  in_range u32 (set_flags_errors c) ∧
  in_range u32 (other_errors c).

End EventCounters.

(** ** [SockOpsStats]: what an event carries about its socket *)
Module SockOpsStats.

Record t := mk {
  bytes_received : Z;
  bytes_acked : Z;
  segments_received : Z;
  segments_delivered : Z;
  srtt_us : Z;
}.

#[global] Instance eta_t : Eta t := λ r,
  mk (bytes_received r) (bytes_acked r) (segments_received r) (segments_delivered r)
    (srtt_us r).

Definition default : t := {|
  bytes_received := 0;
  bytes_acked := 0;
  segments_received := 0;
  segments_delivered := 0;
  srtt_us := 0
|}.

Definition wf (s : t) : Prop :=
  in_range u64 (bytes_received s) ∧ in_range u64 (bytes_acked s) ∧
  in_range u32 (segments_received s) ∧ in_range u32 (segments_delivered s) ∧
  in_range u32 (srtt_us s).

End SockOpsStats.

(** ** [SockOpsContext]: the context the kernel passes to the program (ebpf_mocks.rs)

    [args] and the IPv6 parts are the source's fixed-size arrays. *)
Module SockOpsContext.

Record t := mk {
  op : Z;
  family : Z;
  cb_flags : Z;
  remote_ip4 : Z;
  local_ip4 : Z;
  remote_ip6 : list Z;
  local_ip6 : list Z;
  local_port : Z;
  remote_port : Z;
  args : list Z;
  stats : SockOpsStats.t;
  cookie : Z;
  sock_state : Z;
}.

#[global] Instance eta_t : Eta t := λ r,
  mk (op r) (family r) (cb_flags r) (remote_ip4 r) (local_ip4 r) (remote_ip6 r) (local_ip6 r)
    (local_port r) (remote_port r) (args r) (stats r) (cookie r) (sock_state r).

Definition default : t := {|
  op := 0;
  family := 0;
  cb_flags := 0;
  remote_ip4 := 0;
  local_ip4 := 0;
  remote_ip6 := [0; 0; 0; 0];
  local_ip6 := [0; 0; 0; 0];
  local_port := 0;
  remote_port := 0;
  args := [0; 0];
  stats := SockOpsStats.default;
  cookie := 0;
  sock_state := 0
|}.

(** [ctx.arg(n)]: an index outside the array panics. *)
Definition arg (self : t) (n : nat) : option Z := args self !! n.

Definition wf (c : t) : Prop :=
  length (args c) = 2%nat ∧ Forall (in_range u32) (args c) ∧
  length (remote_ip6 c) = 4%nat ∧ length (local_ip6 c) = 4%nat ∧
  Forall (in_range u32) (remote_ip6 c) ∧ Forall (in_range u32) (local_ip6 c) ∧
  in_range u32 (remote_ip4 c) ∧ in_range u32 (local_ip4 c) ∧
  in_range u32 (local_port c) ∧ in_range u32 (remote_port c) ∧
  in_range u32 (family c) ∧ SockOpsStats.wf (stats c).

End SockOpsContext.

(** ** [SockStateFlags]: a bit set in a [u32] *)
Module SockStateFlags.

Definition ENTERED_ESTABLISH : Z := Z.shiftl 1 1.
Definition STARTED_CLOSURE : Z := Z.shiftl 1 2.
Definition TERMINATED_FROM_SYN : Z := Z.shiftl 1 3.
Definition TERMINATED_FROM_EST : Z := Z.shiftl 1 4.
Definition CLOSED : Z := Z.shiftl 1 5.

Definition empty : Z := 0.
(** [bitflags]' [contains], [insert] and [|=]. *)
Definition contains (self other : Z) : bool := Z.land self other =? other.
Definition insert (self other : Z) : Z := Z.lor self other.

End SockStateFlags.

(** ** [SockContext] *)
Module SockContext.

Record t := mk {
  local_ipv4 : Z;
  remote_ipv4 : Z;
  local_ipv6 : list Z;
  remote_ipv6 : list Z;
  local_port : Z;
  remote_port : Z;
  address_family : Z;
  is_client : bool;
  _pad : list Z;
}.

#[global] Instance eta_t : Eta t := λ r,
  mk (local_ipv4 r) (remote_ipv4 r) (local_ipv6 r) (remote_ipv6 r) (local_port r)
    (remote_port r) (address_family r) (is_client r) (_pad r).

Definition default : t := {|
  local_ipv4 := 0;
  remote_ipv4 := 0;
  local_ipv6 := replicate 16 0;
  remote_ipv6 := replicate 16 0;
  local_port := 0;
  remote_port := 0;
  address_family := 0;
  is_client := false;
  _pad := replicate 3 0
|}.

#[global] Instance eq_dec : EqDecision t.
Proof. solve_decision. Defined.

(** [u32::from_be] on the little-endian targets: the bytes in reverse order. *)
Definition from_be32 (x : Z) : Z :=
  Z.lor (Z.shiftl (Z.land x 0xff) 24)
    (Z.lor (Z.shiftl (Z.land (Z.shiftr x 8) 0xff) 16)
      (Z.lor (Z.shiftl (Z.land (Z.shiftr x 16) 0xff) 8)
        (Z.land (Z.shiftr x 24) 0xff))).

(** The double loop of the source: byte [j] of part [i], least significant first, is written at
    index [i * 4 + j]. *)
Definition ipv6_to_bytes (parts : list Z) : list Z :=
  foldl (λ bytes '(i, part),
    foldl (λ bytes j,
      <[(i * 4 + j)%nat := wrap u8 (Z.shiftr part (8 * Z.of_nat j))]> bytes)
      bytes (seq 0 4))
    (replicate 16 0) (imap pair parts).

(** [None] is the panic of [try_into().unwrap()] on a port that is no [u16]. *)
Definition from_sock_ops (ctx : SockOpsContext.t) (is_client : bool) : option t :=
  let remote_port := from_be32 (SockOpsContext.remote_port ctx) in
  let local_port := SockOpsContext.local_port ctx in
  local_port16 ← try_into u16 local_port;
  remote_port16 ← try_into u16 remote_port;
  Some {|
    is_client := is_client;
    address_family := SockOpsContext.family ctx;
    local_ipv4 := from_be32 (SockOpsContext.local_ip4 ctx);
    remote_ipv4 := from_be32 (SockOpsContext.remote_ip4 ctx);
    local_ipv6 := ipv6_to_bytes (SockOpsContext.local_ip6 ctx);
    remote_ipv6 := ipv6_to_bytes (SockOpsContext.remote_ip6 ctx);
    local_port := local_port16;
    remote_port := remote_port16;
    _pad := _pad default
  |}.

Definition service_port (self : t) : Z :=
  if is_client self then remote_port self else local_port self.

Definition is_valid (self : t) : bool :=
  (address_family self =? AF_INET) || (address_family self =? AF_INET6).

Definition wf (c : t) : Prop :=
  in_range u32 (local_ipv4 c) ∧ in_range u32 (remote_ipv4 c) ∧
  length (local_ipv6 c) = 16%nat ∧ Forall (in_range u8) (local_ipv6 c) ∧
  length (remote_ipv6 c) = 16%nat ∧ Forall (in_range u8) (remote_ipv6 c) ∧
  in_range u16 (local_port c) ∧ in_range u16 (remote_port c) ∧
  in_range u32 (address_family c).

End SockContext.

(** ** [SockStats] *)
Module SockStats.

Record t := mk {
  last_touched_us : Z;
  connect_start_us : Z;
  connect_end_us : Z;
  bytes_received : Z;
  bytes_delivered : Z;
  segments_received : Z;
  segments_delivered : Z;
  rtt_count : Z;
  rtt_latest_us : Z;
  rtt_smoothed_us : Z;
  retrans_syn : Z;
  retrans_est : Z;
  retrans_close : Z;
  rtos_syn : Z;
  rtos_est : Z;
  rtos_close : Z;
  state_flags : Z;
  connect_attempts : Z;
  connect_successes : Z;
  _pad : list Z;
}.

#[global] Instance eta_t : Eta t := λ r,
  mk (last_touched_us r) (connect_start_us r) (connect_end_us r) (bytes_received r)
    (bytes_delivered r) (segments_received r) (segments_delivered r) (rtt_count r)
    (rtt_latest_us r) (rtt_smoothed_us r) (retrans_syn r) (retrans_est r) (retrans_close r)
    (rtos_syn r) (rtos_est r) (rtos_close r) (state_flags r) (connect_attempts r)
    (connect_successes r) (_pad r).

Definition default : t := {|
  last_touched_us := 0;
  connect_start_us := 0;
  connect_end_us := 0;
  bytes_received := 0;
  bytes_delivered := 0;
  segments_received := 0;
  segments_delivered := 0;
  rtt_count := 0;
  rtt_latest_us := 0;
  rtt_smoothed_us := 0;
  retrans_syn := 0;
  retrans_est := 0;
  retrans_close := 0;
  rtos_syn := 0;
  rtos_est := 0;
  rtos_close := 0;
  state_flags := 0;
  connect_attempts := 0;
  connect_successes := 0;
  _pad := replicate 6 0
|}.

#[global] Instance eq_dec : EqDecision t.
Proof. solve_decision. Defined.

Definition new : t := default.

(** Adds stats from one CPU core to the current stats (from another core for the same socket).
    [None] is the overflow panic of a [+=]. *)
Definition add_from (self other : t) (last_agg_timestamp : Z) : option t :=
  let self :=
    if last_agg_timestamp <=? last_touched_us other then
      if last_agg_timestamp <=? last_touched_us self then
        self <| rtt_latest_us := min_non_zero (rtt_latest_us self) (rtt_latest_us other) |>
             <| rtt_smoothed_us := Z.max (rtt_smoothed_us self) (rtt_smoothed_us other) |>
      else
        self <| rtt_latest_us := rtt_latest_us other |>
             <| rtt_smoothed_us := rtt_smoothed_us other |>
    else self in
  let self := self
    <| last_touched_us := Z.max (last_touched_us self) (last_touched_us other) |>
    <| connect_start_us := Z.max (connect_start_us self) (connect_start_us other) |>
    <| connect_end_us := Z.max (connect_end_us self) (connect_end_us other) |>
    <| state_flags := Z.lor (state_flags self) (state_flags other) |>
    <| bytes_received := Z.max (bytes_received self) (bytes_received other) |>
    <| bytes_delivered := Z.max (bytes_delivered self) (bytes_delivered other) |>
    <| segments_received := Z.max (segments_received self) (segments_received other) |>
    <| segments_delivered := Z.max (segments_delivered self) (segments_delivered other) |> in
  retrans_syn' ← checked_add u32 (retrans_syn self) (retrans_syn other);
  retrans_est' ← checked_add u32 (retrans_est self) (retrans_est other);
  retrans_close' ← checked_add u32 (retrans_close self) (retrans_close other);
  rtos_syn' ← checked_add u32 (rtos_syn self) (rtos_syn other);
  rtos_est' ← checked_add u32 (rtos_est self) (rtos_est other);
  rtos_close' ← checked_add u32 (rtos_close self) (rtos_close other);
  rtt_count' ← checked_add u32 (rtt_count self) (rtt_count other);
  connect_attempts' ← checked_add u8 (connect_attempts self) (connect_attempts other);
  connect_successes' ← checked_add u8 (connect_successes self) (connect_successes other);
  Some (self
    <| retrans_syn := retrans_syn' |>
    <| retrans_est := retrans_est' |>
    <| retrans_close := retrans_close' |>
    <| rtos_syn := rtos_syn' |>
    <| rtos_est := rtos_est' |>
    <| rtos_close := rtos_close' |>
    <| rtt_count := rtt_count' |>
    <| connect_attempts := connect_attempts' |>
    <| connect_successes := connect_successes' |>).

(** The delta of every counter; values that are not counters are preserved. *)
Definition subtract (self rhs : t) : t := {|
  last_touched_us := last_touched_us self;
  connect_start_us := connect_start_us self;
  connect_end_us := connect_end_us self;
  state_flags := state_flags self;
  rtt_latest_us := rtt_latest_us self;
  rtt_smoothed_us := rtt_smoothed_us self;
  bytes_received := wrapping_sub u64 (bytes_received self) (bytes_received rhs);
  bytes_delivered := wrapping_sub u64 (bytes_delivered self) (bytes_delivered rhs);
  segments_received := wrapping_sub u32 (segments_received self) (segments_received rhs);
  segments_delivered := wrapping_sub u32 (segments_delivered self) (segments_delivered rhs);
  rtt_count := wrapping_sub u32 (rtt_count self) (rtt_count rhs);
  retrans_syn := wrapping_sub u32 (retrans_syn self) (retrans_syn rhs);
  retrans_est := wrapping_sub u32 (retrans_est self) (retrans_est rhs);
  retrans_close := wrapping_sub u32 (retrans_close self) (retrans_close rhs);
  rtos_syn := wrapping_sub u32 (rtos_syn self) (rtos_syn rhs);
  rtos_est := wrapping_sub u32 (rtos_est self) (rtos_est rhs);
  rtos_close := wrapping_sub u32 (rtos_close self) (rtos_close rhs);
  connect_attempts := wrapping_sub u8 (connect_attempts self) (connect_attempts rhs);
  connect_successes := wrapping_sub u8 (connect_successes self) (connect_successes rhs);
  _pad := _pad default
|}.

(** The [as u32] cast truncates. *)
Definition connect_us (self : t) : option Z :=
  if (0 <? connect_start_us self) && (connect_start_us self <? connect_end_us self) then
    Some (wrap u32 (connect_end_us self - connect_start_us self))
  else None.

Definition is_closed (self : t) : bool :=
  SockStateFlags.contains (state_flags self) SockStateFlags.CLOSED.

(** Every field fits its width. *)
Definition wf (s : t) : Prop :=
  in_range u64 (last_touched_us s) ∧
  in_range u64 (connect_start_us s) ∧
  in_range u64 (connect_end_us s) ∧
  in_range u64 (bytes_received s) ∧
  in_range u64 (bytes_delivered s) ∧
  in_range u32 (segments_received s) ∧
  in_range u32 (segments_delivered s) ∧
  in_range u32 (rtt_count s) ∧
  in_range u32 (rtt_latest_us s) ∧
  in_range u32 (rtt_smoothed_us s) ∧
  in_range u32 (retrans_syn s) ∧
  in_range u32 (retrans_est s) ∧
  in_range u32 (retrans_close s) ∧
  in_range u32 (rtos_syn s) ∧
  in_range u32 (rtos_est s) ∧
  in_range u32 (rtos_close s) ∧
  in_range u32 (state_flags s) ∧
  in_range u8 (connect_attempts s) ∧
  in_range u8 (connect_successes s).

End SockStats.

(** ** Lemmas: [min_non_zero] *)

Lemma min_non_zero_0_l x : 0 ≤ x → min_non_zero 0 x = x.
Proof. unfold min_non_zero. simpl. lia. Qed.

Lemma min_non_zero_comm x y : min_non_zero x y = min_non_zero y x.
Proof. unfold min_non_zero. destruct (Z.ltb_spec 0 x), (Z.ltb_spec 0 y); simpl; lia. Qed.

Lemma min_non_zero_assoc x y z :
  0 ≤ x → 0 ≤ y → 0 ≤ z →
  min_non_zero x (min_non_zero y z) = min_non_zero (min_non_zero x y) z.
Proof.
  intros. unfold min_non_zero.
  repeat match goal with |- context [0 <? ?a] => destruct (Z.ltb_spec 0 a); simpl in * end; lia.
Qed.

Lemma min_non_zero_nonneg x y : 0 ≤ x → 0 ≤ y → 0 ≤ min_non_zero x y.
Proof. unfold min_non_zero. destruct (_ && _); lia. Qed.

Lemma min_non_zero_range w x y :
  in_range w x → in_range w y → in_range w (min_non_zero x y).
Proof. unfold in_range, min_non_zero. destruct (_ && _); lia. Qed.

(** The smallest positive element of a list, 0 when there is none. *)
Definition Zminnz (l : list Z) : Z := foldr min_non_zero 0 l.

Lemma Zminnz_nonneg l : Forall (λ x, 0 ≤ x) l → 0 ≤ Zminnz l.
Proof. unfold Zminnz. induction 1; simpl; [lia|]. by apply min_non_zero_nonneg. Qed.

Lemma Zminnz_snoc l x :
  Forall (λ x, 0 ≤ x) l → 0 ≤ x → Zminnz (l ++ [x]) = min_non_zero (Zminnz l) x.
Proof.
  intros Hl Hx. unfold Zminnz. induction Hl as [|y l Hy Hl IH]; simpl.
  - rewrite min_non_zero_0_l by done. rewrite min_non_zero_comm. by apply min_non_zero_0_l.
  - rewrite IH. apply min_non_zero_assoc; [done| |done]. by apply Zminnz_nonneg.
Qed.

(** It is a lower bound of the positive elements, and one of them. *)
Lemma Zminnz_spec l :
  Forall (λ x, 0 ≤ x) l →
  (Zminnz l = 0 ∧ Forall (λ x, x = 0) l) ∨
  (0 < Zminnz l ∧ Zminnz l ∈ l ∧ Forall (λ x, 0 < x → Zminnz l ≤ x) l).
Proof.
  intros Hl. assert (∀ x, x ∈ l → 0 ≤ x) as Hp by by apply Forall_forall. clear Hl.
  induction l as [|y l IH]; [by left|].
  assert (0 ≤ y) by (apply Hp; set_solver).
  assert (Zminnz (y :: l) = min_non_zero y (Zminnz l)) as -> by done.
  destruct IH as [[-> Hall]|(Hpos & Hin & Hall)]; [set_solver| |].
  - rewrite min_non_zero_comm, min_non_zero_0_l by done.
    destruct (decide (y = 0)) as [->|]; [left; split; [done|by constructor]|].
    right. repeat split; [lia|set_solver|]. constructor; [lia|].
    eapply Forall_impl; [done|]. simpl. lia.
  - right. unfold min_non_zero.
    destruct (Z.ltb_spec 0 y); destruct (Z.ltb_spec 0 (Zminnz l)); try lia; simpl.
    + split; [lia|]. split.
      * destruct (Z.min_spec y (Zminnz l)) as [[_ ->]|[_ ->]]; set_solver.
      * constructor; [lia|]. eapply Forall_impl; [exact Hall|]. simpl. lia.
    + replace (Z.max y (Zminnz l)) with (Zminnz l) by lia.
      repeat split; [lia|set_solver|]. constructor; [lia|done].
Qed.

(** ** Lemmas: [EventCounters] *)

Module EventCountersFacts.
Import EventCounters.

Lemma counters_default_wf : wf default.
Proof. repeat split; simpl; unfold in_range; lia. Qed.

Lemma counters_add_from_wf a b : wf (add_from a b).
Proof. split_and!; apply wrapping_add_range; lia. Qed.

Lemma counters_subtract_wf a b : wf (subtract a b).
Proof. split_and!; apply wrapping_sub_range; lia. Qed.

Lemma counters_add_from_comm a b : add_from a b = add_from b a.
Proof. unfold add_from. f_equal; apply wrapping_add_comm. Qed.

Lemma counters_add_from_assoc a b c : add_from a (add_from b c) = add_from (add_from a b) c.
Proof. unfold add_from. simpl. f_equal; apply wrapping_add_assoc. Qed.

Lemma counters_add_from_default_l a : wf a → add_from default a = a.
Proof.
  unfold wf. destruct a. simpl. intros. destruct_and!. unfold add_from, wrapping_add. simpl.
  f_equal; by apply wrap_id.
Qed.

Lemma counters_subtract_add_from a b : wf b → subtract (add_from a b) a = b.
Proof.
  unfold wf. destruct b. simpl. intros. destruct_and!. unfold subtract, add_from. simpl.
  f_equal; by apply wrapping_sub_add.
Qed.

Lemma counters_add_from_subtract a b : wf a → add_from b (subtract a b) = a.
Proof.
  unfold wf. destruct a. simpl. intros. destruct_and!. unfold subtract, add_from. simpl.
  f_equal; by apply wrapping_add_sub.
Qed.

(** Deltas taken in sequence add up to the delta over the whole span. *)
Lemma counters_subtract_telescope a b c : add_from (subtract b a) (subtract c b) = subtract c a.
Proof.
  unfold subtract, add_from. simpl.
  f_equal; unfold wrapping_add, wrapping_sub; rewrite wrap_add_l, wrap_add_r; f_equal; lia.
Qed.

End EventCountersFacts.

(** ** Lemmas: byte order *)

Lemma lor_shiftl_add a b n : 0 ≤ n → 0 ≤ b < 2 ^ n → Z.lor (Z.shiftl a n) b = a * 2 ^ n + b.
Proof.
  intros Hn Hb. rewrite <- Z.add_nocarry_lor; [by rewrite Z.shiftl_mul_pow2|].
  apply Z.bits_inj'. intros i Hi. rewrite Z.land_spec, Z.bits_0.
  destruct (Z.lt_ge_cases i n).
  - by rewrite Z.shiftl_spec_low.
  - replace (Z.testbit b i) with false; [by rewrite andb_false_r|].
    symmetry. rewrite <- (Z.mod_small b (2 ^ n)) by done. by apply Z.mod_pow2_bits_high.
Qed.

Lemma land_0xff x : Z.land x 0xff = x mod 256.
Proof. change 0xff with (Z.ones 8). by rewrite Z.land_ones by lia. Qed.

(** [from_be32] as arithmetic on the four bytes. *)
Lemma from_be32_bytes x :
  SockContext.from_be32 x =
  (x mod 256) * 2 ^ 24 + ((x / 2 ^ 8) mod 256) * 2 ^ 16 +
  ((x / 2 ^ 16) mod 256) * 2 ^ 8 + (x / 2 ^ 24) mod 256.
Proof.
  unfold SockContext.from_be32. rewrite !land_0xff, !Z.shiftr_div_pow2 by lia.
  pose proof (Z.mod_pos_bound (x / 2 ^ 8) 256). pose proof (Z.mod_pos_bound (x / 2 ^ 16) 256).
  pose proof (Z.mod_pos_bound (x / 2 ^ 24) 256).
  rewrite (lor_shiftl_add _ _ 8) by lia. rewrite (lor_shiftl_add _ _ 16) by lia.
  rewrite (lor_shiftl_add _ _ 24) by lia. lia.
Qed.

Lemma from_be32_range x : in_range u32 (SockContext.from_be32 x).
Proof. rewrite from_be32_bytes. unfold in_range. mlia. Qed.

(** The four bytes of a [u32], least significant first, determine it. *)
Lemma u32_bytes x :
  in_range u32 x →
  x = x mod 256 + ((x / 2 ^ 8) mod 256) * 2 ^ 8 + ((x / 2 ^ 16) mod 256) * 2 ^ 16 +
      ((x / 2 ^ 24) mod 256) * 2 ^ 24.
Proof. unfold in_range. intros. mlia. Qed.

Lemma from_be32_involutive x :
  in_range u32 x → SockContext.from_be32 (SockContext.from_be32 x) = x.
Proof.
  intros Hx. rewrite (from_be32_bytes (SockContext.from_be32 x)), (from_be32_bytes x).
  etrans; [|symmetry; exact (u32_bytes x Hx)]. set (b0 := x mod 256). set (b1 := (x / 2 ^ 8) mod 256).
  set (b2 := (x / 2 ^ 16) mod 256). set (b3 := (x / 2 ^ 24) mod 256).
  assert (0 ≤ b0 < 256 ∧ 0 ≤ b1 < 256 ∧ 0 ≤ b2 < 256 ∧ 0 ≤ b3 < 256) as Hb
    by (repeat split; apply Z.mod_pos_bound; lia).
  clearbody b0 b1 b2 b3. clear Hx x.
  set (y := b0 * 2 ^ 24 + b1 * 2 ^ 16 + b2 * 2 ^ 8 + b3).
  assert (y mod 256 = b3) as -> by (subst y; mlia).
  assert ((y / 2 ^ 8) mod 256 = b2) as -> by (subst y; mlia).
  assert ((y / 2 ^ 16) mod 256 = b1) as -> by (subst y; mlia).
  assert ((y / 2 ^ 24) mod 256 = b0) as -> by (subst y; mlia).
  lia.
Qed.

(** ** Lemmas: [SockContext] *)

Module SockContextFacts.
Import SockContext.

(** Reading the byte array back as little-endian words. *)
Fixpoint bytes_to_parts (bytes : list Z) : list Z :=
  match bytes with
  | b0 :: b1 :: b2 :: b3 :: rest =>
      (b0 + b1 * 2 ^ 8 + b2 * 2 ^ 16 + b3 * 2 ^ 24) :: bytes_to_parts rest
  | _ => []
  end.

Lemma ipv6_to_bytes_four a b c d :
  ipv6_to_bytes [a; b; c; d] =
  flat_map (λ p, (λ j, wrap u8 (Z.shiftr p (8 * Z.of_nat j))) <$> seq 0 4) [a; b; c; d].
Proof. reflexivity. Qed.

Lemma length_four {A} (l : list A) : length l = 4%nat → ∃ a b c d, l = [a; b; c; d].
Proof. destruct l as [|? [|? [|? [|? [|]]]]]; simpl; intros; try lia. eauto. Qed.

Lemma wrap_shiftr_range x n : in_range u8 (wrap u8 (Z.shiftr x n)).
Proof. by apply wrap_range. Qed.

Lemma ipv6_to_bytes_wf parts :
  length parts = 4%nat →
  length (ipv6_to_bytes parts) = 16%nat ∧ Forall (in_range u8) (ipv6_to_bytes parts).
Proof.
  intros (a & b & c & d & ->)%length_four. rewrite ipv6_to_bytes_four. split; [done|].
  simpl. repeat constructor; apply wrap_shiftr_range.
Qed.

Lemma bytes_of_word x :
  in_range u32 x →
  wrap u8 (Z.shiftr x 0) + wrap u8 (Z.shiftr x 8) * 2 ^ 8 + wrap u8 (Z.shiftr x 16) * 2 ^ 16 +
  wrap u8 (Z.shiftr x 24) * 2 ^ 24 = x.
Proof.
  intros Hx. unfold wrap. rewrite !Z.shiftr_div_pow2 by lia. symmetry.
  rewrite Z.pow_0_r, Z.div_1_r. by apply u32_bytes.
Qed.

Lemma bytes_to_parts_ipv6 parts :
  length parts = 4%nat → Forall (in_range u32) parts →
  bytes_to_parts (ipv6_to_bytes parts) = parts.
Proof.
  intros (a & b & c & d & ->)%length_four Hr. rewrite !Forall_cons in Hr. destruct_and!.
  rewrite ipv6_to_bytes_four. cbn -[Z.shiftr wrap Z.pow].
  repeat f_equal; by apply bytes_of_word.
Qed.

Lemma from_sock_ops_Some ctx is_client sc :
  from_sock_ops ctx is_client = Some sc →
  in_range u16 (SockOpsContext.local_port ctx) ∧
  in_range u16 (from_be32 (SockOpsContext.remote_port ctx)) ∧
  local_port sc = SockOpsContext.local_port ctx ∧
  remote_port sc = from_be32 (SockOpsContext.remote_port ctx) ∧
  address_family sc = SockOpsContext.family ctx ∧
  SockContext.is_client sc = is_client.
Proof.
  unfold from_sock_ops. intros H.
  apply bind_Some in H as (lp & [-> Hl]%try_into_Some & H).
  apply bind_Some in H as (rp & [-> Hr]%try_into_Some & H). by simplify_eq.
Qed.

Lemma from_sock_ops_wf ctx is_client sc :
  SockOpsContext.wf ctx → from_sock_ops ctx is_client = Some sc → wf sc.
Proof.
  intros Hctx H. pose proof (from_sock_ops_Some _ _ _ H) as (Hl & Hr & _).
  unfold from_sock_ops in H.
  apply bind_Some in H as (lp & [-> _]%try_into_Some & H).
  apply bind_Some in H as (rp & [-> _]%try_into_Some & H). simplify_eq.
  unfold SockOpsContext.wf in Hctx. destruct_and!. unfold wf. simpl.
  pose proof (ipv6_to_bytes_wf (SockOpsContext.local_ip6 ctx)) as [? ?]; [done|].
  pose proof (ipv6_to_bytes_wf (SockOpsContext.remote_ip6 ctx)) as [? ?]; [done|].
  split_and!; try done; apply from_be32_range.
Qed.

(** The conversion panics exactly on a port that is no [u16]. *)
Lemma from_sock_ops_total ctx is_client :
  is_Some (from_sock_ops ctx is_client) ↔
  in_range u16 (SockOpsContext.local_port ctx) ∧
  in_range u16 (from_be32 (SockOpsContext.remote_port ctx)).
Proof.
  split.
  - intros [sc H]. apply from_sock_ops_Some in H. naive_solver.
  - intros [Hl Hr]. unfold from_sock_ops.
    rewrite (proj2 (try_into_Some _ _ _) (conj eq_refl Hl)). simpl.
    rewrite (proj2 (try_into_Some _ _ _) (conj eq_refl Hr)). simpl. eauto.
Qed.

Lemma is_valid_spec c :
  is_valid c = true ↔ address_family c = AF_INET ∨ address_family c = AF_INET6.
Proof. unfold is_valid. lia. Qed.

Lemma default_invalid : is_valid default = false.
Proof. done. Qed.

End SockContextFacts.

(** ** Lemmas: [SockStats] *)

Module SockStatsFacts.
Import SockStats.

Lemma stats_default_wf : wf default.
Proof. repeat split; simpl; unfold in_range; lia. Qed.

Lemma lor_range w x y : 0 ≤ w → in_range w x → in_range w y → in_range w (Z.lor x y).
Proof.
  unfold in_range. intros ? [? ?] [? ?]. assert (0 ≤ Z.lor x y) by by apply Z.lor_nonneg.
  split; [done|]. apply Z.bounded_iff_bits_nonneg; try done. intros l Hl.
  rewrite Z.lor_spec. apply orb_false_iff.
  split; [eapply (Z.bounded_iff_bits_nonneg w x)|eapply (Z.bounded_iff_bits_nonneg w y)]; lia.
Qed.

Lemma max_range w x y : in_range w x → in_range w y → in_range w (Z.max x y).
Proof. unfold in_range. lia. Qed.

Lemma checked_add_range w a b c :
  in_range w a → in_range w b → checked_add w a b = Some c → in_range w c.
Proof. unfold in_range. rewrite checked_add_Some. unfold umax. lia. Qed.

(** The sums that [add_from] computes with [+=] all fit their width. *)
Definition sums_fit (s o : t) : bool :=
  (retrans_syn s + retrans_syn o <=? umax u32) &&
  (retrans_est s + retrans_est o <=? umax u32) &&
  (retrans_close s + retrans_close o <=? umax u32) &&
  (rtos_syn s + rtos_syn o <=? umax u32) &&
  (rtos_est s + rtos_est o <=? umax u32) &&
  (rtos_close s + rtos_close o <=? umax u32) &&
  (rtt_count s + rtt_count o <=? umax u32) &&
  (connect_attempts s + connect_attempts o <=? umax u8) &&
  (connect_successes s + connect_successes o <=? umax u8).

(** What [add_from] computes when they do. *)
Definition merged (T : Z) (s o : t) : t := {|
  last_touched_us := Z.max (last_touched_us s) (last_touched_us o);
  connect_start_us := Z.max (connect_start_us s) (connect_start_us o);
  connect_end_us := Z.max (connect_end_us s) (connect_end_us o);
  bytes_received := Z.max (bytes_received s) (bytes_received o);
  bytes_delivered := Z.max (bytes_delivered s) (bytes_delivered o);
  segments_received := Z.max (segments_received s) (segments_received o);
  segments_delivered := Z.max (segments_delivered s) (segments_delivered o);
  rtt_count := rtt_count s + rtt_count o;
  rtt_latest_us :=
    if T <=? last_touched_us o then
      if T <=? last_touched_us s then min_non_zero (rtt_latest_us s) (rtt_latest_us o)
      else rtt_latest_us o
    else rtt_latest_us s;
  rtt_smoothed_us :=
    if T <=? last_touched_us o then
      if T <=? last_touched_us s then Z.max (rtt_smoothed_us s) (rtt_smoothed_us o)
      else rtt_smoothed_us o
    else rtt_smoothed_us s;
  retrans_syn := retrans_syn s + retrans_syn o;
  retrans_est := retrans_est s + retrans_est o;
  retrans_close := retrans_close s + retrans_close o;
  rtos_syn := rtos_syn s + rtos_syn o;
  rtos_est := rtos_est s + rtos_est o;
  rtos_close := rtos_close s + rtos_close o;
  state_flags := Z.lor (state_flags s) (state_flags o);
  connect_attempts := connect_attempts s + connect_attempts o;
  connect_successes := connect_successes s + connect_successes o;
  _pad := _pad s
|}.

(** The mutating code as one expression: exact on every field, or a panic. *)
Lemma add_from_merged s o T :
  add_from s o T = if sums_fit s o then Some (merged T s o) else None.
Proof.
  unfold add_from, merged, sums_fit, checked_add. destruct s, o. simpl.
  destruct (T <=? last_touched_us1), (T <=? last_touched_us0); simpl;
    repeat (match goal with |- mbind _ (if ?c then _ else _) = _ => destruct c end;
            simpl; [|done]); done.
Qed.

Lemma merged_wf T s o : wf s → wf o → sums_fit s o = true → wf (merged T s o).
Proof.
  unfold wf, sums_fit. destruct s, o. simpl. intros Hs Ho Hf.
  rewrite !andb_true_iff in Hf. destruct_and!.
  assert (∀ w a b, in_range w a → in_range w b → (a + b <=? umax w) = true → in_range w (a + b))
    as Hadd by (unfold in_range, umax; intros; lia).
  split_and!; repeat case_match; auto using max_range, min_non_zero_range.
  by apply lor_range.
Qed.

Lemma stats_add_from_wf s o T s' : wf s → wf o → add_from s o T = Some s' → wf s'.
Proof.
  rewrite add_from_merged. destruct (sums_fit s o) eqn:E; [|done]. intros ?? [= <-].
  by apply merged_wf.
Qed.

Lemma stats_subtract_wf a b : wf a → wf (subtract a b).
Proof.
  unfold wf. intros. destruct_and!. unfold subtract. simpl.
  split_and!; try done; apply wrapping_sub_range; lia.
Qed.

(** *** Merging a socket's statistics over all cores

    The agent merges the entries of one socket, in the order the BPF map yields them, into a
    default [SockStats].  The result depends on the entries only, not on their order: the largest
    of each cumulative value, the sum of each per-core counter, the union of the flags, and the
    extreme round-trip times over the cores touched since the previous aggregation. *)

Definition merge_cores (T : Z) (l : list t) : option t :=
  foldM (λ s o, add_from s o T) default l.

Definition fresh_cores (T : Z) (l : list t) : list t := filter (λ s, T ≤ last_touched_us s) l.

Definition merge_spec (T : Z) (l : list t) : t := {|
  last_touched_us := Zmax0 (last_touched_us <$> l);
  connect_start_us := Zmax0 (connect_start_us <$> l);
  connect_end_us := Zmax0 (connect_end_us <$> l);
  bytes_received := Zmax0 (bytes_received <$> l);
  bytes_delivered := Zmax0 (bytes_delivered <$> l);
  segments_received := Zmax0 (segments_received <$> l);
  segments_delivered := Zmax0 (segments_delivered <$> l);
  rtt_count := Zsum (rtt_count <$> l);
  rtt_latest_us := Zminnz (rtt_latest_us <$> fresh_cores T l);
  rtt_smoothed_us := Zmax0 (rtt_smoothed_us <$> fresh_cores T l);
  retrans_syn := Zsum (retrans_syn <$> l);
  retrans_est := Zsum (retrans_est <$> l);
  retrans_close := Zsum (retrans_close <$> l);
  rtos_syn := Zsum (rtos_syn <$> l);
  rtos_est := Zsum (rtos_est <$> l);
  rtos_close := Zsum (rtos_close <$> l);
  state_flags := Zlor (state_flags <$> l);
  connect_attempts := Zsum (connect_attempts <$> l);
  connect_successes := Zsum (connect_successes <$> l);
  _pad := _pad default
|}.

Definition merge_fits (l : list t) : bool :=
  (Zsum (retrans_syn <$> l) <=? umax u32) &&
  (Zsum (retrans_est <$> l) <=? umax u32) &&
  (Zsum (retrans_close <$> l) <=? umax u32) &&
  (Zsum (rtos_syn <$> l) <=? umax u32) &&
  (Zsum (rtos_est <$> l) <=? umax u32) &&
  (Zsum (rtos_close <$> l) <=? umax u32) &&
  (Zsum (rtt_count <$> l) <=? umax u32) &&
  (Zsum (connect_attempts <$> l) <=? umax u8) &&
  (Zsum (connect_successes <$> l) <=? umax u8).

Lemma Zsum_snoc l x : Zsum (l ++ [x]) = Zsum l + x.
Proof. unfold Zsum. rewrite list_sum_app_Z. simpl. lia. Qed.

Lemma Zmax0_snoc l x : 0 ≤ x → Zmax0 (l ++ [x]) = Z.max (Zmax0 l) x.
Proof. unfold Zmax0. intros. induction l; simpl; lia. Qed.

Lemma Zlor_snoc l x : Zlor (l ++ [x]) = Z.lor (Zlor l) x.
Proof.
  unfold Zlor. induction l as [|y l IH]; simpl; [by rewrite Z.lor_0_r|].
  by rewrite IH, Z.lor_assoc.
Qed.

Lemma fmap_nonneg (f : t → Z) (l : list t) :
  (∀ s, wf s → 0 ≤ f s) → Forall wf l → Forall (λ x, 0 ≤ x) (f <$> l).
Proof. intros Hf Hl. apply Forall_fmap. eapply Forall_impl; [done|]. exact Hf. Qed.

Lemma fresh_cores_wf T l : Forall wf l → Forall wf (fresh_cores T l).
Proof.
  rewrite !Forall_forall. unfold fresh_cores. intros H s [_ Hs]%list_elem_of_filter. auto.
Qed.

(** No core is fresh when the latest touch of all of them is older. *)
Lemma fresh_cores_nil T l : Zmax0 (last_touched_us <$> l) < T → fresh_cores T l = [].
Proof.
  unfold fresh_cores, Zmax0. induction l as [|s l IH]; csimpl; [done|].
  intros. rewrite filter_cons_False by (cbv beta; lia). apply IH. lia.
Qed.

Lemma merge_fits_snoc l x :
  Forall wf l → wf x →
  merge_fits (l ++ [x]) = merge_fits l && sums_fit (merge_spec 0 l) x.
Proof.
  intros Hl Hx. unfold merge_fits, sums_fit. simpl. rewrite !fmap_app. simpl. rewrite !Zsum_snoc.
  unfold wf, in_range in Hx. lia.
Qed.

Lemma merged_merge_spec T l x :
  Forall wf l → wf x → merged T (merge_spec T l) x = merge_spec T (l ++ [x]).
Proof.
  intros Hl Hx. assert (Hf := fresh_cores_wf T l Hl).
  assert (Hx' := Hx). unfold wf, in_range in Hx'. destruct_and!.
  unfold merged, merge_spec. simpl. unfold fresh_cores. rewrite filter_app, !fmap_app.
  fold (fresh_cores T l). rewrite filter_cons, filter_nil. simpl.
  rewrite !Zsum_snoc, !Zmax0_snoc, Zlor_snoc by done. f_equal.
  - destruct (Z.leb_spec T (last_touched_us x)); [|rewrite decide_False by lia; by rewrite app_nil_r].
    rewrite decide_True by done. simpl.
    assert (Forall (λ y, 0 ≤ y) (rtt_latest_us <$> fresh_cores T l))
      by (apply fmap_nonneg; [intros ? Hs; unfold wf, in_range in Hs; lia|done]).
    rewrite Zminnz_snoc by done. destruct (Z.leb_spec T (Zmax0 (last_touched_us <$> l))); [done|].
    rewrite fresh_cores_nil by done. symmetry. by apply min_non_zero_0_l.
  - destruct (Z.leb_spec T (last_touched_us x)); [|rewrite decide_False by lia; by rewrite app_nil_r].
    rewrite decide_True by done. simpl. rewrite Zmax0_snoc by done.
    destruct (Z.leb_spec T (Zmax0 (last_touched_us <$> l))); [done|].
    rewrite fresh_cores_nil by done. simpl. lia.
Qed.

Lemma sums_fit_merge_spec T l x : sums_fit (merge_spec T l) x = sums_fit (merge_spec 0 l) x.
Proof. unfold sums_fit. simpl. reflexivity. Qed.

Lemma merge_cores_snoc T l x :
  merge_cores T (l ++ [x]) = s ← merge_cores T l; add_from s x T.
Proof. apply foldM_snoc. Qed.

Lemma merge_cores_spec T l :
  Forall wf l → merge_cores T l = if merge_fits l then Some (merge_spec T l) else None.
Proof.
  intros Hl. induction l as [|x l IH] using rev_ind; [done|].
  apply Forall_app in Hl as [Hl [Hx _]%Forall_cons].
  rewrite merge_cores_snoc, IH, merge_fits_snoc by done.
  destruct (merge_fits l); [|reflexivity].
  etrans; [apply add_from_merged|]. rewrite (sums_fit_merge_spec T), merged_merge_spec by done.
  by destruct (sums_fit _ x).
Qed.

Lemma Zminnz_perm l1 l2 : l1 ≡ₚ l2 → Forall (λ x, 0 ≤ x) l1 → Zminnz l1 = Zminnz l2.
Proof.
  intros Hp. unfold Zminnz. induction Hp; intros Hn; simpl; [done|..].
  - f_equal. apply IHHp. by apply Forall_cons in Hn as [_ ?].
  - apply Forall_cons in Hn as [? [? ?]%Forall_cons].
    assert (0 ≤ foldr min_non_zero 0 l) by by apply Zminnz_nonneg.
    rewrite !min_non_zero_assoc by done. f_equal. apply min_non_zero_comm.
  - rewrite IHHp1 by done. apply IHHp2. by rewrite <- Hp1.
Qed.

Lemma merge_spec_perm T l1 l2 : l1 ≡ₚ l2 → Forall wf l1 → merge_spec T l1 = merge_spec T l2.
Proof.
  intros Hp Hl. unfold merge_spec. f_equal; try by rewrite Hp.
  - apply Zminnz_perm; [by unfold fresh_cores; rewrite Hp|].
    apply fmap_nonneg; [intros ? Hs; unfold wf, in_range in Hs; lia|by apply fresh_cores_wf].
  - unfold fresh_cores. by rewrite Hp.
Qed.

Lemma merge_cores_perm T l1 l2 :
  l1 ≡ₚ l2 → Forall wf l1 → merge_cores T l1 = merge_cores T l2.
Proof.
  intros Hp Hl. assert (Forall wf l2) by by rewrite <- Hp.
  rewrite !merge_cores_spec by done. rewrite (merge_spec_perm T l1 l2) by done.
  replace (merge_fits l2) with (merge_fits l1); [done|]. unfold merge_fits. by rewrite !Hp.
Qed.

Lemma merge_cores_wf T l s : Forall wf l → merge_cores T l = Some s → wf s.
Proof.
  intros Hl. apply (foldM_inv wf); [|apply stats_default_wf].
  intros a x a' Hx Ha. apply stats_add_from_wf; [done|]. by eapply Forall_forall in Hl.
Qed.

(** *** Deltas *)

(** The counters of [s]: the fields [subtract] takes the difference of. *)
Definition add_counters (base delta : t) : t := delta
  <| bytes_received := wrapping_add u64 (bytes_received base) (bytes_received delta) |>
  <| bytes_delivered := wrapping_add u64 (bytes_delivered base) (bytes_delivered delta) |>
  <| segments_received := wrapping_add u32 (segments_received base) (segments_received delta) |>
  <| segments_delivered := wrapping_add u32 (segments_delivered base) (segments_delivered delta) |>
  <| retrans_syn := wrapping_add u32 (retrans_syn base) (retrans_syn delta) |>
  <| retrans_est := wrapping_add u32 (retrans_est base) (retrans_est delta) |>
  <| retrans_close := wrapping_add u32 (retrans_close base) (retrans_close delta) |>
  <| rtos_syn := wrapping_add u32 (rtos_syn base) (rtos_syn delta) |>
  <| rtos_est := wrapping_add u32 (rtos_est base) (rtos_est delta) |>
  <| rtos_close := wrapping_add u32 (rtos_close base) (rtos_close delta) |>
  <| rtt_count := wrapping_add u32 (rtt_count base) (rtt_count delta) |>
  <| connect_attempts := wrapping_add u8 (connect_attempts base) (connect_attempts delta) |>
  <| connect_successes := wrapping_add u8 (connect_successes base) (connect_successes delta) |>.

(** Adding a delta to the statistics it was taken from gives the later statistics. *)
Lemma add_counters_subtract s r :
  wf s → _pad s = _pad default → add_counters r (subtract s r) = s.
Proof.
  unfold wf, add_counters, subtract. destruct s. simpl. intros Hs ->. destruct_and!.
  f_equal; by apply wrapping_add_sub.
Qed.

(** Two successive deltas add up to the delta over both spans. *)
Lemma stats_subtract_telescope a b c :
  add_counters (subtract b a) (subtract c b) = subtract c a.
Proof.
  unfold add_counters, subtract. simpl. f_equal;
    unfold wrapping_add, wrapping_sub; rewrite wrap_add_l, wrap_add_r; f_equal; lia.
Qed.

End SockStatsFacts.
