(* ===== verification/BpfMaps.v ===== *)
(** * BpfMaps: the maps shared between the eBPF program and the agent

    Models nfm-common/src/ebpf_mocks.rs, the in-process counterpart of the BPF maps
    (ebpf_actuals.rs binds the same names to aya's maps): a bounded hash map with the kernel's
    insertion flags, a fixed-size array, and the four maps of the program.  A pointer obtained with
    [get_ptr_mut] is the key of the slot it points to, so that writes through it are writes to the
    map. *)

From stdpp Require Import base numbers gmap list strings.
From S2P Require Import Prelude Network.

(** ** Constants

    The values are the ones of ebpf_mocks.rs, which need not be those of the kernel headers; only
    that they are distinct (and the flags disjoint bits) is ever used. *)

Definition BPF_ANY : Z := 0.
Definition BPF_NOEXIST : Z := Z.shiftl 1 1.
Definition BPF_EXIST : Z := Z.shiftl 1 2.

Definition BPF_SOCK_OPS_RETRANS_CB_FLAG : Z := Z.shiftl 1 1.
Definition BPF_SOCK_OPS_RTO_CB_FLAG : Z := Z.shiftl 1 2.
Definition BPF_SOCK_OPS_RTT_CB_FLAG : Z := Z.shiftl 1 3.
Definition BPF_SOCK_OPS_STATE_CB_FLAG : Z := Z.shiftl 1 4.
Definition BPF_SOCK_OPS_PARSE_ALL_HDR_OPT_CB_FLAG : Z := Z.shiftl 1 5.
Definition BPF_SOCK_OPS_WRITE_HDR_OPT_CB_FLAG : Z := Z.shiftl 1 6.

Definition BPF_SOCK_OPS_ACTIVE_ESTABLISHED_CB : Z := 1.
Definition BPF_SOCK_OPS_PASSIVE_ESTABLISHED_CB : Z := 2.
Definition BPF_SOCK_OPS_RETRANS_CB : Z := 3.
Definition BPF_SOCK_OPS_RTO_CB : Z := 4.
Definition BPF_SOCK_OPS_RTT_CB : Z := 5.
Definition BPF_SOCK_OPS_STATE_CB : Z := 6.
Definition BPF_SOCK_OPS_TCP_CONNECT_CB : Z := 7.
Definition BPF_SOCK_OPS_PARSE_HDR_OPT_CB : Z := 8.
Definition BPF_SOCK_OPS_HDR_OPT_LEN_CB : Z := 9.
Definition BPF_SOCK_OPS_TIMEOUT_INIT : Z := 10.
Definition BPF_SOCK_OPS_RWND_INIT : Z := 11.
Definition BPF_SOCK_OPS_NEEDS_ECN : Z := 12.

Definition BPF_TCP_CLOSE : Z := 1.
Definition BPF_TCP_ESTABLISHED : Z := 4.
Definition BPF_TCP_SYN_RECV : Z := 9.
Definition BPF_TCP_SYN_SENT : Z := 10.

(** Exposes the operation codes to arithmetic. *)
Ltac unfold_ops := unfold
  BPF_SOCK_OPS_ACTIVE_ESTABLISHED_CB, BPF_SOCK_OPS_PASSIVE_ESTABLISHED_CB, BPF_SOCK_OPS_RETRANS_CB,
  BPF_SOCK_OPS_RTO_CB, BPF_SOCK_OPS_RTT_CB, BPF_SOCK_OPS_STATE_CB, BPF_SOCK_OPS_TCP_CONNECT_CB,
  BPF_SOCK_OPS_PARSE_HDR_OPT_CB, BPF_SOCK_OPS_HDR_OPT_LEN_CB, BPF_SOCK_OPS_TIMEOUT_INIT,
  BPF_SOCK_OPS_RWND_INIT, BPF_SOCK_OPS_NEEDS_ECN in *.

(** libc's error numbers. *)
Definition ENOMEM : Z := 12.
Definition EINVAL : Z := 22.

(** ** [SharedHashMap] *)
Module SharedHashMap.

Record t (K V : Type) `{Countable K} := mk {
  data : gmap K V;
  capacity : Z;
}.
Arguments mk {K V _ _} data capacity.
Arguments data {K V _ _} _.
Arguments capacity {K V _ _} _.

Section operations.
Context {K V : Type} `{Countable K}.
Implicit Types self : t K V.

Definition with_max_entries (capacity : Z) : t K V := mk ∅ capacity.

Definition insert self (key : K) (val : V) (flags : Z) : Result unit Z * t K V :=
  let exists_ := bool_decide (is_Some (data self !! key)) in
  let should_exist := 0 <? Z.land flags BPF_EXIST in
  let should_not_exist := 0 <? Z.land flags BPF_NOEXIST in
  if negb exists_ && (capacity self <=? Z.of_nat (size (data self))) then
    (Err (- ENOMEM), self)
  else if (should_exist && negb exists_) || (should_not_exist && exists_) then
    (Err (- EINVAL), self)
  else
    (Ok tt, mk (<[key := val]> (data self)) (capacity self)).

Definition get self (key : K) : option V := data self !! key.

(** The pointer is the key of the occupied slot. *)
Definition get_ptr_mut self (key : K) : option K :=
  match data self !! key with Some _ => Some key | None => None end.

(** A write through the pointer. *)
Definition write self (ptr : K) (f : V → V) : t K V :=
  mk (alter f ptr (data self)) (capacity self).

(** User space removes entries; removing a missing one is an error. *)
Definition remove self (key : K) : Result unit unit * t K V :=
  match data self !! key with
  | Some _ => (Ok tt, mk (delete key (data self)) (capacity self))
  | None => (Err tt, self)
  end.

(** The number of entries never exceeds the capacity. *)
Definition bounded self : Prop := Z.of_nat (size (data self)) ≤ capacity self.

(** Whether an insertion of a new key would succeed. *)
Definition has_room self : bool := negb (capacity self <=? Z.of_nat (size (data self))).

Lemma insert_noexist self key val :
  insert self key val BPF_NOEXIST =
  match data self !! key with
  | Some _ => (Err (- EINVAL), self)
  | None =>
      if has_room self then (Ok tt, mk (<[key := val]> (data self)) (capacity self))
      else (Err (- ENOMEM), self)
  end.
Proof.
  unfold insert, has_room. destruct (data self !! key) eqn:E.
  - by rewrite bool_decide_eq_true_2 by eauto.
  - rewrite bool_decide_eq_false_2 by (intros [? ?]; done). simpl. by destruct (_ <=? _).
Qed.

Lemma insert_bounded self key val flags :
  bounded self → bounded (insert self key val flags).2.
Proof.
  unfold insert, bounded. intros Hb.
  destruct (decide (is_Some (data self !! key))) as [He|He].
  - rewrite bool_decide_eq_true_2 by done. simpl. destruct (_ || _); simpl; [done|].
    by rewrite map_size_insert_Some.
  - rewrite bool_decide_eq_false_2 by done. simpl.
    destruct (Z.leb_spec (capacity self) (Z.of_nat (size (data self)))); simpl; [done|].
    destruct (_ || _); simpl; [done|].
    rewrite map_size_insert_None by by apply eq_None_not_Some. lia.
Qed.

Lemma write_bounded self ptr f : bounded self → bounded (write self ptr f).
Proof.
  unfold bounded, write. simpl.
  by rewrite <- (size_dom (alter f ptr (data self))), dom_alter_L, size_dom.
Qed.

(** A map that has lost entries, and nothing else. *)
Definition shrinks self self' : Prop := data self' ⊆ data self ∧ capacity self' = capacity self.

#[global] Instance shrinks_preorder : PreOrder shrinks.
Proof. split; [done|]. intros x y z [? ?] [? ?]. split; [by etrans|congruence]. Qed.

Lemma remove_shrinks self key : shrinks self (remove self key).2.
Proof. unfold remove. destruct (data self !! key); [|done]. split; [apply delete_subseteq|done]. Qed.

Lemma shrinks_bounded self self' : shrinks self self' → bounded self → bounded self'.
Proof. intros [Hs Hc] Hb. unfold bounded in *. rewrite Hc. apply map_subseteq_size in Hs. lia. Qed.

Lemma shrinks_lookup self self' key v : shrinks self self' → data self' !! key = Some v → data self !! key = Some v.
Proof. intros [Hs _] Hk. by eapply lookup_weaken. Qed.

Lemma remove_bounded self key : bounded self → bounded (remove self key).2.
Proof. apply shrinks_bounded, remove_shrinks. Qed.

End operations.
End SharedHashMap.

(** ** [SharedArray] *)
Module SharedArray.
Section operations.
Context {T : Type}.
Implicit Types self : list T.

Definition with_max_entries (default : T) (capacity : nat) : list T := replicate capacity default.
Definition get self (index : nat) : option T := self !! index.
Definition get_ptr_mut self (index : nat) : option nat :=
  match self !! index with Some _ => Some index | None => None end.
Definition write self (ptr : nat) (f : T → T) : list T := alter f ptr self.
(** [self.data[index] = value] panics outside the array. *)
Definition insert self (index : nat) (value : T) : option (list T) :=
  if bool_decide (index < length self)%nat then Some (<[index := value]> self) else None.

End operations.
End SharedArray.

(** ** The program's maps *)
Module EbpfMaps.

Record t := mk {
  NFM_CONTROL : list ControlData.t;
  NFM_COUNTERS : list EventCounters.t;
  NFM_SK_PROPS : SharedHashMap.t CpuSockKey.t SockContext.t;
  NFM_SK_STATS : SharedHashMap.t CpuSockKey.t SockStats.t;
  mock_rand : Z;
}.

#[global] Instance eta_t : Eta t := λ r,
  mk (NFM_CONTROL r) (NFM_COUNTERS r) (NFM_SK_PROPS r) (NFM_SK_STATS r) (mock_rand r).

Definition new : t := {|
  NFM_CONTROL := SharedArray.with_max_entries ControlData.default 1;
  NFM_COUNTERS := SharedArray.with_max_entries EventCounters.default 1;
  NFM_SK_PROPS := SharedHashMap.with_max_entries MAX_ENTRIES_SK_PROPS_HI;
  NFM_SK_STATS := SharedHashMap.with_max_entries MAX_ENTRIES_SK_STATS_HI;
  mock_rand := 1
|}.

End EbpfMaps.
