(* ===== verification/SockOps.v ===== *)
(** * SockOps: the eBPF event handler

    Models nfm-common/src/sock_ops_handler.rs and the entry point nfm-bpf/src/main.rs: the sampling
    decision and the handler that turns one kernel event of one socket into updates of the BPF
    maps.  The handler is written in a state-and-panic monad over the handler object.  Two things
    are supplied by the kernel and are arguments of the model: the CPU the event runs on
    ([bpf_get_smp_processor_id]) and the outcome of [bpf_sock_ops_cb_flags_set].  The eBPF object
    is built without overflow checks: its [+=] wraps.

    The handler refines [SockSlot.step], a pure transition of the one slot (the entries of the two
    hash maps under the event's key); frame, commutation and invariants follow from it. *)

From stdpp Require Import base numbers gmap list strings.
From S2P Require Import Prelude Network BpfMaps.

Inductive SockOpsResultCode :=
| OperationUnknown
| ContextInvalid
| MapInsertionError
| SetCbFlagsError
| RttInvalid
| SampleDiscard.

#[global] Instance SockOpsResultCode_eq_dec : EqDecision SockOpsResultCode.
Proof. solve_decision. Defined.

Definition SockOpsResult : Type := Result unit SockOpsResultCode.

(** [x += n] on a [w]-bit field of the eBPF object. *)
Definition bump (w n x : Z) : Z := wrapping_add w x n.

(** ** [BpfControlConveyor] *)
Module BpfControlConveyor.

Definition is_new_sock_event (event_cb_id : Z) : bool :=
  (event_cb_id =? BPF_SOCK_OPS_TCP_CONNECT_CB) ||
  (event_cb_id =? BPF_SOCK_OPS_PASSIVE_ESTABLISHED_CB).

Definition should_handle_new_sock (self : EbpfMaps.t) : bool :=
  match SharedArray.get (EbpfMaps.NFM_CONTROL self) 0 with
  | Some control_data =>
      let sampling_interval := ControlData.sampling_interval control_data in
      (sampling_interval <=? 1) || (EbpfMaps.mock_rand self mod sampling_interval =? 0)
  | None => true
  end.

Definition should_handle_event (self : EbpfMaps.t) (event_cb_id : Z) : bool :=
  if (event_cb_id =? BPF_SOCK_OPS_TIMEOUT_INIT) || (event_cb_id =? BPF_SOCK_OPS_RWND_INIT) ||
     (event_cb_id =? BPF_SOCK_OPS_NEEDS_ECN) ||
     (event_cb_id =? BPF_SOCK_OPS_ACTIVE_ESTABLISHED_CB)
  then false
  else if is_new_sock_event event_cb_id then should_handle_new_sock self
  else true.

End BpfControlConveyor.

(** ** [TcpSockOpsHandler] *)
Module TcpSockOpsHandler.

Record t := mk {
  ctx : SockOpsContext.t;
  now_us : Z;
  counters : EventCounters.t;
  composite_key : CpuSockKey.t;
  mock_ebpf_maps : EbpfMaps.t;
}.

#[global] Instance eta_t : Eta t := λ r,
  mk (ctx r) (now_us r) (counters r) (composite_key r) (mock_ebpf_maps r).

Definition new (ctx : SockOpsContext.t) (now_us : Z) (maps : EbpfMaps.t) : t := {|
  ctx := ctx;
  now_us := now_us;
  counters := EventCounters.default;
  composite_key := CpuSockKey.default;
  mock_ebpf_maps := maps
|}.

(** The handler's methods: state passing over [&mut self], [None] for a panic. *)
Definition M (A : Type) : Type := t → option (A * t).

#[global] Instance M_ret : MRet M := λ A a self, Some (a, self).
#[global] Instance M_bind : MBind M := λ A B k m self,
  match m self with Some (a, self') => k a self' | None => None end.

Definition get_self : M t := λ self, Some (self, self).
Definition lift {A} (o : option A) : M A :=
  λ self, match o with Some a => Some (a, self) | None => None end.
Definition count (f : EventCounters.t → EventCounters.t) : M unit :=
  λ self, Some (tt, self <| counters ::= f |>).

(** The [bpf_map_*!] macros on the handler. *)
Definition insert_sk_props (key : CpuSockKey.t) (v : SockContext.t) (flags : Z) : M (Result unit Z) :=
  λ self,
    let '(r, m) := SharedHashMap.insert (EbpfMaps.NFM_SK_PROPS (mock_ebpf_maps self)) key v flags in
    Some (r, self <| mock_ebpf_maps ::= λ ms, ms <| EbpfMaps.NFM_SK_PROPS := m |> |>).
Definition insert_sk_stats (key : CpuSockKey.t) (v : SockStats.t) (flags : Z) : M (Result unit Z) :=
  λ self,
    let '(r, m) := SharedHashMap.insert (EbpfMaps.NFM_SK_STATS (mock_ebpf_maps self)) key v flags in
    Some (r, self <| mock_ebpf_maps ::= λ ms, ms <| EbpfMaps.NFM_SK_STATS := m |> |>).
Definition get_ptr_sk_stats (key : CpuSockKey.t) : M (option CpuSockKey.t) :=
  λ self, Some (SharedHashMap.get_ptr_mut (EbpfMaps.NFM_SK_STATS (mock_ebpf_maps self)) key, self).
(** A write through a [*mut SockStats]. *)
Definition write_stats (ptr : CpuSockKey.t) (f : SockStats.t → SockStats.t) : M unit :=
  λ self, Some (tt, self <| mock_ebpf_maps ::= λ ms,
    ms <| EbpfMaps.NFM_SK_STATS ::= λ m, SharedHashMap.write m ptr f |> |>).

Section handler.
(** What the kernel answers: the running CPU, and [bpf_sock_ops_cb_flags_set]. *)
Context (nfm_get_cpu_id : Z).
Context (set_cb_flags : SockOpsContext.t → Z → Result unit Z).

Definition get_or_add_sock_stats : M (Result CpuSockKey.t SockOpsResultCode) :=
  self ← get_self;
  found ← get_ptr_sk_stats (composite_key self);
  match found with
  | Some stats_raw =>
      _ ← write_stats stats_raw (λ s, s <| SockStats.last_touched_us := now_us self |>);
      mret (Ok stats_raw)
  | None =>
      let new_stats := SockStats.default <| SockStats.last_touched_us := now_us self |> in
      inserted ← insert_sk_stats (composite_key self) new_stats BPF_NOEXIST;
      match inserted with
      | Ok _ =>
          again ← get_ptr_sk_stats (composite_key self);
          match again with
          | Some stats => mret (Ok stats)
          | None =>
              _ ← count (λ c, c <| EventCounters.map_insertion_errors ::= bump u32 1 |>);
              mret (Err MapInsertionError)
          end
      | Err _ =>
          _ ← count (λ c, c <| EventCounters.map_insertion_errors ::= bump u32 1 |>);
          mret (Err MapInsertionError)
      end
  end.

Definition all_cb_flags : Z :=
  Z.lor BPF_SOCK_OPS_RTT_CB_FLAG (Z.lor BPF_SOCK_OPS_RTO_CB_FLAG
    (Z.lor BPF_SOCK_OPS_STATE_CB_FLAG (Z.lor BPF_SOCK_OPS_RETRANS_CB_FLAG
      (Z.lor BPF_SOCK_OPS_PARSE_ALL_HDR_OPT_CB_FLAG BPF_SOCK_OPS_WRITE_HDR_OPT_CB_FLAG)))).

Definition configure_flags : M SockOpsResult :=
  self ← get_self;
  match set_cb_flags (ctx self) all_cb_flags with
  | Ok _ => mret (Ok tt)
  | Err _ =>
      _ ← count (λ c, c <| EventCounters.set_flags_errors ::= bump u32 1 |>);
      mret (Err SetCbFlagsError)
  end.

Definition handle_new_sock (is_client : bool) : M SockOpsResult :=
  self ← get_self;
  sock_context ← lift (SockContext.from_sock_ops (ctx self) is_client);
  if negb (SockContext.is_valid sock_context) then
    _ ← count (λ c, c <| EventCounters.sockets_invalid ::= bump u32 1 |>);
    mret (Err ContextInvalid)
  else
    res ← insert_sk_props (composite_key self) sock_context BPF_NOEXIST;
    if is_err res then
      _ ← count (λ c, c <| EventCounters.map_insertion_errors ::= bump u32 1 |>);
      mret (Err MapInsertionError)
    else
      flags ← configure_flags;
      match flags with
      | Err e => mret (Err e)
      | Ok _ =>
          stats ← get_or_add_sock_stats;
          match stats with
          | Ok sock_stats =>
              _ ← write_stats sock_stats (λ s, s <| SockStats.connect_start_us := now_us self |>);
              _ ← (if is_client then
                     write_stats sock_stats (λ s, s <| SockStats.connect_attempts ::= bump u8 1 |>)
                   else mret tt);
              _ ← (if SockOpsContext.sock_state (ctx self) =? BPF_TCP_ESTABLISHED then
                     write_stats sock_stats (λ s, s <| SockStats.state_flags ::=
                       λ fl, SockStateFlags.insert fl SockStateFlags.ENTERED_ESTABLISH |>)
                   else mret tt);
              mret (Ok tt)
          | Err e => mret (Err e)
          end
      end.

Definition handle_connect : M SockOpsResult :=
  _ ← count (λ c, c <| EventCounters.active_connect_events ::= bump u32 1 |>);
  handle_new_sock true.

Definition handle_passive_established : M SockOpsResult :=
  _ ← count (λ c, c <| EventCounters.passive_established_events ::= bump u32 1 |>);
  handle_new_sock false.

(** The four cumulative values the kernel keeps per socket. *)
Definition store_transferred (event_stats : SockOpsStats.t) (s : SockStats.t) : SockStats.t :=
  s <| SockStats.bytes_received := SockOpsStats.bytes_received event_stats |>
    <| SockStats.bytes_delivered := SockOpsStats.bytes_acked event_stats |>
    <| SockStats.segments_received := SockOpsStats.segments_received event_stats |>
    <| SockStats.segments_delivered := SockOpsStats.segments_delivered event_stats |>.

Definition is_syn_state (state : Z) : bool :=
  (state =? BPF_TCP_SYN_SENT) || (state =? BPF_TCP_SYN_RECV).

Definition handle_state_change : M SockOpsResult :=
  _ ← count (λ c, c <| EventCounters.state_change_events ::= bump u32 1 |>);
  self ← get_self;
  old_state ← lift (SockOpsContext.arg (ctx self) 0);
  new_state ← lift (SockOpsContext.arg (ctx self) 1);
  stats ← get_or_add_sock_stats;
  match stats with
  | Ok sock_stats =>
      new_flags ← (
        if new_state =? BPF_TCP_ESTABLISHED then
          _ ← write_stats sock_stats (λ s, s <| SockStats.connect_end_us := now_us self |>);
          _ ← (if old_state =? BPF_TCP_SYN_SENT then
                 _ ← count (λ c, c <| EventCounters.active_established_events ::= bump u32 1 |>);
                 write_stats sock_stats (λ s, s <| SockStats.connect_successes ::= bump u8 1 |>)
               else mret tt);
          mret (Z.lor SockStateFlags.empty SockStateFlags.ENTERED_ESTABLISH)
        else if negb (is_syn_state new_state) then
          let new_flags := Z.lor SockStateFlags.empty SockStateFlags.STARTED_CLOSURE in
          let new_flags :=
            if is_syn_state old_state then Z.lor new_flags SockStateFlags.TERMINATED_FROM_SYN
            else new_flags in
          if new_state =? BPF_TCP_CLOSE then
            let new_flags := Z.lor new_flags SockStateFlags.CLOSED in
            _ ← write_stats sock_stats (store_transferred (SockOpsContext.stats (ctx self)));
            mret (if old_state =? BPF_TCP_ESTABLISHED
                  then Z.lor new_flags SockStateFlags.TERMINATED_FROM_EST else new_flags)
          else mret new_flags
        else mret SockStateFlags.empty);
      _ ← write_stats sock_stats (λ s, s <| SockStats.state_flags ::=
            λ fl, SockStateFlags.insert fl new_flags |>);
      mret (Ok tt)
  | Err e => mret (Err e)
  end.

Definition handle_rtt : M SockOpsResult :=
  _ ← count (λ c, c <| EventCounters.rtt_events ::= bump u32 1 |>);
  self ← get_self;
  let event_stats := SockOpsContext.stats (ctx self) in
  arg0 ← lift (SockOpsContext.arg (ctx self) 0);
  rtt_measured_us ← (
    if arg0 =? 0 then
      _ ← count (λ c, c <| EventCounters.rtts_invalid ::= bump u32 1 |>);
      mret (SockOpsStats.srtt_us event_stats)
    else mret arg0);
  arg1 ← lift (SockOpsContext.arg (ctx self) 1);
  let rtt_smoothed_us :=
    if arg1 =? 0 then SockOpsStats.srtt_us event_stats else Z.shiftr arg1 3 in
  stats ← get_or_add_sock_stats;
  match stats with
  | Ok sock_stats =>
      _ ← write_stats sock_stats (λ s, store_transferred event_stats (s
            <| SockStats.rtt_count ::= bump u32 1 |>
            <| SockStats.rtt_latest_us := rtt_measured_us |>
            <| SockStats.rtt_smoothed_us := rtt_smoothed_us |>));
      mret (Ok tt)
  | Err e => mret (Err e)
  end.

Definition handle_retransmit : M SockOpsResult :=
  _ ← count (λ c, c <| EventCounters.retrans_events ::= bump u32 1 |>);
  self ← get_self;
  retrans_segments ← lift (SockOpsContext.arg (ctx self) 1);
  stats ← get_or_add_sock_stats;
  match stats with
  | Ok sock_stats =>
      let state := SockOpsContext.sock_state (ctx self) in
      _ ← write_stats sock_stats (λ s,
            if state =? BPF_TCP_ESTABLISHED then
              s <| SockStats.retrans_est ::= bump u32 retrans_segments |>
            else if state =? BPF_TCP_SYN_SENT then
              s <| SockStats.retrans_syn ::= bump u32 retrans_segments |>
                <| SockStats.connect_attempts ::= bump u8 (wrap u8 retrans_segments) |>
            else if state =? BPF_TCP_SYN_RECV then
              s <| SockStats.retrans_syn ::= bump u32 retrans_segments |>
            else s <| SockStats.retrans_close ::= bump u32 retrans_segments |>);
      mret (Ok tt)
  | Err e => mret (Err e)
  end.

Definition handle_rto : M SockOpsResult :=
  _ ← count (λ c, c <| EventCounters.rto_events ::= bump u32 1 |>);
  self ← get_self;
  stats ← get_or_add_sock_stats;
  match stats with
  | Ok sock_stats =>
      let state := SockOpsContext.sock_state (ctx self) in
      _ ← write_stats sock_stats (λ s,
            if state =? BPF_TCP_ESTABLISHED then s <| SockStats.rtos_est ::= bump u32 1 |>
            else if is_syn_state state then s <| SockStats.rtos_syn ::= bump u32 1 |>
            else s <| SockStats.rtos_close ::= bump u32 1 |>);
      mret (Ok tt)
  | Err e => mret (Err e)
  end.

Definition handle_bytes_transferred_event : M SockOpsResult :=
  self ← get_self;
  stats ← get_or_add_sock_stats;
  match stats with
  | Ok sock_stats =>
      _ ← write_stats sock_stats (store_transferred (SockOpsContext.stats (ctx self)));
      mret (Ok tt)
  | Err e => mret (Err e)
  end.

(** The dispatch on the operation code. *)
Definition dispatch (op : Z) : M SockOpsResult :=
  if op =? BPF_SOCK_OPS_TCP_CONNECT_CB then handle_connect
  else if op =? BPF_SOCK_OPS_PASSIVE_ESTABLISHED_CB then handle_passive_established
  else if op =? BPF_SOCK_OPS_STATE_CB then handle_state_change
  else if op =? BPF_SOCK_OPS_RTT_CB then handle_rtt
  else if op =? BPF_SOCK_OPS_RETRANS_CB then handle_retransmit
  else if op =? BPF_SOCK_OPS_RTO_CB then handle_rto
  else if op =? BPF_SOCK_OPS_PARSE_HDR_OPT_CB then handle_bytes_transferred_event
  else if op =? BPF_SOCK_OPS_HDR_OPT_LEN_CB then handle_bytes_transferred_event
  else
    _ ← count (λ c, c <| EventCounters.other_events ::= bump u32 1 |>);
    mret (Err OperationUnknown).

(** [self.composite_key.sock_key = ..; self.composite_key.cpu_id = ..]. *)
Definition set_composite_key : M unit := λ self,
  Some (tt, self <| composite_key := {|
    CpuSockKey.cpu_id := nfm_get_cpu_id;
    CpuSockKey.sock_key := SockOpsContext.cookie (ctx self) |} |>).

(** Persist our new counter contributions. *)
Definition persist_counters : M unit := λ self,
  Some (tt, self <| mock_ebpf_maps ::= λ ms,
    match SharedArray.get_ptr_mut (EbpfMaps.NFM_COUNTERS ms) 0 with
    | Some ptr => ms <| EbpfMaps.NFM_COUNTERS ::= λ cs,
        SharedArray.write cs ptr (λ c, EventCounters.add_from c (counters self)) |>
    | None => ms
    end |>).

Definition handle_socket_event : M SockOpsResult :=
  _ ← count (λ c, c <| EventCounters.socket_events ::= bump u32 1 |>);
  _ ← set_composite_key;
  self ← get_self;
  result ← dispatch (SockOpsContext.op (ctx self));
  _ ← persist_counters;
  mret result.

(** The entry point of the program: [TcpSockOpsHandler::new(..).handle_socket_event()] when the
    event is to be handled; the kernel gets [BPF_OK] in any case. *)
Definition nfm_sock_ops (ctx : SockOpsContext.t) (nfm_now_us : Z) (maps : EbpfMaps.t) :
    option EbpfMaps.t :=
  if BpfControlConveyor.should_handle_event maps (SockOpsContext.op ctx) then
    '(_, self) ← handle_socket_event (new ctx nfm_now_us maps);
    Some (mock_ebpf_maps self)
  else Some maps.

End handler.
End TcpSockOpsHandler.
