(* ===== verification/SockOpsFacts.v ===== *)
(** * SockOpsFacts: what the eBPF handler guarantees

    The handler of SockOps.v works on whole maps through pointers.  [SockSlot.step] says what one
    event does to the one slot it concerns, the entries of the two hash maps under the event's key,
    and [SockSlotFacts.handle_socket_event_slot] shows that the handler does exactly that and
    nothing else.  Error accounting, frame, commutation of events and the invariants of all
    reachable maps are proved against that transition. *)

From stdpp Require Import base numbers gmap list strings relations.
From S2P Require Import Prelude Network BpfMaps SockOps.

(** ** The slot transition *)
Module SockSlot.

Record t := mk {
  props : option SockContext.t;
  stats : option SockStats.t;
}.

(** The touch of an event: the entry gets the time, a missing one is created if there is room. *)
Definition touch (now : Z) (room : bool) (stats : option SockStats.t) : option SockStats.t :=
  match stats with
  | Some s => Some (s <| SockStats.last_touched_us := now |>)
  | None =>
      if room then Some (SockStats.default <| SockStats.last_touched_us := now |>) else None
  end.

(** The flags a transition between two TCP states adds. *)
Definition transition_flags (old_state new_state : Z) : Z :=
  if new_state =? BPF_TCP_ESTABLISHED then SockStateFlags.ENTERED_ESTABLISH
  else if TcpSockOpsHandler.is_syn_state new_state then SockStateFlags.empty
  else Z.lor SockStateFlags.STARTED_CLOSURE
    (Z.lor (if TcpSockOpsHandler.is_syn_state old_state
            then SockStateFlags.TERMINATED_FROM_SYN else 0)
      (if new_state =? BPF_TCP_CLOSE then
         Z.lor SockStateFlags.CLOSED
           (if old_state =? BPF_TCP_ESTABLISHED then SockStateFlags.TERMINATED_FROM_EST else 0)
       else 0)).

(** The effect of an event of a known socket on its touched statistics. *)
Definition effect (c : SockOpsContext.t) (a0 a1 now : Z) (s : SockStats.t) : SockStats.t :=
  let op := SockOpsContext.op c in
  let ev := SockOpsContext.stats c in
  let state := SockOpsContext.sock_state c in
  if op =? BPF_SOCK_OPS_STATE_CB then
    let s :=
      if a1 =? BPF_TCP_ESTABLISHED then
        let s := s <| SockStats.connect_end_us := now |> in
        if a0 =? BPF_TCP_SYN_SENT then s <| SockStats.connect_successes ::= bump u8 1 |> else s
      else if a1 =? BPF_TCP_CLOSE then TcpSockOpsHandler.store_transferred ev s
      else s in
    s <| SockStats.state_flags ::= λ fl, Z.lor fl (transition_flags a0 a1) |>
  else if op =? BPF_SOCK_OPS_RTT_CB then
    TcpSockOpsHandler.store_transferred ev (s
      <| SockStats.rtt_count ::= bump u32 1 |>
      <| SockStats.rtt_latest_us := if a0 =? 0 then SockOpsStats.srtt_us ev else a0 |>
      <| SockStats.rtt_smoothed_us := if a1 =? 0 then SockOpsStats.srtt_us ev else a1 / 8 |>)
  else if op =? BPF_SOCK_OPS_RETRANS_CB then
    if state =? BPF_TCP_ESTABLISHED then s <| SockStats.retrans_est ::= bump u32 a1 |>
    else if TcpSockOpsHandler.is_syn_state state then
      let s := s <| SockStats.retrans_syn ::= bump u32 a1 |> in
      if state =? BPF_TCP_SYN_SENT
      then s <| SockStats.connect_attempts ::= bump u8 (wrap u8 a1) |> else s
    else s <| SockStats.retrans_close ::= bump u32 a1 |>
  else if op =? BPF_SOCK_OPS_RTO_CB then
    if state =? BPF_TCP_ESTABLISHED then s <| SockStats.rtos_est ::= bump u32 1 |>
    else if TcpSockOpsHandler.is_syn_state state then s <| SockStats.rtos_syn ::= bump u32 1 |>
    else s <| SockStats.rtos_close ::= bump u32 1 |>
  else TcpSockOpsHandler.store_transferred ev s.

(** The effect of a new connection on its touched statistics. *)
Definition open_effect (c : SockOpsContext.t) (is_client : bool) (now : Z) (s : SockStats.t) :
    SockStats.t :=
  let s := s <| SockStats.connect_start_us := now |> in
  let s := if is_client then s <| SockStats.connect_attempts ::= bump u8 1 |> else s in
  if SockOpsContext.sock_state c =? BPF_TCP_ESTABLISHED
  then s <| SockStats.state_flags ::= λ fl, Z.lor fl SockStateFlags.ENTERED_ESTABLISH |> else s.

Definition is_known_event (op : Z) : bool :=
  (op =? BPF_SOCK_OPS_STATE_CB) || (op =? BPF_SOCK_OPS_RTT_CB) ||
  (op =? BPF_SOCK_OPS_RETRANS_CB) || (op =? BPF_SOCK_OPS_RTO_CB) ||
  (op =? BPF_SOCK_OPS_PARSE_HDR_OPT_CB) || (op =? BPF_SOCK_OPS_HDR_OPT_LEN_CB).

(** One event on one slot; [flags_set] is whether the kernel accepts the callback flags, the rooms
    whether the maps can take a new key. *)
Definition step (flags_set room_props room_stats : bool) (c : SockOpsContext.t) (sc : SockContext.t)
    (a0 a1 now : Z) (slot : t) : SockOpsResult * t :=
  let op := SockOpsContext.op c in
  if BpfControlConveyor.is_new_sock_event op then
    if negb (SockContext.is_valid sc) then (Err ContextInvalid, slot)
    else match props slot with
    | Some _ => (Err MapInsertionError, slot)
    | None =>
        if negb room_props then (Err MapInsertionError, slot)
        else if negb flags_set then (Err SetCbFlagsError, mk (Some sc) (stats slot))
        else match touch now room_stats (stats slot) with
        | None => (Err MapInsertionError, mk (Some sc) (stats slot))
        | Some s =>
            (Ok tt, mk (Some sc)
              (Some (open_effect c (op =? BPF_SOCK_OPS_TCP_CONNECT_CB) now s)))
        end
    end
  else if is_known_event op then
    match touch now room_stats (stats slot) with
    | None => (Err MapInsertionError, slot)
    | Some s => (Ok tt, mk (props slot) (Some (effect c a0 a1 now s)))
    end
  else (Err OperationUnknown, slot).

(** What the event adds to the counters. *)
Definition contribution (c : SockOpsContext.t) (a0 a1 : Z) (res : SockOpsResult) :
    EventCounters.t :=
  let op := SockOpsContext.op c in
  let one (b : bool) : Z := if b then 1 else 0 in {|
  EventCounters.active_connect_events := one (op =? BPF_SOCK_OPS_TCP_CONNECT_CB);
  EventCounters.active_established_events := one (is_ok res && (op =? BPF_SOCK_OPS_STATE_CB)
    && (a1 =? BPF_TCP_ESTABLISHED) && (a0 =? BPF_TCP_SYN_SENT));
  EventCounters.passive_established_events := one (op =? BPF_SOCK_OPS_PASSIVE_ESTABLISHED_CB);
  EventCounters.state_change_events := one (op =? BPF_SOCK_OPS_STATE_CB);
  EventCounters.rtt_events := one (op =? BPF_SOCK_OPS_RTT_CB);
  EventCounters.retrans_events := one (op =? BPF_SOCK_OPS_RETRANS_CB);
  EventCounters.rto_events := one (op =? BPF_SOCK_OPS_RTO_CB);
  EventCounters.other_events := one (bool_decide (res = Err OperationUnknown));
  EventCounters.socket_events := 1;
  EventCounters.sockets_invalid := one (bool_decide (res = Err ContextInvalid));
  EventCounters.map_insertion_errors := one (bool_decide (res = Err MapInsertionError));
  EventCounters.rtts_invalid := one ((op =? BPF_SOCK_OPS_RTT_CB) && (a0 =? 0));
  EventCounters.set_flags_errors := one (bool_decide (res = Err SetCbFlagsError));
  EventCounters.other_errors := 0
|}.

(** The slot of a key in the maps, and the maps with that slot replaced. *)
Definition load (maps : EbpfMaps.t) (key : CpuSockKey.t) : t :=
  mk (SharedHashMap.data (EbpfMaps.NFM_SK_PROPS maps) !! key)
     (SharedHashMap.data (EbpfMaps.NFM_SK_STATS maps) !! key).

Definition put {V} (m : SharedHashMap.t CpuSockKey.t V) (key : CpuSockKey.t) (v : option V) :
    SharedHashMap.t CpuSockKey.t V :=
  SharedHashMap.mk (partial_alter (λ _, v) key (SharedHashMap.data m)) (SharedHashMap.capacity m).

Definition store (maps : EbpfMaps.t) (key : CpuSockKey.t) (slot : t) : EbpfMaps.t :=
  maps <| EbpfMaps.NFM_SK_PROPS ::= λ m, put m key (props slot) |>
       <| EbpfMaps.NFM_SK_STATS ::= λ m, put m key (stats slot) |>.

Definition add_counters (maps : EbpfMaps.t) (c : EventCounters.t) : EbpfMaps.t :=
  maps <| EbpfMaps.NFM_COUNTERS ::= alter (λ old, EventCounters.add_from old c) 0%nat |>.

End SockSlot.

(** ** The handler refines the slot transition *)
Module SockSlotFacts.
Import TcpSockOpsHandler.

Section map_slots.
Context {V : Type}.
Implicit Types m : SharedHashMap.t CpuSockKey.t V.

Lemma put_id m key : SockSlot.put m key (SharedHashMap.data m !! key) = m.
Proof. unfold SockSlot.put. rewrite partial_alter_self. by destruct m. Qed.

Lemma put_put m key v1 v2 : SockSlot.put (SockSlot.put m key v1) key v2 = SockSlot.put m key v2.
Proof. unfold SockSlot.put. simpl. by rewrite partial_alter_partial_alter_eq. Qed.

Lemma put_commute m k1 k2 v1 v2 :
  k1 ≠ k2 →
  SockSlot.put (SockSlot.put m k1 v1) k2 v2 = SockSlot.put (SockSlot.put m k2 v2) k1 v1.
Proof. intros. unfold SockSlot.put. simpl. f_equal. by apply partial_alter_partial_alter_ne. Qed.

Lemma put_lookup m key v : SharedHashMap.data (SockSlot.put m key v) !! key = v.
Proof. apply lookup_partial_alter_eq. Qed.

Lemma put_lookup_ne m key key' v :
  key ≠ key' → SharedHashMap.data (SockSlot.put m key v) !! key' = SharedHashMap.data m !! key'.
Proof. intros. by apply lookup_partial_alter_ne. Qed.

Lemma write_put m key v f :
  SharedHashMap.write (SockSlot.put m key (Some v)) key f = SockSlot.put m key (Some (f v)).
Proof.
  unfold SharedHashMap.write, SockSlot.put. simpl. f_equal.
  unfold alter, map_alter. by rewrite partial_alter_partial_alter_eq.
Qed.

Lemma insert_put m key v :
  SharedHashMap.mk (<[key := v]> (SharedHashMap.data m)) (SharedHashMap.capacity m) =
  SockSlot.put m key (Some v).
Proof. done. Qed.

Lemma write_as_put m key f v :
  SharedHashMap.data m !! key = Some v →
  SharedHashMap.write m key f = SockSlot.put m key (Some (f v)).
Proof. intros H. rewrite <- (put_id m key) at 1. by rewrite H, write_put. Qed.

Lemma get_ptr_mut_put m key v : SharedHashMap.get_ptr_mut (SockSlot.put m key (Some v)) key = Some key.
Proof. unfold SharedHashMap.get_ptr_mut. by rewrite put_lookup. Qed.

End map_slots.

(** The handler with the statistics entry of its key replaced. *)
Definition put_stats (self : t) (st : option SockStats.t) : t :=
  self <| mock_ebpf_maps ::= λ ms,
    ms <| EbpfMaps.NFM_SK_STATS ::= λ m, SockSlot.put m (composite_key self) st |> |>.

Definition insertion_error (self : t) : t :=
  self <| counters ::= λ c, c <| EventCounters.map_insertion_errors ::= bump u32 1 |> |>.

Definition stats_entry (self : t) : option SockStats.t :=
  SharedHashMap.data (EbpfMaps.NFM_SK_STATS (mock_ebpf_maps self)) !! composite_key self.

Definition stats_room (self : t) : bool :=
  SharedHashMap.has_room (EbpfMaps.NFM_SK_STATS (mock_ebpf_maps self)).

Lemma get_or_add_run self :
  get_or_add_sock_stats self =
  match SockSlot.touch (now_us self) (stats_room self) (stats_entry self) with
  | Some s => Some (Ok (composite_key self), put_stats self (Some s))
  | None => Some (Err MapInsertionError, insertion_error self)
  end.
Proof.
  destruct self as [c now ctr key [ctl cnt pr st rnd]].
  unfold get_or_add_sock_stats, mbind, M_bind, get_self, get_ptr_sk_stats, stats_entry, stats_room,
    put_stats, insertion_error, write_stats, insert_sk_stats, count, mret, M_ret.
  simpl. unfold SharedHashMap.get_ptr_mut at 1. destruct (SharedHashMap.data st !! key) as [s|] eqn:E.
  - simpl. by erewrite write_as_put.
  - simpl. rewrite SharedHashMap.insert_noexist, E. simpl.
    destruct (SharedHashMap.has_room st); simpl; [|done].
    rewrite insert_put. by rewrite get_ptr_mut_put.
Qed.

Lemma write_stats_run self s f key :
  key = composite_key self →
  write_stats key f (put_stats self (Some s)) = Some (tt, put_stats self (Some (f s))).
Proof.
  intros ->. unfold write_stats, put_stats. simpl. do 2 f_equal.
  destruct self as [? ? ? ? []]. simpl. by rewrite write_put.
Qed.

(** The same for the properties entry. *)
Definition put_props (self : t) (v : option SockContext.t) : t :=
  self <| mock_ebpf_maps ::= λ ms,
    ms <| EbpfMaps.NFM_SK_PROPS ::= λ m, SockSlot.put m (composite_key self) v |> |>.

(** Whether the key can be inserted into the properties map. *)
Definition props_free (self : t) : bool :=
  let m := EbpfMaps.NFM_SK_PROPS (mock_ebpf_maps self) in
  bool_decide (SharedHashMap.data m !! composite_key self = None) && SharedHashMap.has_room m.

Lemma insert_sk_props_run self sc :
  ∃ e, insert_sk_props (composite_key self) sc BPF_NOEXIST self =
  if props_free self then Some (Ok tt, put_props self (Some sc)) else Some (Err e, self).
Proof.
  destruct self as [c now ctr key [ctl cnt pr st rnd]].
  unfold insert_sk_props, props_free, put_props. simpl. rewrite SharedHashMap.insert_noexist.
  destruct (SharedHashMap.data pr !! key) eqn:E; simpl.
  - by eexists.
  - exists (- ENOMEM). by destruct (SharedHashMap.has_room pr).
Qed.

(** The shape shared by the handlers of known sockets: count the event, find the statistics and
    update them ([ok] is counted only then). *)
Definition counted (self : t) (f : EventCounters.t → EventCounters.t) : t := self <| counters ::= f |>.

Definition touched (self : t) (ok : EventCounters.t → EventCounters.t)
    (f : SockStats.t → SockStats.t) : option (SockOpsResult * t) :=
  match SockSlot.touch (now_us self) (stats_room self) (stats_entry self) with
  | Some s => Some (Ok tt, put_stats (counted self ok) (Some (f s)))
  | None => Some (Err MapInsertionError, insertion_error self)
  end.

Lemma bind_run {A B} (m : M A) (k : A → M B) self a self' :
  m self = Some (a, self') → (m ≫= k) self = k a self'.
Proof. intros H. unfold mbind, M_bind. by rewrite H. Qed.

Lemma bind_assoc_run {A B C} (m : M A) (k : A → M B) (k' : B → M C) self :
  ((m ≫= k) ≫= k') self = (m ≫= λ a, k a ≫= k') self.
Proof. unfold mbind, M_bind. by destruct (m self) as [[]|]. Qed.

Lemma count_run self f st :
  count f (put_stats self st) = Some (tt, put_stats (counted self f) st).
Proof. done. Qed.

(** [get_or_add_sock_stats] followed by anything. *)
Lemma bind_get_or_add {A} (k : Result CpuSockKey.t SockOpsResultCode → M A) self :
  (get_or_add_sock_stats ≫= k) self =
  match SockSlot.touch (now_us self) (stats_room self) (stats_entry self) with
  | Some s => k (Ok (composite_key self)) (put_stats self (Some s))
  | None => k (Err MapInsertionError) (insertion_error self)
  end.
Proof. unfold mbind, M_bind. rewrite get_or_add_run. by destruct (SockSlot.touch _ _ _). Qed.

(** Runs counting and writes on a handler whose statistics entry is known. *)
Ltac run_writes :=
  repeat (rewrite bind_assoc_run ||
    (erewrite bind_run by (apply write_stats_run; reflexivity)) ||
    (erewrite bind_run by apply count_run) ||
    (erewrite bind_run by reflexivity)).

Lemma touch_and_write_run self f :
  (stats ← get_or_add_sock_stats;
   match stats with
   | Ok sock_stats => _ ← write_stats sock_stats f; mret (Ok tt)
   | Err e => mret (Err e)
   end) self = touched self id f.
Proof.
  unfold mbind, M_bind, touched. rewrite get_or_add_run.
  destruct (SockSlot.touch _ _ _) as [s|]; [|done]. rewrite write_stats_run by done.
  by destruct self.
Qed.

Lemma touched_ext self ok f g : (∀ s, f s = g s) → touched self ok f = touched self ok g.
Proof. intros H. unfold touched. destruct (SockSlot.touch _ _ _); by rewrite ?H. Qed.

(** Runs the straight-line prefix of a handler: counting, reading the object and the arguments. *)
Ltac run_prefix :=
  repeat (erewrite bind_run by (unfold lift; simpl;
    first [reflexivity | match goal with H : _ = Some _ |- _ => rewrite H; reflexivity end])).

Ltac by_effect Hop :=
  apply touched_ext; intros ?s; unfold SockSlot.effect; simpl; rewrite Hop; simpl.

Section runs.
Context (self : t) (a0 a1 : Z).
Context (Ha0 : SockOpsContext.arg (ctx self) 0 = Some a0).
Context (Ha1 : SockOpsContext.arg (ctx self) 1 = Some a1).
Local Abbreviation event_effect := (SockSlot.effect (ctx self) a0 a1 (now_us self)).

Lemma handle_retransmit_run :
  SockOpsContext.op (ctx self) = BPF_SOCK_OPS_RETRANS_CB →
  handle_retransmit self =
  touched (counted self (λ c, c <| EventCounters.retrans_events ::= bump u32 1 |>)) id event_effect.
Proof.
  intros Hop. unfold handle_retransmit. run_prefix. etrans; [apply touch_and_write_run|].
  by_effect Hop. unfold is_syn_state. by repeat case_match.
Qed.

Lemma handle_rto_run :
  SockOpsContext.op (ctx self) = BPF_SOCK_OPS_RTO_CB →
  handle_rto self =
  touched (counted self (λ c, c <| EventCounters.rto_events ::= bump u32 1 |>)) id event_effect.
Proof.
  intros Hop. unfold handle_rto. run_prefix. etrans; [apply touch_and_write_run|].
  by_effect Hop. done.
Qed.

Lemma handle_bytes_run :
  SockOpsContext.op (ctx self) = BPF_SOCK_OPS_PARSE_HDR_OPT_CB ∨
  SockOpsContext.op (ctx self) = BPF_SOCK_OPS_HDR_OPT_LEN_CB →
  handle_bytes_transferred_event self = touched (counted self id) id event_effect.
Proof.
  intros Hop. unfold handle_bytes_transferred_event. run_prefix.
  etrans; [apply touch_and_write_run|]. replace (counted self id) with self by by destruct self.
  destruct Hop as [Hop|Hop]; by_effect Hop; done.
Qed.

Lemma handle_rtt_run :
  SockOpsContext.op (ctx self) = BPF_SOCK_OPS_RTT_CB →
  handle_rtt self =
  touched (counted self (λ c,
    let c := c <| EventCounters.rtt_events ::= bump u32 1 |> in
    if a0 =? 0 then c <| EventCounters.rtts_invalid ::= bump u32 1 |> else c)) id event_effect.
Proof.
  intros Hop. unfold handle_rtt. run_prefix.
  destruct (Z.eqb_spec a0 0) as [Hz|Hz]; run_prefix; (etrans; [apply touch_and_write_run|]);
    by_effect Hop; rewrite Z.shiftr_div_pow2 by lia; [by rewrite Hz|].
  by apply Z.eqb_neq in Hz as ->.
Qed.

Lemma handle_state_change_run :
  SockOpsContext.op (ctx self) = BPF_SOCK_OPS_STATE_CB →
  handle_state_change self =
  touched (counted self (λ c, c <| EventCounters.state_change_events ::= bump u32 1 |>))
    (λ c, if (a1 =? BPF_TCP_ESTABLISHED) && (a0 =? BPF_TCP_SYN_SENT)
          then c <| EventCounters.active_established_events ::= bump u32 1 |> else c)
    event_effect.
Proof.
  intros Hop. unfold handle_state_change. run_prefix.
  unfold touched. rewrite bind_get_or_add.
  destruct (SockSlot.touch _ _ _) as [s|]; [|done].
  unfold SockSlot.effect, SockSlot.transition_flags. simpl. rewrite Hop. simpl.
  destruct (a1 =? BPF_TCP_ESTABLISHED); simpl.
  - by destruct (a0 =? BPF_TCP_SYN_SENT); simpl; run_writes.
  - unfold is_syn_state. destruct (Z.eqb_spec a1 BPF_TCP_CLOSE) as [->|]; simpl.
    + destruct (_ || _); simpl; run_writes; by destruct (a0 =? BPF_TCP_ESTABLISHED).
    + destruct (_ || _); simpl; [|destruct (_ || _)]; by run_writes.
Qed.

End runs.

Lemma handle_new_sock_run self is_client set_cb_flags sc :
  SockContext.from_sock_ops (ctx self) is_client = Some sc →
  handle_new_sock set_cb_flags is_client self =
  if negb (SockContext.is_valid sc) then
    Some (Err ContextInvalid,
      counted self (λ c, c <| EventCounters.sockets_invalid ::= bump u32 1 |>))
  else if negb (props_free self) then Some (Err MapInsertionError, insertion_error self)
  else
    let self := put_props self (Some sc) in
    if negb (is_ok (set_cb_flags (ctx self) all_cb_flags)) then
      Some (Err SetCbFlagsError,
        counted self (λ c, c <| EventCounters.set_flags_errors ::= bump u32 1 |>))
    else touched self id (SockSlot.open_effect (ctx self) is_client (now_us self)).
Proof.
  intros Hsc. unfold handle_new_sock. erewrite bind_run by done.
  erewrite bind_run by (unfold lift; by rewrite Hsc).
  destruct (SockContext.is_valid sc); simpl; [|done].
  destruct (insert_sk_props_run self sc) as [e He].
  destruct (props_free self); (erewrite bind_run by exact He); simpl; [|done].
  unfold configure_flags. rewrite bind_assoc_run. erewrite bind_run by done. simpl.
  destruct (set_cb_flags (ctx self) all_cb_flags); simpl; [|done].
  erewrite bind_run by done. cbv beta iota. rewrite bind_get_or_add.
  unfold touched, SockSlot.open_effect. simpl. destruct (SockSlot.touch _ _ _) as [s|]; [|done].
  destruct is_client, (SockOpsContext.sock_state (ctx self) =? BPF_TCP_ESTABLISHED); by run_writes.
Qed.
(** One event, from the maps to the maps. *)
Definition run_event (cpu : Z) (set_cb_flags : SockOpsContext.t → Z → Result unit Z)
    (c : SockOpsContext.t) (now : Z) (maps : EbpfMaps.t) : option (SockOpsResult * EbpfMaps.t) :=
  match handle_socket_event cpu set_cb_flags (new c now maps) with
  | Some (res, self) => Some (res, mock_ebpf_maps self)
  | None => None
  end.

Definition event_key (cpu : Z) (c : SockOpsContext.t) : CpuSockKey.t :=
  CpuSockKey.mk cpu (SockOpsContext.cookie c).

(** The outcome of a handler: its result, its counters and its maps. *)
Definition outcome (o : option (SockOpsResult * t)) :
    option (SockOpsResult * EventCounters.t * EbpfMaps.t) :=
  match o with
  | Some (res, self) => Some (res, counters self, mock_ebpf_maps self)
  | None => None
  end.

Lemma persist_counters_run self :
  ∃ self', persist_counters self = Some (tt, self') ∧
    mock_ebpf_maps self' = SockSlot.add_counters (mock_ebpf_maps self) (counters self).
Proof.
  eexists. split; [done|]. simpl. unfold SockSlot.add_counters, SharedArray.get_ptr_mut.
  destruct (mock_ebpf_maps self) as [ctl [|c l] pr st rnd]; done.
Qed.

Lemma run_event_outcome cpu set_cb_flags c now maps :
  let self := set_composite_key cpu (counted (new c now maps)
    (λ c, c <| EventCounters.socket_events ::= bump u32 1 |>)) in
  run_event cpu set_cb_flags c now maps =
  '(_, self) ← self;
  '(res, ctr, ms) ← outcome (dispatch set_cb_flags (SockOpsContext.op c) self);
  Some (res, SockSlot.add_counters ms ctr).
Proof.
  unfold run_event, handle_socket_event. erewrite bind_run by done. erewrite bind_run by done.
  erewrite bind_run by done. simpl. unfold mbind at 1, M_bind at 1.
  destruct (dispatch set_cb_flags (SockOpsContext.op c) _) as [[res self]|]; [|done].
  destruct (persist_counters_run self) as (self' & Hrun & Hmaps).
  erewrite bind_run by exact Hrun. simpl. by rewrite Hmaps.
Qed.

Section refinement.
Context (cpu : Z) (set_cb_flags : SockOpsContext.t → Z → Result unit Z).
Context (c : SockOpsContext.t) (now : Z) (maps : EbpfMaps.t) (a0 a1 : Z) (sc : SockContext.t).
Context (Ha0 : SockOpsContext.arg c 0 = Some a0) (Ha1 : SockOpsContext.arg c 1 = Some a1).

Local Abbreviation op := (SockOpsContext.op c).
Local Abbreviation key := (event_key cpu c).
Local Abbreviation is_client := (op =? BPF_SOCK_OPS_TCP_CONNECT_CB).
Local Abbreviation slot_step := (SockSlot.step (is_ok (set_cb_flags c all_cb_flags))
  (SharedHashMap.has_room (EbpfMaps.NFM_SK_PROPS maps))
  (SharedHashMap.has_room (EbpfMaps.NFM_SK_STATS maps)) c sc a0 a1 now (SockSlot.load maps key)).

Context (Hsc : BpfControlConveyor.is_new_sock_event op = true →
  SockContext.from_sock_ops c is_client = Some sc).

Definition started (f : EventCounters.t → EventCounters.t) : t :=
  mk c now (f (EventCounters.default <| EventCounters.socket_events := 1 |>)) key maps.

Lemma store_load : SockSlot.store maps key (SockSlot.load maps key) = maps.
Proof. destruct maps. unfold SockSlot.store, SockSlot.load. simpl. by rewrite !put_id. Qed.

Lemma outcome_touched f ok g :
  outcome (touched (started f) ok g) =
  match SockSlot.touch now (SharedHashMap.has_room (EbpfMaps.NFM_SK_STATS maps))
    (SockSlot.stats (SockSlot.load maps key)) with
  | Some s => Some (Ok tt, ok (counters (started f)),
      SockSlot.store maps key (SockSlot.mk (SockSlot.props (SockSlot.load maps key)) (Some (g s))))
  | None => Some (Err MapInsertionError, counters (insertion_error (started f)),
      SockSlot.store maps key (SockSlot.load maps key))
  end.
Proof.
  rewrite store_load. unfold touched, stats_room, stats_entry, SockSlot.load. simpl.
  destruct (SockSlot.touch _ _ _); [|done]. simpl. unfold SockSlot.store. simpl. by rewrite put_id.
Qed.

(** An event of a known socket, given the run of its handler. *)
Ltac known_event Hop :=
  etrans; [eapply (outcome_touched (λ c, _ c))|];
  unfold SockSlot.step, SockSlot.contribution; rewrite Hop; simpl;
  destruct (SockSlot.touch _ _ _); simpl; try done.

(** An event that opens a socket. *)
Ltac new_sock_event Hop :=
  rewrite Hop in Hsc; (erewrite handle_new_sock_run by (apply Hsc; done));
  unfold SockSlot.step, SockSlot.contribution; rewrite Hop; simpl;
  destruct (SockContext.is_valid sc); simpl; [|by rewrite store_load];
  unfold props_free; simpl;
  destruct (SharedHashMap.data (EbpfMaps.NFM_SK_PROPS maps) !! event_key cpu c); simpl;
  [by rewrite store_load|];
  destruct (SharedHashMap.has_room (EbpfMaps.NFM_SK_PROPS maps)); simpl; [|by rewrite store_load];
  destruct (is_ok (set_cb_flags c all_cb_flags)); simpl;
  [|unfold SockSlot.store; simpl; by rewrite put_id];
  unfold touched, stats_room, stats_entry; simpl;
  destruct (SockSlot.touch _ _ _); simpl; [done|unfold SockSlot.store; simpl; by rewrite put_id].

(** The effect of the handler's dispatch, per operation. *)
Lemma dispatch_outcome :
  outcome (dispatch set_cb_flags op (started id)) =
  let '(res, slot') := slot_step in
  Some (res, SockSlot.contribution c a0 a1 res, SockSlot.store maps key slot').
Proof.
  unfold dispatch.
  destruct (Z.eqb_spec op BPF_SOCK_OPS_TCP_CONNECT_CB) as [Hop|];
    [|destruct (Z.eqb_spec op BPF_SOCK_OPS_PASSIVE_ESTABLISHED_CB) as [Hop|]].
  - unfold handle_connect. erewrite bind_run by done. new_sock_event Hop.
  - unfold handle_passive_established. erewrite bind_run by done. new_sock_event Hop.
  - destruct (Z.eqb_spec op BPF_SOCK_OPS_STATE_CB) as [Hop|].
    { rewrite (handle_state_change_run _ a0 a1) by done. known_event Hop.
      by destruct (_ && _). }
    destruct (Z.eqb_spec op BPF_SOCK_OPS_RTT_CB) as [Hop|].
    { rewrite (handle_rtt_run _ a0 a1) by done. known_event Hop; by destruct (a0 =? 0). }
    destruct (Z.eqb_spec op BPF_SOCK_OPS_RETRANS_CB) as [Hop|].
    { rewrite (handle_retransmit_run _ a0 a1) by done. known_event Hop. }
    destruct (Z.eqb_spec op BPF_SOCK_OPS_RTO_CB) as [Hop|].
    { rewrite (handle_rto_run _ a0 a1) by done. known_event Hop. }
    destruct (Z.eqb_spec op BPF_SOCK_OPS_PARSE_HDR_OPT_CB) as [Hop|].
    { rewrite (handle_bytes_run _ a0 a1) by auto. known_event Hop. }
    destruct (Z.eqb_spec op BPF_SOCK_OPS_HDR_OPT_LEN_CB) as [Hop|].
    { rewrite (handle_bytes_run _ a0 a1) by auto. known_event Hop. }
    unfold SockSlot.step, SockSlot.contribution, BpfControlConveyor.is_new_sock_event,
      SockSlot.is_known_event.
    repeat match goal with H : op ≠ _ |- _ => apply Z.eqb_neq in H; rewrite !H; clear H end.
    simpl. by rewrite store_load.
Qed.

Lemma handle_socket_event_slot :
  run_event cpu set_cb_flags c now maps =
  let '(res, slot') := slot_step in
  Some (res, SockSlot.add_counters (SockSlot.store maps key slot')
               (SockSlot.contribution c a0 a1 res)).
Proof.
  rewrite run_event_outcome. simpl. pose proof dispatch_outcome as Hd.
  unfold started in Hd. simpl in Hd.
  change (bump u32 1 0) with 1. fold (event_key cpu c). rewrite Hd. by destruct slot_step.
Qed.

End refinement.

End SockSlotFacts.

(** ** Invariants of the maps *)
Module MapInvariant.
Import TcpSockOpsHandler SockSlotFacts.

(** What the kernel promises of an event: its fields fit, and both ports are 16-bit. *)
Definition kernel_event (c : SockOpsContext.t) : Prop :=
  SockOpsContext.wf c ∧ in_range u16 (SockOpsContext.local_port c) ∧
  in_range u16 (SockContext.from_be32 (SockOpsContext.remote_port c)).

(** The flags tell a consistent story: nothing terminates or closes without closure having
    started, and a termination from the established state is a close. *)
Definition flags_ok (fl : Z) : Prop :=
  0 ≤ fl < 64 ∧
  (Z.testbit fl 3 = true → Z.testbit fl 2 = true) ∧
  (Z.testbit fl 4 = true → Z.testbit fl 5 = true) ∧
  (Z.testbit fl 5 = true → Z.testbit fl 2 = true).

Definition stats_ok (now : Z) (s : SockStats.t) : Prop :=
  SockStats.wf s ∧ flags_ok (SockStats.state_flags s) ∧
  SockStats.last_touched_us s ≤ now ∧
  SockStats.connect_start_us s ≤ SockStats.last_touched_us s ∧
  SockStats.connect_end_us s ≤ SockStats.last_touched_us s.

Definition props_ok (sc : SockContext.t) : Prop :=
  SockContext.wf sc ∧ SockContext.is_valid sc = true.

Definition slot_ok (now : Z) (slot : SockSlot.t) : Prop :=
  (∀ sc, SockSlot.props slot = Some sc → props_ok sc) ∧
  (∀ s, SockSlot.stats slot = Some s → stats_ok now s).

Record maps_ok (now : Z) (maps : EbpfMaps.t) : Prop := {
  maps_slots : ∀ key, slot_ok now (SockSlot.load maps key);
  maps_props_bounded : SharedHashMap.bounded (EbpfMaps.NFM_SK_PROPS maps);
  maps_stats_bounded : SharedHashMap.bounded (EbpfMaps.NFM_SK_STATS maps);
  maps_counters : Forall EventCounters.wf (EbpfMaps.NFM_COUNTERS maps);
  maps_arrays : length (EbpfMaps.NFM_COUNTERS maps) = 1%nat ∧
    length (EbpfMaps.NFM_CONTROL maps) = 1%nat
}.

Lemma flags_lor a b : flags_ok a → flags_ok b → flags_ok (Z.lor a b).
Proof.
  unfold flags_ok. rewrite !Z.lor_spec. intros (Ha & Ha1 & Ha2 & Ha3) (Hb & Hb1 & Hb2 & Hb3).
  split; [apply (SockStatsFacts.lor_range 6); unfold in_range; lia|].
  rewrite !orb_true_iff. split_and!; intros []; auto.
Qed.

Lemma flags_ok_transition a0 a1 : flags_ok (SockSlot.transition_flags a0 a1).
Proof.
  unfold SockSlot.transition_flags.
  destruct (a1 =? BPF_TCP_ESTABLISHED), (is_syn_state a1), (is_syn_state a0), (a1 =? BPF_TCP_CLOSE),
    (a0 =? BPF_TCP_ESTABLISHED); split_and!; (done || by vm_compute; intros).
Qed.

Lemma bump_range w n x : 0 ≤ w → in_range w (bump w n x).
Proof. apply wrapping_add_range. Qed.

Lemma flags_range fl : flags_ok fl → in_range u32 fl.
Proof. unfold flags_ok, in_range. lia. Qed.

Lemma arg_range c n a : SockOpsContext.wf c → SockOpsContext.arg c n = Some a → in_range u32 a.
Proof. intros (_ & Ha & _) H. by eapply Forall_lookup_1 in H. Qed.

Lemma div_range w x d : 0 < d → in_range w x → in_range w (x / d).
Proof. unfold in_range. intros. split; [apply Z.div_pos; lia|]. apply Z.div_lt_upper_bound; nia. Qed.

Lemma stats_ok_touch now now' room st s :
  (∀ s, st = Some s → stats_ok now s) → now ≤ now' → in_range u64 now' →
  SockSlot.touch now' room st = Some s →
  stats_ok now' s ∧ SockStats.last_touched_us s = now'.
Proof.
  intros Hst Hle Hnow. unfold SockSlot.touch.
  destruct st as [s0|]; [|destruct room; [|done]]; intros [= <-].
  - specialize (Hst s0 eq_refl) as (Hwf & Hfl & Hlt & Hcs & Hce). simpl. split; [|done].
    unfold stats_ok. simpl. split_and!; try done; try lia.
    unfold SockStats.wf in *. simpl. destruct_and!. split_and!; done.
  - pose proof SockStatsFacts.stats_default_wf as Hwf. split; [|done].
    unfold in_range in Hnow. split; [|split_and!; simpl; try done; lia].
    unfold SockStats.wf in *. simpl. destruct_and!. split_and!; done.
Qed.

(** Splits the well-formedness of an updated record into its fields. *)
Ltac stats_fields H :=
  unfold stats_ok, SockStats.wf in H |- *; simpl in H |- *; destruct_and!;
  split_and!; try done; auto using bump_range with lia.

Lemma store_transferred_ok now ev s :
  SockOpsStats.wf ev → stats_ok now s → stats_ok now (store_transferred ev s).
Proof. intros (? & ? & ? & ? & ?) Hs. stats_fields Hs. Qed.

Lemma stats_ok_flags now s fl :
  stats_ok now s → flags_ok fl →
  stats_ok now (s <| SockStats.state_flags ::= λ old, Z.lor old fl |>).
Proof.
  intros Hs Hfl. assert (flags_ok (Z.lor (SockStats.state_flags s) fl)) as Hor
    by (apply flags_lor; [apply Hs|done]).
  pose proof (flags_range _ Hor). stats_fields Hs.
Qed.

Lemma stats_ok_effect c a0 a1 now s :
  SockOpsContext.wf c → in_range u32 a0 → in_range u32 a1 → in_range u64 now →
  stats_ok now s → SockStats.last_touched_us s = now →
  stats_ok now (SockSlot.effect c a0 a1 now s).
Proof.
  intros Hc H0 H1 Hn Hs Ht.
  assert (SockOpsStats.wf (SockOpsContext.stats c)) as Hev by (unfold SockOpsContext.wf in Hc; tauto).
  assert (in_range u32 (SockOpsStats.srtt_us (SockOpsContext.stats c))) as Hrtt
    by (unfold SockOpsStats.wf in Hev; tauto).
  unfold SockSlot.effect. destruct (_ =? BPF_SOCK_OPS_STATE_CB).
  { apply stats_ok_flags; [|apply flags_ok_transition].
    destruct (a1 =? BPF_TCP_ESTABLISHED); [|case_match; auto using store_transferred_ok].
    destruct (a0 =? BPF_TCP_SYN_SENT); stats_fields Hs; lia. }
  destruct (_ =? BPF_SOCK_OPS_RTT_CB).
  { apply store_transferred_ok; [done|]. stats_fields Hs; case_match; auto using div_range with lia. }
  destruct (_ =? BPF_SOCK_OPS_RETRANS_CB); [repeat case_match; stats_fields Hs|].
  destruct (_ =? BPF_SOCK_OPS_RTO_CB); [repeat case_match; stats_fields Hs|].
  by apply store_transferred_ok.
Qed.

Lemma stats_ok_open c is_client now s :
  in_range u64 now → stats_ok now s → SockStats.last_touched_us s = now →
  stats_ok now (SockSlot.open_effect c is_client now s).
Proof.
  intros Hn Hs Ht. unfold SockSlot.open_effect.
  assert (stats_ok now (if is_client
    then s <| SockStats.connect_start_us := now |> <| SockStats.connect_attempts ::= bump u8 1 |>
    else s <| SockStats.connect_start_us := now |>)) as Hok by (destruct is_client; stats_fields Hs; lia).
  destruct (_ =? BPF_TCP_ESTABLISHED); [|by destruct is_client].
  apply (stats_ok_flags _ _ SockStateFlags.ENTERED_ESTABLISH).
  - by destruct is_client.
  - split_and!; by vm_compute.
Qed.

Section slot_steps.
Context (fs rp rs : bool) (c : SockOpsContext.t) (sc : SockContext.t) (a0 a1 now now' : Z).
Implicit Types slot : SockSlot.t.

(** Every branch of the transition keeps a slot well formed. *)
Lemma step_ok slot :
  SockOpsContext.wf c → (SockContext.is_valid sc = true → props_ok sc) →
  in_range u32 a0 → in_range u32 a1 → now ≤ now' → in_range u64 now' →
  slot_ok now slot → slot_ok now' (SockSlot.step fs rp rs c sc a0 a1 now' slot).2.
Proof.
  intros Hc Hsc H0 H1 Hle Hn [Hp Hs].
  assert (∀ s, stats_ok now s → stats_ok now' s) as Hmono
    by (intros s (? & ? & ? & ? & ?); unfold stats_ok; split_and!; auto; lia).
  assert (slot_ok now' slot) as Hslot by (split; auto).
  unfold SockSlot.step. case_match; [|case_match; [|done]].
  - destruct (SockContext.is_valid sc) eqn:Hv; simpl; [|done].
    destruct (SockSlot.props slot) as [sc0|] eqn:Ep; [done|]. destruct rp; simpl; [|done].
    assert (∀ st, (∀ s, st = Some s → stats_ok now' s) → slot_ok now' (SockSlot.mk (Some sc) st))
      as Hmk by (split; simpl; [intros ? [= <-]; auto|done]).
    destruct fs; simpl; [|by apply Hmk; auto].
    destruct (SockSlot.touch _ _ _) as [s|] eqn:Et; simpl; apply Hmk; [|auto].
    intros ? [= <-]. apply (stats_ok_touch now) in Et as [? ?]; auto. by apply stats_ok_open.
  - destruct (SockSlot.touch _ _ _) as [s|] eqn:Et; simpl; [|done]. split; simpl; [done|].
    intros ? [= <-]. apply (stats_ok_touch now) in Et as [? ?]; auto. by apply stats_ok_effect.
Qed.

(** A slot is filled only where there is room, and never emptied. *)
Definition fills {V} (room : bool) (before after : option V) : Prop :=
  is_Some before ∨ after = None ∨ room = true.

Lemma step_fills slot :
  let slot' := (SockSlot.step fs rp rs c sc a0 a1 now slot).2 in
  fills rp (SockSlot.props slot) (SockSlot.props slot') ∧
  fills rs (SockSlot.stats slot) (SockSlot.stats slot').
Proof.
  unfold SockSlot.step, SockSlot.touch, fills, is_Some. destruct slot as [[p|] [s|]], rp, rs, fs; simpl;
    repeat (case_match; simpl; subst; simplify_eq); split; eauto.
Qed.

(** Neither entry is ever removed by an event. *)
Lemma step_keeps slot :
  let slot' := (SockSlot.step fs rp rs c sc a0 a1 now slot).2 in
  (is_Some (SockSlot.props slot) → SockSlot.props slot' = SockSlot.props slot) ∧
  (is_Some (SockSlot.stats slot) → is_Some (SockSlot.stats slot')).
Proof.
  unfold SockSlot.step, SockSlot.touch. destruct slot as [[p|] [s|]]; simpl;
    repeat (case_match; simpl; subst; simplify_eq); split; eauto; by intros [].
Qed.

End slot_steps.

Lemma put_bounded {V} (m : SharedHashMap.t CpuSockKey.t V) key v :
  SharedHashMap.bounded m →
  fills (SharedHashMap.has_room m) (SharedHashMap.data m !! key) v →
  SharedHashMap.bounded (SockSlot.put m key v).
Proof.
  unfold SharedHashMap.bounded, SharedHashMap.has_room, SockSlot.put, fills. simpl. intros Hb Hf.
  destruct v as [v|].
  - change (partial_alter (λ _, Some v) key (SharedHashMap.data m))
      with (<[key := v]> (SharedHashMap.data m)).
    rewrite map_size_insert. destruct (SharedHashMap.data m !! key); [done|].
    destruct Hf as [[? ?]|[?|Hr]]; [done|done|]. apply negb_true_iff, Z.leb_gt in Hr. lia.
  - change (partial_alter (λ _, None) key (SharedHashMap.data m))
      with (delete key (SharedHashMap.data m)).
    rewrite map_size_delete. destruct (SharedHashMap.data m !! key); simpl; lia.
Qed.

Lemma kernel_event_args c :
  kernel_event c → ∃ a0 a1 sc,
    SockOpsContext.arg c 0 = Some a0 ∧ SockOpsContext.arg c 1 = Some a1 ∧
    in_range u32 a0 ∧ in_range u32 a1 ∧
    SockContext.from_sock_ops c (SockOpsContext.op c =? BPF_SOCK_OPS_TCP_CONNECT_CB) = Some sc ∧
    SockContext.wf sc.
Proof.
  intros (Hc & Hp1 & Hp2). assert (Hwf := Hc). destruct Hc as (Hlen & _).
  destruct (proj2 (SockContextFacts.from_sock_ops_total c
    (SockOpsContext.op c =? BPF_SOCK_OPS_TCP_CONNECT_CB)) (conj Hp1 Hp2)) as [sc Hsc].
  destruct (lookup_lt_is_Some_2 (SockOpsContext.args c) 0) as [a0 H0]; [lia|].
  destruct (lookup_lt_is_Some_2 (SockOpsContext.args c) 1) as [a1 H1]; [lia|].
  exists a0, a1, sc. split_and!; try done; try by eapply arg_range.
  by eapply SockContextFacts.from_sock_ops_wf.
Qed.

(** The slot transition of a kernel event. *)
Lemma kernel_event_slot cpu scb c now maps :
  kernel_event c → ∃ a0 a1 sc,
    in_range u32 a0 ∧ in_range u32 a1 ∧ SockContext.wf sc ∧
    run_event cpu scb c now maps =
    let '(res, slot') := SockSlot.step (is_ok (scb c all_cb_flags))
      (SharedHashMap.has_room (EbpfMaps.NFM_SK_PROPS maps))
      (SharedHashMap.has_room (EbpfMaps.NFM_SK_STATS maps)) c sc a0 a1 now
      (SockSlot.load maps (event_key cpu c)) in
    Some (res, SockSlot.add_counters (SockSlot.store maps (event_key cpu c) slot')
                 (SockSlot.contribution c a0 a1 res)).
Proof.
  intros (a0 & a1 & sc & H0 & H1 & Hr0 & Hr1 & Hsc & Hwf)%kernel_event_args.
  exists a0, a1, sc. split_and!; try done. by apply handle_socket_event_slot.
Qed.

Lemma load_other maps key key' slot c :
  key ≠ key' →
  SockSlot.load (SockSlot.add_counters (SockSlot.store maps key slot) c) key' =
  SockSlot.load maps key'.
Proof. intros. unfold SockSlot.load. simpl. by rewrite !lookup_partial_alter_ne. Qed.

Lemma load_same maps key slot c :
  SockSlot.load (SockSlot.add_counters (SockSlot.store maps key slot) c) key = slot.
Proof. unfold SockSlot.load. simpl. rewrite !lookup_partial_alter_eq. by destruct slot. Qed.

Lemma slot_ok_mono now now' slot : now ≤ now' → slot_ok now slot → slot_ok now' slot.
Proof.
  intros ? [Hp Hs]. split; [done|]. intros s (? & ? & ? & ? & ?)%Hs.
  unfold stats_ok. split_and!; auto; lia.
Qed.

(** The invariant is kept by every event. *)
Lemma run_event_ok cpu scb c now now' maps res maps' :
  kernel_event c → now ≤ now' → in_range u64 now' → maps_ok now maps →
  run_event cpu scb c now' maps = Some (res, maps') → maps_ok now' maps'.
Proof.
  intros Hc Hle Hn [Hslots Hpb Hsb Hcnt [Harr1 Harr2]].
  destruct (kernel_event_slot cpu scb c now' maps Hc) as (a0 & a1 & sc & H0 & H1 & Hsc & ->).
  pose proof (step_ok (is_ok (scb c all_cb_flags)) (SharedHashMap.has_room (EbpfMaps.NFM_SK_PROPS maps))
    (SharedHashMap.has_room (EbpfMaps.NFM_SK_STATS maps)) c sc a0 a1 now now' _ (proj1 Hc)
    (λ Hv, conj Hsc Hv) H0 H1 Hle Hn (Hslots (event_key cpu c))) as Hok.
  pose proof (step_fills (is_ok (scb c all_cb_flags))
    (SharedHashMap.has_room (EbpfMaps.NFM_SK_PROPS maps))
    (SharedHashMap.has_room (EbpfMaps.NFM_SK_STATS maps)) c sc a0 a1 now'
    (SockSlot.load maps (event_key cpu c))) as [Hf1 Hf2].
  destruct (SockSlot.step _ _ _ _ _ _ _ _ _) as [res' slot']. intros [= -> <-]. constructor.
  - intros key. destruct (decide (event_key cpu c = key)) as [<-|Hne]; [by rewrite load_same|].
    rewrite load_other by done. by eapply slot_ok_mono.
  - by apply put_bounded.
  - by apply put_bounded.
  - simpl. apply Forall_alter; [done|]. intros. apply EventCountersFacts.counters_add_from_wf.
  - simpl. by rewrite length_alter.
Qed.

(** *** The counters of one event *)

Lemma contribution_wf c a0 a1 res : EventCounters.wf (SockSlot.contribution c a0 a1 res).
Proof. split_and!; simpl; first [case_match|idtac]; unfold in_range; lia. Qed.

Lemma step_result fs rp rs c sc a0 a1 now slot :
  let res := (SockSlot.step fs rp rs c sc a0 a1 now slot).1 in
  res ∈ [Ok tt; Err ContextInvalid; Err MapInsertionError; Err SetCbFlagsError;
         Err OperationUnknown] ∧
  (res = Err OperationUnknown ↔
   BpfControlConveyor.is_new_sock_event (SockOpsContext.op c) = false ∧
   SockSlot.is_known_event (SockOpsContext.op c) = false).
Proof.
  unfold SockSlot.step. split; [repeat (case_match; simpl); set_solver|].
  repeat (case_match; simpl); naive_solver.
Qed.

(** *** All reachable maps

    Between events, user space evicts entries and sets the sampling interval; time does not run
    backwards; the source of randomness may change at will. *)
Inductive map_step : EbpfMaps.t * Z → EbpfMaps.t * Z → Prop :=
| step_event maps now now' cpu scb c maps' :
    kernel_event c → now ≤ now' → in_range u64 now' →
    nfm_sock_ops cpu scb c now' maps = Some maps' → map_step (maps, now) (maps', now')
| step_evict_props maps now key :
    map_step (maps, now)
      (maps <| EbpfMaps.NFM_SK_PROPS ::= λ m, (SharedHashMap.remove m key).2 |>, now)
| step_evict_stats maps now key :
    map_step (maps, now)
      (maps <| EbpfMaps.NFM_SK_STATS ::= λ m, (SharedHashMap.remove m key).2 |>, now)
| step_set_sampling maps now v control :
    SharedArray.insert (EbpfMaps.NFM_CONTROL maps) 0 v = Some control →
    map_step (maps, now) (maps <| EbpfMaps.NFM_CONTROL := control |>, now)
| step_rand maps now r :
    map_step (maps, now) (maps <| EbpfMaps.mock_rand := r |>, now).

Lemma remove_lookup {V} (m : SharedHashMap.t CpuSockKey.t V) key key' v :
  SharedHashMap.data (SharedHashMap.remove m key).2 !! key' = Some v →
  SharedHashMap.data m !! key' = Some v.
Proof.
  unfold SharedHashMap.remove. destruct (SharedHashMap.data m !! key); simpl; [|done].
  by intros [_ ?]%lookup_delete_Some.
Qed.

Lemma nfm_sock_ops_run cpu scb c now maps maps' :
  nfm_sock_ops cpu scb c now maps = Some maps' →
  (BpfControlConveyor.should_handle_event maps (SockOpsContext.op c) = false ∧ maps' = maps) ∨
  (BpfControlConveyor.should_handle_event maps (SockOpsContext.op c) = true ∧
   ∃ res, run_event cpu scb c now maps = Some (res, maps')).
Proof.
  unfold nfm_sock_ops, run_event. destruct (BpfControlConveyor.should_handle_event _ _); [|naive_solver].
  destruct (handle_socket_event _ _ _) as [[res self]|]; simpl; [|done]. intros [= <-]. eauto.
Qed.

Lemma maps_ok_mono now now' maps : now ≤ now' → maps_ok now maps → maps_ok now' maps.
Proof. intros ? [? ? ? ? ?]. constructor; try done. intros. by eapply slot_ok_mono. Qed.

Lemma map_step_ok st st' : map_step st st' → maps_ok st.2 st.1 → maps_ok st'.2 st'.1.
Proof.
  destruct 1 as [maps now now' cpu scb c maps' Hc ? ? Hrun|maps now key|maps now key
    |maps now v control Hins|maps now r]; simpl; intros Hok.
  - apply nfm_sock_ops_run in Hrun as [[_ ->]|[_ [res Hrun]]]; [by eapply maps_ok_mono|].
    by eapply run_event_ok in Hrun.
  - destruct Hok as [Hs ? ? ? ?]. constructor; simpl; try done; [|by apply SharedHashMap.remove_bounded].
    intros k. destruct (Hs k) as [Hp ?]. split; [|done]. intros sc. simpl. intros ?%remove_lookup. auto.
  - destruct Hok as [Hs ? ? ? ?]. constructor; simpl; try done; [|by apply SharedHashMap.remove_bounded].
    intros k. destruct (Hs k) as [? Hp]. split; [done|]. intros sc. simpl. intros ?%remove_lookup. auto.
  - destruct Hok as [? ? ? ? [? ?]]. constructor; simpl; try done. split; [done|].
    unfold SharedArray.insert in Hins. case_bool_decide; simplify_eq. by rewrite length_insert.
  - destruct Hok. by constructor.
Qed.

Lemma new_maps_ok now : maps_ok now EbpfMaps.new.
Proof.
  constructor; simpl; try (unfold SharedHashMap.bounded; simpl; rewrite map_size_empty; done).
  - intros key. split; intros ?; simpl; by rewrite lookup_empty.
  - repeat constructor; apply EventCountersFacts.counters_default_wf.
  - done.
Qed.

(** *** Independence of events of different slots *)

Definition room_for_two {V} (m : SharedHashMap.t CpuSockKey.t V) : Prop :=
  Z.of_nat (size (SharedHashMap.data m)) + 2 ≤ SharedHashMap.capacity m.

Lemma has_room_before {V} (m : SharedHashMap.t CpuSockKey.t V) :
  room_for_two m → SharedHashMap.has_room m = true.
Proof. unfold room_for_two, SharedHashMap.has_room. intros. apply negb_true_iff. lia. Qed.

Lemma has_room_put {V} (m : SharedHashMap.t CpuSockKey.t V) key v :
  room_for_two m → SharedHashMap.has_room (SockSlot.put m key v) = true.
Proof.
  unfold room_for_two, SharedHashMap.has_room, SockSlot.put. simpl. intros.
  apply negb_true_iff, Z.leb_gt. destruct v as [v|].
  - change (partial_alter (λ _, Some v) key (SharedHashMap.data m))
      with (<[key := v]> (SharedHashMap.data m)).
    rewrite map_size_insert. destruct (SharedHashMap.data m !! key); simpl; lia.
  - change (partial_alter (λ _, None) key (SharedHashMap.data m))
      with (delete key (SharedHashMap.data m)).
    rewrite map_size_delete. destruct (SharedHashMap.data m !! key); simpl; lia.
Qed.

Lemma store_commute maps k1 k2 s1 s2 c1 c2 :
  k1 ≠ k2 →
  SockSlot.add_counters (SockSlot.store
    (SockSlot.add_counters (SockSlot.store maps k1 s1) c1) k2 s2) c2 =
  SockSlot.add_counters (SockSlot.store
    (SockSlot.add_counters (SockSlot.store maps k2 s2) c2) k1 s1) c1.
Proof.
  intros. unfold SockSlot.add_counters, SockSlot.store. simpl.
  rewrite (put_commute _ k1 k2), (put_commute _ k1 k2) by done. f_equal.
  rewrite !list_alter_alter_eq. apply list_alter_ext; [|done]. intros x _. simpl.
  rewrite <- !EventCountersFacts.counters_add_from_assoc. f_equal.
  apply EventCountersFacts.counters_add_from_comm.
Qed.

(** Events as a batch: the maps after each of them in turn, and their results. *)
Definition event : Type := Z * SockOpsContext.t * Z.

Definition run_events (scb : SockOpsContext.t → Z → Result unit Z) (maps : EbpfMaps.t)
    (l : list event) : option (list SockOpsResult * EbpfMaps.t) :=
  foldM (λ '(rs, ms) '(cpu, c, now),
    '(r, ms') ← run_event cpu scb c now ms; Some (rs ++ [r], ms')) ([], maps) l.

(** *** Slots along a run *)

(** An event of a socket that has statistics updates them, whatever the room. *)
Lemma known_event_load cpu scb c now maps a0 a1 p s :
  SockOpsContext.args c = [a0; a1] → SockSlot.is_known_event (SockOpsContext.op c) = true →
  BpfControlConveyor.is_new_sock_event (SockOpsContext.op c) = false →
  SockSlot.load maps (event_key cpu c) = SockSlot.mk p (Some s) →
  ∃ maps', run_event cpu scb c now maps = Some (Ok tt, maps') ∧
    SockSlot.load maps' (event_key cpu c) = SockSlot.mk p
      (Some (SockSlot.effect c a0 a1 now (s <| SockStats.last_touched_us := now |>))).
Proof.
  intros Ha Hk Hn Hl.
  rewrite (handle_socket_event_slot cpu scb c now maps a0 a1 SockContext.default);
    [|by unfold SockOpsContext.arg; rewrite Ha..|by rewrite Hn].
  unfold SockSlot.step. rewrite Hn, Hk, Hl. cbv [SockSlot.stats SockSlot.props SockSlot.touch].
  eexists. split; [done|]. apply load_same.
Qed.

(** A valid new socket in a free slot is recorded. *)
Lemma open_event_load cpu scb c now maps a0 a1 sc :
  SockOpsContext.args c = [a0; a1] →
  BpfControlConveyor.is_new_sock_event (SockOpsContext.op c) = true →
  SockContext.from_sock_ops c (SockOpsContext.op c =? BPF_SOCK_OPS_TCP_CONNECT_CB) = Some sc →
  SockContext.is_valid sc = true → scb c all_cb_flags = Ok tt →
  SockSlot.load maps (event_key cpu c) = SockSlot.mk None None →
  SharedHashMap.has_room (EbpfMaps.NFM_SK_PROPS maps) = true →
  SharedHashMap.has_room (EbpfMaps.NFM_SK_STATS maps) = true →
  ∃ maps', run_event cpu scb c now maps = Some (Ok tt, maps') ∧
    SockSlot.load maps' (event_key cpu c) = SockSlot.mk (Some sc)
      (Some (SockSlot.open_effect c (SockOpsContext.op c =? BPF_SOCK_OPS_TCP_CONNECT_CB) now
        (SockStats.default <| SockStats.last_touched_us := now |>))).
Proof.
  intros Ha Hn Hsc Hv Hscb Hl Hrp Hrs.
  rewrite (handle_socket_event_slot cpu scb c now maps a0 a1 sc);
    [|by unfold SockOpsContext.arg; rewrite Ha..|done].
  unfold SockSlot.step. rewrite Hn, Hv, Hl, Hrp, Hrs, Hscb.
  cbv [SockSlot.stats SockSlot.props SockSlot.touch negb is_ok].
  eexists. split; [done|]. apply load_same.
Qed.

End MapInvariant.
