(* ===== verification/SockOpsProperties.v ===== *)
(** * SockOpsProperties: the guarantees of the eBPF program

    The properties of the handler, proved from the slot transition and the map invariant of
    SockOpsFacts.v, each with a witness on concrete kernel events. *)

From stdpp Require Import base numbers gmap list strings relations.
From S2P Require Import Prelude Network BpfMaps SockOps SockOpsFacts.
Import TcpSockOpsHandler SockSlotFacts MapInvariant.

(** ** Concrete events for the witnesses *)

Definition accept_flags (c : SockOpsContext.t) (flags : Z) : Result unit Z := Ok tt.
Definition refuse_flags (c : SockOpsContext.t) (flags : Z) : Result unit Z := Err (- EINVAL).

Definition ev_connect : SockOpsContext.t := SockOpsContext.default
  <| SockOpsContext.op := BPF_SOCK_OPS_TCP_CONNECT_CB |>
  <| SockOpsContext.family := AF_INET |>
  <| SockOpsContext.cookie := 77 |>
  <| SockOpsContext.local_port := 40000 |>
  <| SockOpsContext.remote_port := 0xBB010000 |>
  <| SockOpsContext.sock_state := BPF_TCP_SYN_SENT |>.

Definition ev_state (old new : Z) (st : SockOpsStats.t) : SockOpsContext.t := ev_connect
  <| SockOpsContext.op := BPF_SOCK_OPS_STATE_CB |>
  <| SockOpsContext.args := [old; new] |>
  <| SockOpsContext.stats := st |>.

Definition final_stats : SockOpsStats.t := SockOpsStats.mk 9000 4000 12 9 350.

#[global] Instance kernel_event_dec c : Decision (kernel_event c).
Proof. unfold kernel_event, SockOpsContext.wf, SockOpsStats.wf. apply _. Defined.

Lemma ev_connect_kernel : kernel_event ev_connect.
Proof. by_eval. Defined.

Lemma ev_state_kernel : kernel_event (ev_state BPF_TCP_ESTABLISHED BPF_TCP_CLOSE final_stats).
Proof. by_eval. Defined.

(** C2: The handler refines the slot transition.  For every event the kernel can deliver and every
    state of the maps, [handle_socket_event] runs to its end without a panic; the result code and
    the new contents of the event's own entries are those of [SockSlot.step], every other entry of
    the maps is left as it was, and the global counters grow by [SockSlot.contribution]. *)
Theorem handler_refines_slot cpu scb c now maps :
  kernel_event c →
  ∃ a0 a1 sc,
    SockOpsContext.arg c 0 = Some a0 ∧ SockOpsContext.arg c 1 = Some a1 ∧
    SockContext.from_sock_ops c (SockOpsContext.op c =? BPF_SOCK_OPS_TCP_CONNECT_CB) = Some sc ∧
    let '(res, slot') := SockSlot.step (is_ok (scb c all_cb_flags))
      (SharedHashMap.has_room (EbpfMaps.NFM_SK_PROPS maps))
      (SharedHashMap.has_room (EbpfMaps.NFM_SK_STATS maps)) c sc a0 a1 now
      (SockSlot.load maps (event_key cpu c)) in
    run_event cpu scb c now maps = Some (res,
      SockSlot.add_counters (SockSlot.store maps (event_key cpu c) slot')
        (SockSlot.contribution c a0 a1 res)).
Proof.
  intros (a0 & a1 & sc & H0 & H1 & _ & _ & Hsc & _)%kernel_event_args.
  exists a0, a1, sc. split_and!; try done.
  pose proof (handle_socket_event_slot cpu scb c now maps a0 a1 sc H0 H1 (λ _, Hsc)) as Hrun.
  by destruct (SockSlot.step _ _ _ _ _ _ _ _ _).
Qed.

Lemma handler_refines_slot_witness :
  is_Some (run_event 3 accept_flags ev_connect 1000 EbpfMaps.new).
Proof.
  destruct (handler_refines_slot 3 accept_flags ev_connect 1000 EbpfMaps.new ev_connect_kernel)
    as (a0 & a1 & sc & _ & _ & _ & H).
  destruct (SockSlot.step _ _ _ _ _ _ _ _ _). by eexists.
Defined.

(** The BPF maps are well formed in every reachable state.  Whatever sequence of kernel events,
    evictions by the agent and changes of the sampling interval: neither hash map exceeds its
    capacity, every recorded socket has a valid address family and fields of their width, every
    statistics entry has fields of their width, consistent state flags, no time in the future and
    connect times no later than its last touch. *)
Theorem reachable_maps_ok now0 maps now :
  rtc map_step (EbpfMaps.new, now0) (maps, now) → maps_ok now maps.
Proof.
  intros Hr. change (maps_ok (maps, now).2 (maps, now).1).
  refine (rtc_ind_l (λ st, maps_ok st.2 st.1 → maps_ok (maps, now).2 (maps, now).1) (maps, now)
    _ _ _ Hr (new_maps_ok now0)); [done|].
  intros st st' Hstep _ IH Hok. apply IH. by eapply map_step_ok.
Qed.

Lemma reachable_maps_ok_witness : ∃ maps,
  nfm_sock_ops 3 accept_flags ev_connect 1000 EbpfMaps.new = Some maps ∧ maps_ok 1000 maps.
Proof.
  eexists. split; [vm_compute; reflexivity|]. apply (reachable_maps_ok 0). eapply rtc_once.
  apply (step_event _ 0 1000 3 accept_flags ev_connect); [apply ev_connect_kernel|lia|by_eval|].
  vm_compute. reflexivity.
Defined.

(** C10: Events of different sockets, or of different CPUs, do not interfere.  When the maps have
    room for both, two kernel events with different keys give the same result codes and the same
    maps, counters included, in either order. *)
Theorem events_commute scb maps cpu1 c1 t1 cpu2 c2 t2 :
  kernel_event c1 → kernel_event c2 → event_key cpu1 c1 ≠ event_key cpu2 c2 →
  room_for_two (EbpfMaps.NFM_SK_PROPS maps) → room_for_two (EbpfMaps.NFM_SK_STATS maps) →
  ∃ r1 r2 maps',
    run_events scb maps [(cpu1, c1, t1); (cpu2, c2, t2)] = Some ([r1; r2], maps') ∧
    run_events scb maps [(cpu2, c2, t2); (cpu1, c1, t1)] = Some ([r2; r1], maps').
Proof.
  intros (a0 & a1 & sc & H0 & H1 & _ & _ & Hsc & _)%kernel_event_args
    (b0 & b1 & sd & G0 & G1 & _ & _ & Hsd & _)%kernel_event_args Hne Hp Hs.
  assert (Hrp := has_room_before _ Hp). assert (Hrs := has_room_before _ Hs).
  assert (∀ t maps, run_event cpu1 scb c1 t maps = _) as E1
    by (intros; apply handle_socket_event_slot; done).
  assert (∀ t maps, run_event cpu2 scb c2 t maps = _) as E2
    by (intros; apply handle_socket_event_slot; done).
  unfold run_events. simpl. rewrite !E1, !E2, Hrp, Hrs.
  destruct (SockSlot.step _ _ _ c1 _ _ _ _ _) as [r1 s1] eqn:S1.
  destruct (SockSlot.step _ _ _ c2 _ _ _ _ _) as [r2 s2] eqn:S2. csimpl. rewrite E1, E2.
  rewrite !load_other by done. cbn [SockSlot.add_counters SockSlot.store update_field
    EbpfMaps.NFM_SK_PROPS EbpfMaps.NFM_SK_STATS]. rewrite !has_room_put by done.
  rewrite S1, S2. csimpl. exists r1, r2. eexists. split; [done|].
  by rewrite (store_commute _ (event_key cpu1 c1) (event_key cpu2 c2)).
Qed.

Lemma events_commute_witness : ∃ r1 r2 maps',
  run_events accept_flags EbpfMaps.new [(0, ev_connect, 5); (1, ev_connect, 6)]
    = Some ([r1; r2], maps') ∧
  run_events accept_flags EbpfMaps.new [(1, ev_connect, 6); (0, ev_connect, 5)]
    = Some ([r2; r1], maps').
Proof.
  apply (events_commute accept_flags EbpfMaps.new 0 ev_connect 5 1 ev_connect 6);
    first [apply ev_connect_kernel | by_eval | idtac]; unfold room_for_two; by_eval.
Defined.

Definition total_errors (d : EventCounters.t) : Z :=
  EventCounters.sockets_invalid d + EventCounters.map_insertion_errors d +
  EventCounters.set_flags_errors d + EventCounters.other_events d.

Definition total_kinds (d : EventCounters.t) : Z :=
  EventCounters.active_connect_events d + EventCounters.passive_established_events d +
  EventCounters.state_change_events d + EventCounters.rtt_events d +
  EventCounters.retrans_events d + EventCounters.rto_events d + EventCounters.other_events d.

Definition is_transfer_event (op : Z) : bool :=
  (op =? BPF_SOCK_OPS_PARSE_HDR_OPT_CB) || (op =? BPF_SOCK_OPS_HDR_OPT_LEN_CB).

(** Every handled event is accounted for exactly once.  Across the wrap-around of the 32-bit
    counters, one event adds one to the event total, one to the counter of its kind (none for the
    two header-option events), and one to an error counter exactly when its result is an error. *)
Theorem events_accounted cpu scb c now maps c0 res maps' :
  kernel_event c → EbpfMaps.NFM_COUNTERS maps = [c0] →
  run_event cpu scb c now maps = Some (res, maps') →
  ∃ c1, EbpfMaps.NFM_COUNTERS maps' = [c1] ∧
    let d := EventCounters.subtract c1 c0 in
    EventCounters.socket_events d = 1 ∧
    total_errors d = (if is_ok res then 0 else 1) ∧
    total_kinds d = (if is_transfer_event (SockOpsContext.op c) then 0 else 1).
Proof.
  intros (a0 & a1 & sc & _ & _ & _ & Hrun)%(kernel_event_slot cpu scb c now maps) Hcnt.
  rewrite Hrun. clear Hrun.
  pose proof (step_result (is_ok (scb c all_cb_flags))
    (SharedHashMap.has_room (EbpfMaps.NFM_SK_PROPS maps))
    (SharedHashMap.has_room (EbpfMaps.NFM_SK_STATS maps)) c sc a0 a1 now
    (SockSlot.load maps (event_key cpu c))) as [Hres Hunk].
  destruct (SockSlot.step _ _ _ _ _ _ _ _ _) as [res' slot']. simpl in Hres, Hunk.
  intros [= -> <-]. exists (EventCounters.add_from c0 (SockSlot.contribution c a0 a1 res)).
  split; [simpl; by rewrite Hcnt|]. cbv zeta.
  rewrite EventCountersFacts.counters_subtract_add_from by apply contribution_wf.
  split_and!; [done| |].
  - clear Hunk. rewrite !elem_of_cons, elem_of_nil in Hres. by destruct_or?; subst res.
  - unfold total_kinds, is_transfer_event. cbn [SockSlot.contribution EventCounters.active_connect_events
      EventCounters.passive_established_events EventCounters.state_change_events
      EventCounters.rtt_events EventCounters.retrans_events EventCounters.rto_events
      EventCounters.other_events].
    unfold BpfControlConveyor.is_new_sock_event, SockSlot.is_known_event in Hunk. clear Hres.
    case_bool_decide as Hr; rewrite Hunk in Hr; clear Hunk; revert Hr;
      generalize (SockOpsContext.op c); intros op Hr; unfold_ops; repeat case_match; lia.
Qed.

Lemma events_accounted_witness : ∃ res maps' c1,
  run_event 0 refuse_flags ev_connect 9 EbpfMaps.new = Some (res, maps') ∧
  EbpfMaps.NFM_COUNTERS maps' = [c1] ∧ total_errors (EventCounters.subtract c1 EventCounters.default) = 1.
Proof.
  destruct (run_event 0 refuse_flags ev_connect 9 EbpfMaps.new) as [[res maps']|] eqn:E;
    [|vm_compute in E; discriminate].
  destruct (events_accounted 0 refuse_flags ev_connect 9 EbpfMaps.new EventCounters.default res maps'
    ev_connect_kernel eq_refl E) as (c1 & H1 & _ & H2 & _).
  exists res, maps', c1. split_and!; try done. rewrite H2. vm_compute in E. by simplify_eq.
Defined.

(** The statistics of a connection opened at [t1], established at [t2] and closed at [t3]. *)
Definition completed_connection (t1 t2 t3 : Z) (ev : SockOpsStats.t) : SockStats.t :=
  SockStats.default
    <| SockStats.last_touched_us := t3 |>
    <| SockStats.connect_start_us := t1 |>
    <| SockStats.connect_end_us := t2 |>
    <| SockStats.connect_attempts := 1 |>
    <| SockStats.connect_successes := 1 |>
    <| SockStats.state_flags := Z.lor SockStateFlags.ENTERED_ESTABLISH
         (Z.lor SockStateFlags.STARTED_CLOSURE
            (Z.lor SockStateFlags.CLOSED SockStateFlags.TERMINATED_FROM_EST)) |>
    <| SockStats.bytes_received := SockOpsStats.bytes_received ev |>
    <| SockStats.bytes_delivered := SockOpsStats.bytes_acked ev |>
    <| SockStats.segments_received := SockOpsStats.segments_received ev |>
    <| SockStats.segments_delivered := SockOpsStats.segments_delivered ev |>.

(** The life of a client connection is recorded as it happened.  A connect event of an unseen
    socket with a valid family, then its transition from SYN-SENT to ESTABLISHED, then its
    transition from ESTABLISHED to CLOSE, leave exactly the socket's context and statistics: one
    attempt, one success, the three times, the final transfer values of the closing event and the
    flags of an established and closed connection; all three results are [Ok]. *)
Theorem connection_lifecycle scb cpu c1 c2 c3 t1 t2 t3 maps sc :
  SockOpsContext.op c1 = BPF_SOCK_OPS_TCP_CONNECT_CB →
  SockOpsContext.op c2 = BPF_SOCK_OPS_STATE_CB → SockOpsContext.op c3 = BPF_SOCK_OPS_STATE_CB →
  SockOpsContext.args c2 = [BPF_TCP_SYN_SENT; BPF_TCP_ESTABLISHED] →
  SockOpsContext.args c3 = [BPF_TCP_ESTABLISHED; BPF_TCP_CLOSE] →
  event_key cpu c2 = event_key cpu c1 → event_key cpu c3 = event_key cpu c1 →
  length (SockOpsContext.args c1) = 2%nat →
  SockContext.from_sock_ops c1 true = Some sc → SockContext.is_valid sc = true →
  SockOpsContext.sock_state c1 = BPF_TCP_SYN_SENT →
  scb c1 all_cb_flags = Ok tt →
  SockSlot.load maps (event_key cpu c1) = SockSlot.mk None None →
  room_for_two (EbpfMaps.NFM_SK_PROPS maps) → room_for_two (EbpfMaps.NFM_SK_STATS maps) →
  ∃ maps',
    run_events scb maps [(cpu, c1, t1); (cpu, c2, t2); (cpu, c3, t3)] =
      Some ([Ok tt; Ok tt; Ok tt], maps') ∧
    SockSlot.load maps' (event_key cpu c1) =
      SockSlot.mk (Some sc) (Some (completed_connection t1 t2 t3 (SockOpsContext.stats c3))).
Proof.
  intros Hop1 Hop2 Hop3 Ha2 Ha3 Hk2 Hk3 Hlen Hsc Hv Hst Hscb Hfree Hrp%has_room_before
    Hrs%has_room_before.
  destruct (SockOpsContext.args c1) as [|a0 [|a1 [|]]] eqn:Ha1; try done.
  destruct (open_event_load cpu scb c1 t1 maps a0 a1 sc) as (m1 & R1 & L1); try done;
    rewrite ?Hop1; try done.
  rewrite <- Hk2 in L1.
  destruct (known_event_load cpu scb c2 t2 m1 _ _ _ _ Ha2 ltac:(by rewrite Hop2)
    ltac:(by rewrite Hop2) L1) as (m2 & R2 & L2).
  rewrite Hk2, <- Hk3 in L2.
  destruct (known_event_load cpu scb c3 t3 m2 _ _ _ _ Ha3 ltac:(by rewrite Hop3)
    ltac:(by rewrite Hop3) L2) as (m3 & R3 & L3).
  exists m3. unfold run_events. csimpl. rewrite R1. csimpl. rewrite R2. csimpl. rewrite R3. csimpl.
  split; [done|]. rewrite <- Hk3, L3. unfold SockSlot.effect, SockSlot.open_effect.
  by rewrite Hop1, Hop2, Hop3, Hst.
Qed.

Definition ev_establish : SockOpsContext.t :=
  ev_state BPF_TCP_SYN_SENT BPF_TCP_ESTABLISHED SockOpsStats.default.
Definition ev_close : SockOpsContext.t :=
  ev_state BPF_TCP_ESTABLISHED BPF_TCP_CLOSE final_stats.

Lemma connection_lifecycle_witness : ∃ maps' sc,
  run_events accept_flags EbpfMaps.new [(2, ev_connect, 100); (2, ev_establish, 140);
    (2, ev_close, 900)] = Some ([Ok tt; Ok tt; Ok tt], maps') ∧
  SockSlot.load maps' (event_key 2 ev_connect) =
    SockSlot.mk (Some sc) (Some (completed_connection 100 140 900 final_stats)).
Proof.
  destruct (SockContext.from_sock_ops ev_connect true) as [sc|] eqn:E; [|vm_compute in E; discriminate].
  destruct (connection_lifecycle accept_flags 2 ev_connect ev_establish ev_close 100 140 900
    EbpfMaps.new sc) as (maps' & H1 & H2);
    try first [reflexivity | exact E | unfold room_for_two; by_eval].
  - vm_compute in E. by simplify_eq.
  - by exists maps', sc.
Defined.

(** The sampling decision of the program on an event, as one would state it. *)
Definition sampled (maps : EbpfMaps.t) : Prop :=
  match EbpfMaps.NFM_CONTROL maps with
  | [] => True
  | ctl :: _ =>
      let n := ControlData.sampling_interval ctl in
      n ≤ 1 ∨ (n | EbpfMaps.mock_rand maps)
  end.

Definition unused_event (op : Z) : Prop :=
  op ∈ [BPF_SOCK_OPS_TIMEOUT_INIT; BPF_SOCK_OPS_RWND_INIT; BPF_SOCK_OPS_NEEDS_ECN;
        BPF_SOCK_OPS_ACTIVE_ESTABLISHED_CB].

(** Sampling only ever drops new sockets, and dropping has no effect.  An event is handled iff
    it is none of the four unused kinds and, when it opens a socket, the control word samples it
    in (an interval of at most one, or one that divides the random number); an event that is not
    handled leaves all maps, the counters included, untouched. *)
Theorem sampling_decision maps cpu scb c now :
  (BpfControlConveyor.should_handle_event maps (SockOpsContext.op c) = true ↔
   ¬ unused_event (SockOpsContext.op c) ∧
   (BpfControlConveyor.is_new_sock_event (SockOpsContext.op c) = true → sampled maps)) ∧
  (BpfControlConveyor.should_handle_event maps (SockOpsContext.op c) = false →
   nfm_sock_ops cpu scb c now maps = Some maps) ∧
  (BpfControlConveyor.should_handle_event maps (SockOpsContext.op c) = true →
   nfm_sock_ops cpu scb c now maps = snd <$> run_event cpu scb c now maps).
Proof.
  split_and!.
  - assert (BpfControlConveyor.should_handle_new_sock maps = true ↔ sampled maps) as Hs.
    { unfold BpfControlConveyor.should_handle_new_sock, sampled, SharedArray.get.
      destruct (EbpfMaps.NFM_CONTROL maps) as [|ctl l]; [done|]. simpl.
      rewrite orb_true_iff, Z.leb_le, Z.eqb_eq. destruct (decide (ControlData.sampling_interval ctl ≤ 1)).
      - naive_solver.
      - rewrite <- Z.mod_divide by lia. naive_solver. }
    unfold BpfControlConveyor.should_handle_event, unused_event.
    rewrite !elem_of_cons, elem_of_nil. destruct (_ || _ || _ || _) eqn:E.
    + rewrite !orb_true_iff, !Z.eqb_eq in E. split; [done|]. intros [Hn _]. tauto.
    + rewrite !orb_false_iff, !Z.eqb_neq in E.
      destruct (BpfControlConveyor.is_new_sock_event _); rewrite ?Hs; naive_solver.
  - intros H. unfold nfm_sock_ops. by rewrite H.
  - intros H. unfold nfm_sock_ops, run_event. rewrite H.
    by destruct (handle_socket_event _ _ _) as [[]|].
Qed.
