(* ===== verification/KernelBindings.v ===== *)
(** * KernelBindings: the eBPF program on the kernel's own data

    Models nfm-common/src/ebpf_actuals.rs, which binds the names the handler uses to the kernel
    (through aya) where ebpf_mocks.rs binds them to the maps of a test: the declared maps, the fields
    of [struct bpf_sock_ops] behind the context, and the helpers.  What the kernel's helpers return is
    a record of arguments.  Every event whose fields have their widths is one that SockOpsFacts.v
    speaks about, so that the results on the handler hold of the program as it is loaded. *)

From stdpp Require Import base numbers gmap list strings.
From S2P Require Import Prelude Network BpfMaps SockOps SockOpsFacts.
Import MapInvariant SockSlotFacts.

(** ** The maps, as the object file declares them; the agent sets larger sizes when it loads it.
    [NFM_COUNTERS] has one element for each CPU: this is the one of the CPU the program runs on. *)
Definition declared_maps (rand : Z) : EbpfMaps.t := {|
  EbpfMaps.NFM_CONTROL := SharedArray.with_max_entries ControlData.default 1;
  EbpfMaps.NFM_COUNTERS := SharedArray.with_max_entries EventCounters.default 1;
  EbpfMaps.NFM_SK_PROPS := SharedHashMap.with_max_entries MAX_ENTRIES_SK_PROPS_LO;
  EbpfMaps.NFM_SK_STATS := SharedHashMap.with_max_entries MAX_ENTRIES_SK_STATS_LO;
  EbpfMaps.mock_rand := rand
|}.

(** ** [struct bpf_sock_ops], the fields that are read *)
Module bpf_sock_ops.

Record t := mk {
  op : Z;
  args : list Z;
  family : Z;
  remote_ip4 : Z;
  local_ip4 : Z;
  remote_ip6 : list Z;
  local_ip6 : list Z;
  remote_port : Z;
  local_port : Z;
  srtt_us : Z;
  cb_flags : Z;
  state : Z;
  data_segs_in : Z;
  data_segs_out : Z;
  bytes_received : Z;
  bytes_acked : Z;
}.

(** Fields at their widths; a port is 16 bits, the local one in host order and the remote one in
    network order. *)
Definition wf (s : t) : Prop :=
  length (args s) = 2%nat ∧ Forall (in_range u32) (args s) ∧
  length (remote_ip6 s) = 4%nat ∧ length (local_ip6 s) = 4%nat ∧
  Forall (in_range u32) (remote_ip6 s) ∧ Forall (in_range u32) (local_ip6 s) ∧
  in_range u32 (remote_ip4 s) ∧ in_range u32 (local_ip4 s) ∧
  in_range u32 (family s) ∧ in_range u32 (srtt_us s) ∧
  in_range u32 (data_segs_in s) ∧ in_range u32 (data_segs_out s) ∧
  in_range u64 (bytes_received s) ∧ in_range u64 (bytes_acked s) ∧
  in_range u16 (local_port s) ∧ in_range u32 (remote_port s) ∧
  in_range u16 (SockContext.from_be32 (remote_port s)).

End bpf_sock_ops.

(** What the helpers return during an event. *)
Module Helpers.
Record t := mk {
  get_smp_processor_id : Z;
  ktime_get_boot_ns : Z;
  get_socket_cookie : Z;
  get_prandom_u32 : Z;
}.
End Helpers.

(** ** The helper functions of the program *)
Section helpers.
Context (h : Helpers.t) (ops : bpf_sock_ops.t).

Definition nfm_get_cpu_id : Z := Helpers.get_smp_processor_id h.
Definition nfm_now_us : Z := Helpers.ktime_get_boot_ns h / 1000.
Definition nfm_get_sock_cookie : Z := Helpers.get_socket_cookie h.
Definition nfm_get_sock_state : Z := bpf_sock_ops.state ops.

(** The kernel keeps the smoothed round trip scaled by eight. *)
Definition nfm_get_sock_ops_stats : SockOpsStats.t := {|
  SockOpsStats.bytes_received := bpf_sock_ops.bytes_received ops;
  SockOpsStats.bytes_acked := bpf_sock_ops.bytes_acked ops;
  SockOpsStats.segments_received := bpf_sock_ops.data_segs_in ops;
  SockOpsStats.segments_delivered := bpf_sock_ops.data_segs_out ops;
  SockOpsStats.srtt_us := Z.shiftr (bpf_sock_ops.srtt_us ops) 3
|}.

(** The context as the handler reads it, through the accessors of aya and the functions above. *)
Definition context : SockOpsContext.t := {|
  SockOpsContext.op := bpf_sock_ops.op ops;
  SockOpsContext.family := bpf_sock_ops.family ops;
  SockOpsContext.cb_flags := bpf_sock_ops.cb_flags ops;
  SockOpsContext.remote_ip4 := bpf_sock_ops.remote_ip4 ops;
  SockOpsContext.local_ip4 := bpf_sock_ops.local_ip4 ops;
  SockOpsContext.remote_ip6 := bpf_sock_ops.remote_ip6 ops;
  SockOpsContext.local_ip6 := bpf_sock_ops.local_ip6 ops;
  SockOpsContext.local_port := bpf_sock_ops.local_port ops;
  SockOpsContext.remote_port := bpf_sock_ops.remote_port ops;
  SockOpsContext.args := bpf_sock_ops.args ops;
  SockOpsContext.stats := nfm_get_sock_ops_stats;
  SockOpsContext.cookie := nfm_get_sock_cookie;
  SockOpsContext.sock_state := nfm_get_sock_state
|}.

(** The loaded program on an event. *)
Definition program (set_cb_flags : SockOpsContext.t → Z → Result unit Z) (maps : EbpfMaps.t) : option EbpfMaps.t :=
  TcpSockOpsHandler.nfm_sock_ops nfm_get_cpu_id set_cb_flags context nfm_now_us
    (maps <| EbpfMaps.mock_rand := Helpers.get_prandom_u32 h |>).

(** ** The events of the kernel *)

Lemma context_kernel_event : bpf_sock_ops.wf ops → kernel_event context.
Proof.
  intros (? & ? & ? & ? & ? & ? & ? & ? & ? & Hs & ? & ? & ? & ? & Hl & ? & ?).
  unfold kernel_event, SockOpsContext.wf, SockOpsStats.wf. cbn. split_and!; try done.
  - unfold in_range in *. lia.
  - rewrite Z.shiftr_div_pow2 by lia. apply div_range; [lia|done].
Qed.

(** The program never faults: on any event it returns, with every other socket's entries as they
    were, and with the maps in good order at its time. *)
Lemma program_total set_cb_flags maps now0 :
  bpf_sock_ops.wf ops → in_range u64 nfm_now_us → now0 ≤ nfm_now_us → maps_ok now0 maps →
  ∃ maps', program set_cb_flags maps = Some maps' ∧ maps_ok nfm_now_us maps' ∧
    ∀ key, key ≠ CpuSockKey.mk nfm_get_cpu_id nfm_get_sock_cookie → SockSlot.load maps' key = SockSlot.load maps key.
Proof.
  intros Hwf Hnow Hle Hok. pose proof (context_kernel_event Hwf) as He. unfold program.
  set (maps1 := maps <| EbpfMaps.mock_rand := Helpers.get_prandom_u32 h |>).
  assert (maps_ok now0 maps1) as Hok1 by (destruct Hok; by constructor).
  destruct (kernel_event_slot nfm_get_cpu_id set_cb_flags context nfm_now_us maps1 He)
    as (a0 & a1 & sc & _ & _ & _ & Hrun).
  destruct (SockSlot.step _ _ _ _ _ _ _ _ _) as [res slot']. unfold TcpSockOpsHandler.nfm_sock_ops.
  destruct (BpfControlConveyor.should_handle_event maps1 _).
  2:{ exists maps1. split_and!; [done|by eapply maps_ok_mono|done]. }
  unfold run_event in Hrun. destruct (TcpSockOpsHandler.handle_socket_event _ _ _) as [[r self]|] eqn:E; [|done].
  eexists. split; [reflexivity|]. cbn in Hrun. injection Hrun as -> Hmaps. split.
  - eapply (run_event_ok nfm_get_cpu_id set_cb_flags context now0 nfm_now_us maps1 res); try done.
    unfold run_event. by rewrite E.
  - intros key Hk. rewrite Hmaps. by rewrite load_other.
Qed.

End helpers.
