(* ===== verification/SockCache.v ===== *)
(** * SockCache: the agent's table of tracked sockets

    Models nfm-controller/src/events/sock_cache.rs.  The cache is a finite map from socket keys to
    [SockWrapper]s.  hashbrown iterates over a map in an arbitrary order, so an operation that
    loops over a map takes the order it is visited in as a list; the theorems hold for every
    permutation of the map's entries.  The [u64] tallies of an operation count map entries, and are
    kept as exact integers. *)

From stdpp Require Import base numbers gmap list strings fin_maps.
From Stdlib Require Import QArith_base.
From S2P Require Import Prelude Network.
Open Scope Z_scope.

(** ** [AggSockStats] *)
Module AggSockStats.

Record t := mk {
  stats : SockStats.t;
  cpus : list Z;
}.

#[global] Instance eta_t : Eta t := λ r, mk (stats r) (cpus r).

Definition default : t := mk SockStats.default [].

#[global] Instance eq_dec : EqDecision t.
Proof. solve_decision. Defined.

End AggSockStats.

(** ** [SockWrapper] *)
Module SockWrapper.

Record t := mk {
  context : SockContext.t;
  context_external : option SockContext.t;
  agg_stats : AggSockStats.t;
  is_stale : bool;
  is_complete : bool;
  cycles_not_fully_initialized : option Z;
}.

#[global] Instance eta_t : Eta t := λ r,
  mk (context r) (context_external r) (agg_stats r) (is_stale r) (is_complete r)
    (cycles_not_fully_initialized r).

#[global] Instance eq_dec : EqDecision t.
Proof. solve_decision. Defined.

Definition new (context : SockContext.t) (agg_stats : AggSockStats.t) : t := {|
  context := context;
  context_external := None;
  agg_stats := agg_stats;
  is_stale := false;
  is_complete := false;
  cycles_not_fully_initialized := Some 0
|}.

Definition last_touched_us (self : t) : Z :=
  SockStats.last_touched_us (AggSockStats.stats (agg_stats self)).

Definition update_context (self : t) (new_context : SockContext.t) (now_us : Z) : t :=
  let self :=
    if negb (SockContext.is_valid (context self)) && SockContext.is_valid new_context
    then self <| cycles_not_fully_initialized := None |> else self in
  self <| context := new_context |>
       <| context_external := None |>
       <| agg_stats ::= λ a, a <| AggSockStats.stats ::= λ s,
            s <| SockStats.last_touched_us := now_us |> |> |>
       <| is_stale := false |>
       <| is_complete := false |>.

Definition update_status (self : t) (staleness_timestamp : Z) : t :=
  let self := self <| is_stale := last_touched_us self <=? staleness_timestamp |> in
  if SockContext.is_valid (context self) then
    self <| cycles_not_fully_initialized := None |>
         <| is_complete := SockStats.is_closed (AggSockStats.stats (agg_stats self)) |>
  else
    self <| cycles_not_fully_initialized :=
              match cycles_not_fully_initialized self with
              | Some cycles => Some (saturating_add u8 cycles 1)
              | None => Some 0
              end |>
         <| is_complete := false |>.

Definition should_evict (self : t) : bool :=
  is_complete self || is_stale self ||
  (1 <? default 0 (cycles_not_fully_initialized self)).

End SockWrapper.

(** ** [SockOperationResult] *)
Module SockOperationResult.

Record t := mk {
  completed : Z;
  partial : Z;
  failed : Z;
}.

#[global] Instance eta_t : Eta t := λ r, mk (completed r) (partial r) (failed r).

Definition default : t := mk 0 0 0.

Definition add (self other : t) : t :=
  self <| completed ::= Z.add (completed other) |>
       <| partial ::= Z.add (partial other) |>
       <| failed ::= Z.add (failed other) |>.

(** The number of entries an operation has handled. *)
Definition total (self : t) : Z := completed self + partial self + failed self.

End SockOperationResult.

(** ** [SockCache] *)
Module SockCache.
Import SockOperationResult.

Record t := mk {
  cache : gmap Z SockWrapper.t;
  max_sock_entries : Z;
}.

#[global] Instance eta_t : Eta t := λ r, mk (cache r) (max_sock_entries r).

Definition with_max_entries (max_sock_entries : Z) : t := mk ∅ max_sock_entries.
Definition new : t := with_max_entries MAX_ENTRIES_SK_PROPS_HI.
Definition max_entries (self : t) : Z := max_sock_entries self.
Definition len (self : t) : Z := Z.of_nat (size (cache self)).
Definition is_empty (self : t) : bool := bool_decide (cache self = ∅).
Definition get (self : t) (sock_key : Z) : option SockWrapper.t := cache self !! sock_key.

Definition get_last_touched (self : t) (sock_key : Z) : Z :=
  match cache self !! sock_key with
  | Some sock => SockWrapper.last_touched_us sock
  | None => 0
  end.

(** Gets the min, max, and avg number of CPUs handling each socket; [order] is the order in which
    the values are visited, the average is the exact quotient that the code rounds to an [f64]. *)
Definition num_cpus (self : t) (order : list SockWrapper.t) : Z * Z * Q :=
  let '(min, max, sum) :=
    foldl (λ '(min, max, sum) wrapper,
      let num := Z.max 1 (Z.of_nat (length (AggSockStats.cpus (SockWrapper.agg_stats wrapper)))) in
      let sum := sum + num in
      let max := if max <? num then num else max in
      let min := if (num <? min) || (min =? 0) then num else min in
      (min, max, sum)) (0, 0, 0) order in
  let avg := if 0 <? len self then Qmake sum (Z.to_pos (len self)) else Qmake 0 1 in
  (min, max, avg).

(** Adds a socket context to this cache. *)
Definition add_context (self : t) (sock_key : Z) (sock_context : SockContext.t) (now_us : Z) :
    SockOperationResult.t * t :=
  let result := SockOperationResult.default in
  let num_socks := len self in
  match cache self !! sock_key with
  | Some wrapper =>
      (result <| partial ::= Z.add 1 |>,
       self <| cache ::= <[sock_key := SockWrapper.update_context wrapper sock_context now_us]> |>)
  | None =>
      if num_socks <? max_sock_entries self then
        let agg_stat := SockStats.default <| SockStats.last_touched_us := now_us |> in
        (result <| completed ::= Z.add 1 |>,
         self <| cache ::= <[sock_key :=
           SockWrapper.new sock_context (AggSockStats.mk agg_stat [])]> |>)
      else (result <| failed ::= Z.add 1 |>, self)
  end.

(** One turn of the loop over the incoming statistics: the cache, the map that receives the
    deltas, and the tally. *)
Definition update_one (staleness_timestamp : Z)
    (st : t * gmap Z AggSockStats.t * SockOperationResult.t) (entry : Z * AggSockStats.t) :
    t * gmap Z AggSockStats.t * SockOperationResult.t :=
  let '(self, incoming_stats, result) := st in
  let '(sock_key, incoming) := entry in
  let num_socks := len self in
  match cache self !! sock_key with
  | Some wrapper =>
      let delta := SockStats.subtract (AggSockStats.stats incoming)
                     (AggSockStats.stats (SockWrapper.agg_stats wrapper)) in
      (* Store the latest values in cache. *)
      let wrapper := wrapper <| SockWrapper.agg_stats ::= λ a,
        a <| AggSockStats.stats := AggSockStats.stats incoming |>
          <| AggSockStats.cpus := [] ++ AggSockStats.cpus incoming |> |> in
      let wrapper := SockWrapper.update_status wrapper staleness_timestamp in
      (* Store the delta onto the incoming structure. *)
      (self <| cache ::= <[sock_key := wrapper]> |>,
       <[sock_key := incoming <| AggSockStats.stats := delta |>]> incoming_stats,
       result <| completed ::= Z.add 1 |>)
  | None =>
      let result :=
        if num_socks <? max_sock_entries self then result <| partial ::= Z.add 1 |>
        else result <| failed ::= Z.add 1 |> in
      (* Leave values on the incoming structure unchanged, as the whole amount is a delta. *)
      let wrapper := SockWrapper.new SockContext.default
        (AggSockStats.mk (AggSockStats.stats incoming) (AggSockStats.cpus incoming)) in
      let wrapper := SockWrapper.update_status wrapper staleness_timestamp in
      (self <| cache ::= <[sock_key := wrapper]> |>, incoming_stats, result)
  end.

(** The update of a socket that is not represented in this round. *)
Definition update_absent (staleness_timestamp : Z) (wrapper : SockWrapper.t) : SockWrapper.t :=
  let wrapper := wrapper <| SockWrapper.is_stale :=
    SockWrapper.last_touched_us wrapper <=? staleness_timestamp |> in
  match SockWrapper.cycles_not_fully_initialized wrapper with
  | Some cycles =>
      wrapper <| SockWrapper.cycles_not_fully_initialized := Some (saturating_add u8 cycles 1) |>
  | None => wrapper
  end.

(** Stores the latest stats into this cache, and places the deltas compared to prior entries back
    into the supplied map.  [order] lists the entries of [incoming_stats] as they are visited. *)
Definition update_stats_and_get_deltas (self : t) (incoming_stats : gmap Z AggSockStats.t)
    (order : list (Z * AggSockStats.t)) (staleness_timestamp : Z) :
    SockOperationResult.t * t * gmap Z AggSockStats.t :=
  let '(self, incoming_stats, result) :=
    foldl (update_one staleness_timestamp)
      (self, incoming_stats, SockOperationResult.default) order in
  (* Update the status of sockets not represented in this round of stats. *)
  let self := self <| cache ::= map_imap (λ sock_key wrapper,
    match incoming_stats !! sock_key with
    | Some _ => Some wrapper
    | None => Some (update_absent staleness_timestamp wrapper)
    end) |> in
  (result, self, incoming_stats).

(** Evicts all closed and stale sockets from this cache.  Returns a map of all evicted entries, and
    the count of those that were stale. *)
Definition perform_eviction (self : t) : gmap Z SockWrapper.t * Z * t :=
  let socks_evicted := filter (λ kv, SockWrapper.should_evict kv.2 = true) (cache self) in
  let num_stale :=
    Z.of_nat (size (filter (λ kv, SockWrapper.is_stale kv.2 = true) (cache self))) in
  (socks_evicted, num_stale,
   self <| cache ::= filter (λ kv, SockWrapper.should_evict kv.2 = false) |>).

End SockCache.
