(* ===== verification/SockCacheFacts.v ===== *)
(** * SockCacheFacts: what the socket cache guarantees

    The loop of [update_stats_and_get_deltas] is characterised key by key, which makes its result
    independent of the iteration order of the hash map; eviction splits the cache; deltas of
    successive rounds add up to the statistics; no socket stays uninitialised, closed or stale for
    longer than the code intends. *)

From stdpp Require Import base numbers gmap list strings fin_maps.
From S2P Require Import Prelude Network SockCache.
Import SockCache.

(** ** One round, key by key *)
Module RoundSpec.

(** A socket whose statistics arrive: known or new. *)
Definition present (T : Z) (incoming : AggSockStats.t) (known : option SockWrapper.t) :
    SockWrapper.t :=
  let wrapper :=
    match known with
    | Some w => w <| SockWrapper.agg_stats := incoming |>
    | None => SockWrapper.new SockContext.default incoming
    end in
  SockWrapper.update_status wrapper T.

(** The part of the arriving statistics not yet accounted for. *)
Definition delta (incoming : AggSockStats.t) (known : option SockWrapper.t) : AggSockStats.t :=
  match known with
  | Some w => incoming <| AggSockStats.stats := SockStats.subtract (AggSockStats.stats incoming)
                (AggSockStats.stats (SockWrapper.agg_stats w)) |>
  | None => incoming
  end.

(** What a round does to a socket, given what arrives for it. *)
Definition round (T : Z) (incoming : option AggSockStats.t) (known : option SockWrapper.t) :
    option SockWrapper.t :=
  match incoming with
  | Some inc => Some (present T inc known)
  | None => update_absent T <$> known
  end.

(** The tally of a round: sockets already known, and new ones within and above the limit. *)
Definition tally (len max n_known n_new : Z) : SockOperationResult.t :=
  let within := Z.min n_new (Z.max 0 (max - len)) in
  SockOperationResult.mk n_known within (n_new - within).

End RoundSpec.

Module SockCacheFacts.
Import RoundSpec.
#[local] Arguments update_one : simpl never.

Section update_loop.
Context (T : Z).
Implicit Types (self : t) (D : gmap Z AggSockStats.t) (r : SockOperationResult.t).
Implicit Types l : list (Z * AggSockStats.t).

Definition n_known (self : t) (l : list (Z * AggSockStats.t)) : Z :=
  Z.of_nat (length (filter (λ kv, is_Some (cache self !! kv.1)) l)).
Definition n_new (self : t) (l : list (Z * AggSockStats.t)) : Z :=
  Z.of_nat (length (filter (λ kv, cache self !! kv.1 = None) l)).

Lemma update_one_run self D r k inc :
  ∃ r', update_one T (self, D, r) (k, inc) =
    (self <| cache ::= <[k := present T inc (cache self !! k)]> |>,
     match cache self !! k with Some _ => <[k := delta inc (cache self !! k)]> D | None => D end, r').
Proof.
  unfold update_one, present, delta. destruct (cache self !! k) as [w|].
  - destruct w as [? ? [] ? ? ?], inc. eexists. reflexivity.
  - destruct inc. eexists. reflexivity.
Qed.

(** The loop, key by key. *)
Lemma update_loop_lookup l self D r self' D' r' :
  NoDup l.*1 → foldl (update_one T) (self, D, r) l = (self', D', r') →
  max_sock_entries self' = max_sock_entries self ∧
  (∀ k, cache self' !! k =
    match (list_to_map l : gmap Z AggSockStats.t) !! k with
    | Some inc => Some (present T inc (cache self !! k))
    | None => cache self !! k
    end) ∧
  (∀ k, D' !! k =
    match (list_to_map l : gmap Z AggSockStats.t) !! k, cache self !! k with
    | Some inc, Some w => Some (delta inc (Some w))
    | _, _ => D !! k
    end).
Proof.
  revert self D r. induction l as [|[k0 inc0] l IH]; intros self D r Hnd Hrun; csimpl in *.
  - injection Hrun as <- <- <-. done.
  - apply NoDup_cons in Hnd as [Hk0 Hnd].
    destruct (update_one_run self D r k0 inc0) as [r1 Hone]. rewrite Hone in Hrun.
    apply IH in Hrun as (Hm & Hc & Hd); [|done]. clear IH. simpl in Hc, Hd.
    assert ((list_to_map l : gmap Z AggSockStats.t) !! k0 = None) as Hnone
      by by apply not_elem_of_list_to_map_1.
    split; [done|]. split; intros k; destruct (decide (k0 = k)) as [<-|Hne].
    + by rewrite Hc, Hnone, !lookup_insert_eq.
    + rewrite Hc. by rewrite !lookup_insert_ne.
    + rewrite Hd, Hnone, lookup_insert_eq. destruct (cache self !! k0); [by rewrite lookup_insert_eq|done].
    + rewrite Hd, !lookup_insert_ne by done.
      destruct (cache self !! k0); [by rewrite lookup_insert_ne|done].
Qed.

Lemma filter_other_key (P : option SockWrapper.t → Prop) `{∀ o, Decision (P o)} self k0 w l :
  k0 ∉ l.*1 →
  filter (λ kv, P (<[k0 := w]> (cache self) !! kv.1)) l = filter (λ kv, P (cache self !! kv.1)) l.
Proof.
  intros Hk. apply filter_ext_elem. intros [k inc] Hin. simpl.
  rewrite lookup_insert_ne; [done|]. intros ->. apply Hk. apply list_elem_of_fmap. by exists (k, inc).
Qed.

Lemma update_loop_tally l self D r :
  NoDup l.*1 →
  (foldl (update_one T) (self, D, r) l).2 =
  SockOperationResult.add r (tally (len self) (max_sock_entries self) (n_known self l) (n_new self l)).
Proof.
  revert self D r. induction l as [|[k0 inc0] l IH]; intros self D r Hnd; csimpl.
  - unfold SockOperationResult.add, tally, n_known, n_new. destruct r. simpl. f_equal; lia.
  - apply NoDup_cons in Hnd as [Hk0 Hnd].
    unfold n_known, n_new. rewrite !filter_cons. cbn [fst].
    unfold update_one. destruct (cache self !! k0) as [w|] eqn:E; cbv zeta; rewrite IH by done; clear IH;
      unfold n_known, n_new, len; cbn [cache update_field]; simpl;
      rewrite (filter_other_key is_Some), (filter_other_key (λ o, o = None)) by done.
    + unfold SockOperationResult.add, tally. destruct r. simpl. rewrite map_size_insert, E. simpl. f_equal; lia.
    + unfold SockOperationResult.add, tally, len. rewrite map_size_insert, E. simpl.
      destruct r, (Z.ltb_spec (Z.of_nat (size (cache self))) (max_sock_entries self)); simpl; f_equal; lia.
Qed.

End update_loop.
(** ** A whole round *)

Lemma add_default_l r : SockOperationResult.add SockOperationResult.default r = r.
Proof. destruct r. unfold SockOperationResult.add. simpl. by rewrite !Z.add_0_r. Qed.

Lemma order_keys (incoming : gmap Z AggSockStats.t) order :
  order ≡ₚ map_to_list incoming → NoDup order.*1 ∧ list_to_map order = incoming.
Proof.
  intros Hp. assert (NoDup order.*1) as Hnd
    by (rewrite Hp; apply NoDup_fst_map_to_list).
  split; [done|]. rewrite (list_to_map_proper _ _ Hnd Hp). apply list_to_map_to_list.
Qed.

Lemma update_stats_spec self incoming order T :
  order ≡ₚ map_to_list incoming →
  let '(r, self', D) := update_stats_and_get_deltas self incoming order T in
  r = tally (len self) (max_sock_entries self) (n_known self (map_to_list incoming))
        (n_new self (map_to_list incoming)) ∧
  max_sock_entries self' = max_sock_entries self ∧
  (∀ k, cache self' !! k = round T (incoming !! k) (cache self !! k)) ∧
  (∀ k, D !! k = (λ inc, delta inc (cache self !! k)) <$> incoming !! k).
Proof.
  intros Hp. destruct (order_keys _ _ Hp) as [Hnd Hmap].
  unfold update_stats_and_get_deltas.
  destruct (foldl _ _ _) as [[self1 D1] r1] eqn:Hrun.
  pose proof (update_loop_tally T order self incoming SockOperationResult.default Hnd) as Ht.
  rewrite Hrun in Ht. simpl in Ht.
  apply update_loop_lookup in Hrun as (Hm & Hc & Hd); [|done]. rewrite Hmap in Hc, Hd.
  assert (∀ k, D1 !! k = (λ inc, delta inc (cache self !! k)) <$> incoming !! k) as Hd'.
  { intros k. rewrite Hd. destruct (incoming !! k) eqn:E; [|done]. by destruct (cache self !! k). }
  split_and!; try done.
  - rewrite Ht. assert (n_known self order = n_known self (map_to_list incoming)) as ->
      by (unfold n_known; by rewrite Hp).
    assert (n_new self order = n_new self (map_to_list incoming)) as ->
      by (unfold n_new; by rewrite Hp).
    apply add_default_l.
  - intros k. simpl. rewrite map_lookup_imap, Hc, Hd'. unfold round.
    destruct (incoming !! k); simpl; [done|]. by destruct (cache self !! k).
Qed.

(** Nothing a round computes depends on the order in which the hash map is visited. *)
Lemma update_stats_order self incoming order1 order2 T :
  order1 ≡ₚ map_to_list incoming → order2 ≡ₚ map_to_list incoming →
  update_stats_and_get_deltas self incoming order1 T =
  update_stats_and_get_deltas self incoming order2 T.
Proof.
  intros H1%(update_stats_spec self _ _ T) H2%(update_stats_spec self _ _ T).
  destruct (update_stats_and_get_deltas self incoming order1 T) as [[r1 [c1 m1]] D1].
  destruct (update_stats_and_get_deltas self incoming order2 T) as [[r2 [c2 m2]] D2].
  destruct H1 as (-> & Hm1 & Hc1 & Hd1), H2 as (-> & Hm2 & Hc2 & Hd2). simpl in *. subst m1 m2.
  f_equal; [do 2 f_equal|].
  - apply map_eq. intros k. by rewrite Hc1, Hc2.
  - apply map_eq. intros k. by rewrite Hd1, Hd2.
Qed.

(** *** Conservation of the statistics *)

(** The statistics the cache holds for a socket; none is all zero. *)
Definition base (known : option SockWrapper.t) : SockStats.t :=
  match known with
  | Some w => AggSockStats.stats (SockWrapper.agg_stats w)
  | None => SockStats.default
  end.

Definition sound_stats (s : SockStats.t) : Prop :=
  SockStats.wf s ∧ SockStats._pad s = SockStats._pad SockStats.default.

Lemma add_counters_default s :
  sound_stats s → SockStatsFacts.add_counters SockStats.default s = s.
Proof.
  intros [Hs _]. unfold SockStats.wf in Hs. destruct s, Hs as (? & ?). simpl in *. destruct_and!.
  unfold SockStatsFacts.add_counters, wrapping_add. simpl. f_equal; by apply wrap_id.
Qed.

Lemma base_present T inc known : base (Some (present T inc known)) = AggSockStats.stats inc.
Proof.
  unfold base, present, SockWrapper.update_status. destruct known as [w|]; simpl; [by case_match|done].
Qed.

Lemma base_absent T known : base (update_absent T <$> known) = base known.
Proof. destruct known as [w|]; [|done]. simpl. unfold update_absent. simpl. by case_match. Qed.

(** What the cache held, plus the delta handed out, is what it holds now. *)
Lemma base_delta inc known :
  sound_stats (AggSockStats.stats inc) →
  SockStatsFacts.add_counters (base known) (AggSockStats.stats (delta inc known)) =
  AggSockStats.stats inc.
Proof.
  intros Hs. destruct known as [w|]; simpl; [|by apply add_counters_default].
  destruct Hs. by apply SockStatsFacts.add_counters_subtract.
Qed.

(** Several rounds in sequence: the deltas each of them hands out, and the final cache. *)
Definition round_input : Type := gmap Z AggSockStats.t * list (Z * AggSockStats.t) * Z.

Fixpoint run_rounds (self : t) (rounds : list round_input) : list (gmap Z AggSockStats.t) * t :=
  match rounds with
  | [] => ([], self)
  | (incoming, order, T) :: rounds =>
      let '(_, self, D) := update_stats_and_get_deltas self incoming order T in
      let '(Ds, self) := run_rounds self rounds in (D :: Ds, self)
  end.

Definition deltas_for (k : Z) (Ds : list (gmap Z AggSockStats.t)) : list SockStats.t :=
  omap (λ D, AggSockStats.stats <$> D !! k) Ds.

Definition good_round (i : round_input) : Prop :=
  let '(incoming, order, _) := i in
  order ≡ₚ map_to_list incoming ∧
  ∀ k inc, incoming !! k = Some inc → sound_stats (AggSockStats.stats inc).

Lemma run_rounds_conserve rounds self k :
  Forall good_round rounds →
  let '(Ds, self') := run_rounds self rounds in
  foldl SockStatsFacts.add_counters (base (cache self !! k)) (deltas_for k Ds) =
  base (cache self' !! k).
Proof.
  revert self. induction rounds as [|[[incoming order] T] rounds IH]; intros self Hgood; [done|].
  apply Forall_cons in Hgood as [[Hp Hsound] Hgood]. simpl.
  pose proof (update_stats_spec self incoming order T Hp) as Hspec.
  destruct (update_stats_and_get_deltas self incoming order T) as [[r self1] D].
  destruct Hspec as (_ & _ & Hc & Hd). specialize (IH self1 Hgood).
  destruct (run_rounds self1 rounds) as [Ds self']. rewrite <- IH. clear IH.
  unfold deltas_for. csimpl. rewrite Hd, Hc. unfold round.
  destruct (incoming !! k) as [inc|] eqn:E; csimpl.
  - rewrite base_delta by eauto. f_equal. symmetry. apply (base_present T inc).
  - by rewrite base_absent.
Qed.

(** ** Cycles: a round followed by an eviction *)

Definition cycle (self : t) (i : round_input) : t :=
  let '(incoming, order, T) := i in
  let '(_, self, _) := update_stats_and_get_deltas self incoming order T in
  (perform_eviction self).2.

Lemma cycle_lookup self incoming order T k :
  order ≡ₚ map_to_list incoming →
  cache (cycle self (incoming, order, T)) !! k =
  (w ← round T (incoming !! k) (cache self !! k);
   if SockWrapper.should_evict w then None else Some w).
Proof.
  intros Hp. unfold cycle. pose proof (update_stats_spec self incoming order T Hp) as Hspec.
  destruct (update_stats_and_get_deltas self incoming order T) as [[r self1] D].
  destruct Hspec as (_ & _ & Hc & _). simpl. rewrite map_lookup_filter, Hc.
  destruct (round T (incoming !! k) (cache self !! k)) as [w|]; simpl; [|done].
  by destruct (SockWrapper.should_evict w).
Qed.

(** A socket without a valid context is being counted down. *)
Definition wrapper_ok (w : SockWrapper.t) : Prop :=
  SockContext.is_valid (SockWrapper.context w) = false →
  ∃ n, SockWrapper.cycles_not_fully_initialized w = Some n ∧ 0 ≤ n.

Definition cache_ok (self : t) : Prop := ∀ k w, cache self !! k = Some w → wrapper_ok w.

(** How long a socket has been waiting for its context. *)
Definition age (w : SockWrapper.t) : Z := default 0 (SockWrapper.cycles_not_fully_initialized w).

Lemma update_status_context w T :
  SockWrapper.context (SockWrapper.update_status w T) = SockWrapper.context w.
Proof. unfold SockWrapper.update_status. simpl. by case_match. Qed.

Lemma update_absent_context w T : SockWrapper.context (update_absent T w) = SockWrapper.context w.
Proof. unfold update_absent. simpl. by case_match. Qed.

Lemma update_status_age w T :
  wrapper_ok w → SockContext.is_valid (SockWrapper.context w) = false →
  SockWrapper.cycles_not_fully_initialized (SockWrapper.update_status w T) =
    Some (Z.min 255 (age w + 1)) ∧ 0 ≤ age w.
Proof.
  intros Hok Hv. destruct (Hok Hv) as (n & Hn & ?). unfold SockWrapper.update_status, age. simpl.
  by rewrite Hv, Hn.
Qed.

Lemma update_absent_age w T :
  wrapper_ok w → SockContext.is_valid (SockWrapper.context w) = false →
  SockWrapper.cycles_not_fully_initialized (update_absent T w) = Some (Z.min 255 (age w + 1)) ∧
  0 ≤ age w.
Proof.
  intros Hok Hv. destruct (Hok Hv) as (n & Hn & ?). unfold update_absent, age. simpl. by rewrite Hn.
Qed.

(** A round leaves every uninitialised socket one cycle older. *)
Lemma round_age T inc known w :
  (∀ w, known = Some w → wrapper_ok w) → round T inc known = Some w →
  SockContext.is_valid (SockWrapper.context w) = false →
  ∃ n, SockWrapper.cycles_not_fully_initialized w = Some n ∧
       Z.min 255 (match known with Some w0 => age w0 | None => 0 end + 1) ≤ n ∧ 1 ≤ n.
Proof.
  intros Hknown Hround Hv. unfold round, present in Hround.
  destruct inc as [inc|]; [|apply fmap_Some in Hround as (w0 & -> & Hround)].
  - injection Hround as <-. rewrite update_status_context in Hv. destruct known as [w0|].
    + destruct (update_status_age (w0 <| SockWrapper.agg_stats := inc |>) T) as [Heq Hage]; [|done|].
      * intros ?. by apply (Hknown w0).
      * eexists. split; [exact Heq|]. unfold age in *. simpl in *. lia.
    + eexists. split; [done|]. vm_compute. split; congruence.
  - rewrite Hround, update_absent_context in Hv. rewrite Hround.
    destruct (update_absent_age w0 T) as [Heq Hage]; auto. eexists. split; [exact Heq|]. lia.
Qed.

Lemma cycle_ok self i : good_round i → cache_ok self → cache_ok (cycle self i).
Proof.
  destruct i as [[incoming order] T]. intros [Hp _] Hok k w. rewrite cycle_lookup by done.
  intros Hw Hv. apply bind_Some in Hw as (w' & Hround & Hw).
  destruct (SockWrapper.should_evict w'); simplify_eq.
  destruct (round_age _ _ _ _ (λ w0, Hok k w0) Hround Hv) as (n & ? & ? & ?). exists n. split; [done|lia].
Qed.

Lemma add_context_ok self k sc now :
  SockContext.is_valid sc = true → cache_ok self → cache_ok (add_context self k sc now).2.
Proof.
  intros Hsc Hok k' w'. unfold add_context.
  destruct (cache self !! k) as [w|] eqn:E; [|destruct (_ <? _)]; simpl; [| |apply Hok];
    rewrite lookup_insert_Some; intros [[<- <-]|[_ Hw]]; try (by apply (Hok k')); unfold wrapper_ok.
  - unfold SockWrapper.update_context. case_match; simpl; congruence.
  - simpl. congruence.
Qed.

(** Who survives a cycle. *)
Lemma survivor T incoming order self k w :
  order ≡ₚ map_to_list incoming →
  cache (cycle self (incoming, order, T)) !! k = Some w →
  round T (incoming !! k) (cache self !! k) = Some w ∧
  T < SockWrapper.last_touched_us w ∧ age w ≤ 1 ∧ SockWrapper.is_complete w = false.
Proof.
  intros Hp Hw. rewrite cycle_lookup in Hw by done.
  apply bind_Some in Hw as (w' & Hround & Hw). destruct (SockWrapper.should_evict w') eqn:E; simplify_eq.
  split; [done|]. unfold SockWrapper.should_evict in E. rewrite !orb_false_iff in E.
  destruct E as ((Hcomp & Hstale) & Hage). unfold age. split_and!; [|lia|done].
  assert (SockWrapper.is_stale w = (SockWrapper.last_touched_us w <=? T)) as Hst; [|rewrite Hst in Hstale; lia].
  unfold round, present in Hround. destruct (incoming !! k) as [inc|].
  - injection Hround as <-. unfold SockWrapper.update_status, SockWrapper.last_touched_us. simpl.
    by destruct (SockContext.is_valid _).
  - apply fmap_Some in Hround as (w0 & _ & ->). unfold update_absent, SockWrapper.last_touched_us.
    simpl. by case_match.
Qed.

End SockCacheFacts.
