(* ===== verification/SockCacheProperties.v ===== *)
(** * SockCacheProperties: the guarantees of the socket cache *)

From stdpp Require Import base numbers gmap list strings fin_maps.
From S2P Require Import Prelude Network SockCache SockCacheFacts.
Import SockCache RoundSpec SockCacheFacts.

(** ** Concrete data for the witnesses *)

Definition stats_at (now rx : Z) : SockStats.t := SockStats.default
  <| SockStats.last_touched_us := now |> <| SockStats.bytes_received := rx |>.
Definition agg_at (now rx : Z) : AggSockStats.t := AggSockStats.mk (stats_at now rx) [0; 3].
Definition valid_context : SockContext.t := SockContext.default
  <| SockContext.address_family := AF_INET |> <| SockContext.remote_port := 443 |>.
Definition one_sock : t := (add_context (with_max_entries 2) 7 valid_context 100).2.
Definition round_of (l : list (Z * AggSockStats.t)) (T : Z) : round_input := (list_to_map l, l, T).

#[global] Instance stats_wf_dec s : Decision (SockStats.wf s).
Proof. unfold SockStats.wf. apply _. Defined.

#[global] Instance sound_stats_dec s : Decision (sound_stats s).
Proof. unfold sound_stats. apply _. Defined.

Lemma map_order (l : list (Z * AggSockStats.t)) :
  NoDup l.*1 → l ≡ₚ map_to_list (list_to_map l : gmap Z AggSockStats.t).
Proof. intros. symmetry. by apply map_to_list_to_map. Defined.

(** A round of [update_stats_and_get_deltas] acts on each socket by itself.  In whatever order
    the hash map is visited, each arriving socket is stored with its latest statistics and status
    and hands out the delta to what the cache held (all of it when it is new), each absent one
    only has its staleness and its initialisation count updated, and the tally counts the known
    sockets, and the new ones within and above the limit. *)
Theorem round_functional self incoming order T :
  order ≡ₚ map_to_list incoming →
  let '(r, self', D) := update_stats_and_get_deltas self incoming order T in
  r = tally (len self) (max_sock_entries self) (n_known self (map_to_list incoming))
        (n_new self (map_to_list incoming)) ∧
  max_sock_entries self' = max_sock_entries self ∧
  (∀ k, cache self' !! k = round T (incoming !! k) (cache self !! k)) ∧
  (∀ k, D !! k = (λ inc, delta inc (cache self !! k)) <$> incoming !! k).
Proof. apply update_stats_spec. Qed.

Lemma round_functional_witness :
  let incoming := list_to_map [(7, agg_at 110 50); (9, agg_at 120 60)] in
  let '(r, self', D) := update_stats_and_get_deltas one_sock incoming
    [(9, agg_at 120 60); (7, agg_at 110 50)] 90 in
  SockOperationResult.completed r = 1 ∧ SockOperationResult.partial r = 1.
Proof.
  intros incoming.
  assert ([(9, agg_at 120 60); (7, agg_at 110 50)] ≡ₚ map_to_list incoming) as Hp
    by (vm_compute; constructor).
  pose proof (round_functional one_sock incoming _ 90 Hp) as H.
  destruct (update_stats_and_get_deltas _ _ _ _) as [[r self'] D]. destruct H as (-> & _).
  by vm_compute.
Defined.

(** C5: No statistics are lost or counted twice between rounds.  Over any sequence of rounds, the
    statistics the cache held for a socket plus all deltas handed out for it are the statistics it
    holds at the end, counter by counter and across wrap-around. *)
Theorem deltas_conserve_stats rounds self k :
  Forall good_round rounds →
  let '(Ds, self') := run_rounds self rounds in
  foldl SockStatsFacts.add_counters (base (cache self !! k)) (deltas_for k Ds) =
  base (cache self' !! k).
Proof. apply run_rounds_conserve. Qed.

Definition sample_rounds : list round_input :=
  [round_of [(7, agg_at 110 50)] 90; round_of [(9, agg_at 115 5)] 92; round_of [(7, agg_at 120 80)] 95].

Lemma good_round_of l T :
  NoDup l.*1 → Forall (λ kv, sound_stats (AggSockStats.stats kv.2)) l → good_round (round_of l T).
Proof.
  intros Hnd Hs. split; [by apply map_order|]. intros k inc Hk. apply elem_of_list_to_map_2 in Hk.
  by eapply Forall_forall in Hs; [|exact Hk].
Defined.

Lemma sample_rounds_good : Forall good_round sample_rounds.
Proof.
  unfold sample_rounds. rewrite !Forall_cons. split_and!; [..|done]; apply good_round_of; by_eval.
Defined.

Lemma deltas_conserve_stats_witness :
  let '(Ds, self') := run_rounds one_sock sample_rounds in
  foldl SockStatsFacts.add_counters (base (cache one_sock !! 7)) (deltas_for 7 Ds) = stats_at 120 80.
Proof.
  pose proof (deltas_conserve_stats sample_rounds one_sock 7 sample_rounds_good) as H.
  destruct (run_rounds one_sock sample_rounds) as [Ds self'] eqn:E. rewrite H.
  vm_compute in E. by simplify_eq.
Defined.

(** C12: A cycle keeps exactly the sockets worth keeping.  After a round with staleness time [T] and
    the eviction that follows it, evicted and kept sockets partition the cache; the evicted ones
    are those with [should_evict]; each kept one was touched after [T], is not a completed (closed
    and identified) connection, and has waited for its context for at most one cycle. *)
Theorem cycle_keeps_live_sockets self incoming order T :
  order ≡ₚ map_to_list incoming →
  let '(_, self1, _) := update_stats_and_get_deltas self incoming order T in
  let '(evicted, num_stale, self2) := perform_eviction self1 in
  evicted ##ₘ cache self2 ∧ evicted ∪ cache self2 = cache self1 ∧
  (∀ k w, evicted !! k = Some w ↔ cache self1 !! k = Some w ∧ SockWrapper.should_evict w = true) ∧
  0 ≤ num_stale ≤ Z.of_nat (size evicted) ∧
  (∀ k w, cache self2 !! k = Some w →
    T < SockWrapper.last_touched_us w ∧ age w ≤ 1 ∧ SockWrapper.is_complete w = false).
Proof.
  intros Hp. pose proof (λ k w, survivor T incoming order self k w Hp) as Hsurv. unfold cycle in Hsurv.
  destruct (update_stats_and_get_deltas self incoming order T) as [[r self1] D].
  unfold perform_eviction in *. simpl in Hsurv |- *.
  assert (filter (λ kv : Z * SockWrapper.t, SockWrapper.should_evict kv.2 = false) (cache self1) =
    filter (λ kv, ¬ SockWrapper.should_evict kv.2 = true) (cache self1)) as Hkeep
    by (apply map_filter_ext; intros; simpl; by rewrite not_true_iff_false).
  split_and!.
  - rewrite Hkeep. apply map_disjoint_filter_complement.
  - rewrite Hkeep. apply map_filter_union_complement.
  - intros k w. by rewrite map_lookup_filter_Some.
  - lia.
  - apply Nat2Z.inj_le, map_subseteq_size, map_filter_subseteq_ext. intros k w _ Hs. simpl in *.
    unfold SockWrapper.should_evict. by rewrite Hs, orb_true_r.
  - intros k w Hw. by destruct (Hsurv k w Hw) as (_ & ? & ? & ?).
Qed.

Lemma cycle_keeps_live_sockets_witness :
  let '(_, self1, _) := update_stats_and_get_deltas one_sock ∅ [] 100 in
  let '(evicted, num_stale, self2) := perform_eviction self1 in
  evicted ∪ cache self2 = cache self1 ∧ num_stale = 1.
Proof.
  pose proof (cycle_keeps_live_sockets one_sock ∅ [] 100 (Permutation_refl _)) as H.
  destruct (update_stats_and_get_deltas one_sock ∅ [] 100) as [[r self1] D] eqn:E.
  destruct (perform_eviction self1) as [[evicted num_stale] self2] eqn:E'.
  split; [apply H|]. vm_compute in E. simplify_eq. vm_compute in E'. by simplify_eq.
Defined.

(** A socket does not stay unidentified.  If a socket is in the cache without a valid context
    after one cycle, and no context arrives, the next cycle evicts it, whether or not statistics
    for it keep arriving. *)
Theorem uninitialised_evicted self i1 i2 k w :
  cache_ok self → good_round i1 → good_round i2 →
  cache (cycle self i1) !! k = Some w → SockContext.is_valid (SockWrapper.context w) = false →
  cache (cycle (cycle self i1) i2) !! k = None.
Proof.
  intros Hok Hg1 Hg2 Hw Hv. pose proof (cycle_ok self i1 Hg1 Hok) as Hok1.
  destruct i1 as [[inc1 order1] T1], i2 as [[inc2 order2] T2].
  destruct Hg1 as [Hp1 _], Hg2 as [Hp2 _].
  destruct (survivor T1 inc1 order1 self k w Hp1 Hw) as (Hround & _).
  destruct (round_age _ _ _ _ (λ w0, Hok k w0) Hround Hv) as (n & Hn & _ & Hn1).
  destruct (cache (cycle _ (inc2, order2, T2)) !! k) as [w'|] eqn:Hw'; [|done]. exfalso.
  destruct (survivor T2 inc2 order2 _ k w' Hp2 Hw') as (Hround' & _ & Hage & _).
  rewrite Hw in Hround'.
  assert (SockContext.is_valid (SockWrapper.context w') = false) as Hv'.
  { unfold round, present in Hround'. destruct (inc2 !! k); simpl in Hround'; simplify_eq.
    - by rewrite update_status_context.
    - by rewrite update_absent_context. }
  destruct (round_age _ _ (Some w) _ ltac:(intros w0 [= <-]; by apply (Hok1 k)) Hround' Hv')
    as (n' & Hn' & Hle & _).
  unfold age in *. rewrite Hn in Hle. rewrite Hn' in Hage. simpl in *. lia.
Qed.

Definition arrival (now rx : Z) : round_input := round_of [(9, agg_at now rx)] 50.

Lemma uninitialised_evicted_witness :
  cache (cycle (cycle (with_max_entries 4) (arrival 100 1)) (arrival 200 2)) !! 9 = None.
Proof.
  assert (∀ now rx, sound_stats (stats_at now rx) → good_round (arrival now rx)) as Hgood
    by (intros; apply good_round_of; [by_eval|by constructor]).
  destruct (cache (cycle (with_max_entries 4) (arrival 100 1)) !! 9) as [w|] eqn:E;
    [|by vm_compute in E].
  apply (uninitialised_evicted (with_max_entries 4) (arrival 100 1) (arrival 200 2) 9 w).
  - intros k w0. simpl. by rewrite lookup_empty.
  - apply Hgood. by_eval.
  - apply Hgood. by_eval.
  - exact E.
  - vm_compute in E. by simplify_eq.
Defined.

(** Adding contexts respects the configured limit.  [add_context] on a known socket replaces its
    context and revives it, on a new one inserts it only below the limit, and otherwise changes
    nothing; its tally has exactly one entry saying which, and a cache within its limit stays so. *)
Theorem add_context_within_limit self k sc now :
  let '(r, self') := add_context self k sc now in
  SockOperationResult.total r = 1 ∧
  (SockOperationResult.failed r = 1 ↔ cache self !! k = None ∧ max_sock_entries self ≤ len self) ∧
  (SockOperationResult.failed r = 1 → self' = self) ∧
  (∀ k', k' ≠ k → cache self' !! k' = cache self !! k') ∧
  (SockOperationResult.failed r ≠ 1 → ∃ w, cache self' !! k = Some w ∧
    SockWrapper.context w = sc ∧ SockWrapper.last_touched_us w = now ∧
    SockWrapper.is_stale w = false ∧ SockWrapper.is_complete w = false) ∧
  (len self ≤ max_sock_entries self → len self' ≤ max_sock_entries self').
Proof.
  unfold add_context, len. destruct (cache self !! k) as [w|] eqn:E.
  - simpl. split_and!; try done; try (split; [done|intros []; done]).
    + intros k' ?. by rewrite lookup_insert_ne.
    + intros _. eexists. rewrite lookup_insert_eq. split; [done|].
      unfold SockWrapper.update_context. by case_match.
    + by rewrite map_size_insert, E.
  - destruct (Z.ltb_spec (Z.of_nat (size (cache self))) (max_sock_entries self)); simpl.
    + split_and!; try done; try (split; [done|intros []; lia]).
      * intros k' ?. by rewrite lookup_insert_ne.
      * intros _. eexists. by rewrite lookup_insert_eq.
      * rewrite map_size_insert, E. simpl. lia.
    + split_and!; done.
Qed.
