(* ===== verification/ReportData.v ===== *)
(** * ReportData: the values a report is made of

    Models the value types of nfm-controller/src/reports/report.rs, utils/report.rs (the flattening
    of a serialised struct into named values) and kubernetes/flow_metadata.rs.  serde_json is a
    third-party crate; what the code uses of it is its documented data model: a struct becomes an
    object whose members are ordered by key, an unsigned integer a number that [is_i64] below 2^63.
    An [f64] is represented by the rational it denotes. *)

From stdpp Require Import base numbers gmap list strings.
From Stdlib Require Import QArith_base.
From S2P Require Import Prelude Network.
Open Scope Z_scope.

(** ** [MetricHistogram] *)
Module MetricHistogram.

Record t := mk {
  count : Z;
  min : Z;
  max : Z;
  sum : Z;
}.

#[global] Instance eta_t : Eta t := λ r, mk (count r) (min r) (max r) (sum r).

Definition default : t := mk 0 0 0 0.

#[global] Instance eq_dec : EqDecision t.
Proof. solve_decision. Defined.

End MetricHistogram.

(** ** JSON as serde_json represents it *)

Inductive json_number :=
| PosInt (n : Z)
| NegInt (n : Z)
| JFloat (q : Q).

Inductive json :=
| JNull
| JBool (b : bool)
| JNumber (n : json_number)
| JString (s : string)
| JArray (l : list json)
| JObject (fields : list (string * json)).

Definition is_f64 (n : json_number) : bool := match n with JFloat _ => true | _ => false end.
Definition is_i64 (n : json_number) : bool :=
  match n with PosInt v => v <? 2 ^ 63 | NegInt _ => true | JFloat _ => false end.
Definition is_u64 (n : json_number) : bool := match n with PosInt _ => true | _ => false end.
Definition number_value (n : json_number) : Z :=
  match n with PosInt v => v | NegInt v => v | JFloat _ => 0 end.

(** ** [ReportValue] *)
Module ReportValue.

Inductive t :=
| Float (f : Q)
| UInt (u : Z)
| Int (i : Z)
| String (s : string)
| Histogram (h : MetricHistogram.t)
| Invalid.

Definition from_json (json_val : json) : t :=
  match json_val with
  | JNumber num =>
      match num with
      | JFloat f => Float f
      | _ =>
          if is_i64 num then Int (number_value num)
          else if is_u64 num then UInt (number_value num)
          else Invalid
      end
  | JString s => String s
  | _ => Invalid
  end.

End ReportValue.

(** ** [to_value_pairs]

    [fields] are the members of the struct in the order of its declaration. *)

(** A member enters the object, which is ordered by key. *)
Fixpoint object_insert (k : string) (v : json) (fields : list (string * json)) :
    list (string * json) :=
  match fields with
  | [] => [(k, v)]
  | (k', v') :: rest =>
      if String.eqb k k' then (k, v) :: rest
      else if String.ltb k k' then (k, v) :: fields
      else (k', v') :: object_insert k v rest
  end.

Definition to_object (fields : list (string * json)) : list (string * json) :=
  foldl (λ o '(k, v), object_insert k v o) [] fields.

Definition is_object (v : json) : bool := match v with JObject _ => true | _ => false end.
Definition is_array (v : json) : bool := match v with JArray _ => true | _ => false end.

Definition to_value_pairs (fields : list (string * json)) : list (string * ReportValue.t) :=
  omap (λ '(k, v),
    (* Serialize only primitive types into the report. *)
    if negb (is_object v) && negb (is_array v) then Some (k, ReportValue.from_json v) else None)
    (to_object fields).

Definition json_uint (n : Z) : json := JNumber (PosInt n).

(** A serialised histogram is an object, which [to_value_pairs] skips. *)
Definition json_histogram (h : MetricHistogram.t) : json :=
  JObject (to_object
    [("count", json_uint (MetricHistogram.count h)); ("min", json_uint (MetricHistogram.min h));
     ("max", json_uint (MetricHistogram.max h)); ("sum", json_uint (MetricHistogram.sum h))])%string.

(** ** [PodInfo] and [FlowMetadata] *)
Module PodInfo.

Record t := mk {
  name : string;
  namespace : string;
  service_name : string;
}.

#[global] Instance eta_t : Eta t := λ r, mk (name r) (namespace r) (service_name r).

Definition default : t := mk "" "" "".

#[global] Instance eq_dec : EqDecision t.
Proof. solve_decision. Defined.

#[global] Instance countable : Countable t.
Proof.
  refine (inj_countable' (λ p, (name p, namespace p, service_name p))
    (λ '(a, b, c), mk a b c) _). by intros [].
Defined.

End PodInfo.

Module FlowMetadata.

Record t := mk {
  local : option PodInfo.t;
  remote : option PodInfo.t;
}.

#[global] Instance eta_t : Eta t := λ r, mk (local r) (remote r).

#[global] Instance eq_dec : EqDecision t.
Proof. solve_decision. Defined.

#[global] Instance countable : Countable t.
Proof. refine (inj_countable' (λ p, (local p, remote p)) (λ '(a, b), mk a b) _). by intros []. Defined.

Definition enumerate (self : t) : list (string * ReportValue.t) :=
  let values := [] in
  let values :=
    match local self with
    | Some pod_info => values ++
        [("local_pod_name", ReportValue.String (PodInfo.name pod_info));
         ("local_pod_namespace", ReportValue.String (PodInfo.namespace pod_info));
         ("local_pod_service", ReportValue.String (PodInfo.service_name pod_info))]%string
    | None => values
    end in
  match remote self with
  | Some pod_info => values ++
      [("remote_pod_name", ReportValue.String (PodInfo.name pod_info));
       ("remote_pod_namespace", ReportValue.String (PodInfo.namespace pod_info));
       ("remote_pod_service", ReportValue.String (PodInfo.service_name pod_info))]%string
  | None => values
  end.

End FlowMetadata.

(** ** The agent's own statistics *)
Module ProcessCounters.

Record t := mk {
  restarts : Z;
  sockets_added : Z;
  sockets_natd : Z;
  sockets_stale : Z;
  socket_deltas_completed : Z;
  socket_deltas_missing_props : Z;
  socket_deltas_above_limit : Z;
  socket_agg_completed : Z;
  socket_agg_missing_props : Z;
  socket_agg_above_limit : Z;
  socket_eviction_completed : Z;
  socket_eviction_failed : Z;
  remote_nat_reversal_errors : Z;
}.

#[global] Instance eta_t : Eta t := λ r,
  mk (restarts r) (sockets_added r) (sockets_natd r) (sockets_stale r) (socket_deltas_completed r)
    (socket_deltas_missing_props r) (socket_deltas_above_limit r) (socket_agg_completed r)
    (socket_agg_missing_props r) (socket_agg_above_limit r) (socket_eviction_completed r)
    (socket_eviction_failed r) (remote_nat_reversal_errors r).

Definition default : t := mk 0 0 0 0 0 0 0 0 0 0 0 0 0.

#[global] Instance eq_dec : EqDecision t.
Proof. solve_decision. Defined.

Definition serialize (self : t) : list (string * json) :=
  [("restarts", json_uint (restarts self));
   ("sockets_added", json_uint (sockets_added self));
   ("sockets_natd", json_uint (sockets_natd self));
   ("sockets_stale", json_uint (sockets_stale self));
   ("socket_deltas_completed", json_uint (socket_deltas_completed self));
   ("socket_deltas_missing_props", json_uint (socket_deltas_missing_props self));
   ("socket_deltas_above_limit", json_uint (socket_deltas_above_limit self));
   ("socket_agg_completed", json_uint (socket_agg_completed self));
   ("socket_agg_missing_props", json_uint (socket_agg_missing_props self));
   ("socket_agg_above_limit", json_uint (socket_agg_above_limit self));
   ("socket_eviction_completed", json_uint (socket_eviction_completed self));
   ("socket_eviction_failed", json_uint (socket_eviction_failed self));
   ("remote_nat_reversal_errors", json_uint (remote_nat_reversal_errors self))]%string.

End ProcessCounters.

Module CountersOverall.

Record t := mk {
  event_related : EventCounters.t;
  process_related : ProcessCounters.t;
}.

#[global] Instance eta_t : Eta t := λ r, mk (event_related r) (process_related r).

Definition default : t := mk EventCounters.default ProcessCounters.default.

(** The derived [Serialize] of [EventCounters]. *)
Definition serialize_events (c : EventCounters.t) : list (string * json) :=
  [("active_connect_events", json_uint (EventCounters.active_connect_events c));
   ("active_established_events", json_uint (EventCounters.active_established_events c));
   ("passive_established_events", json_uint (EventCounters.passive_established_events c));
   ("state_change_events", json_uint (EventCounters.state_change_events c));
   ("rtt_events", json_uint (EventCounters.rtt_events c));
   ("retrans_events", json_uint (EventCounters.retrans_events c));
   ("rto_events", json_uint (EventCounters.rto_events c));
   ("other_events", json_uint (EventCounters.other_events c));
   ("socket_events", json_uint (EventCounters.socket_events c));
   ("sockets_invalid", json_uint (EventCounters.sockets_invalid c));
   ("map_insertion_errors", json_uint (EventCounters.map_insertion_errors c));
   ("rtts_invalid", json_uint (EventCounters.rtts_invalid c));
   ("set_flags_errors", json_uint (EventCounters.set_flags_errors c));
   ("other_errors", json_uint (EventCounters.other_errors c))]%string.

End CountersOverall.

Module UsageStats.

Record t := mk {
  cpu_util : Q;
  mem_used_kb : Z;
  mem_used_ratio : Q;
  sockets_tracked : Z;
  ebpf_allocated_mem_kb : Z;
}.

#[global] Instance eta_t : Eta t := λ r,
  mk (cpu_util r) (mem_used_kb r) (mem_used_ratio r) (sockets_tracked r) (ebpf_allocated_mem_kb r).

Definition serialize (self : t) : list (string * json) :=
  [("cpu_util", JNumber (JFloat (cpu_util self)));
   ("mem_used_kb", json_uint (mem_used_kb self));
   ("mem_used_ratio", JNumber (JFloat (mem_used_ratio self)));
   ("sockets_tracked", json_uint (sockets_tracked self));
   ("ebpf_allocated_mem_kb", json_uint (ebpf_allocated_mem_kb self))]%string.

End UsageStats.

Module ProcessStats.

Record t := mk {
  counters : CountersOverall.t;
  usage : list UsageStats.t;
}.

#[global] Instance eta_t : Eta t := λ r, mk (counters r) (usage r).

Definition default : t := mk CountersOverall.default [].

Definition enumerate_usage (self : t) : list (string * ReportValue.t) :=
  match last (usage self) with
  | Some usg => to_value_pairs (UsageStats.serialize usg)
  | None => []
  end.

Definition enumerate_counters (self : t) : list (string * ReportValue.t) :=
  to_value_pairs (CountersOverall.serialize_events (CountersOverall.event_related (counters self))) ++
  to_value_pairs (ProcessCounters.serialize (CountersOverall.process_related (counters self))).

End ProcessStats.
