(* ===== verification/NetworkEvent.v ===== *)
(** * NetworkEvent: flows and their statistics

    Models nfm-controller/src/events/network_event.rs: the properties sockets are grouped by, the
    statistics of a flow, the loss measure and the accumulation of a socket's deltas.  A [+=] on a
    [u32] level or counter panics on overflow ([None]); everything else saturates. *)

From stdpp Require Import base numbers gmap list strings.
From S2P Require Import Prelude Network ReportData.

Definition ELIDED_PORT : Z := 0.

Inductive InetProtocol :=
| ANY
| TCP
| UDP.

#[global] Instance InetProtocol_eq_dec : EqDecision InetProtocol.
Proof. solve_decision. Defined.

#[global] Instance InetProtocol_countable : Countable InetProtocol.
Proof.
  refine (inj_countable'
    (λ p, match p with ANY => 0%nat | TCP => 1%nat | UDP => 2%nat end)
    (λ n, match n with 0%nat => ANY | 1%nat => TCP | _ => UDP end) _). by intros [].
Defined.

(** [Display]. *)
Definition protocol_to_string (p : InetProtocol) : string :=
  match p with ANY => "ANY" | TCP => "TCP" | UDP => "UDP" end.

(** ** [FlowProperties] *)
Module FlowProperties.

Record t := mk {
  protocol : InetProtocol;
  local_address : IpAddr.t;
  remote_address : IpAddr.t;
  local_port : Z;
  remote_port : Z;
  kubernetes_metadata : option FlowMetadata.t;
}.

#[global] Instance eta_t : Eta t := λ r,
  mk (protocol r) (local_address r) (remote_address r) (local_port r) (remote_port r)
    (kubernetes_metadata r).

#[global] Instance eq_dec : EqDecision t.
Proof. solve_decision. Defined.

#[global] Instance countable : Countable t.
Proof.
  refine (inj_countable'
    (λ f, (protocol f, local_address f, remote_address f, local_port f, remote_port f,
           kubernetes_metadata f))
    (λ '(a, b, c, d, e, g), mk a b c d e g) _). by intros [].
Defined.

Section serialize.
(** [IpAddr]'s [Display] in the standard library. *)
Context (ip_to_string : IpAddr.t → string).

(** [impl Serialize for FlowProperties]. *)
Definition serialize (self : t) : list (string * json) :=
  [("protocol", JString (protocol_to_string (protocol self)));
   ("local_address", JString (ip_to_string (local_address self)));
   ("remote_address", JString (ip_to_string (remote_address self)));
   ("local_port", json_uint (local_port self));
   ("remote_port", json_uint (remote_port self))]%string.

Definition enumerate (self : t) : list (string * ReportValue.t) :=
  let values := to_value_pairs (serialize self) in
  match kubernetes_metadata self with
  | Some metadata => values ++ FlowMetadata.enumerate metadata
  | None => values
  end.

End serialize.

Definition is_client_flow (self : t) : bool := local_port self =? ELIDED_PORT.

(** The error string is left out. *)
Definition try_from (context : SockContext.t) : Result t unit :=
  let addresses :=
    if SockContext.address_family context =? AF_INET then
      Ok (IpAddr.V4 (SockContext.local_ipv4 context), IpAddr.V4 (SockContext.remote_ipv4 context))
    else if SockContext.address_family context =? AF_INET6 then
      Ok (IpAddr.V6 (SockContext.local_ipv6 context), IpAddr.V6 (SockContext.remote_ipv6 context))
    else Err tt in
  match addresses with
  | Err e => Err e
  | Ok (local_address, remote_address) =>
      let '(local_port, remote_port) :=
        if SockContext.is_client context then (ELIDED_PORT, SockContext.remote_port context)
        else (SockContext.local_port context, ELIDED_PORT) in
      Ok {|
        protocol := TCP;
        local_address := local_address;
        remote_address := remote_address;
        local_port := local_port;
        remote_port := remote_port;
        kubernetes_metadata := None
      |}
  end.

End FlowProperties.

(** ** [NetworkStats] *)
Module NetworkStats.

Record t := mk {
  sockets_connecting : Z;
  sockets_established : Z;
  sockets_closing : Z;
  sockets_closed : Z;
  sockets_completed : Z;
  severed_connect : Z;
  severed_establish : Z;
  connect_attempts : Z;
  bytes_received : Z;
  bytes_delivered : Z;
  segments_received : Z;
  segments_delivered : Z;
  retrans_syn : Z;
  retrans_est : Z;
  retrans_close : Z;
  rtos_syn : Z;
  rtos_est : Z;
  rtos_close : Z;
  connect_us : MetricHistogram.t;
  rtt_us : MetricHistogram.t;
  rtt_smoothed_us : MetricHistogram.t;
}.

#[global] Instance eta_t : Eta t := λ r,
  mk (sockets_connecting r) (sockets_established r) (sockets_closing r) (sockets_closed r)
    (sockets_completed r) (severed_connect r) (severed_establish r) (connect_attempts r)
    (bytes_received r) (bytes_delivered r) (segments_received r) (segments_delivered r)
    (retrans_syn r) (retrans_est r) (retrans_close r) (rtos_syn r) (rtos_est r) (rtos_close r)
    (connect_us r) (rtt_us r) (rtt_smoothed_us r).

Definition default : t :=
  mk 0 0 0 0 0 0 0 0 0 0 0 0 0 0 0 0 0 0
    MetricHistogram.default MetricHistogram.default MetricHistogram.default.

#[global] Instance eq_dec : EqDecision t.
Proof. solve_decision. Defined.

Definition total_bytes (self : t) : Z :=
  saturating_add u64 (bytes_received self) (bytes_delivered self).

Definition retrans_total (self : t) : Z :=
  saturating_add u32 (saturating_add u32 (retrans_syn self) (retrans_est self)) (retrans_close self).

Definition rtos_total (self : t) : Z :=
  saturating_add u32 (saturating_add u32 (rtos_syn self) (rtos_est self)) (rtos_close self).

Definition quantify_loss (self : t) : Z :=
  let SCALE_FACTOR := 2 in
  saturating_add u32
    (saturating_add u32 (retrans_total self) (saturating_mul u32 (rtos_total self) SCALE_FACTOR))
    (saturating_mul u32 (saturating_add u32 (severed_connect self) (severed_establish self))
      (SCALE_FACTOR * SCALE_FACTOR)).

(** The derived [Serialize]: one member per field. *)
Definition serialize (self : t) : list (string * json) :=
  [("sockets_connecting", json_uint (sockets_connecting self));
   ("sockets_established", json_uint (sockets_established self));
   ("sockets_closing", json_uint (sockets_closing self));
   ("sockets_closed", json_uint (sockets_closed self));
   ("sockets_completed", json_uint (sockets_completed self));
   ("severed_connect", json_uint (severed_connect self));
   ("severed_establish", json_uint (severed_establish self));
   ("connect_attempts", json_uint (connect_attempts self));
   ("bytes_received", json_uint (bytes_received self));
   ("bytes_delivered", json_uint (bytes_delivered self));
   ("segments_received", json_uint (segments_received self));
   ("segments_delivered", json_uint (segments_delivered self));
   ("retrans_syn", json_uint (retrans_syn self));
   ("retrans_est", json_uint (retrans_est self));
   ("retrans_close", json_uint (retrans_close self));
   ("rtos_syn", json_uint (rtos_syn self));
   ("rtos_est", json_uint (rtos_est self));
   ("rtos_close", json_uint (rtos_close self));
   ("connect_us", json_histogram (connect_us self));
   ("rtt_us", json_histogram (rtt_us self));
   ("rtt_smoothed_us", json_histogram (rtt_smoothed_us self))]%string.

Definition enumerate (self : t) : list (string * ReportValue.t) :=
  to_value_pairs (serialize self) ++
  [("connect_us", ReportValue.Histogram (connect_us self));
   ("rtt_us", ReportValue.Histogram (rtt_us self));
   ("rtt_smoothed_us", ReportValue.Histogram (rtt_smoothed_us self))]%string.

Definition clear_levels (self : t) : t :=
  self <| sockets_connecting := 0 |>
       <| sockets_established := 0 |>
       <| sockets_closing := 0 |>
       <| sockets_closed := 0 |>.

Definition update_sock_counters (self : t) (sock_stats : SockStats.t) : option t :=
  let flags := SockStats.state_flags sock_stats in
  if negb (SockStateFlags.contains flags SockStateFlags.STARTED_CLOSURE) then
    if SockStateFlags.contains flags SockStateFlags.ENTERED_ESTABLISH then
      n ← checked_add u32 (sockets_established self) 1;
      Some (self <| sockets_established := n |>)
    else
      n ← checked_add u32 (sockets_connecting self) 1;
      Some (self <| sockets_connecting := n |>)
  else
    self ← (
      if SockStateFlags.contains flags SockStateFlags.CLOSED then
        n ← checked_add u32 (sockets_closed self) 1;
        Some (self <| sockets_closed := n |>)
      else
        n ← checked_add u32 (sockets_closing self) 1;
        Some (self <| sockets_closing := n |>));
    if SockStateFlags.contains flags SockStateFlags.TERMINATED_FROM_SYN then
      n ← checked_add u32 (severed_connect self) 1;
      Some (self <| severed_connect := n |>)
    else if SockStateFlags.contains flags SockStateFlags.TERMINATED_FROM_EST then
      n ← checked_add u32 (severed_establish self) 1;
      Some (self <| severed_establish := n |>)
    else Some self.

(** Adds a socket's stats to a flow's stats. *)
Definition add_from (self : t) (sock_stats : SockStats.t) : option t :=
  self ← update_sock_counters self sock_stats;
  let self := self
    <| connect_attempts ::= λ x, saturating_add u32 x (SockStats.connect_attempts sock_stats) |>
    <| bytes_received ::= λ x, saturating_add u64 x (SockStats.bytes_received sock_stats) |>
    <| bytes_delivered ::= λ x, saturating_add u64 x (SockStats.bytes_delivered sock_stats) |>
    <| segments_received ::= λ x, saturating_add u64 x (SockStats.segments_received sock_stats) |>
    <| segments_delivered ::= λ x, saturating_add u64 x (SockStats.segments_delivered sock_stats) |>
    <| retrans_syn ::= λ x, saturating_add u32 x (SockStats.retrans_syn sock_stats) |>
    <| retrans_est ::= λ x, saturating_add u32 x (SockStats.retrans_est sock_stats) |>
    <| retrans_close ::= λ x, saturating_add u32 x (SockStats.retrans_close sock_stats) |>
    <| rtos_syn ::= λ x, saturating_add u32 x (SockStats.rtos_syn sock_stats) |>
    <| rtos_est ::= λ x, saturating_add u32 x (SockStats.rtos_est sock_stats) |>
    <| rtos_close ::= λ x, saturating_add u32 x (SockStats.rtos_close sock_stats) |> in
  (* Carry forward timing measurements only if the socket actually saw their corresponding events
     during this period. *)
  let self :=
    if 0 <? SockStats.connect_successes sock_stats then
      match SockStats.connect_us sock_stats with
      | Some us => self <| connect_us ::= λ h, h
          <| MetricHistogram.count ::= λ x,
               saturating_add u32 x (SockStats.connect_successes sock_stats) |>
          <| MetricHistogram.min ::= λ x, min_non_zero x us |>
          <| MetricHistogram.max ::= λ x, Z.max x us |>
          <| MetricHistogram.sum ::= λ x, saturating_add u64 x us |> |>
      | None => self
      end
    else self in
  Some (
    if 0 <? SockStats.rtt_count sock_stats then
      let rtt_count := 1 in
      let self :=
        if 0 <? SockStats.rtt_latest_us sock_stats then
          self <| rtt_us ::= λ h, h
            <| MetricHistogram.count ::= λ x, saturating_add u32 x rtt_count |>
            <| MetricHistogram.min ::= λ x, min_non_zero x (SockStats.rtt_latest_us sock_stats) |>
            <| MetricHistogram.max ::= λ x, Z.max x (SockStats.rtt_latest_us sock_stats) |>
            <| MetricHistogram.sum ::= λ x, saturating_add u64 x (SockStats.rtt_latest_us sock_stats) |> |>
        else self in
      if 0 <? SockStats.rtt_smoothed_us sock_stats then
        self <| rtt_smoothed_us ::= λ h, h
          <| MetricHistogram.count ::= λ x, saturating_add u32 x rtt_count |>
          <| MetricHistogram.min ::= λ x, min_non_zero x (SockStats.rtt_smoothed_us sock_stats) |>
          <| MetricHistogram.max ::= λ x, Z.max x (SockStats.rtt_smoothed_us sock_stats) |>
          <| MetricHistogram.sum ::= λ x, saturating_add u64 x (SockStats.rtt_smoothed_us sock_stats) |> |>
      else self
    else self).

End NetworkStats.

(** ** [AggregateResults] *)
Module AggregateResults.

Record t := mk {
  flow : FlowProperties.t;
  stats : NetworkStats.t;
}.

#[global] Instance eta_t : Eta t := λ r, mk (flow r) (stats r).

#[global] Instance eq_dec : EqDecision t.
Proof. solve_decision. Defined.

End AggregateResults.
