(* ===== verification/NetworkEventFacts.v ===== *)
(** * NetworkEventFacts: flow statistics in closed form

    Folding the deltas of any number of sockets into a flow has a closed form: saturated sums,
    counts of sockets per state, and histograms over the sockets' samples.  Order independence, the
    partition of the sockets into states and the bounds of the histograms follow from it. *)

From stdpp Require Import base numbers gmap list strings.
From S2P Require Import Prelude Network ReportData NetworkEvent.
Import NetworkStats.

Module FlowSpec.

Definition one (b : bool) : Z := if b then 1 else 0.

(** The state a socket is counted under. *)
Definition has (flag : Z) (st : SockStats.t) : bool :=
  SockStateFlags.contains (SockStats.state_flags st) flag.
Definition connecting (st : SockStats.t) : Z :=
  one (negb (has SockStateFlags.STARTED_CLOSURE st) && negb (has SockStateFlags.ENTERED_ESTABLISH st)).
Definition established (st : SockStats.t) : Z :=
  one (negb (has SockStateFlags.STARTED_CLOSURE st) && has SockStateFlags.ENTERED_ESTABLISH st).
Definition closing (st : SockStats.t) : Z :=
  one (has SockStateFlags.STARTED_CLOSURE st && negb (has SockStateFlags.CLOSED st)).
Definition closed (st : SockStats.t) : Z :=
  one (has SockStateFlags.STARTED_CLOSURE st && has SockStateFlags.CLOSED st).
Definition cut_connect (st : SockStats.t) : Z :=
  one (has SockStateFlags.STARTED_CLOSURE st && has SockStateFlags.TERMINATED_FROM_SYN st).
Definition cut_establish (st : SockStats.t) : Z :=
  one (has SockStateFlags.STARTED_CLOSURE st && negb (has SockStateFlags.TERMINATED_FROM_SYN st) &&
       has SockStateFlags.TERMINATED_FROM_EST st).

(** The samples a socket contributes to the histograms: how many, and the value. *)
Definition connect_sample (st : SockStats.t) : option (Z * Z) :=
  if 0 <? SockStats.connect_successes st
  then (λ us, (SockStats.connect_successes st, us)) <$> SockStats.connect_us st else None.
Definition rtt_sample (us : Z) (st : SockStats.t) : option (Z * Z) :=
  if (0 <? SockStats.rtt_count st) && (0 <? us) then Some (1, us) else None.

Definition hist_add (h : MetricHistogram.t) (sample : option (Z * Z)) : MetricHistogram.t :=
  match sample with
  | Some (n, us) => MetricHistogram.mk
      (saturating_add u32 (MetricHistogram.count h) n)
      (min_non_zero (MetricHistogram.min h) us)
      (Z.max (MetricHistogram.max h) us)
      (saturating_add u64 (MetricHistogram.sum h) us)
  | None => h
  end.

(** A counter that is raised by 0 or 1 without overflowing. *)
Definition fits (x d : Z) : bool := (d =? 0) || (x + d <=? umax u32).

Definition all_fit (s : t) (st : SockStats.t) : bool :=
  fits (sockets_connecting s) (connecting st) && fits (sockets_established s) (established st) &&
  fits (sockets_closing s) (closing st) && fits (sockets_closed s) (closed st) &&
  fits (severed_connect s) (cut_connect st) && fits (severed_establish s) (cut_establish st).

(** [add_from] as one expression. *)
Definition accumulate (s : t) (st : SockStats.t) : t := {|
  sockets_connecting := sockets_connecting s + connecting st;
  sockets_established := sockets_established s + established st;
  sockets_closing := sockets_closing s + closing st;
  sockets_closed := sockets_closed s + closed st;
  sockets_completed := sockets_completed s;
  severed_connect := severed_connect s + cut_connect st;
  severed_establish := severed_establish s + cut_establish st;
  connect_attempts := saturating_add u32 (connect_attempts s) (SockStats.connect_attempts st);
  bytes_received := saturating_add u64 (bytes_received s) (SockStats.bytes_received st);
  bytes_delivered := saturating_add u64 (bytes_delivered s) (SockStats.bytes_delivered st);
  segments_received := saturating_add u64 (segments_received s) (SockStats.segments_received st);
  segments_delivered := saturating_add u64 (segments_delivered s) (SockStats.segments_delivered st);
  retrans_syn := saturating_add u32 (retrans_syn s) (SockStats.retrans_syn st);
  retrans_est := saturating_add u32 (retrans_est s) (SockStats.retrans_est st);
  retrans_close := saturating_add u32 (retrans_close s) (SockStats.retrans_close st);
  rtos_syn := saturating_add u32 (rtos_syn s) (SockStats.rtos_syn st);
  rtos_est := saturating_add u32 (rtos_est s) (SockStats.rtos_est st);
  rtos_close := saturating_add u32 (rtos_close s) (SockStats.rtos_close st);
  connect_us := hist_add (connect_us s) (connect_sample st);
  rtt_us := hist_add (rtt_us s) (rtt_sample (SockStats.rtt_latest_us st) st);
  rtt_smoothed_us := hist_add (rtt_smoothed_us s) (rtt_sample (SockStats.rtt_smoothed_us st) st)
|}.

(** The closed form over a list of sockets. *)
Definition satsum (w : Z) (l : list Z) : Z := Z.min (umax w) (Zsum l).

Definition hist_spec (samples : list (Z * Z)) : MetricHistogram.t :=
  MetricHistogram.mk (satsum u32 samples.*1) (Zminnz samples.*2) (Zmax0 samples.*2)
    (satsum u64 samples.*2).

Definition flow_spec (l : list SockStats.t) : t := {|
  sockets_connecting := Zsum (connecting <$> l);
  sockets_established := Zsum (established <$> l);
  sockets_closing := Zsum (closing <$> l);
  sockets_closed := Zsum (closed <$> l);
  sockets_completed := 0;
  severed_connect := Zsum (cut_connect <$> l);
  severed_establish := Zsum (cut_establish <$> l);
  connect_attempts := satsum u32 (SockStats.connect_attempts <$> l);
  bytes_received := satsum u64 (SockStats.bytes_received <$> l);
  bytes_delivered := satsum u64 (SockStats.bytes_delivered <$> l);
  segments_received := satsum u64 (SockStats.segments_received <$> l);
  segments_delivered := satsum u64 (SockStats.segments_delivered <$> l);
  retrans_syn := satsum u32 (SockStats.retrans_syn <$> l);
  retrans_est := satsum u32 (SockStats.retrans_est <$> l);
  retrans_close := satsum u32 (SockStats.retrans_close <$> l);
  rtos_syn := satsum u32 (SockStats.rtos_syn <$> l);
  rtos_est := satsum u32 (SockStats.rtos_est <$> l);
  rtos_close := satsum u32 (SockStats.rtos_close <$> l);
  connect_us := hist_spec (omap connect_sample l);
  rtt_us := hist_spec (omap (λ st, rtt_sample (SockStats.rtt_latest_us st) st) l);
  rtt_smoothed_us := hist_spec (omap (λ st, rtt_sample (SockStats.rtt_smoothed_us st) st) l)
|}.

(** No [u32] count of sockets overflows. *)
Definition flow_fits (l : list SockStats.t) : bool :=
  (Zsum (connecting <$> l) <=? umax u32) && (Zsum (established <$> l) <=? umax u32) &&
  (Zsum (closing <$> l) <=? umax u32) && (Zsum (closed <$> l) <=? umax u32) &&
  (Zsum (cut_connect <$> l) <=? umax u32) && (Zsum (cut_establish <$> l) <=? umax u32).

End FlowSpec.

Module NetworkEventFacts.
Import FlowSpec.

(** The code's branches are the one-hot counts. *)
Definition counted (s : t) (st : SockStats.t) : t := s
  <| sockets_connecting ::= λ x, x + connecting st |>
  <| sockets_established ::= λ x, x + established st |>
  <| sockets_closing ::= λ x, x + closing st |>
  <| sockets_closed ::= λ x, x + closed st |>
  <| severed_connect ::= λ x, x + cut_connect st |>
  <| severed_establish ::= λ x, x + cut_establish st |>.

Lemma update_sock_counters_counted s st :
  update_sock_counters s st = if all_fit s st then Some (counted s st) else None.
Proof.
  unfold update_sock_counters, all_fit, counted, connecting, established, closing, closed,
    cut_connect, cut_establish. simpl.
  fold (has SockStateFlags.STARTED_CLOSURE st). fold (has SockStateFlags.ENTERED_ESTABLISH st).
  fold (has SockStateFlags.CLOSED st). fold (has SockStateFlags.TERMINATED_FROM_SYN st).
  fold (has SockStateFlags.TERMINATED_FROM_EST st).
  destruct s. unfold checked_add, fits. simpl.
  destruct (has SockStateFlags.STARTED_CLOSURE st), (has SockStateFlags.ENTERED_ESTABLISH st),
    (has SockStateFlags.CLOSED st), (has SockStateFlags.TERMINATED_FROM_SYN st),
    (has SockStateFlags.TERMINATED_FROM_EST st); simpl; rewrite ?Z.add_0_r;
    repeat (match goal with |- context [if ?c then _ else _] =>
              lazymatch c with context [if _ then _ else _] => fail | _ => destruct c end end;
            simpl; rewrite ?Z.add_0_r; try done).
Qed.

Lemma add_from_accumulate s st :
  add_from s st = if all_fit s st then Some (accumulate s st) else None.
Proof.
  unfold add_from. rewrite update_sock_counters_counted. destruct (all_fit s st); [|done].
  cbn [mbind option_bind]. f_equal. unfold accumulate, connect_sample, rtt_sample, counted.
  destruct s. simpl.
  destruct (0 <? SockStats.connect_successes st); [destruct (SockStats.connect_us st)|];
    destruct (0 <? SockStats.rtt_count st); simpl; try done;
    destruct (0 <? SockStats.rtt_latest_us st), (0 <? SockStats.rtt_smoothed_us st); done.
Qed.

(** *** The closed form *)

Lemma one_range b : 0 ≤ one b ≤ 1.
Proof. destruct b; simpl; lia. Qed.

Lemma satsum_snoc w l x :
  0 ≤ x → saturating_add w (satsum w l) x = satsum w (l ++ [x]).
Proof. unfold saturating_add, satsum. rewrite SockStatsFacts.Zsum_snoc. lia. Qed.

Lemma hist_spec_snoc samples n us :
  Forall (λ x, 0 ≤ x) samples.*2 → 0 ≤ n → 0 ≤ us →
  hist_add (hist_spec samples) (Some (n, us)) = hist_spec (samples ++ [(n, us)]).
Proof.
  intros Hs Hn Hus. unfold hist_add, hist_spec. simpl. rewrite !fmap_app. simpl.
  rewrite !satsum_snoc, Zminnz_snoc, SockStatsFacts.Zmax0_snoc by done. done.
Qed.

Definition sample_ok (o : option (Z * Z)) : Prop := ∀ n us, o = Some (n, us) → 0 ≤ n ∧ 0 ≤ us.

Lemma hist_spec_omap (f : SockStats.t → option (Z * Z)) l st :
  (∀ st', st' ∈ l ++ [st] → sample_ok (f st')) →
  hist_add (hist_spec (omap f l)) (f st) = hist_spec (omap f (l ++ [st])).
Proof.
  intros Hf. rewrite omap_app. csimpl. destruct (f st) as [[n us]|] eqn:E; [|by rewrite app_nil_r].
  destruct (Hf st ltac:(set_solver) n us E). apply hist_spec_snoc; [|done..].
  apply Forall_fmap, Forall_forall. intros [n' us'] (st' & Hin & Hst')%list_elem_of_omap. simpl.
  by destruct (Hf st' ltac:(set_solver) n' us' Hst').
Qed.

Lemma connect_sample_ok st : SockStats.wf st → sample_ok (connect_sample st).
Proof.
  intros Hst n us. unfold connect_sample, SockStats.connect_us.
  destruct (0 <? SockStats.connect_successes st) eqn:E; [|done].
  destruct (_ && _); [|done]. simpl. intros [= <- <-]. split; [lia|].
  pose proof (wrap_range u32 (SockStats.connect_end_us st - SockStats.connect_start_us st)) as H.
  unfold in_range in H. lia.
Qed.

Lemma rtt_sample_ok f st : sample_ok (rtt_sample f st).
Proof.
  intros n us. unfold rtt_sample. destruct (Z.ltb_spec 0 f); rewrite ?andb_true_r, ?andb_false_r; [|done].
  destruct (_ <? _); [|done]. intros [= <- <-]. lia.
Qed.

Lemma all_fit_spec l st :
  flow_fits l = true → all_fit (flow_spec l) st = flow_fits (l ++ [st]).
Proof.
  unfold all_fit, flow_fits, fits. simpl. rewrite !fmap_app. simpl. rewrite !SockStatsFacts.Zsum_snoc.
  intros H. rewrite !andb_true_iff in H.
  pose proof (one_range (negb (has SockStateFlags.STARTED_CLOSURE st) &&
    negb (has SockStateFlags.ENTERED_ESTABLISH st))) as H1. fold (connecting st) in H1.
  lia.
Qed.

Lemma flow_fits_prefix l st : flow_fits (l ++ [st]) = true → flow_fits l = true.
Proof.
  unfold flow_fits. rewrite !fmap_app. simpl. rewrite !SockStatsFacts.Zsum_snoc.
  unfold connecting, established, closing, closed, cut_connect, cut_establish.
  intros H. rewrite !andb_true_iff in *.
  repeat match goal with H : context [one ?b] |- _ => lazymatch goal with
    | _ : 0 ≤ one b ≤ 1 |- _ => fail | _ => pose proof (one_range b) end end.
  lia.
Qed.

Lemma accumulate_spec l st :
  Forall SockStats.wf (l ++ [st]) → accumulate (flow_spec l) st = flow_spec (l ++ [st]).
Proof.
  intros Hwf. assert (Hall := proj1 (Forall_forall _ _) Hwf).
  assert (Hst : SockStats.wf st) by (apply Hall; set_solver).
  unfold SockStats.wf, in_range in Hst. destruct_and!.
  unfold accumulate, flow_spec. simpl. rewrite !fmap_app. cbn [fmap list_fmap].
  rewrite !satsum_snoc, !SockStatsFacts.Zsum_snoc by done.
  f_equal.
  - apply (hist_spec_omap connect_sample). auto using connect_sample_ok.
  - apply (hist_spec_omap (λ st, rtt_sample (SockStats.rtt_latest_us st) st)).
    auto using rtt_sample_ok.
  - apply (hist_spec_omap (λ st, rtt_sample (SockStats.rtt_smoothed_us st) st)).
    auto using rtt_sample_ok.
Qed.

Lemma foldM_add_from_spec l :
  Forall SockStats.wf l →
  foldM add_from default l = if flow_fits l then Some (flow_spec l) else None.
Proof.
  induction l as [|st l IH] using rev_ind; intros Hwf; [done|].
  rewrite foldM_snoc, IH by by apply Forall_app in Hwf as [? _].
  destruct (flow_fits l) eqn:E; cbn [mbind option_bind].
  - rewrite add_from_accumulate, all_fit_spec, accumulate_spec by done. done.
  - destruct (flow_fits (l ++ [st])) eqn:E'; [|done].
    by rewrite (flow_fits_prefix _ _ E') in E.
Qed.

(** *** Permutations of the sockets *)

#[global] Instance satsum_perm w : Proper ((≡ₚ) ==> (=)) (satsum w).
Proof. intros l1 l2 H. unfold satsum. by rewrite H. Qed.

Lemma hist_spec_perm (f : SockStats.t → option (Z * Z)) l1 l2 :
  l1 ≡ₚ l2 → (∀ st, st ∈ l1 → sample_ok (f st)) →
  hist_spec (omap f l1) = hist_spec (omap f l2).
Proof.
  intros Hp Hf. assert (omap f l1 ≡ₚ omap f l2) as Hom by by rewrite Hp.
  unfold hist_spec. f_equal; try by rewrite Hom. apply SockStatsFacts.Zminnz_perm; [by rewrite Hom|].
  apply Forall_fmap, Forall_forall. intros [n us] (st & Hin & Hst)%list_elem_of_omap.
  by destruct (Hf st Hin n us Hst).
Qed.

Lemma flow_spec_perm l1 l2 : l1 ≡ₚ l2 → Forall SockStats.wf l1 → flow_spec l1 = flow_spec l2.
Proof.
  intros Hp Hwf. assert (Hall := proj1 (Forall_forall _ _) Hwf). unfold flow_spec.
  f_equal; try (by rewrite Hp); apply hist_spec_perm; auto using rtt_sample_ok, connect_sample_ok.
Qed.

Lemma flow_fits_perm l1 l2 : l1 ≡ₚ l2 → flow_fits l1 = flow_fits l2.
Proof. intros Hp. unfold flow_fits. by rewrite !Hp. Qed.

(** *** Every socket is in exactly one state *)

Lemma states_partition l :
  Zsum (connecting <$> l) + Zsum (established <$> l) + Zsum (closing <$> l) + Zsum (closed <$> l) =
  Z.of_nat (length l).
Proof.
  induction l as [|st l IH]; [done|]. cbn [fmap list_fmap length].
  rewrite Nat2Z.inj_succ, <- IH. unfold Zsum. simpl.
  unfold connecting, established, closing, closed.
  destruct (has SockStateFlags.STARTED_CLOSURE st), (has SockStateFlags.ENTERED_ESTABLISH st),
    (has SockStateFlags.CLOSED st); simpl; lia.
Qed.

Lemma count_bound (d : SockStats.t → Z) l :
  (∀ st, 0 ≤ d st ≤ 1) → 0 ≤ Zsum (d <$> l) ≤ Z.of_nat (length l).
Proof.
  intros Hd. induction l as [|st l IH]; [done|]. specialize (Hd st). unfold Zsum in *. csimpl. lia.
Qed.

Lemma flow_fits_length l : Z.of_nat (length l) ≤ umax u32 → flow_fits l = true.
Proof.
  intros Hl. unfold flow_fits. rewrite !andb_true_iff, !Z.leb_le.
  split_and!; (etrans; [apply count_bound; intros; apply one_range|done]).
Qed.

(** *** Bounds of a histogram *)

Lemma Zmax0_ge l x : x ∈ l → x ≤ Zmax0 l.
Proof. unfold Zmax0. induction l as [|y l IH]; [by intros ?%elem_of_nil|].
  intros [->|?]%elem_of_cons; simpl; [lia|]. specialize (IH ltac:(done)). lia. Qed.

Lemma sum_between l lo hi :
  (∀ x, x ∈ l → lo ≤ x ≤ hi) → lo * Z.of_nat (length l) ≤ Zsum l ≤ hi * Z.of_nat (length l).
Proof.
  induction l as [|x l IH]; intros H; unfold Zsum in *; simpl; [lia|].
  destruct (H x) as [? ?]; [by left|]. destruct IH as [? ?]; [intros; apply H; by right|]. lia.
Qed.

(** Samples that each count once: the mean lies between the extremes. *)
Lemma hist_spec_mean samples :
  Forall (λ s, s.1 = 1 ∧ 0 < s.2) samples →
  let h := hist_spec samples in
  0 < MetricHistogram.count h → MetricHistogram.count h < umax u32 →
  MetricHistogram.sum h < umax u64 →
  0 < MetricHistogram.min h ≤ MetricHistogram.max h ∧
  MetricHistogram.min h * MetricHistogram.count h ≤ MetricHistogram.sum h ∧
  MetricHistogram.sum h ≤ MetricHistogram.max h * MetricHistogram.count h.
Proof.
  intros Hs. unfold hist_spec, satsum. simpl. intros Hc Hc' Hsum.
  assert (Zsum samples.*1 = Z.of_nat (length samples)) as Hlen.
  { clear Hc Hc' Hsum. induction Hs as [|[n us] l [? ?] Hs IH]; [done|]. unfold Zsum in *. csimpl in *. lia. }
  assert (Forall (λ x, 0 < x) samples.*2) as Hpos
    by (apply Forall_fmap; eapply Forall_impl; [exact Hs|]; naive_solver).
  assert (Forall (λ x, 0 ≤ x) samples.*2) as Hnn
    by (eapply Forall_impl; [exact Hpos|]; simpl; lia).
  destruct (Zminnz_spec _ Hnn) as [[_ Hz]|(Hmin & Hin & Hle)].
  { exfalso. destruct samples as [|s l]; [simpl in *; lia|].
    rewrite fmap_cons, Forall_cons in Hz, Hpos. lia. }
  assert (∀ x, x ∈ samples.*2 → Zminnz samples.*2 ≤ x ≤ Zmax0 samples.*2) as Hb.
  { intros x Hx. split; [|by apply Zmax0_ge].
    eapply Forall_forall in Hle; [|exact Hx]. eapply Forall_forall in Hpos; [|exact Hx].
    simpl in *. lia. }
  destruct (sum_between _ _ _ Hb) as [Hlo Hhi]. rewrite length_fmap in Hlo, Hhi.
  specialize (Hb _ Hin). rewrite Hlen in *. split_and!; lia.
Qed.

Lemma rtt_samples_once (f : SockStats.t → Z) l :
  Forall (λ s, s.1 = 1 ∧ 0 < s.2) (omap (λ st, rtt_sample (f st) st) l).
Proof.
  apply Forall_forall. intros [n us] (st & _ & Hst)%list_elem_of_omap. unfold rtt_sample in Hst.
  destruct (_ && _) eqn:E; [|done]. simplify_eq. simpl. lia.
Qed.

(** *** The loss measure without its saturating steps *)

Definition raw_loss (s : t) : Z :=
  (retrans_syn s + retrans_est s + retrans_close s) +
  2 * (rtos_syn s + rtos_est s + rtos_close s) +
  4 * (severed_connect s + severed_establish s).

Definition loss_fields_nonneg (s : t) : Prop :=
  0 ≤ retrans_syn s ∧ 0 ≤ retrans_est s ∧ 0 ≤ retrans_close s ∧
  0 ≤ rtos_syn s ∧ 0 ≤ rtos_est s ∧ 0 ≤ rtos_close s ∧
  0 ≤ severed_connect s ∧ 0 ≤ severed_establish s.

Lemma quantify_loss_clamp s :
  loss_fields_nonneg s → quantify_loss s = Z.min (umax u32) (raw_loss s).
Proof.
  unfold loss_fields_nonneg, quantify_loss, raw_loss, retrans_total, rtos_total, saturating_add,
    saturating_mul, umax. lia.
Qed.

End NetworkEventFacts.

(** ** The widths of a flow's statistics *)
Module StatsTypes.
Import FlowSpec NetworkEventFacts.

Definition histogram_wf (h : MetricHistogram.t) : Prop :=
  in_range u32 (MetricHistogram.count h) ∧ in_range u32 (MetricHistogram.min h) ∧
  in_range u32 (MetricHistogram.max h) ∧ in_range u64 (MetricHistogram.sum h).

(** Every field is of the width of its type. *)
Definition stats_wf (s : NetworkStats.t) : Prop :=
  Forall (λ f, in_range u32 (f s))
    [sockets_connecting; sockets_established; sockets_closing; sockets_closed; sockets_completed; severed_connect;
     severed_establish; connect_attempts; retrans_syn; retrans_est; retrans_close; rtos_syn; rtos_est; rtos_close] ∧
  Forall (λ f, in_range u64 (f s)) [bytes_received; bytes_delivered; segments_received; segments_delivered] ∧
  histogram_wf (connect_us s) ∧ histogram_wf (rtt_us s) ∧ histogram_wf (rtt_smoothed_us s).

Lemma stats_wf_default : stats_wf NetworkStats.default.
Proof. unfold stats_wf, histogram_wf. rewrite !Forall_cons, !Forall_nil. by_eval. Qed.

Lemma hist_add_wf h sample :
  histogram_wf h → (∀ n us, sample = Some (n, us) → in_range u32 n ∧ in_range u32 us) → histogram_wf (hist_add h sample).
Proof.
  intros (? & ? & ? & ?) Hs. destruct sample as [[n us]|]; [|done]. destruct (Hs n us eq_refl) as [Hn Hus].
  assert (in_range u64 us) by (unfold in_range in *; lia).
  unfold histogram_wf, hist_add. cbn. split_and!; [by apply saturating_add_range| | |by apply saturating_add_range].
  - unfold min_non_zero. repeat case_match; unfold in_range in *; lia.
  - unfold in_range in *. lia.
Qed.

Lemma in_range_weaken w w' n : w ≤ w' → in_range w n → in_range w' n.
Proof. unfold in_range. intros. assert (2 ^ w ≤ 2 ^ w') by (apply Z.pow_le_mono_r; lia). lia. Qed.

Lemma fits_range x d : in_range u32 x → 0 ≤ d → fits x d = true → in_range u32 (x + d).
Proof.
  unfold fits, in_range, umax. intros ?? [?%Z.eqb_eq|?%Z.leb_le]%orb_true_iff; lia.
Qed.

(** Adding a socket keeps the widths. *)
Lemma add_from_wf s st s' : stats_wf s → SockStats.wf st → add_from s st = Some s' → stats_wf s'.
Proof.
  intros Hs Hst. rewrite add_from_accumulate. destruct (all_fit s st) eqn:Efit; [|done]. intros [= <-].
  unfold all_fit in Efit. rewrite !andb_true_iff in Efit. unfold stats_wf in *. rewrite !Forall_cons, !Forall_nil in *.
  pose proof (connect_sample_ok st Hst) as Hc. unfold SockStats.wf in Hst. destruct_and!.
  unfold accumulate, connecting, established, closing, closed, cut_connect, cut_establish in *. cbn -[hist_add].
  split_and!; try done;
    try (apply fits_range; [done|apply one_range|done]);
    try (apply saturating_add_range; [done|(eapply in_range_weaken; [|eassumption]; lia)]);
    apply hist_add_wf; try done.
  - intros n us Hsample. unfold connect_sample, SockStats.connect_us in Hsample.
    repeat case_match; try done. cbn in Hsample. simplify_eq. split; [(eapply in_range_weaken; [|eassumption]; lia)|]. by apply wrap_range.
  - intros n us Hsample. unfold rtt_sample in Hsample. case_match; [|done]. simplify_eq. split; [by_eval|done].
  - intros n us Hsample. unfold rtt_sample in Hsample. case_match; [|done]. simplify_eq. split; [by_eval|done].
Qed.

End StatsTypes.
