(* ===== verification/EventFilter.v ===== *)
(** * EventFilter: the flows worth reporting

    Models nfm-controller/src/events/event_filter_top_loss.rs.  [slice::sort_by] is a stable sort;
    insertion sort is the executable stand-in for it: it is shown to be a sorted permutation that
    keeps elements of equal rank in order, which determines the result of any stable sort. *)

From stdpp Require Import base numbers gmap list strings sorting.
From S2P Require Import Prelude Network ReportData NetworkEvent.

(** Rust's [Ordering] is [comparison]; [sort_by] with a comparator, stable. *)
Section sort_by.
Context {A : Type} (cmp : A → A → comparison).

Fixpoint insert_sorted (x : A) (l : list A) : list A :=
  match l with
  | [] => [x]
  | y :: l' => match cmp x y with Gt => y :: insert_sorted x l' | _ => x :: l end
  end.

Definition sort_by (l : list A) : list A := foldr insert_sorted [] l.

End sort_by.

Module EventFilterTopLoss.

Record t := mk { max_items : Z }.

Definition new (max_items : Z) : t := mk max_items.

Definition cmp (lhs rhs : AggregateResults.t) : comparison :=
  match NetworkStats.quantify_loss (AggregateResults.stats lhs) ?=
        NetworkStats.quantify_loss (AggregateResults.stats rhs) with
  | Eq =>
      (* When both sides have equal loss, compare by total bytes. *)
      NetworkStats.total_bytes (AggregateResults.stats lhs) ?=
      NetworkStats.total_bytes (AggregateResults.stats rhs)
  | val => val
  end.

Definition filter_events (self : t) (events : list AggregateResults.t) : list AggregateResults.t :=
  (* Note the comparison of [b] to [a] for a reverse sort. *)
  let events := sort_by (λ a b, cmp b a) events in
  take (Z.to_nat (max_items self)) events.

End EventFilterTopLoss.

(** ** Facts *)
Module EventFilterFacts.
Import EventFilterTopLoss.

(** The rank of a flow: its loss, then its bytes, in lexicographic order. *)
Definition rank (e : AggregateResults.t) : Z * Z :=
  (NetworkStats.quantify_loss (AggregateResults.stats e),
   NetworkStats.total_bytes (AggregateResults.stats e)).
Definition rank_le (x y : Z * Z) : Prop := x.1 < y.1 ∨ (x.1 = y.1 ∧ x.2 ≤ y.2).
(** [a] may stand before [b]. *)
Definition before (a b : AggregateResults.t) : Prop := rank_le (rank b) (rank a).

Lemma cmp_spec a b : (cmp b a = Gt ∧ ¬ before a b) ∨ (cmp b a ≠ Gt ∧ before a b).
Proof.
  unfold cmp, before, rank_le, rank. simpl.
  destruct (Z.compare_spec (NetworkStats.quantify_loss (AggregateResults.stats b))
    (NetworkStats.quantify_loss (AggregateResults.stats a)));
  destruct (Z.compare_spec (NetworkStats.total_bytes (AggregateResults.stats b))
    (NetworkStats.total_bytes (AggregateResults.stats a)));
  first [left; split; [done|lia] | right; split; [done|lia]].
Qed.

#[global] Instance before_total : Total before.
Proof. intros a b. unfold before, rank_le. lia. Qed.
#[global] Instance before_trans : Transitive before.
Proof. intros a b c. unfold before, rank_le. lia. Qed.

Abbreviation sorted_events := (sort_by (λ a b, cmp b a)).

Lemma insert_perm x l : insert_sorted (λ a b, cmp b a) x l ≡ₚ x :: l.
Proof.
  induction l as [|y l IH]; simpl; [done|]. destruct (cmp y x); [done..|].
  rewrite IH. apply Permutation_swap.
Qed.

Lemma sort_perm l : sorted_events l ≡ₚ l.
Proof. induction l as [|x l IH]; simpl; [done|]. by rewrite insert_perm, IH. Qed.

Lemma insert_StronglySorted x l :
  StronglySorted before l → StronglySorted before (insert_sorted (λ a b, cmp b a) x l).
Proof.
  induction 1 as [|y l Hl IH Hy]; simpl; [by repeat constructor|].
  destruct (cmp_spec x y) as [[-> Hn]|[Hc Hxy]].
  - constructor; [done|]. rewrite insert_perm. constructor; [|done]. by destruct (total before x y).
  - assert (StronglySorted before (x :: y :: l)).
    { constructor; [by constructor|]. constructor; [done|].
      eapply Forall_impl; [exact Hy|]. simpl. intros z Hz. by etrans. }
    by destruct (cmp y x).
Qed.

Lemma sort_StronglySorted l : StronglySorted before (sorted_events l).
Proof. induction l; simpl; [constructor|]. by apply insert_StronglySorted. Qed.

(** Elements of equal rank keep their order. *)
Definition same_rank (r : Z * Z) (e : AggregateResults.t) : Prop := rank e = r.

#[global] Instance same_rank_dec r e : Decision (same_rank r e).
Proof. unfold same_rank. apply _. Defined.

Lemma insert_stable r x l :
  filter (same_rank r) (insert_sorted (λ a b, cmp b a) x l) = filter (same_rank r) (x :: l).
Proof.
  induction l as [|y l IH]; [done|]. cbn [insert_sorted]. destruct (cmp y x) eqn:E; [done..|].
  rewrite (filter_cons _ y), IH, !filter_cons.
  destruct (decide (same_rank r y)) as [Hy|]; [|done].
  destruct (decide (same_rank r x)) as [Hx|]; [|done]. exfalso.
  unfold same_rank in *. destruct (cmp_spec x y) as [[_ Hn]|[? _]]; [|done]. apply Hn.
  unfold before, rank_le. rewrite Hx, Hy. lia.
Qed.

Lemma sort_stable r l : filter (same_rank r) (sorted_events l) = filter (same_rank r) l.
Proof.
  induction l as [|x l IH]; [done|]. cbn [sort_by foldr]. rewrite insert_stable, !filter_cons.
  fold (sorted_events l). by rewrite IH.
Qed.

(** Sorted lists with the same elements of each rank, in the same order, are the same list: the
    result of a stable sort is determined. *)
Lemma stable_sort_unique l1 l2 :
  StronglySorted before l1 → StronglySorted before l2 →
  (∀ r, filter (same_rank r) l1 = filter (same_rank r) l2) → l1 = l2.
Proof.
  revert l2. induction l1 as [|x l1 IH]; intros l2 H1 H2 Hf.
  - destruct l2 as [|y l2]; [done|]. specialize (Hf (rank y)).
    by rewrite filter_cons_True in Hf.
  - assert (∀ e, e ∈ x :: l1 ↔ e ∈ l2) as Hel.
    { intros e. specialize (Hf (rank e)). split; intros He.
      - assert (e ∈ filter (same_rank (rank e)) (x :: l1)) as Hin by by apply list_elem_of_filter.
        rewrite Hf in Hin. by apply list_elem_of_filter in Hin as [_ ?].
      - assert (e ∈ filter (same_rank (rank e)) l2) as Hin by by apply list_elem_of_filter.
        rewrite <- Hf in Hin. by apply list_elem_of_filter in Hin as [_ ?]. }
    destruct l2 as [|y l2]; [by destruct (not_elem_of_nil x); apply Hel; left|].
    apply StronglySorted_inv in H1 as [H1 Hx]. apply StronglySorted_inv in H2 as [H2 Hy].
    rewrite Forall_forall in Hx, Hy.
    assert (∀ e, before e e) as Hrefl by (intros e; by destruct (total before e e)).
    assert (x ∈ y :: l2) as Hxy by (apply Hel; by left).
    assert (y ∈ x :: l1) as Hyx by (apply Hel; by left).
    assert (before y x) by (apply elem_of_cons in Hxy as [->|?]; auto).
    assert (before x y) by (apply elem_of_cons in Hyx as [->|?]; auto).
    assert (rank x = rank y) as Hr.
    { unfold before, rank_le in *. destruct (rank x), (rank y). simpl in *. f_equal; lia. }
    assert (x = y) as ->.
    { specialize (Hf (rank y)). rewrite !filter_cons_True in Hf by done. by simplify_eq. }
    f_equal. apply IH; [done..|]. intros r. specialize (Hf r). rewrite !filter_cons in Hf.
    destruct (decide (same_rank r y)); [by simplify_eq|done].
Qed.

End EventFilterFacts.
