(* ===== verification/FlowStatsProperties.v ===== *)
(** * FlowStatsProperties: the guarantees of flow aggregation and of the report filter *)

From stdpp Require Import base numbers gmap list strings sorting.
From S2P Require Import Prelude Network ReportData NetworkEvent NetworkEventFacts EventFilter.
Import NetworkStats FlowSpec NetworkEventFacts EventFilterTopLoss EventFilterFacts.

(** ** Concrete data for the witnesses *)

Definition sock_a : SockStats.t := SockStats.default
  <| SockStats.bytes_received := 1000 |> <| SockStats.rtt_count := 3 |>
  <| SockStats.rtt_latest_us := 250 |> <| SockStats.rtt_smoothed_us := 240 |>
  <| SockStats.retrans_est := 2 |>
  <| SockStats.state_flags := SockStateFlags.ENTERED_ESTABLISH |>.
Definition sock_b : SockStats.t := sock_a
  <| SockStats.rtt_latest_us := 90 |>
  <| SockStats.state_flags := Z.lor SockStateFlags.STARTED_CLOSURE SockStateFlags.CLOSED |>.

#[global] Instance sock_stats_wf_dec s : Decision (SockStats.wf s).
Proof. unfold SockStats.wf. apply _. Defined.

Lemma socks_wf : Forall SockStats.wf [sock_a; sock_b].
Proof. by_eval. Defined.

(** C6: The statistics of a flow are exact aggregates of its sockets.  Folding the deltas of any
    sockets into a fresh flow, in any order, gives the same result: each transfer and loss field
    is the sum clamped to its width, each state count is the number of sockets in that state, each
    histogram summarises the sockets' samples; the only failure is a [u32] socket count that
    overflows, impossible below 2^32 sockets. *)
Theorem flow_aggregation_exact l l' :
  Forall SockStats.wf l → l' ≡ₚ l →
  foldM add_from default l' = (if flow_fits l then Some (flow_spec l) else None) ∧
  (Z.of_nat (length l) ≤ umax u32 → flow_fits l = true).
Proof.
  intros Hwf Hp. split; [|apply flow_fits_length].
  rewrite foldM_add_from_spec by by rewrite Hp.
  by rewrite (flow_fits_perm _ _ Hp), (flow_spec_perm l' l) by by rewrite ?Hp.
Qed.

Lemma flow_aggregation_exact_witness :
  foldM add_from default [sock_b; sock_a] = Some (flow_spec [sock_a; sock_b]).
Proof.
  destruct (flow_aggregation_exact [sock_a; sock_b] [sock_b; sock_a] socks_wf
    (Permutation_swap _ _ _)) as [-> _]. reflexivity.
Defined.

(** The socket levels of a flow partition its sockets.  After a level reset and any number of
    sockets, connecting + established + closing + closed is the number of sockets folded in, and
    the severed counts never exceed the sockets that started closing. *)
Theorem flow_levels_partition l s :
  Forall SockStats.wf l → foldM add_from default l = Some s →
  sockets_connecting s + sockets_established s + sockets_closing s + sockets_closed s =
    Z.of_nat (length l) ∧
  severed_connect s + severed_establish s ≤ sockets_closing s + sockets_closed s.
Proof.
  intros Hwf. rewrite foldM_add_from_spec by done. destruct (flow_fits l); [|done]. intros [= <-].
  split; [apply states_partition|]. simpl. clear Hwf. induction l as [|st l IH]; [done|].
  unfold Zsum in *. csimpl. unfold cut_connect, cut_establish, closing, closed in *.
  destruct (has SockStateFlags.STARTED_CLOSURE st), (has SockStateFlags.TERMINATED_FROM_SYN st),
    (has SockStateFlags.TERMINATED_FROM_EST st), (has SockStateFlags.CLOSED st); simpl in *; lia.
Qed.

Lemma flow_levels_partition_witness : ∃ s,
  foldM add_from default [sock_a; sock_b] = Some s ∧
  sockets_connecting s + sockets_established s + sockets_closing s + sockets_closed s = 2.
Proof.
  destruct (foldM add_from default [sock_a; sock_b]) as [s|] eqn:E; [|vm_compute in E; discriminate].
  exists s. split; [done|].
  apply (flow_levels_partition [sock_a; sock_b] s socks_wf E).
Defined.

(** Round-trip-time histograms are coherent.  After any number of sockets, as long as neither
    the count nor the sum has saturated, the mean of the RTT samples (and of the smoothed ones)
    lies between the reported minimum and maximum, and the minimum is positive. *)
Theorem rtt_histogram_coherent l s :
  Forall SockStats.wf l → foldM add_from default l = Some s →
  Forall (λ h, 0 < MetricHistogram.count h → MetricHistogram.count h < umax u32 →
    MetricHistogram.sum h < umax u64 →
    0 < MetricHistogram.min h ≤ MetricHistogram.max h ∧
    MetricHistogram.min h * MetricHistogram.count h ≤ MetricHistogram.sum h ∧
    MetricHistogram.sum h ≤ MetricHistogram.max h * MetricHistogram.count h)
    [rtt_us s; rtt_smoothed_us s].
Proof.
  intros Hwf. rewrite foldM_add_from_spec by done. destruct (flow_fits l); [|done]. intros [= <-].
  constructor; [|constructor; [|constructor]]; apply hist_spec_mean, rtt_samples_once.
Qed.

Lemma rtt_histogram_coherent_witness : ∃ s,
  foldM add_from default [sock_a; sock_b] = Some s ∧ 0 < MetricHistogram.min (rtt_us s).
Proof.
  destruct (foldM add_from default [sock_a; sock_b]) as [s|] eqn:E; [|vm_compute in E; discriminate].
  exists s. split; [done|].
  pose proof (rtt_histogram_coherent [sock_a; sock_b] s socks_wf E) as H.
  apply Forall_cons in H as [H _]. vm_compute in E. simplify_eq. apply H; by vm_compute.
Defined.

(** A socket that connected twice within one aggregation window. *)
Definition sock_reconnected : SockStats.t := SockStats.default
  <| SockStats.connect_start_us := 1000 |> <| SockStats.connect_end_us := 1500 |>
  <| SockStats.connect_successes := 2 |> <| SockStats.connect_attempts := 2 |>.

(** The connect-time histogram is not coherent in the same way: it counts [connect_successes]
    samples but adds a single duration to its sum, so a socket that connected twice in a window
    yields a mean below the reported minimum. *)
Theorem connect_histogram_incoherent :
  SockStats.wf sock_reconnected ∧ ∃ s,
    foldM add_from default [sock_reconnected] = Some s ∧
    MetricHistogram.count (connect_us s) = 2 ∧
    MetricHistogram.sum (connect_us s) <
      MetricHistogram.min (connect_us s) * MetricHistogram.count (connect_us s).
Proof. split; [by_eval|]. eexists. split; [vm_compute; reflexivity|]. by vm_compute. Qed.

(** The loss measure is the weighted sum of its parts, clamped once.  Retransmissions weigh 1,
    retransmission timeouts 2 and severed connections 4; the saturating steps never lose more than
    the final clamp to 32 bits does. *)
Theorem loss_measure s :
  loss_fields_nonneg s →
  quantify_loss s = Z.min (umax u32) (raw_loss s) ∧ 0 ≤ quantify_loss s ≤ umax u32.
Proof.
  intros H. rewrite quantify_loss_clamp by done. split; [done|].
  unfold loss_fields_nonneg, raw_loss in *. unfold umax. lia.
Qed.

Lemma loss_measure_witness :
  quantify_loss (default <| retrans_syn := 2 ^ 32 - 2 |> <| rtos_est := 5 |>) = umax u32.
Proof.
  destruct (loss_measure (default <| retrans_syn := 2 ^ 32 - 2 |> <| rtos_est := 5 |>)) as [-> _];
    [unfold loss_fields_nonneg; by_eval|reflexivity].
Defined.

(** The endpoint addresses of a context, by its family. *)
Definition addresses (c : SockContext.t) : IpAddr.t * IpAddr.t :=
  if SockContext.address_family c =? AF_INET
  then (IpAddr.V4 (SockContext.local_ipv4 c), IpAddr.V4 (SockContext.remote_ipv4 c))
  else (IpAddr.V6 (SockContext.local_ipv6 c), IpAddr.V6 (SockContext.remote_ipv6 c)).

(** Sockets are grouped into flows by what the flow is meant to be.  A context yields a flow iff
    it is valid, and two valid contexts with non-zero service ports yield the same flow iff they
    agree on the addresses, on which side is the client and on the service port: the client's
    ephemeral port plays no part. *)
Theorem flow_identity c1 c2 :
  (is_ok (FlowProperties.try_from c1) = SockContext.is_valid c1) ∧
  (SockContext.is_valid c1 = true → SockContext.is_valid c2 = true →
   SockContext.service_port c1 ≠ 0 → SockContext.service_port c2 ≠ 0 →
   FlowProperties.try_from c1 = FlowProperties.try_from c2 ↔
   addresses c1 = addresses c2 ∧ SockContext.is_client c1 = SockContext.is_client c2 ∧
   SockContext.service_port c1 = SockContext.service_port c2).
Proof.
  unfold FlowProperties.try_from, SockContext.is_valid, addresses, SockContext.service_port, ELIDED_PORT.
  split.
  - destruct (SockContext.address_family c1 =? AF_INET); [by destruct (SockContext.is_client c1)|].
    destruct (SockContext.address_family c1 =? AF_INET6); [by destruct (SockContext.is_client c1)|done].
  - intros Hv1 Hv2.
    assert ((SockContext.address_family c1 =? AF_INET) = false →
      (SockContext.address_family c1 =? AF_INET6) = true) as H1 by (intros E; by rewrite E in Hv1).
    assert ((SockContext.address_family c2 =? AF_INET) = false →
      (SockContext.address_family c2 =? AF_INET6) = true) as H2 by (intros E; by rewrite E in Hv2).
    clear Hv1 Hv2.
    destruct (SockContext.address_family c1 =? AF_INET), (SockContext.address_family c2 =? AF_INET);
      try rewrite (H1 eq_refl); try rewrite (H2 eq_refl); clear H1 H2;
      destruct (SockContext.is_client c1), (SockContext.is_client c2); intros Hp1 Hp2; split; intros Heq;
      destruct_and?; simplify_eq; try done; split_and?; congruence.
Qed.

(** C38: The report keeps the flows with the greatest loss.  The filter returns a sorted selection of
    its input of at most [max_items] flows: together with some rest it is a permutation of the
    input, no flow of the rest outranks a selected one (loss first, then bytes), the rest is empty
    unless the limit is reached, and flows of equal rank keep their order. *)
Theorem top_loss_selection self events :
  ∃ rest,
    filter_events self events ++ rest ≡ₚ events ∧
    StronglySorted before (filter_events self events) ∧
    (∀ a b, a ∈ filter_events self events → b ∈ rest → before a b) ∧
    (length (filter_events self events) = length events `min` Z.to_nat (max_items self))%nat ∧
    (∀ r, filter (same_rank r) (filter_events self events ++ rest) = filter (same_rank r) events).
Proof.
  set (n := Z.to_nat (max_items self)).
  exists (drop n (sort_by (λ a b, cmp b a) events)). unfold filter_events. fold n.
  assert (Hs := sort_StronglySorted events). rewrite <- (take_drop n) in Hs.
  rewrite (take_drop n). split_and!.
  - apply sort_perm.
  - by apply StronglySorted_app_1_l in Hs.
  - intros a b Ha Hb. by eapply StronglySorted_app_1_elem_of.
  - rewrite length_take, (Permutation_length (sort_perm events)). lia.
  - intros r. apply sort_stable.
Qed.
