(* ===== verification/Text.v ===== *)
(** * Text: the string functions of the standard library the agent uses

    Rust's [str] methods on ASCII text, as functions on lists of characters: splitting into lines
    and fields, trimming, and the [FromStr] parsers of the unsigned integers and of the IP
    addresses (core::net::parser), which are recursive-descent parsers on the remaining input. *)

From stdpp Require Import base numbers gmap list strings.
From Stdlib Require Import Ascii.
From Stdlib Require String.
From S2P Require Import Prelude Network.
Open Scope Z_scope.

Definition chars : Type := list ascii.
Definition chr (s : string) : chars := String.list_ascii_of_string s.
Definition str (l : chars) : string := String.string_of_list_ascii l.

Definition code (c : ascii) : Z := Z.of_N (N_of_ascii c).

(** [char::is_ascii_whitespace] and, on ASCII, [char::is_whitespace]. *)
Definition is_ascii_whitespace (c : ascii) : bool :=
  bool_decide (code c ∈ [32; 9; 10; 12; 13]).
Definition is_whitespace (c : ascii) : bool :=
  bool_decide (code c ∈ [32; 9; 10; 11; 12; 13]).

Definition LF : ascii := "010"%char.
Definition CR : ascii := "013"%char.

(** [split(sep)]: never empty, empty fields included. *)
Fixpoint split_on (p : ascii → bool) (l : chars) : list chars :=
  match l with
  | [] => [[]]
  | c :: l' =>
      if p c then [] :: split_on p l'
      else match split_on p l' with
           | f :: fs => (c :: f) :: fs
           | [] => [[c]]
           end
  end.

Definition split (sep : ascii) (l : chars) : list chars := split_on (λ c, bool_decide (c = sep)) l.

(** [split_ascii_whitespace]: the non-empty fields. *)
Definition split_ascii_whitespace (l : chars) : list chars :=
  filter (λ f, f ≠ []) (split_on is_ascii_whitespace l).

(** [split_whitespace], on ASCII. *)
Definition split_whitespace (l : chars) : list chars := filter (λ f, f ≠ []) (split_on is_whitespace l).

(** [starts_with], [ends_with] and [contains] of a character or a string. *)
Fixpoint starts_with (prefix l : chars) : bool :=
  match prefix, l with
  | [], _ => true
  | c :: prefix, c' :: l => bool_decide (c = c') && starts_with prefix l
  | _ :: _, [] => false
  end.
Definition ends_with_char (c : ascii) (l : chars) : bool :=
  match rev l with c' :: _ => bool_decide (c' = c) | [] => false end.
Definition contains_char (c : ascii) (l : chars) : bool := bool_decide (c ∈ l).

(** [lines]: each ends with a line feed, before which one CR is dropped; text after the last line feed
    is a line of its own, as it is. *)
Definition strip_cr (l : chars) : chars :=
  match rev l with c :: r => if bool_decide (c = CR) then rev r else l | [] => l end.
Definition lines (l : chars) : list chars :=
  match rev (split LF l) with
  | [] :: ended => strip_cr <$> rev ended
  | open :: ended => (strip_cr <$> rev ended) ++ [open]
  | [] => []
  end.

Fixpoint drop_while (p : ascii → bool) (l : chars) : chars :=
  match l with
  | c :: l' => if p c then drop_while p l' else l
  | [] => []
  end.
Definition trim_end_by (p : ascii → bool) (l : chars) : chars := rev (drop_while p (rev l)).
Definition trim (l : chars) : chars := trim_end_by is_whitespace (drop_while is_whitespace l).
Definition trim_end_matches (c : ascii) (l : chars) : chars :=
  trim_end_by (λ c', bool_decide (c' = c)) l.

(** ** Numbers *)

Definition digit (radix : Z) (c : ascii) : option Z :=
  let n := code c in
  let d :=
    if (48 <=? n) && (n <=? 57) then Some (n - 48)
    else if (97 <=? n) && (n <=? 122) then Some (n - 87)
    else if (65 <=? n) && (n <=? 90) then Some (n - 55)
    else None in
  match d with Some v => if v <? radix then Some v else None | None => None end.

(** The digits of [from_str_radix]: an invalid digit or an overflow is an error. *)
Fixpoint parse_digits (w radix acc : Z) (l : chars) : option Z :=
  match l with
  | [] => Some acc
  | c :: l' =>
      d ← digit radix c;
      let acc := acc * radix + d in
      if acc <=? umax w then parse_digits w radix acc l' else None
  end.

(** [uN::from_str]: an optional plus sign, then at least one digit. *)
Definition parse_uint (w : Z) (l : chars) : option Z :=
  let l := match l with "+"%char :: l' => l' | _ => l end in
  match l with [] => None | _ => parse_digits w 10 0 l end.

(** ** The address parser

    A parser returns what it read and the rest of the input; [None] leaves the input where it was
    (the library's [read_atomically]). *)

Definition Parser (A : Type) : Type := chars → option (A * chars).

Definition read_given_char (c : ascii) : Parser unit :=
  λ l, match l with c' :: l' => if bool_decide (c = c') then Some (tt, l') else None | [] => None end.

(** [read_separator]: a separator before every element but the first. *)
Definition read_separator {A} (sep : ascii) (index : nat) (p : Parser A) : Parser A :=
  λ l, if bool_decide (index = 0%nat) then p l
       else '(_, l) ← read_given_char sep l; p l.

Fixpoint read_digits (radix max : Z) (max_digits : nat) (count : nat) (acc : Z) (l : chars) :
    option (nat * Z * chars) :=
  match l with
  | [] => Some (count, acc, [])
  | c :: l' =>
      match digit radix c with
      | Some d =>
          let acc := acc * radix + d in
          if max <? acc then None
          else if (max_digits <=? count)%nat then None
          else read_digits radix max max_digits (S count) acc l'
      | None => Some (count, acc, l)
      end
  end.

(** [read_number(radix, max_digits, allow_zero_prefix)]. *)
Definition read_number (radix max : Z) (max_digits : nat) (allow_zero_prefix : bool) : Parser Z :=
  λ l,
    let has_leading_zero := match l with "0"%char :: _ => true | _ => false end in
    '(digit_count, result, rest) ← read_digits radix max max_digits 0 0 l;
    if bool_decide (digit_count = 0%nat) then None
    else if negb allow_zero_prefix && has_leading_zero && (1 <? digit_count)%nat then None
    else Some (result, rest).

Fixpoint read_ipv4_groups (n : nat) (i : nat) (l : chars) : option (list Z * chars) :=
  match n with
  | 0%nat => Some ([], l)
  | S n' =>
      '(g, l) ← read_separator "."%char i (read_number 10 255 3 false) l;
      '(gs, l) ← read_ipv4_groups n' (S i) l;
      Some (g :: gs, l)
  end.

Definition read_ipv4_addr : Parser (list Z) := read_ipv4_groups 4 0.

(** [read_groups]: reads up to [limit] 16-bit groups; an IPv4 address may stand for the last two.
    Returns the groups read and whether they end with an IPv4 address. *)
Fixpoint read_groups (fuel : nat) (limit i : nat) (l : chars) : list Z * bool * chars :=
  match fuel with
  | 0%nat => ([], false, l)
  | S fuel' =>
      if bool_decide (limit <= i)%nat then ([], false, l)
      else
        let ipv4 :=
          if bool_decide (i + 1 < limit)%nat then read_separator ":"%char i read_ipv4_addr l else None in
        match ipv4 with
        | Some ([a; b; c; d], l') => ([a * 256 + b; c * 256 + d], true, l')
        | _ =>
            match read_separator ":"%char i (read_number 16 65535 4 true) l with
            | Some (g, l') =>
                let '(gs, v4, l'') := read_groups fuel' limit (S i) l' in (g :: gs, v4, l'')
            | None => ([], false, l)
            end
        end
  end.

Definition read_ipv6_addr : Parser (list Z) := λ l,
  let '(head, head_ipv4, l) := read_groups 8 8 0 l in
  if bool_decide (length head = 8%nat) then Some (head, l)
  else if head_ipv4 then None
  else
    '(_, l) ← read_given_char ":"%char l;
    '(_, l) ← read_given_char ":"%char l;
    let limit := (8 - (length head + 1))%nat in
    let '(tail, _, l) := read_groups 8 limit 0 l in
    Some (head ++ replicate (8 - length head - length tail) 0%Z ++ tail, l).

(** [Ipv4Addr::from_str] as its 32 bits, [Ipv6Addr::from_str] as its 128 bits. *)
Definition parse_ipv4 (l : chars) : option Z :=
  if (15 <? length l)%nat then None
  else
    '(o, rest) ← read_ipv4_addr l;
    match rest, o with
    | [], [a; b; c; d] => Some (a * 2 ^ 24 + b * 2 ^ 16 + c * 2 ^ 8 + d)
    | _, _ => None
    end.

Definition parse_ipv6 (l : chars) : option Z :=
  '(groups, rest) ← read_ipv6_addr l;
  match rest with
  | [] => Some (foldl (λ acc g, acc * 2 ^ 16 + g) 0 groups)
  | _ => None
  end.

(** ** The parsers return values of their width *)

Lemma digit_range radix c d : digit radix c = Some d → 0 ≤ d < radix.
Proof.
  unfold digit. intros H. repeat case_match; simplify_eq; lia.
Qed.

Lemma parse_digits_range w radix acc l n :
  0 ≤ radix → 0 ≤ acc ≤ umax w → parse_digits w radix acc l = Some n → 0 ≤ n ≤ umax w.
Proof.
  intros Hr. revert acc. induction l as [|c l IH]; intros acc Hacc; simpl; [by intros [= <-]|].
  intros H. apply bind_Some in H as (d & Hd%digit_range & H). case_match; [|done].
  apply IH in H; [done|]. nia.
Qed.

Lemma parse_uint_range w l n : 0 < w → parse_uint w l = Some n → in_range w n.
Proof.
  intros Hw. unfold parse_uint, in_range.
  set (l' := match l with "+"%char :: l' => l' | _ => l end). clearbody l'.
  destruct l' as [|c l']; [done|]. intros H. apply parse_digits_range in H; unfold umax in *; lia.
Qed.

(** ** Printing numbers and IPv4 addresses *)

Definition digit_char (d : Z) : ascii := ascii_of_N (Z.to_N (48 + d)).

(** The digits of a number that has at most [fuel] of them. *)
Fixpoint show_digits (fuel : nat) (n : Z) : chars :=
  match fuel with
  | 0%nat => []
  | S fuel => (if n <? 10 then [] else show_digits fuel (n / 10)) ++ [digit_char (n mod 10)]
  end.

(** [to_string] of an unsigned integer of at most 64 bits. *)
Definition show_uint (n : Z) : chars := show_digits 20 n.

(** [Display] of an [Ipv4Addr]. *)
Definition show_ipv4 (bits : Z) : chars :=
  show_uint (bits / 2 ^ 24) ++ "."%char :: show_uint (bits / 2 ^ 16 mod 256) ++ "."%char ::
  show_uint (bits / 2 ^ 8 mod 256) ++ "."%char :: show_uint (bits mod 256).

#[global] Arguments show_uint _ : simpl never.
#[global] Arguments show_ipv4 _ : simpl never.

Lemma digit_digit_char d : 0 ≤ d < 10 → digit 10 (digit_char d) = Some d.
Proof.
  intros Hd. assert (Forall (λ k, digit 10 (digit_char k) = Some k) (seqZ 0 10)) as Hk
    by (apply (bool_decide_unpack _); by vm_compute).
  rewrite Forall_forall in Hk. apply Hk, elem_of_seqZ. lia.
Qed.

Lemma parse_digits_app w radix acc l1 l2 :
  parse_digits w radix acc (l1 ++ l2) = a ← parse_digits w radix acc l1; parse_digits w radix a l2.
Proof.
  revert acc. induction l1 as [|c l1 IH]; intros acc; [done|]. cbn.
  destruct (digit radix c); [|done]. cbn. case_match; [apply IH|done].
Qed.

Lemma parse_show_digits w fuel n :
  (0 < fuel)%nat → 0 ≤ n < 10 ^ Z.of_nat fuel → n ≤ umax w →
  parse_digits w 10 0 (show_digits fuel n) = Some n.
Proof.
  revert n. induction fuel as [|fuel IH]; intros n Hf Hn Hw; [lia|]. cbn [show_digits].
  pose proof (Z.div_mod n 10 ltac:(lia)). pose proof (Z.mod_pos_bound n 10 ltac:(lia)).
  set (leading := if n <? 10 then _ else _).
  assert (parse_digits w 10 0 leading = Some (n / 10)) as Hhead.
  { unfold leading. destruct (Z.ltb_spec n 10); [cbn; f_equal; rewrite Z.div_small; lia|]. apply IH.
    - destruct fuel; [|lia]. cbn in Hn. lia.
    - split; [lia|]. rewrite Nat2Z.inj_succ, Z.pow_succ_r in Hn by lia. apply Z.div_lt_upper_bound; lia.
    - lia. }
  rewrite parse_digits_app, Hhead. cbn. rewrite digit_digit_char by lia. cbn.
  replace (n / 10 * 10 + n mod 10) with n by lia. destruct (Z.leb_spec n (umax w)); [done|lia].
Qed.

Lemma show_uint_nonempty n : show_uint n ≠ [].
Proof. unfold show_uint. cbn [show_digits]. destruct (if n <? 10 then _ else _); done. Qed.

(** Reading back a printed number. *)
Lemma parse_show_uint w n : w ≤ 64 → in_range w n → parse_uint w (show_uint n) = Some n.
Proof.
  intros Hw Hn. unfold in_range in Hn.
  assert (n < 2 ^ 64) by (eapply Z.lt_le_trans; [apply Hn|apply Z.pow_le_mono_r; lia]).
  pose proof (parse_show_digits w 20 n ltac:(lia) ltac:(cbn; lia) ltac:(unfold umax; lia)) as Hp.
  pose proof (show_uint_nonempty n) as Hne. unfold parse_uint, show_uint in *.
  destruct (show_digits 20 n) as [|c l]; [done|].
  assert (c ≠ "+"%char) as Hc by (intros ->; by cbn in Hp).
  destruct c as [[] [] [] [] [] [] [] []]; done.
Qed.

Lemma show_octet n :
  0 ≤ n < 256 →
  show_uint n =
    if n <? 10 then [digit_char n]
    else if n <? 100 then [digit_char (n / 10); digit_char (n mod 10)]
    else [digit_char (n / 100); digit_char (n / 10 mod 10); digit_char (n mod 10)].
Proof.
  intros Hn. assert (Forall (λ n, show_uint n =
    if n <? 10 then [digit_char n]
    else if n <? 100 then [digit_char (n / 10); digit_char (n mod 10)]
    else [digit_char (n / 100); digit_char (n / 10 mod 10); digit_char (n mod 10)]) (seqZ 0 256)) as Hk
    by (apply (bool_decide_unpack _); by vm_compute).
  rewrite Forall_forall in Hk. apply Hk, elem_of_seqZ. lia.
Qed.

(** What follows a number does not continue it. *)
Definition stops (rest : chars) : Prop := match rest with c :: _ => digit 10 c = None | [] => True end.

Lemma read_octet n rest :
  0 ≤ n < 256 → stops rest → read_number 10 255 3 false (show_uint n ++ rest) = Some (n, rest).
Proof.
  intros Hn Hrest. assert (∀ count acc, read_digits 10 255 3 count acc rest = Some (count, acc, rest)) as Hr.
  { intros count acc. destruct rest as [|c rest]; [done|]. cbn in *. by rewrite Hrest. }
  assert (Forall (λ n, bool_decide (length (show_uint n) = 1%nat) = false →
    match show_uint n with "0"%char :: _ => true | _ => false end = false) (seqZ 0 256)) as Hz
    by (apply (bool_decide_unpack _); by vm_compute).
  rewrite Forall_forall in Hz. specialize (Hz n ltac:(apply elem_of_seqZ; lia)).
  unfold read_number. rewrite show_octet in Hz |- * by done.
  pose proof (Z.div_mod n 10 ltac:(lia)). pose proof (Z.mod_pos_bound n 10 ltac:(lia)).
  pose proof (Z.div_mod (n / 10) 10 ltac:(lia)). pose proof (Z.mod_pos_bound (n / 10) 10 ltac:(lia)).
  assert (n / 100 = n / 10 / 10) as H100 by (rewrite Z.div_div; [done|lia..]).
  destruct (Z.ltb_spec n 10); [|destruct (Z.ltb_spec n 100)]; cbn [app read_digits length] in *.
  - rewrite digit_digit_char by lia. replace (0 * 10 + n) with n by lia.
    destruct (Z.ltb_spec 255 n); [lia|]. cbn [Nat.leb]. rewrite Hr. cbn. by rewrite andb_false_r.
  - rewrite !digit_digit_char by lia. destruct (Z.ltb_spec 255 (0 * 10 + n / 10)); [lia|]. cbn [Nat.leb].
    replace ((0 * 10 + n / 10) * 10 + n mod 10) with n by lia.
    destruct (Z.ltb_spec 255 n); [lia|]. rewrite Hr. cbn in Hz |- *. by rewrite Hz.
  - rewrite !digit_digit_char by lia. destruct (Z.ltb_spec 255 (0 * 10 + n / 100)); [lia|]. cbn [Nat.leb].
    replace ((0 * 10 + n / 100) * 10 + n / 10 mod 10) with (n / 10) by lia.
    destruct (Z.ltb_spec 255 (n / 10)); [lia|]. replace (n / 10 * 10 + n mod 10) with n by lia.
    destruct (Z.ltb_spec 255 n); [lia|]. rewrite Hr. cbn in Hz |- *. by rewrite Hz.
Qed.

Lemma show_octet_length n : 0 ≤ n < 256 → (length (show_uint n) ≤ 3)%nat.
Proof. intros. rewrite show_octet by done. repeat case_match; cbn; lia. Qed.

Lemma read_separator_first {A} sep (p : Parser A) l : read_separator sep 0 p l = p l.
Proof. done. Qed.

Lemma read_separator_next {A} sep i (p : Parser A) l : read_separator sep (S i) p (sep :: l) = p l.
Proof. unfold read_separator, read_given_char. cbn. rewrite (bool_decide_eq_true_2 (sep = sep)) by done. by rewrite bool_decide_eq_false_2. Qed.

(** Reading back a printed address. *)
Lemma parse_show_ipv4 bits : in_range u32 bits → parse_ipv4 (show_ipv4 bits) = Some bits.
Proof.
  unfold in_range. intros Hb. unfold parse_ipv4, show_ipv4.
  pose proof (Z.div_mod bits 256 ltac:(lia)). pose proof (Z.div_mod (bits / 256) 256 ltac:(lia)).
  pose proof (Z.div_mod (bits / 256 / 256) 256 ltac:(lia)).
  replace (2 ^ 8) with 256 by done. replace (bits / 2 ^ 16) with (bits / 256 / 256) by (rewrite Z.div_div; [done|lia..]).
  replace (bits / 2 ^ 24) with (bits / 256 / 256 / 256) by (rewrite !Z.div_div; [done|lia..]).
  assert (0 ≤ bits / 256 / 256 / 256 < 256) as Ha by (rewrite !Z.div_div by lia; split; [apply Z.div_pos; lia|apply Z.div_lt_upper_bound; lia]).
  set (a := bits / 256 / 256 / 256) in *. set (b := bits / 256 / 256 mod 256) in *.
  set (c := bits / 256 mod 256) in *. set (d := bits mod 256) in *.
  assert (0 ≤ b < 256 ∧ 0 ≤ c < 256 ∧ 0 ≤ d < 256) as (Hb' & Hc & Hd) by (split; [|split]; by apply Z.mod_pos_bound).
  destruct (Nat.ltb_spec 15 (length (show_uint a ++ "."%char :: show_uint b ++ "."%char :: show_uint c ++ "."%char :: show_uint d))) as [Hl|_].
  { repeat (progress (rewrite ?length_app in Hl; cbn [length] in Hl)).
    pose proof (show_octet_length a Ha). pose proof (show_octet_length b Hb'). pose proof (show_octet_length c Hc).
    pose proof (show_octet_length d Hd). lia. }
  rewrite <- (app_nil_r (show_uint d)). unfold read_ipv4_addr. cbn [read_ipv4_groups].
  rewrite read_separator_first, read_octet by done. cbn [mbind option_bind].
  do 3 (rewrite read_separator_next, read_octet by done; cbn [mbind option_bind]). f_equal. lia.
Qed.

(** ** Examples *)

Example parse_uint_examples :
  parse_uint u32 (chr "42") = Some 42 ∧ parse_uint u32 (chr "+7") = Some 7 ∧
  parse_uint u32 (chr "4294967296") = None ∧ parse_uint u32 (chr "") = None ∧
  parse_uint u32 (chr "-1") = None ∧ parse_uint u64 (chr "18446744073709551615") = Some (2 ^ 64 - 1).
Proof. by vm_compute. Qed.

Example parse_ipv4_examples :
  parse_ipv4 (chr "10.0.1.2") = Some 0x0A000102 ∧ parse_ipv4 (chr "10.0.01.2") = None ∧
  parse_ipv4 (chr "10.0.1.256") = None ∧ parse_ipv4 (chr "10.0.1") = None ∧
  parse_ipv4 (chr "10.0.1.2 ") = None.
Proof. by vm_compute. Qed.

Example parse_ipv6_examples :
  parse_ipv6 (chr "::1") = Some 1 ∧ parse_ipv6 (chr "::") = Some 0 ∧
  parse_ipv6 (chr "2600:1f00::") = Some (0x2600 * 2 ^ 112 + 0x1f00 * 2 ^ 96) ∧
  parse_ipv6 (chr "::ffff:1.2.3.4") = Some 0xffff01020304 ∧
  parse_ipv6 (chr "1:2:3:4:5:6:7:8:9") = None ∧ parse_ipv6 (chr "1:2") = None ∧
  parse_ipv6 (chr "fe80::12345") = None.
Proof. by vm_compute. Qed.

Example lines_example :
  str <$> lines (chr "ab
cd
") = ["ab"; "cd"]%string ∧ lines [] = [] ∧ split_ascii_whitespace (chr " a  b ") = [chr "a"; chr "b"].
Proof. by vm_compute. Qed.
