(* ===== verification/Runtimes.v ===== *)
(** * Runtimes: asynchronous runtimes, credentials and TLS

    Models what the agent does to call asynchronous code from its threads (the executor of
    nfm-controller/src/metadata/imds_utils.rs), to find a provider of credentials
    (utils/credentials.rs) and to make sure of a provider of cryptography (utils/crypto.rs).  tokio,
    the AWS SDK and rustls are outside: whether a runtime can be created, what configuration is found
    and which provider is installed are arguments.  [None] is a panic. *)

From stdpp Require Import base numbers gmap list strings.
From S2P Require Import Prelude Text.

(** ** imds_utils.rs *)

(** A runtime of tokio, by the threads that drive it. *)
Inductive Flavor := CurrentThread | MultiThread.

(** Runtime executor that handles both existing and new runtime contexts. *)
Inductive RuntimeExecutor :=
| Existing (handle : Flavor)
| New (runtime : Flavor).

(** [try_current] is the runtime of the calling thread, [runtime_new] the outcome of
    [Runtime::new], which makes a runtime of several threads. *)
Definition get_runtime_executor (try_current : Result Flavor unit) (runtime_new : Result unit unit) :
    option RuntimeExecutor :=
  match try_current with
  | Ok handle => Some (Existing handle)
  | Err _ =>
      (* Not in a runtime, creating one. *)
      match runtime_new with
      | Ok _ => Some (New MultiThread)
      | Err _ => None
      end
  end.

(** A future runs to its output; [block_in_place] panics in a runtime of one thread. *)
Definition block_on {A : Type} (self : RuntimeExecutor) (future : A) : option A :=
  match self with
  | Existing CurrentThread => None
  | Existing MultiThread => Some future
  | New _ => Some future
  end.

(** What the instance metadata service answers through the executor of a call, [client] being its
    answer to a path. *)
Definition imds_answer (executor : option RuntimeExecutor) (client : chars → Result chars unit) (path : chars) :
    option (Result chars unit) :=
  match executor with
  | Some executor => block_on executor (client path)
  | None => Some (Err tt)
  end.

(** The threads of the agent run outside any runtime or in one of several threads, where asking
    never panics and asks the service, unless no runtime can be had. *)
Lemma imds_answer_total try_current runtime_new client path :
  try_current ≠ Ok CurrentThread →
  imds_answer (get_runtime_executor try_current runtime_new) client path =
    Some (if is_ok try_current || is_ok runtime_new then client path else Err tt).
Proof. by destruct try_current as [[]|[]], runtime_new as [[]|[]]. Qed.

(** ** credentials.rs *)

(** [load_defaults] is the provider of the configuration the SDK finds, if it has one. *)
Definition get_credentials_provider {P : Type} (runtime_new : Result unit unit) (load_defaults : option P) : option P :=
  match runtime_new with
  | Err _ => None
  | Ok _ => load_defaults
  end.

(** ** crypto.rs *)
Module Crypto.

(** The provider of cryptography of the process, set at most once. *)
Definition process (P : Type) : Type := option P.

(** rustls keeps the first provider and hands a later one back. *)
Definition install_default {P : Type} (self : process P) (provider : P) : Result (process P) P :=
  match self with
  | None => Ok (Some provider)
  | Some _ => Err provider
  end.

(** The process may change between the look-up and the installation: [meanwhile] is what another
    thread has done. *)
Definition ensure_default_crypto_provider_exists {P : Type} (default_provider : P)
    (meanwhile : process P → process P) (self : process P) : option (process P) :=
  match self with
  | Some _ => Some self
  | None =>
      match install_default (meanwhile self) default_provider with
      | Ok self => Some self
      | Err _ => None
      end
  end.

(** With no other thread installing one there is a provider afterwards, the one there was or the
    default, and asking again changes nothing. *)
Lemma ensure_crypto_provider {P : Type} (default_provider : P) self :
  ∃ provider, ensure_default_crypto_provider_exists default_provider (λ s, s) self = Some (Some provider) ∧
    provider = default default_provider self ∧
    ∀ meanwhile, ensure_default_crypto_provider_exists default_provider meanwhile (Some provider) = Some (Some provider).
Proof. destruct self as [p|]; by eexists. Qed.

(** The one way to panic: two threads that both find none. *)
Lemma crypto_provider_race {P : Type} (default_provider p : P) :
  ensure_default_crypto_provider_exists default_provider (λ _, Some p) None = None.
Proof. done. Qed.

End Crypto.
