(* ===== verification/BuildScripts.v ===== *)
(** * BuildScripts: how the eBPF objects get into the binaries

    Models nfm-controller/build.rs and load-generator/tcp-tester/build.rs, which set up the
    toolchain, build the eBPF package with cargo and tell the compiler where the object is, which
    event_provider_ebpf.rs and ebpf_loader.rs include.  A script appends to a history of what it ran
    and printed; the answers of commands, of the environment and of the file system are functions of
    that history.  A script that panics ends with [None] and keeps its history. *)

From stdpp Require Import base numbers gmap list strings.
From Stdlib Require Import Ascii.
From S2P Require Import Prelude Text.

Inductive Action :=
| Ran (env : list (chars * chars)) (cmd : chars) (args : list chars)
| Printed (line : chars).

(** ** Scripts *)
Definition script (A : Type) : Type := list Action → list Action * option A.

Definition ret {A : Type} (a : A) : script A := λ h, (h, Some a).
Definition panic {A : Type} : script A := λ h, (h, None).
Definition bind {A B : Type} (f : A → script B) (m : script A) : script B := λ h,
  match m h with
  | (h, Some a) => f a h
  | (h, None) => (h, None)
  end.
Definition println (line : chars) : script unit := λ h, (h ++ [Printed line], Some tt).
(** [unwrap] and [expect]. *)
Definition unwrap {A : Type} (a : option A) : script A := match a with Some a => ret a | None => panic end.

#[local] Notation "x ⟵ m ; k" := (bind (λ x, k) m) (at level 20, m at level 100, k at level 200, right associativity).

(** What the outside answers: a variable of the environment, the exit of a command (or that it cannot
    be started), the path of a command, the member [bpf_target] of the metadata of a workspace, the
    absolute path of a directory, and shadow-rs. *)
Record outside := mk_outside {
  env_var : chars → option chars;
  status : list Action → Result bool unit;
  which : list Action → chars → option chars;
  workspace_bpf_target : chars → option (option chars);
  canonicalize : chars → option chars;
  shadow_build : Result unit unit;
}.

(** [Path::join]. *)
Definition path_join (a b : chars) : chars :=
  if starts_with (chr "/") b || bool_decide (a = []) then b
  else if ends_with_char "/"%char a then a ++ b
  else a ++ chr "/" ++ b.

(** What differs between the two scripts. *)
Record Package := mk_package {
  manifest_path : chars;
  ebpf_manifest_arg : chars;
  binary : chars;
  watched : chars;
  shadow : bool;
}.

Section build.
Context (o : outside).

(** Runs a command to its end; [Err] if it cannot be started. *)
Definition run (env : list (chars * chars)) (cmd : chars) (args : list chars) : script (Result bool unit) := λ h,
  let h := h ++ [Ran env cmd args] in (h, Some (status o h)).
Definition expect_status (r : Result bool unit) : script bool := unwrap (if r is Ok s then Some s else None).

Definition set_up_toolchain : script unit :=
  r ⟵ run [] (chr "rustup") [chr "component"; chr "add"; chr "rust-src"];
  _ ⟵ expect_status r;
  r ⟵ run [] (chr "bpf-linker") [chr "--version"];
  _ ⟵ (if is_err r then
         r ⟵ run [] (chr "cargo") [chr "install"; chr "bpf-linker"];
         _ ⟵ expect_status r;
         ret tt
       else ret tt);
  bpf_linker ⟵ (λ h, unwrap (which o h (chr "bpf-linker")) h);
  println (chr "cargo:rerun-if-changed=" ++ bpf_linker).

(** The arguments of the build. *)
Definition build_args (p : Package) (target_triple target_dir : chars) (release : bool) : list chars :=
  let target_trip_arg := chr "--target=" ++ target_triple in
  let target_dir_arg := chr "--target-dir=" ++ target_dir in
  let args := [chr "build"; ebpf_manifest_arg p; target_trip_arg; target_dir_arg; chr "-Z"; chr "build-std=core"] in
  if release then args ++ [chr "--release"] else args.

Definition build_ebpf (p : Package) (release : bool) : script unit :=
  metadata ⟵ unwrap (workspace_bpf_target o (manifest_path p));
  root ⟵ unwrap (canonicalize o (chr ".."));
  let target_dir := path_join root (chr "target/ebpf") in
  target_triple ⟵ unwrap metadata;
  let bpf_obj_path :=
    path_join (path_join (path_join target_dir target_triple) (if release then chr "release" else chr "debug"))
      (binary p) in
  _ ⟵ println (chr "cargo:rustc-env=BPF_OBJECT_PATH=" ++ bpf_obj_path);
  r ⟵ run [(chr "RUSTC_BOOTSTRAP", chr "1"); (chr "RUSTFLAGS", [])] (chr "cargo")
        (build_args p target_triple target_dir release);
  success ⟵ expect_status r;
  _ ⟵ (if success : bool then ret tt else panic);
  println (chr "cargo:rerun-if-changed=" ++ watched p).

(** The eBPF build is skipped under tarpaulin, which measures code test coverage. *)
Definition build_main (p : Package) : script unit :=
  let should_build_ebpf := bool_decide (env_var o (chr "CARGO_CFG_TARPAULIN") = None) in
  _ ⟵ (if should_build_ebpf then
         _ ⟵ set_up_toolchain;
         profile ⟵ unwrap (env_var o (chr "PROFILE"));
         let release := bool_decide (profile = chr "release") in
         build_ebpf p release
       else ret tt);
  if shadow p then unwrap (if shadow_build o is Ok _ then Some tt else None) else ret tt.

End build.

(** ** nfm-controller/build.rs *)
Definition nfm_controller : Package := {|
  manifest_path := chr "../Cargo.toml";
  ebpf_manifest_arg := chr "--manifest-path=../nfm-bpf/Cargo.toml";
  binary := chr "nfm-bpf";
  watched := chr "../nfm-bpf/**";
  shadow := true
|}.

(** ** load-generator/tcp-tester/build.rs *)
Definition tcp_tester : Package := {|
  manifest_path := chr "./Cargo.toml";
  ebpf_manifest_arg := chr "--manifest-path=../tcp-tester-bpf/Cargo.toml";
  binary := chr "tcp-tester-bpf";
  watched := chr "../tcp-tester-bpf/**";
  shadow := false
|}.

Module ControllerBuild.
Definition main (o : outside) : script unit := build_main o nfm_controller.
End ControllerBuild.

(** The same functions, line for line, on the other package. *)
Module TesterBuild.
Definition set_up_toolchain (o : outside) : script unit := set_up_toolchain o.
Definition build_ebpf (o : outside) (release : bool) : script unit := build_ebpf o tcp_tester release.
Definition main (o : outside) : script unit := build_main o tcp_tester.
End TesterBuild.

(** ** Where cargo leaves the object *)

(** The value of an option given as [name=value]. *)
Fixpoint option_value (name : chars) (args : list chars) : option chars :=
  match args with
  | [] => None
  | arg :: args => if starts_with name arg then Some (drop (length name) arg) else option_value name args
  end.

(** The documented layout of the target directory of a cross-compiled build. *)
Definition cargo_artifact (args : list chars) (bin : chars) : option chars :=
  target_dir ← option_value (chr "--target-dir=") args;
  triple ← option_value (chr "--target=") args;
  let profile := if bool_decide (chr "--release" ∈ args) then chr "release" else chr "debug" in
  Some (target_dir ++ chr "/" ++ triple ++ chr "/" ++ profile ++ chr "/" ++ bin).

(** A component of a path. *)
Definition component (s : chars) : Prop := s ≠ [] ∧ "/"%char ∉ s.

Lemma ends_with_component a s : component s → ends_with_char "/"%char (a ++ s) = false.
Proof.
  intros [Hs Hn]. unfold ends_with_char. rewrite rev_app_distr.
  destruct (rev s) as [|c r] eqn:E; [apply (f_equal (@rev ascii)) in E; by rewrite rev_involutive in E|].
  cbn. apply bool_decide_eq_false. intros ->. apply Hn, list_elem_of_In, in_rev. rewrite E. by left.
Qed.

Lemma path_join_component a s :
  a ≠ [] → ends_with_char "/"%char a = false → component s →
  path_join a s = a ++ chr "/" ++ s ∧ path_join a s ≠ [] ∧ ends_with_char "/"%char (path_join a s) = false.
Proof.
  intros Ha He [Hs Hn]. assert (path_join a s = a ++ chr "/" ++ s) as ->.
  { unfold path_join. rewrite He, (bool_decide_eq_false_2 _ Ha), orb_false_r.
    destruct s as [|c s]; [done|]. cbn. rewrite bool_decide_eq_false_2; [done|]. intros <-. set_solver. }
  split_and!; [done|by destruct a|]. rewrite app_assoc. by apply ends_with_component.
Qed.

(** The target directory under an absolute root. *)
Lemma target_dir_ok root :
  starts_with (chr "/") root = true →
  path_join root (chr "target/ebpf") ≠ [] ∧ ends_with_char "/"%char (path_join root (chr "target/ebpf")) = false.
Proof.
  intros Hr. assert (∀ a, a ++ chr "target/ebpf" ≠ [] ∧ ends_with_char "/"%char (a ++ chr "target/ebpf") = false) as Ht.
  { intros a. unfold ends_with_char. rewrite rev_app_distr. split; [by destruct a|done]. }
  destruct root as [|c root]; [done|]. unfold path_join.
  change (starts_with (chr "/") (chr "target/ebpf")) with false. cbn [orb bool_decide].
  rewrite bool_decide_eq_false_2 by done. destruct (ends_with_char _ _); [apply Ht|]. rewrite app_assoc. apply Ht.
Qed.

(** The layout for the arguments of a script. *)
Lemma build_args_artifact p triple dir (release : bool) bin :
  p = nfm_controller ∨ p = tcp_tester →
  cargo_artifact (build_args p triple dir release) bin =
    Some (dir ++ chr "/" ++ triple ++ chr "/" ++ (if release then chr "release" else chr "debug") ++ chr "/" ++ bin).
Proof.
  intros Hp. unfold cargo_artifact.
  assert (option_value (chr "--target-dir=") (build_args p triple dir release) = Some dir) as ->
    by (destruct Hp as [-> | ->], release; reflexivity).
  assert (option_value (chr "--target=") (build_args p triple dir release) = Some triple) as ->
    by (destruct Hp as [-> | ->], release; reflexivity).
  assert (bool_decide (chr "--release" ∈ build_args p triple dir release) = release) as ->
    by (destruct Hp as [-> | ->], release; reflexivity).
  by destruct release.
Qed.

Definition announcement : chars := chr "cargo:rustc-env=BPF_OBJECT_PATH=".

(** A build that ends has run cargo once with success, and the object it announced is the one cargo
    leaves for these arguments, whichever the profile. *)
Lemma build_announces_artifact o p release h h' :
  p = nfm_controller ∨ p = tcp_tester →
  (∀ root, canonicalize o (chr "..") = Some root → starts_with (chr "/") root = true) →
  (∀ triple, workspace_bpf_target o (manifest_path p) = Some (Some triple) → component triple) →
  build_ebpf o p release h = (h', Some tt) →
  ∃ path env args, cargo_artifact args (binary p) = Some path ∧
    status o (h ++ [Printed (announcement ++ path); Ran env (chr "cargo") args]) = Ok true ∧
    h' = h ++ [Printed (announcement ++ path); Ran env (chr "cargo") args;
               Printed (chr "cargo:rerun-if-changed=" ++ watched p)].
Proof.
  intros Hp Hroot Htriple. unfold build_ebpf, bind, unwrap, ret, panic, println, run, expect_status.
  destruct (workspace_bpf_target o _) as [metadata|] eqn:Em; [|done].
  destruct (canonicalize o _) as [root|] eqn:Er; [|done]. destruct metadata as [triple|]; [|done].
  specialize (Hroot root eq_refl). specialize (Htriple triple eq_refl).
  set (dir := path_join root (chr "target/ebpf")).
  destruct (target_dir_ok root Hroot) as [Hd He]. fold dir in Hd, He.
  destruct (path_join_component dir triple Hd He Htriple) as (E1 & N1 & L1).
  set (profile := if release then chr "release" else chr "debug") in *.
  assert (component profile) as Hpr by (unfold profile; destruct release; split; by_eval).
  destruct (path_join_component _ profile N1 L1 Hpr) as (E2 & N2 & L2).
  assert (component (binary p)) as Hb by (destruct Hp as [-> | ->]; split; by_eval).
  destruct (path_join_component _ (binary p) N2 L2 Hb) as (E3 & _ & _).
  destruct (status o _) as [[]|] eqn:Es; try done. intros [= <-].
  eexists _, _, _. split; [|split; [rewrite <- app_assoc in Es; exact Es|by rewrite <- !app_assoc]].
  rewrite build_args_artifact, E3, E2, E1 by done. by rewrite <- !app_assoc.
Qed.

(** Under tarpaulin nothing is built. *)
Lemma tarpaulin_builds_nothing o p h :
  env_var o (chr "CARGO_CFG_TARPAULIN") ≠ None → (build_main o p h).1 = h.
Proof.
  intros Ht. unfold build_main. rewrite bool_decide_eq_false_2 by done. unfold bind, ret. cbn.
  destruct (shadow p); [|done]. by destruct (shadow_build o).
Qed.

(** A run on a machine without bpf-linker, whose installation makes it known. *)
Definition runs (cmd : chars) (a : Action) : bool := if a is Ran _ c _ then bool_decide (c = cmd) else false.
Definition fresh_machine : outside := {|
  env_var name := if bool_decide (name = chr "PROFILE") then Some (chr "release") else None;
  status h := match last h with Some a => if runs (chr "bpf-linker") a then Err tt else Ok true | None => Err tt end;
  which h _ := if existsb (runs (chr "cargo")) h then Some (chr "/root/.cargo/bin/bpf-linker") else None;
  workspace_bpf_target _ := Some (Some (chr "bpfel-unknown-none"));
  canonicalize _ := Some (chr "/src");
  shadow_build := Ok tt
|}.

Example fresh_machine_builds :
  let '(h, r) := ControllerBuild.main fresh_machine [] in
  r = Some tt ∧ length h = 7%nat ∧
  h !! 4%nat = Some (Printed (chr "cargo:rustc-env=BPF_OBJECT_PATH=/src/target/ebpf/bpfel-unknown-none/release/nfm-bpf")).
Proof. by vm_compute. Qed.
