(* ===== verification/SockDiag.v ===== *)
(** * SockDiag: asking the kernel for its sockets

    Models nfm-controller/src/sock_diag.rs, a program of its own that dumps the TCP sockets of the
    kernel over netlink.  The netlink crates are outside: the encoding of the request and the decoding
    of an answer are parameters, and the socket is a sequence of receive results.  What the program
    prints is a list.  The buffer keeps what earlier datagrams left behind a shorter one, as the code's
    does. *)

From stdpp Require Import base numbers gmap list strings.
From S2P Require Import Prelude Network.
Open Scope Z_scope.

Definition NLM_F_REQUEST : Z := 1.
Definition NLM_F_DUMP : Z := 768.
Definition IPPROTO_TCP : Z := 6.

Inductive Extension := INFO | SKMEMINFO.
Inductive StateFlags := AllStates.
Inductive SocketId := new_v4.

Module InetRequest.
Record t := mk {
  family : Z;
  protocol : Z;
  extensions : list Extension;
  states : StateFlags;
  socket_id : SocketId;
}.
End InetRequest.

Section diag.
(** Answers of the kernel: [R] is a decoded description of a socket, [B] a byte. *)
Context {R B : Type}.

Inductive Payload :=
| Noop
| InetResponse (response : R)
| Done
| OtherPayload.

(** A decoded message, with the length its header says. *)
Record Packet := mk_packet { payload : Payload; length_field : Z }.

Inductive Line :=
| Request (flags : Z) (request : InetRequest.t)
| SendError
| Received (packet : Packet)
| Response (response : R)
| DoneLine.

(** How the program ends: it returns, waits for ever for another datagram, or panics. *)
Inductive End := Returned | Waiting | Panicked.

(** The decoder, which is given the rest of the buffer. *)
Context (deserialize : list B → option Packet).

Definition BUFFER_SIZE : nat := 4096.

(** [recv] writes a datagram over the start of the buffer, up to its size. *)
Definition recv (buffer datagram : list B) : list B * Z :=
  let received := take (length buffer) datagram in
  (received ++ drop (length received) buffer, Z.of_nat (length received)).

(** What an inner loop ends with: on to the next datagram with [offset] reset, or the end. *)
Inductive Next := Again | Finish (e : End).

(** The inner loop over the messages of a datagram.  Each turn but the last moves [offset] on, so
    that as many turns as the buffer has bytes are enough, which [inner_loop_fuel] proves. *)
Fixpoint inner_loop (fuel : nat) (receive_buffer : list B) (offset size : Z) : option (list Line * Next) :=
  match fuel with
  | O => None
  | S fuel =>
      if Z.of_nat (length receive_buffer) <? offset then Some ([], Finish Panicked)
      else
        let bytes := drop (Z.to_nat offset) receive_buffer in
        match deserialize bytes with
        | None => Some ([], Finish Panicked)
        | Some rx_packet =>
            let next (printed : list Line) :=
              let offset := offset + length_field rx_packet in
              if (offset =? size) || (length_field rx_packet =? 0) then Some (printed, Again)
              else
                '(more, n) ← inner_loop fuel receive_buffer offset size;
                Some (printed ++ more, n) in
            match payload rx_packet with
            | Noop => next [Received rx_packet]
            | InetResponse response => next [Received rx_packet; Response response]
            | Done => Some ([Received rx_packet; DoneLine], Finish Returned)
            | OtherPayload => Some ([Received rx_packet], Finish Returned)
            end
        end
  end.

(** [while let Ok(size) = socket.recv(..)]; the offset is 0 whenever a datagram is received. *)
Fixpoint receive_loop (receive_buffer : list B) (datagrams : list (Result (list B) unit)) : option (list Line * End) :=
  match datagrams with
  | [] => Some ([], Waiting)
  | Err _ :: _ => Some ([], Returned)
  | Ok datagram :: datagrams =>
      let '(receive_buffer, size) := recv receive_buffer datagram in
      '(printed, next) ← inner_loop (2 + length receive_buffer) receive_buffer 0 size;
      match next with
      | Finish e => Some (printed, e)
      | Again =>
          '(more, e) ← receive_loop receive_buffer datagrams;
          Some (printed ++ more, e)
      end
  end.

(** The socket during the set-up, the length the finalised header has and the one the serialiser
    needs, and the outcome of sending. *)
Record outside := mk_outside {
  socket_new : Result unit unit;
  bind_auto : Result unit unit;
  connect : Result unit unit;
  header_length : Z;
  buffer_len : Z;
  send : Result unit unit;
  datagrams : list (Result (list B) unit);
  zero : B;
}.

Definition request : InetRequest.t := {|
  InetRequest.family := AF_INET;
  InetRequest.protocol := IPPROTO_TCP;
  InetRequest.extensions := [INFO; SKMEMINFO];
  InetRequest.states := AllStates;
  InetRequest.socket_id := new_v4
|}.

Definition main (o : outside) : option (list Line * End) :=
  if is_err (socket_new o) || is_err (bind_auto o) || is_err (connect o) then Some ([], Panicked)
  else if negb (header_length o =? buffer_len o) then Some ([], Panicked)
  else
    let printed := [Request (Z.lor NLM_F_REQUEST NLM_F_DUMP) request] in
    match send o with
    | Err _ => Some (printed ++ [SendError], Returned)
    | Ok _ =>
        '(more, e) ← receive_loop (repeat (zero o) BUFFER_SIZE) (datagrams o);
        Some (printed ++ more, e)
    end.

(** ** The program always comes to an end of the data *)

(** The lengths are unsigned. *)
Hypothesis length_unsigned : ∀ bytes p, deserialize bytes = Some p → 0 ≤ length_field p.

(** The fuel is enough: every turn moves on by a byte at least, and past the buffer it ends. *)
Lemma inner_loop_fuel fuel buffer offset size :
  0 ≤ offset → (2 + length buffer - Z.to_nat offset ≤ fuel)%nat → (1 ≤ fuel)%nat →
  is_Some (inner_loop fuel buffer offset size).
Proof.
  revert offset. induction fuel as [|fuel IH]; intros offset H0 Hf H1; [lia|]. cbn [inner_loop].
  destruct (Z.ltb_spec (Z.of_nat (length buffer)) offset); [by eexists|].
  destruct (deserialize _) as [p|] eqn:E; [|by eexists]. pose proof (length_unsigned _ _ E).
  assert (∀ printed, is_Some (if (offset + length_field p =? size) || (length_field p =? 0) then Some (printed, Again)
    else '(more, n) ← inner_loop fuel buffer (offset + length_field p) size; Some (printed ++ more, n))) as Hn.
  { intros printed. destruct (_ || _) eqn:El; [by eexists|]. apply orb_false_iff in El as [_ El%Z.eqb_neq].
    destruct (IH (offset + length_field p)) as [[more n] ->]; [lia..|]. by eexists. }
  destruct (payload p); eauto.
Qed.

Lemma receive_loop_total buffer ds : is_Some (receive_loop buffer ds).
Proof.
  revert buffer. induction ds as [|[d|] ds IH]; intros buffer; cbn [receive_loop]; [by eexists| |by eexists].
  destruct (recv buffer d) as [buffer' size].
  destruct (inner_loop_fuel (2 + length buffer') buffer' 0 size) as [[printed n] ->]; [lia..|]. cbn [mbind option_bind].
  destruct n; [|by eexists]. destruct (IH buffer') as [[more e] ->]. by eexists.
Qed.

Lemma main_total o : is_Some (main o).
Proof.
  unfold main. destruct (_ || _); [by eexists|]. destruct (negb _); [by eexists|]. destruct (send o); [|by eexists].
  destruct (receive_loop_total (repeat (zero o) BUFFER_SIZE) (datagrams o)) as [[more e] ->]. by eexists.
Qed.

(** ** What is printed of well-formed answers *)

Definition nonempty (p : Packet) : Prop := 0 < length_field p.

(** An encoder whose messages are read back in front of anything. *)
Context (encode : Packet → list B).
Hypothesis read_back : ∀ p rest, nonempty p → deserialize (encode p ++ rest) = Some p.
Hypothesis encode_length : ∀ p, nonempty p → Z.of_nat (length (encode p)) = length_field p.

Definition continues (p : Packet) : bool :=
  match payload p with Noop | InetResponse _ => true | Done | OtherPayload => false end.
Definition print_packet (p : Packet) : list Line :=
  Received p :: match payload p with InetResponse r => [Response r] | Done => [DoneLine] | _ => [] end.

(** Reference: all messages up to the first that ends the dump. *)
Fixpoint print_dump (packets : list Packet) : list Line * option End :=
  match packets with
  | [] => ([], None)
  | p :: packets =>
      if continues p then let '(more, e) := print_dump packets in (print_packet p ++ more, e)
      else (print_packet p, Some Returned)
  end.

Definition next_of (e : option End) : Next := match e with Some e => Finish e | None => Again end.

Lemma inner_loop_prints fuel before packets buffer after size :
  packets ≠ [] → Forall nonempty packets → (length packets ≤ fuel)%nat →
  buffer = before ++ concat (map encode packets) ++ after →
  size = Z.of_nat (length before + length (concat (map encode packets))) →
  inner_loop fuel buffer (Z.of_nat (length before)) size =
    Some ((print_dump packets).1, next_of (print_dump packets).2).
Proof.
  revert before packets. induction fuel as [|fuel IH]; intros before packets Hne Hall; destruct packets as [|p packets];
    try done; cbn [length map concat]; intros Hf Hbuf Hsize; [lia|].
  apply Forall_cons in Hall as [Hp Hall]. pose proof (encode_length p Hp) as Hl.
  assert (0 < Z.of_nat (length (encode p))) as Hpos by (rewrite Hl; exact Hp).
  rewrite <- app_assoc in Hbuf. rewrite length_app in Hsize. cbn [inner_loop].
  rewrite (proj2 (Z.ltb_ge _ _)) by (rewrite Hbuf, length_app; lia).
  rewrite Nat2Z.id, Hbuf, drop_app_length, read_back, <- Hl, <- Hbuf by done.
  rewrite (proj2 (Z.eqb_neq (Z.of_nat (length (encode p))) 0)), orb_false_r by lia.
  assert (∀ printed, (if Z.of_nat (length before) + Z.of_nat (length (encode p)) =? size then Some (printed, Again)
    else '(more, n) ← inner_loop fuel buffer (Z.of_nat (length before) + Z.of_nat (length (encode p))) size;
         Some (printed ++ more, n)) =
    Some (printed ++ (print_dump packets).1, next_of (print_dump packets).2)) as Hn.
  { intros printed. destruct packets as [|q packets].
    { cbn in Hsize |- *. rewrite (proj2 (Z.eqb_eq _ _)) by lia. by rewrite app_nil_r. }
    pose proof (encode_length q (Forall_inv Hall)) as Hql. pose proof (Forall_inv Hall) as Hq. unfold nonempty in Hq.
    rewrite (proj2 (Z.eqb_neq _ _)) by (cbn in Hsize; rewrite length_app in Hsize; lia).
    rewrite <- Nat2Z.inj_add, <- length_app.
    rewrite (IH (before ++ encode p) (q :: packets)); [done|done|done|cbn in Hf |- *; lia|by rewrite <- app_assoc|].
    rewrite length_app. lia. }
  cbn [print_dump]. unfold continues, print_packet.
  destruct (payload p); rewrite ?Hn; try done; by destruct (print_dump packets).
Qed.

(** A datagram of whole messages is received whole, with what was in the buffer behind it. *)
Lemma recv_whole buffer datagram :
  (length datagram ≤ length buffer)%nat →
  recv buffer datagram = (datagram ++ drop (length datagram) buffer, Z.of_nat (length datagram)).
Proof. intros. unfold recv. by rewrite take_ge. Qed.

(** Every message of every datagram is printed in order, once, up to the first that ends the dump, and
    nothing panics: the bytes of earlier datagrams that stay in the buffer are never read. *)
Lemma dump_printed buffer (dumps : list (list Packet)) :
  Forall (λ packets, packets ≠ [] ∧ Forall nonempty packets ∧
                     (length (concat (map encode packets)) ≤ length buffer)%nat) dumps →
  receive_loop buffer ((λ packets, Ok (concat (map encode packets))) <$> dumps) =
    Some ((print_dump (concat dumps)).1, default Waiting (print_dump (concat dumps)).2).
Proof.
  revert buffer. induction dumps as [|packets dumps IH]; intros buffer Hall; [done|].
  apply Forall_cons in Hall as [(Hne & Hpos & Hlen) Hall]. cbn [fmap list_fmap receive_loop].
  rewrite recv_whole by done.
  set (buffer' := concat (map encode packets) ++ drop (length (concat (map encode packets))) buffer).
  assert (length buffer' = length buffer) as Hb by (unfold buffer'; rewrite length_app, length_drop; lia).
  assert (length packets ≤ length (concat (map encode packets)))%nat as Hcount.
  { clear -Hpos encode_length. induction Hpos as [|p packets Hp _ IH]; [done|]. pose proof (encode_length p Hp).
    unfold nonempty in Hp. cbn. rewrite length_app. lia. }
  rewrite (inner_loop_prints _ [] packets buffer' (drop (length (concat (map encode packets))) buffer)) by (done || lia).
  cbn [mbind option_bind concat].
  assert (∀ rest, print_dump (packets ++ rest) = match (print_dump packets).2 with
    | Some e => print_dump packets
    | None => ((print_dump packets).1 ++ (print_dump rest).1, (print_dump rest).2) end) as ->.
  { intros rest. clear. induction packets as [|p packets IH]; [cbn; by destruct (print_dump rest)|]. cbn.
    destruct (continues p); [|done]. rewrite IH. destruct (print_dump packets) as [l [e|]]; [done|]. cbn.
    by rewrite app_assoc. }
  destruct (print_dump packets) as [l [e|]]; [done|]. cbn [fst snd next_of]. rewrite IH.
  - done.
  - by rewrite Hb.
Qed.

End diag.
Arguments Packet : clear implicits.
Arguments Payload : clear implicits.

(** ** An encoding that meets the hypotheses

    A message is itself followed by padding. *)
Module PaddedMessages.

Definition byte : Type := option (Packet Z).
Definition encode (p : Packet Z) : list byte := Some p :: repeat None (Z.to_nat (length_field p - 1)).
Definition deserialize (bytes : list byte) : option (Packet Z) :=
  match bytes with
  | Some p :: _ => if 0 <=? length_field p then Some p else None
  | _ => None
  end.

Definition response (n : Z) : Packet Z := mk_packet (InetResponse n) 3.
Definition dumps : list (list (Packet Z)) :=
  [[response 1; mk_packet Noop 1; response 2]; [response 3; mk_packet Done 2; response 4]; [response 5]].

(** The third datagram is not read: the dump is done. *)
Example dump_run :
  receive_loop deserialize (repeat None BUFFER_SIZE) ((λ packets, Ok (concat (map encode packets))) <$> dumps) =
    Some ([Received (response 1); Response 1; Received (mk_packet Noop 1); Received (response 2); Response 2;
           Received (response 3); Response 3; Received (mk_packet Done 2); DoneLine], Returned).
Proof.
  rewrite (dump_printed deserialize encode).
  - done.
  - intros p rest Hp. cbn. unfold nonempty in Hp. by rewrite (proj2 (Z.leb_le _ _)) by lia.
  - intros p Hp. unfold nonempty in Hp. cbn [encode length]. rewrite repeat_length. lia.
  - repeat constructor; by_eval.
Qed.

End PaddedMessages.
