(* ===== verification/VpcCidr.v ===== *)
(** * VpcCidr: which addresses belong to the VPC

    Models nfm-controller/src/utils/vpc_cidr_checker.rs: parsing the CIDR blocks the instance
    metadata service reports, and the membership test.  The metadata service is a parameter,
    a function from paths to documents (empty when it cannot be reached). *)

From stdpp Require Import base numbers gmap list strings.
From Stdlib Require Import Ascii.
From S2P Require Import Prelude Network Text.

Module VpcCidrChecker.

Record t := mk {
  vpc_cidrs_v4 : list (Z * Z);
  vpc_cidrs_v6 : list (Z * Z);
}.

#[global] Instance eta_t : Eta t := λ r, mk (vpc_cidrs_v4 r) (vpc_cidrs_v6 r).

(** [u128::from(Ipv6Addr)]: the octets in network order. *)
Definition ipv6_bits (octets : list Z) : Z := foldl (λ acc o, acc * 256 + o) 0 octets.

(** Returns true if given IP address is within VPC CIDR range. *)
Definition is_vpc_ip (self : t) (ip : IpAddr.t) : bool :=
  match ip with
  | IpAddr.V4 ipv4 => existsb (λ '(network, mask), Z.land ipv4 mask =? network) (vpc_cidrs_v4 self)
  | IpAddr.V6 ipv6 =>
      existsb (λ '(network, mask), Z.land (ipv6_bits ipv6) mask =? network) (vpc_cidrs_v6 self)
  end.

(** [!0 << (w - prefix_len)] on a [w]-bit integer; the shift by [w] is excluded by the branch. *)
Definition prefix_mask (w prefix_len : Z) : Z :=
  if prefix_len =? 0 then 0 else wrap w (Z.shiftl (umax w) (w - prefix_len)).

Definition parse_cidr_v4 (cidr : chars) : option (Z * Z) :=
  match split "/"%char cidr with
  | [part0; part1] =>
      ip ← parse_ipv4 part0;
      prefix_len ← parse_uint u32 part1;
      if 32 <? prefix_len then None
      else
        let mask := prefix_mask u32 prefix_len in
        let network := Z.land ip mask in
        Some (network, mask)
  | _ => None
  end.

Definition parse_cidr_v6 (cidr : chars) : option (Z * Z) :=
  match split "/"%char cidr with
  | [part0; part1] =>
      ip ← parse_ipv6 part0;
      prefix_len ← parse_uint u32 part1;
      if 128 <? prefix_len then None
      else
        let mask := prefix_mask u128 prefix_len in
        let network := Z.land ip mask in
        Some (network, mask)
  | _ => None
  end.

Section provider.
(** [ImdsProvider::get_metadata]. *)
Context (get_metadata : chars → chars).

Definition macs_path : chars := chr "/latest/meta-data/network/interfaces/macs/".

(** Get the VPC CIDRs using IMDS metadata from current host. *)
Definition get_vpc_cidrs_with_provider : list (Z * Z) * list (Z * Z) :=
  let macs_str := get_metadata macs_path in
  match macs_str with
  | [] => ([], [])
  | _ =>
      match lines macs_str with
      | [] => ([], [])
      | m :: _ =>
          let mac := trim_end_matches "/"%char m in
          let v4_str := get_metadata (macs_path ++ mac ++ chr "/vpc-ipv4-cidr-blocks") in
          let v6_str := get_metadata (macs_path ++ mac ++ chr "/vpc-ipv6-cidr-blocks") in
          let cidrs_v4 := omap (λ line, parse_cidr_v4 (trim line)) (lines v4_str) in
          let cidrs_v6 := omap (λ line, parse_cidr_v6 (trim line)) (lines v6_str) in
          (cidrs_v4, cidrs_v6)
      end
  end.

Definition with_provider : t :=
  let '(vpc_cidrs_v4, vpc_cidrs_v6) := get_vpc_cidrs_with_provider in
  mk vpc_cidrs_v4 vpc_cidrs_v6.

End provider.
End VpcCidrChecker.

(** ** Facts *)
Module VpcCidrFacts.
Import VpcCidrChecker.

(** Masking keeps the leading bits. *)
Lemma prefix_mask_bits w p :
  0 ≤ p ≤ w → prefix_mask w p = Z.shiftl (Z.ones p) (w - p).
Proof.
  intros Hp. unfold prefix_mask. destruct (Z.eqb_spec p 0) as [->|Hne]; [by rewrite Z.shiftl_0_l|].
  unfold wrap, umax. rewrite <- Z.land_ones by lia.
  replace (2 ^ w - 1) with (Z.ones w) by (rewrite Z.ones_equiv; lia).
  apply Z.bits_inj'. intros i Hi. rewrite Z.land_spec, !Z.shiftl_spec, !Z.testbit_ones by lia. lia.
Qed.

Lemma land_prefix_mask w p x :
  0 ≤ p ≤ w → 0 ≤ x < 2 ^ w →
  Z.land x (prefix_mask w p) = Z.shiftl (Z.shiftr x (w - p)) (w - p).
Proof.
  intros Hp Hx. rewrite prefix_mask_bits by done. apply Z.bits_inj'. intros i Hi.
  rewrite Z.land_spec, !Z.shiftl_spec, Z.testbit_ones by lia.
  destruct (Z.lt_ge_cases i (w - p)).
  { rewrite (Z.testbit_neg_r _ (i - (w - p))) by lia.
    rewrite (proj2 (Z.leb_gt 0 (i - (w - p)))) by lia. apply andb_false_r. }
  rewrite Z.shiftr_spec by lia. replace (i - (w - p) + (w - p)) with i by lia.
  rewrite (proj2 (Z.leb_le 0 (i - (w - p)))) by lia.
  destruct (Z.lt_ge_cases i w) as [|Hge].
  { rewrite (proj2 (Z.ltb_lt (i - (w - p)) p)) by lia. apply andb_true_r. }
  assert (Z.testbit x i = false) as ->; [|done].
  rewrite <- (Z.mod_small x (2 ^ w)) by done. apply Z.mod_pow2_bits_high. lia.
Qed.

(** Membership by mask is equality of the leading [p] bits. *)
Lemma mask_membership w p x ip :
  0 ≤ p ≤ w → 0 ≤ x < 2 ^ w → 0 ≤ ip < 2 ^ w →
  Z.land x (prefix_mask w p) = Z.land ip (prefix_mask w p) ↔ x / 2 ^ (w - p) = ip / 2 ^ (w - p).
Proof.
  intros Hp Hx Hip. rewrite !land_prefix_mask by done.
  rewrite !Z.shiftr_div_pow2, !Z.shiftl_mul_pow2 by lia.
  assert (0 < 2 ^ (w - p)) by lia. split; [|congruence]. intros H'.
  apply Z.mul_reg_r in H'; lia.
Qed.

(** *** The parsers return values of their width *)
Lemma read_digits_range radix max md count acc l c n rest :
  0 ≤ radix → 0 ≤ acc ≤ max → read_digits radix max md count acc l = Some (c, n, rest) →
  0 ≤ n ≤ max.
Proof.
  intros Hr. revert count acc. induction l as [|x l IH]; intros count acc Hacc; simpl.
  - by intros [= _ <- _].
  - destruct (digit radix x) as [d|] eqn:E; [|by intros [= _ <- _]].
    apply digit_range in E. destruct (Z.ltb_spec max (acc * radix + d)); [done|].
    case_match; [done|]. apply IH. nia.
Qed.

Lemma read_number_range radix max md z l n rest :
  0 ≤ radix → 0 ≤ max → read_number radix max md z l = Some (n, rest) → 0 ≤ n ≤ max.
Proof.
  intros Hr Hm H. unfold read_number in H. apply bind_Some in H as ([[c n'] r] & H & H').
  apply read_digits_range in H; [|lia..]. repeat case_match; by simplify_eq.
Qed.

Lemma read_separator_inv {A} sep i (p : Parser A) l a rest :
  read_separator sep i p l = Some (a, rest) → ∃ l', p l' = Some (a, rest).
Proof.
  unfold read_separator. case_bool_decide; [eauto|]. intros Hr.
  apply bind_Some in Hr as ([[] l'] & _ & Hr). eauto.
Qed.

Lemma read_ipv4_groups_range n i l gs rest :
  read_ipv4_groups n i l = Some (gs, rest) → Forall (λ g, 0 ≤ g ≤ 255) gs.
Proof.
  revert i l gs. induction n as [|n IH]; intros i l gs; simpl; [by intros [= <- _]|].
  intros H. apply bind_Some in H as ([g l1] & Hg & H). apply bind_Some in H as ([gs' l2] & Hgs & H).
  simplify_eq. apply read_separator_inv in Hg as [l' Hg]. apply read_number_range in Hg; [|lia..].
  constructor; [done|]. by eapply IH.
Qed.

Lemma parse_ipv4_range l n : parse_ipv4 l = Some n → in_range u32 n.
Proof.
  unfold parse_ipv4. case_match; [done|]. intros H'.
  apply bind_Some in H' as ([o rest] & Ho & H'). apply read_ipv4_groups_range in Ho.
  destruct rest; [|done]. destruct o as [|a [|b [|c [|d [|]]]]]; simplify_eq.
  rewrite !Forall_cons in Ho. unfold in_range. lia.
Qed.

Lemma read_groups_range fuel limit i l gs v4 rest :
  (i ≤ limit)%nat → read_groups fuel limit i l = (gs, v4, rest) →
  (length gs + i ≤ limit)%nat ∧ Forall (λ g, 0 ≤ g < 2 ^ 16) gs.
Proof.
  revert i l gs v4 rest. induction fuel as [|fuel IH]; intros i l gs v4 rest Hi; simpl.
  { intros [= <- _ _]. simpl. split; [lia|done]. }
  case_bool_decide as Hlim; [intros [= <- _ _]; simpl; split; [lia|done]|].
  set (ipv4 := if bool_decide (i + 1 < limit)%nat then read_separator _ _ _ _ else None).
  assert (∀ o l', ipv4 = Some (o, l') → (i + 2 ≤ limit)%nat ∧ Forall (λ g, 0 ≤ g ≤ 255) o) as H4.
  { intros o l'. subst ipv4. case_bool_decide; [|done].
    intros [l1 Hr]%read_separator_inv. split; [lia|]. by eapply read_ipv4_groups_range. }
  assert (∀ r, match read_separator ":"%char i (read_number 16 65535 4 true) l with
    | Some (g, l') => let '(gs, v4, l'') := read_groups fuel limit (S i) l' in (g :: gs, v4, l'')
    | None => ([], false, l) end = r →
    (length r.1.1 + i ≤ limit)%nat ∧ Forall (λ g, 0 ≤ g < 2 ^ 16) r.1.1) as Hnum.
  { intros r <-. destruct (read_separator _ i (read_number 16 65535 4 true) l) as [[g l']|] eqn:E;
      [|simpl; split; [lia|done]].
    apply read_separator_inv in E as [l1 E]. apply read_number_range in E; [|lia..].
    destruct (read_groups fuel limit (S i) l') as [[gs' v4'] l''] eqn:Eg.
    apply IH in Eg as [? ?]; [|lia]. simpl. split; [lia|]. constructor; [lia|done]. }
  destruct ipv4 as [[o l']|]; [|intros Hr; by apply Hnum in Hr].
  destruct (H4 o l' eq_refl) as [? Ho].
  destruct o as [|a [|b [|c [|d [|]]]]]; try (intros Hr; by apply Hnum in Hr).
  intros [= <- _ _]. rewrite !Forall_cons in Ho. simpl. split; [lia|]. repeat constructor; lia.
Qed.

Lemma read_ipv6_addr_range l gs rest :
  read_ipv6_addr l = Some (gs, rest) → length gs = 8%nat ∧ Forall (λ g, 0 ≤ g < 2 ^ 16) gs.
Proof.
  unfold read_ipv6_addr. destruct (read_groups 8 8 0 l) as [[head v4] l1] eqn:Eh.
  apply read_groups_range in Eh as [Hlen Hh]; [|lia].
  case_bool_decide as H8; [intros [= <- _]; done|]. destruct v4; [done|]. intros H.
  apply bind_Some in H as ([[] l2] & _ & H). apply bind_Some in H as ([[] l3] & _ & H).
  destruct (read_groups 8 _ 0 l3) as [[tail v6] l4] eqn:Et.
  apply read_groups_range in Et as [Hlen' Ht]; [|lia]. simplify_eq. split.
  - rewrite !length_app, length_replicate. lia.
  - rewrite !Forall_app. split_and!; [done| |done]. apply Forall_replicate. lia.
Qed.

Lemma parse_ipv6_range l n : parse_ipv6 l = Some n → in_range u128 n.
Proof.
  unfold parse_ipv6. intros H. apply bind_Some in H as ([gs rest] & Hg & H).
  apply read_ipv6_addr_range in Hg as [Hlen Hg]. destruct rest; [|done]. injection H as <-.
  destruct gs as [|g1 [|g2 [|g3 [|g4 [|g5 [|g6 [|g7 [|g8 [|]]]]]]]]]; try done. clear Hlen.
  rewrite !Forall_cons in Hg. destruct_and!. unfold in_range. cbn [foldl].
  change (2 ^ 128) with (((((((2^16 * 2^16) * 2^16) * 2^16) * 2^16) * 2^16) * 2^16) * 2^16).
  lia.
Qed.

(** The block a line of the metadata document denotes: an address and a prefix length. *)
Definition cidr_block (w : Z) (parse_ip : chars → option Z) (cidr : chars) : option (Z * Z) :=
  match split "/"%char cidr with
  | [part0; part1] =>
      ip ← parse_ip part0; p ← parse_uint u32 part1; if w <? p then None else Some (ip, p)
  | _ => None
  end.

(** The addresses of a block: the same leading [p] bits. *)
Definition in_block (w x : Z) (block : Z * Z) : Prop :=
  x / 2 ^ (w - block.2) = block.1 / 2 ^ (w - block.2).

Definition masked (w : Z) (block : Z * Z) : Z * Z :=
  (Z.land block.1 (prefix_mask w block.2), prefix_mask w block.2).

Lemma parse_cidr_v4_block cidr :
  parse_cidr_v4 cidr = masked u32 <$> cidr_block 32 parse_ipv4 cidr.
Proof.
  unfold parse_cidr_v4, cidr_block. destruct (split "/"%char cidr) as [|p0 [|p1 [|]]]; try done.
  destruct (parse_ipv4 p0); [|done]. csimpl. destruct (parse_uint u32 p1); [|done]. csimpl.
  by destruct (32 <? _).
Qed.

Lemma parse_cidr_v6_block cidr :
  parse_cidr_v6 cidr = masked u128 <$> cidr_block 128 parse_ipv6 cidr.
Proof.
  unfold parse_cidr_v6, cidr_block. destruct (split "/"%char cidr) as [|p0 [|p1 [|]]]; try done.
  destruct (parse_ipv6 p0); [|done]. csimpl. destruct (parse_uint u32 p1); [|done]. csimpl.
  by destruct (128 <? _).
Qed.

Lemma cidr_block_range w parse_ip cidr ip p :
  (∀ l n, parse_ip l = Some n → in_range w n) →
  cidr_block w parse_ip cidr = Some (ip, p) → in_range w ip ∧ 0 ≤ p ≤ w.
Proof.
  intros Hparse. unfold cidr_block. destruct (split "/"%char cidr) as [|p0 [|p1 [|]]]; try done.
  intros H. apply bind_Some in H as (ip' & Hip%Hparse & H).
  apply bind_Some in H as (p' & Hp%parse_uint_range & H); [|done].
  destruct (Z.ltb_spec w p'); [done|]. simplify_eq. unfold in_range in Hp. split; [done|lia].
Qed.

(** Testing an address against all parsed lines. *)
Lemma existsb_blocks w parse_ip parse (ls : list chars) x :
  (∀ l n, parse_ip l = Some n → in_range w n) →
  (∀ c, parse c = masked w <$> cidr_block w parse_ip c) → in_range w x →
  existsb (λ '(network, mask), Z.land x mask =? network) (omap parse ls) = true ↔
  ∃ line block, line ∈ ls ∧ cidr_block w parse_ip line = Some block ∧ in_block w x block.
Proof.
  intros Hrange Hparse Hx. rewrite existsb_exists. split.
  - intros ([network mask] & Hin & Heq%Z.eqb_eq).
    apply list_elem_of_In, list_elem_of_omap in Hin as (line & Hl & Hline).
    rewrite Hparse in Hline. apply fmap_Some in Hline as ([ip p] & Hb & Hm).
    destruct (cidr_block_range _ _ _ _ _ Hrange Hb) as [Hip Hp].
    exists line, (ip, p). split_and!; [done|done|]. injection Hm as -> ->. simpl in Heq.
    by apply (mask_membership w p x ip) in Heq.
  - intros (line & [ip p] & Hl & Hb & Hblock). exists (masked w (ip, p)). split.
    + apply list_elem_of_In, list_elem_of_omap. exists line. by rewrite Hparse, Hb.
    + destruct (cidr_block_range _ _ _ _ _ Hrange Hb) as [Hip Hp]. apply Z.eqb_eq.
      by apply (mask_membership w p x ip).
Qed.

Lemma omap_map {A B C} (f : A → B) (g : B → option C) l :
  omap g (map f l) = omap (λ x, g (f x)) l.
Proof. induction l as [|x l IH]; [done|]. csimpl. by rewrite IH. Qed.

(** The trimmed lines of a document about the first interface. *)
Definition first_interface_lines (get_metadata : chars → chars) (kind : chars) : list chars :=
  match lines (get_metadata macs_path) with
  | [] => []
  | mac :: _ => map trim (lines (get_metadata (macs_path ++ trim_end_matches "/"%char mac ++ kind)))
  end.

Lemma with_provider_spec get_metadata :
  vpc_cidrs_v4 (with_provider get_metadata) =
    omap parse_cidr_v4 (first_interface_lines get_metadata (chr "/vpc-ipv4-cidr-blocks")) ∧
  vpc_cidrs_v6 (with_provider get_metadata) =
    omap parse_cidr_v6 (first_interface_lines get_metadata (chr "/vpc-ipv6-cidr-blocks")).
Proof.
  unfold with_provider, get_vpc_cidrs_with_provider, first_interface_lines.
  destruct (get_metadata macs_path) as [|c macs]; [done|].
  destruct (lines (c :: macs)) as [|mac ?]; [done|]. cbn [vpc_cidrs_v4 vpc_cidrs_v6].
  by rewrite !omap_map.
Qed.

Lemma exists_first_interface get_metadata kind (P : chars → Z * Z → Prop) :
  (∃ line block, line ∈ first_interface_lines get_metadata kind ∧ P line block) ↔
  ∃ mac line block, head (lines (get_metadata macs_path)) = Some mac ∧
    line ∈ lines (get_metadata (macs_path ++ trim_end_matches "/"%char mac ++ kind)) ∧
    P (trim line) block.
Proof.
  unfold first_interface_lines. destruct (lines (get_metadata macs_path)) as [|mac ?]; simpl.
  { split; [intros (? & ? & ?%not_elem_of_nil & _)|]; naive_solver. }
  split.
  - intros (line & block & (line' & -> & Hl)%list_elem_of_fmap & HP). eauto 7.
  - intros (? & line & block & [= <-] & Hl & HP). exists (trim line), block.
    split; [by apply list_elem_of_fmap_2|done].
Qed.

End VpcCidrFacts.
