(* ===== verification/Conntrack.v ===== *)
(** * Conntrack: NAT events from the kernel

    Models nfm-controller/src/utils/conntrack_listener.rs: extracting the two 5-tuples of a
    connection from a netlink message, deciding which events matter, and draining the socket.  The
    netlink crates are third-party: a message is what the code inspects of it (its attributes, with
    the conversion of a tuple attribute as a parameter), and the socket is the queue of what its
    non-blocking [recv] will return, [WouldBlock] once it is empty. *)

From stdpp Require Import base numbers gmap list strings.
From S2P Require Import Prelude Network Text VpcCidr.

Definition IPPROTO_TCP : Z := 6.

(** [ConnectionProperties] of netlink-packet-netfilter: the fields the agent uses. *)
Module ConnectionProperties.

Record t := mk {
  src_ip : IpAddr.t;
  dst_ip : IpAddr.t;
  src_port : Z;
  dst_port : Z;
  protocol : Z;
}.

#[global] Instance eta_t : Eta t := λ r,
  mk (src_ip r) (dst_ip r) (src_port r) (dst_port r) (protocol r).

#[global] Instance eq_dec : EqDecision t.
Proof. solve_decision. Defined.

#[global] Instance countable : Countable t.
Proof.
  refine (inj_countable' (λ c, (src_ip c, dst_ip c, src_port c, dst_port c, protocol c))
    (λ '(a, b, c, d, e), mk a b c d e) _). by intros [].
Defined.

Definition is_inverse_of (self other : t) : bool :=
  bool_decide (src_ip self = dst_ip other) &&
  bool_decide (dst_ip self = src_ip other) &&
  (src_port self =? dst_port other) &&
  (dst_port self =? src_port other) &&
  (protocol self =? protocol other).

End ConnectionProperties.

Module ConntrackEntry.

Record t := mk {
  original : ConnectionProperties.t;
  reply : ConnectionProperties.t;
}.

#[global] Instance eq_dec : EqDecision t.
Proof. solve_decision. Defined.

End ConntrackEntry.

(** ** The trait [ConntrackProvider] *)
Class ConntrackProvider (S : Type) :=
  get_new_entries : S → Result (list ConntrackEntry.t) unit * S.

(** ** [ConntrackListener] *)
Module ConntrackListener.

Section listener.
(** A tuple attribute, a datagram, and their conversions. *)
Context {Tuple Bytes : Type}.
Context (tuple_try_from : Tuple → Result ConnectionProperties.t unit).

Inductive ConnectionNla :=
| TupleOrig (tuple : Tuple)
| TupleReply (tuple : Tuple)
| OtherNla.

(** The payload of a message: the attributes of a [ConnectionNew], or anything else. *)
Definition Payload : Type := option (list ConnectionNla).

Context (deserialize : Bytes → option Payload).

(** What one [recv] returns. *)
Inductive Recv :=
| Datagram (rx_buf : Bytes)
| WouldBlock
| RecvError.

Record t := mk {
  socket : list Recv;
  vpc_cidr_checker : VpcCidrChecker.t;
  snat_overrides : Z;
  snat_skips : Z;
  non_nats : Z;
  non_tcps : Z;
  events : Z;
}.

#[global] Instance eta_t : Eta t := λ r,
  mk (socket r) (vpc_cidr_checker r) (snat_overrides r) (snat_skips r) (non_nats r) (non_tcps r)
    (events r).

(** The loop over the attributes, with its early exits. *)
Fixpoint scan_nlas (orig_opt reply_opt : option ConnectionProperties.t) (nlas : list ConnectionNla) :
    Result (option ConnectionProperties.t * option ConnectionProperties.t) unit :=
  match nlas with
  | [] => Ok (orig_opt, reply_opt)
  | TupleOrig tuple :: nlas =>
      match tuple_try_from tuple with
      | Ok cxn => scan_nlas (Some cxn) reply_opt nlas
      | Err e => Err e
      end
  | TupleReply tuple :: nlas =>
      match tuple_try_from tuple with
      | Ok cxn =>
          (* if orig is already there by now, break eagerly and skipping extra parsing. *)
          if bool_decide (is_Some orig_opt) then Ok (orig_opt, Some cxn)
          else scan_nlas orig_opt (Some cxn) nlas
      | Err e => Err e
      end
  | OtherNla :: nlas => scan_nlas orig_opt reply_opt nlas
  end.

Definition parse_connection_properties (payload : Payload) :
    Result (ConnectionProperties.t * ConnectionProperties.t) unit :=
  match scan_nlas None None (default [] payload) with
  | Err e => Err e
  | Ok (Some orig, Some reply) => Ok (orig, reply)
  | Ok _ => Err tt
  end.

(** Decide whether to ignore the conntrack event or not; returns whether to accept it, and the
    reply with any SNAT effect removed. *)
Definition filter_and_normalize_event (self : t) (original reply : ConnectionProperties.t) :
    bool * ConnectionProperties.t * t :=
  if negb (ConnectionProperties.protocol original =? IPPROTO_TCP) then
    (false, reply, self <| non_tcps ::= Z.add 1 |>)
  else if ConnectionProperties.is_inverse_of original reply then
    (* This is not a NAT-ed connection, ignore this event. *)
    (false, reply, self <| non_nats ::= Z.add 1 |>)
  else
    let snat_occurred := negb (bool_decide
      (ConnectionProperties.src_ip original = ConnectionProperties.dst_ip reply)) in
    if snat_occurred && VpcCidrChecker.is_vpc_ip (vpc_cidr_checker self)
         (ConnectionProperties.src_ip original) then
      let dnat_occurred := negb (bool_decide
        (ConnectionProperties.dst_ip original = ConnectionProperties.src_ip reply)) in
      if dnat_occurred then
        (* If both SNAT and DNAT occurred, and source is VPC IP, remove SNAT effect *)
        (true,
         reply <| ConnectionProperties.dst_ip := ConnectionProperties.src_ip original |>
               <| ConnectionProperties.dst_port := ConnectionProperties.src_port original |>,
         self <| snat_overrides ::= Z.add 1 |>)
      else
        (* Skip if only SNAT occurred and source is VPC ENI IP *)
        (false, reply, self <| snat_skips ::= Z.add 1 |>)
    else (true, reply, self).

(** One datagram: at most one new entry. *)
Definition handle_datagram (self : t) (rx_buf : Bytes) : option ConntrackEntry.t * t :=
  match deserialize rx_buf with
  | None => (None, self)
  | Some msg =>
      match parse_connection_properties msg with
      | Ok (original, reply) =>
          let '(accept, reply, self) := filter_and_normalize_event self original reply in
          (if accept then Some (ConntrackEntry.mk original reply) else None, self)
      | Err _ => (None, self)
      end
  end.

(** The loop of [get_new_entries], by recursion on the queue; a failed read loses the entries
    collected so far. *)
Fixpoint drain (queue : list Recv) (entries : list ConntrackEntry.t) (self : t) :
    Result (list ConntrackEntry.t) unit * t :=
  match queue with
  | [] => (Ok entries, self <| socket := [] |>)
  | WouldBlock :: queue => (Ok entries, self <| socket := queue |>)
  | RecvError :: queue => (Err tt, self <| socket := queue |>)
  | Datagram rx_buf :: queue =>
      let '(entry, self) := handle_datagram self rx_buf in
      drain queue (entries ++ option_list entry) self
  end.

(** [initialize]: the calls that set the netlink socket up, each of which must succeed, in order; the
    kernel clamps the size it is asked for.  What the socket receives afterwards is its queue. *)
Inductive SocketCall :=
| NewSocket
| SetNonBlocking
| GetRxBufSz
| SetRxBufSz (size : Z)
| BindAuto
| AddMembership (group : Z).

Definition SOCKET_RX_BUF_DESIRED_SIZE : Z := 12800000.
Definition NFNLGRP_CONNTRACK_NEW : Z := 1.

Definition socket_setup : list SocketCall :=
  [NewSocket; SetNonBlocking; GetRxBufSz; SetRxBufSz SOCKET_RX_BUF_DESIRED_SIZE; GetRxBufSz; BindAuto;
   AddMembership NFNLGRP_CONNTRACK_NEW].

(** [None] is the panic of a call that fails. *)
Definition initialize (call_ok : SocketCall → bool) (queue : list Recv) (vpc_cidr_checker : VpcCidrChecker.t) :
    option t :=
  if forallb call_ok socket_setup then Some (mk queue vpc_cidr_checker 0 0 0 0 0) else None.

Definition stats_summary (self : t) : chars :=
  chr "events:" ++ show_uint (events self) ++
  chr ", snat_overrides:" ++ show_uint (snat_overrides self) ++
  chr ", snat_skips:" ++ show_uint (snat_skips self) ++
  chr ", non_nats:" ++ show_uint (non_nats self) ++
  chr ", non_tcps:" ++ show_uint (non_tcps self).

#[global] Instance listener_provider : ConntrackProvider t := λ self,
  let '(res, self) := drain (socket self) [] self in
  match res with
  | Ok entries => (Ok entries, self <| events ::= Z.add (Z.of_nat (length entries)) |>)
  | Err e => (Err e, self)
  end.

End listener.
Arguments ConnectionNla : clear implicits.
Arguments Recv : clear implicits.
Arguments t : clear implicits.
End ConntrackListener.

(** ** Facts *)
Module ConntrackFacts.
Import ConnectionProperties ConntrackListener.

Lemma is_inverse_of_spec a b :
  is_inverse_of a b = true ↔
  src_ip a = dst_ip b ∧ dst_ip a = src_ip b ∧ src_port a = dst_port b ∧ dst_port a = src_port b ∧
  ConnectionProperties.protocol a = ConnectionProperties.protocol b.
Proof.
  unfold is_inverse_of. rewrite !andb_true_iff, !Z.eqb_eq, !bool_decide_eq_true. tauto.
Qed.

Section facts.
Context {Bytes : Type}.
Implicit Types self : ConntrackListener.t Bytes.

(** The events that matter: TCP, translated, and not merely masqueraded VPC traffic. *)
Definition relevant (checker : VpcCidrChecker.t) (o r : ConnectionProperties.t) : Prop :=
  ConnectionProperties.protocol o = IPPROTO_TCP ∧ is_inverse_of o r = false ∧
  ¬ (src_ip o ≠ dst_ip r ∧ dst_ip o = src_ip r ∧ VpcCidrChecker.is_vpc_ip checker (src_ip o) = true).

(** The reply as it is kept. *)
Definition normalized (checker : VpcCidrChecker.t) (o r : ConnectionProperties.t) :
    ConnectionProperties.t :=
  if bool_decide (src_ip o ≠ dst_ip r ∧ dst_ip o ≠ src_ip r) &&
     VpcCidrChecker.is_vpc_ip checker (src_ip o)
  then r <| dst_ip := src_ip o |> <| dst_port := src_port o |> else r.

Definition stat_total self : Z := snat_skips self + non_nats self + non_tcps self.

Lemma filter_spec self o r :
  let '(accept, r', self') := filter_and_normalize_event self o r in
  (accept = true ↔ relevant (vpc_cidr_checker self) o r) ∧
  (accept = true → r' = normalized (vpc_cidr_checker self) o r ∧ is_inverse_of o r' = false) ∧
  (accept = false → r' = r) ∧
  vpc_cidr_checker self' = vpc_cidr_checker self ∧ socket self' = socket self ∧
  stat_total self' = stat_total self + (if accept then 0 else 1) ∧ events self' = events self.
Proof.
  unfold filter_and_normalize_event, relevant, normalized, stat_total.
  destruct (Z.eqb_spec (ConnectionProperties.protocol o) IPPROTO_TCP) as [Hp|Hp]; simpl;
    [|split_and!; try done; [split; [done|tauto]|lia]].
  destruct (is_inverse_of o r) eqn:Hinv; simpl;
    [split_and!; try done; [split; [done|naive_solver]|lia]|].
  destruct (decide (src_ip o = dst_ip r)) as [Hs|Hs].
  { rewrite bool_decide_eq_true_2 by done. simpl. split_and!; try done; [|intros _|lia].
    - split; [intros _|done]. split_and!; try done. tauto.
    - rewrite bool_decide_eq_false_2 by tauto. done. }
  rewrite bool_decide_eq_false_2 by done. simpl.
  destruct (VpcCidrChecker.is_vpc_ip (vpc_cidr_checker self) (src_ip o)) eqn:Hv.
  - destruct (decide (dst_ip o = src_ip r)) as [Hd|Hd].
    + rewrite bool_decide_eq_true_2 by done. simpl. split_and!; try done; [|lia].
      split; [done|]. intros (_ & _ & Hn). by destruct Hn.
    + rewrite (bool_decide_eq_false_2 _ Hd). simpl. split_and!; try done; [|intros _|lia].
      * split; [intros _|done]. split_and!; try done. tauto.
      * rewrite bool_decide_eq_true_2 by done. simpl. split; [done|].
        apply not_true_iff_false. rewrite is_inverse_of_spec. simpl. tauto.
  - split_and!; try done; [|intros _; rewrite andb_false_r; done|lia].
    split; [intros _|done]. split_and!; try done. intros (_ & _ & ?). congruence.
Qed.

End facts.
End ConntrackFacts.
