(* ===== verification/NatResolver.v ===== *)
(** * NatResolver: socket addresses beyond NAT

    Models nfm-controller/src/events/nat_resolver.rs.  The trait is the class [NatResolver] with
    the laws its client relies on ([NatResolverLaws]); both implementations are instances.  The
    mappings live in a ring of [RING_BUF_ENTRIES] hash maps, one per generation.  [None] stands for
    the panic on an entry whose two addresses are of different families. *)

From stdpp Require Import base numbers gmap list strings.
From S2P Require Import Prelude Network SockCache Conntrack.

Definition RING_BUF_ENTRIES : nat := 3.

(** ** The trait *)
Class NatResolver (R : Type) := {
  perform_aggregation_cycle : R → R;
  perform_eviction : R → R;
  get_beyond_nat_entry : R → SockContext.t → option (option SockContext.t);
  (** The last argument is the order in which the cache is visited. *)
  store_beyond_nat_entries :
    R → SockCache.t → list (Z * SockWrapper.t) → option (SockOperationResult.t * SockCache.t);
  num_entries : R → Z;
}.

(** What the event provider relies on: resolving only ever fills in the external context. *)
Definition only_external (w w' : SockWrapper.t) : Prop :=
  ∃ e, w' = w <| SockWrapper.context_external := e |> ∧
    (is_Some (SockWrapper.context_external w) → e = SockWrapper.context_external w).

Class NatResolverLaws (R : Type) `{NatResolver R} := {
  store_only_external (r : R) cache order result cache' :
    order ≡ₚ map_to_list (SockCache.cache cache) →
    store_beyond_nat_entries r cache order = Some (result, cache') →
    SockCache.max_sock_entries cache' = SockCache.max_sock_entries cache ∧
    ∀ k, match SockCache.cache cache !! k, SockCache.cache cache' !! k with
         | Some w, Some w' => only_external w w'
         | None, None => True
         | _, _ => False
         end
}.

(** ** [NatResolverNoOp] *)
Module NatResolverNoOp.

Inductive t := mk.

#[global] Instance resolver : NatResolver t := {
  perform_aggregation_cycle self := self;
  perform_eviction self := self;
  get_beyond_nat_entry _ _ := Some None;
  store_beyond_nat_entries _ sock_cache _ := Some (SockOperationResult.default, sock_cache);
  num_entries _ := 0;
}.

#[global] Instance laws : NatResolverLaws t.
Proof.
  constructor. intros r cache order result cache' _ [= _ <-]. split; [done|]. intros k.
  destruct (SockCache.cache cache !! k) as [w|]; [|done].
  exists (SockWrapper.context_external w). by destruct w.
Qed.

End NatResolverNoOp.

(** ** [NatResolverImpl] *)
Module NatResolverImpl.

Section impl.
Context {S : Type} `{ConntrackProvider S}.

Record t := mk {
  conntrack_listener : S;
  conntrack_ringbuf : list (gmap ConnectionProperties.t ConnectionProperties.t);
  ringbuf_index : nat;
}.

#[global] Instance eta_t : Eta t := λ r,
  mk (conntrack_listener r) (conntrack_ringbuf r) (ringbuf_index r).

Definition initialize (listener : S) : t := {|
  conntrack_listener := listener;
  conntrack_ringbuf := replicate RING_BUF_ENTRIES ∅;
  ringbuf_index := 0
|}.

Definition num_entries (self : t) : Z :=
  foldr Z.add 0 ((λ m, Z.of_nat (size m)) <$> conntrack_ringbuf self).

(** The loop over the new entries: each is keyed by both sides. *)
Definition insert_entries (entry_cache : gmap ConnectionProperties.t ConnectionProperties.t)
    (new_entries : list ConntrackEntry.t) : gmap ConnectionProperties.t ConnectionProperties.t :=
  foldl (λ m new_entry,
    let orig := ConntrackEntry.original new_entry in
    let reply := ConntrackEntry.reply new_entry in
    <[reply := orig]> (<[orig := reply]> m)) entry_cache new_entries.

Definition perform_aggregation_cycle (self : t) : t :=
  let '(res, listener) := get_new_entries (conntrack_listener self) in
  let self := self <| conntrack_listener := listener |> in
  match res with
  | Err _ => self
  | Ok new_entries =>
      self <| conntrack_ringbuf ::=
        alter (λ entry_cache, insert_entries entry_cache new_entries) (ringbuf_index self) |>
  end.

Definition perform_eviction (self : t) : t :=
  (* Advance the head to where the tail currently is, then clear that slot. *)
  let index := ((ringbuf_index self + 1) mod length (conntrack_ringbuf self))%nat in
  self <| ringbuf_index := index |> <| conntrack_ringbuf ::= alter (λ _, ∅) index |>.

(** Strips the prefix of an IPv4 address wrapped as an IPv6 one. *)
Definition ipv6_to_ipaddr (addr : list Z) : IpAddr.t :=
  match addr with
  | [b0; b1; b2; b3; b4; b5; b6; b7; b8; b9; b10; b11; b12; b13; b14; b15] =>
      if bool_decide ([b0; b1; b2; b3; b4; b5; b6; b7; b8; b9] = replicate 10 0) &&
         (b10 =? 0xff) && (b11 =? 0xff)
      then IpAddr.V4 (b12 * 2 ^ 24 + b13 * 2 ^ 16 + b14 * 2 ^ 8 + b15)
      else IpAddr.V6 addr
  | _ => IpAddr.V6 addr
  end.

Definition sock_context_to_egress_cxn_info (sock_context : SockContext.t) :
    Result ConnectionProperties.t unit :=
  let addrs :=
    if SockContext.address_family sock_context =? AF_INET then
      Ok (IpAddr.V4 (SockContext.local_ipv4 sock_context), IpAddr.V4 (SockContext.remote_ipv4 sock_context))
    else if SockContext.address_family sock_context =? AF_INET6 then
      Ok (ipv6_to_ipaddr (SockContext.local_ipv6 sock_context),
          ipv6_to_ipaddr (SockContext.remote_ipv6 sock_context))
    else Err tt in
  match addrs with
  | Err e => Err e
  | Ok (local_addr, remote_addr) =>
      Ok {|
        ConnectionProperties.src_ip := local_addr;
        ConnectionProperties.dst_ip := remote_addr;
        ConnectionProperties.src_port := SockContext.local_port sock_context;
        ConnectionProperties.dst_port := SockContext.remote_port sock_context;
        ConnectionProperties.protocol := IPPROTO_TCP
      |}
  end.

Definition ingress_cxn_info_to_sock_context (cxn_info : ConnectionProperties.t) (is_client : bool) :
    option SockContext.t :=
  match ConnectionProperties.src_ip cxn_info, ConnectionProperties.dst_ip cxn_info with
  | IpAddr.V4 src_addr, IpAddr.V4 dst_addr =>
      Some (SockContext.default
        <| SockContext.local_ipv4 := dst_addr |>
        <| SockContext.remote_ipv4 := src_addr |>
        <| SockContext.local_port := ConnectionProperties.dst_port cxn_info |>
        <| SockContext.remote_port := ConnectionProperties.src_port cxn_info |>
        <| SockContext.address_family := AF_INET |>
        <| SockContext.is_client := is_client |>)
  | IpAddr.V6 src_addr, IpAddr.V6 dst_addr =>
      Some (SockContext.default
        <| SockContext.local_ipv6 := dst_addr |>
        <| SockContext.remote_ipv6 := src_addr |>
        <| SockContext.local_port := ConnectionProperties.dst_port cxn_info |>
        <| SockContext.remote_port := ConnectionProperties.src_port cxn_info |>
        <| SockContext.address_family := AF_INET6 |>
        <| SockContext.is_client := is_client |>)
  | _, _ => None
  end.

(** The first slot of the ring that knows the key. *)
Fixpoint lookup_ring (ring : list (gmap ConnectionProperties.t ConnectionProperties.t))
    (key : ConnectionProperties.t) : option ConnectionProperties.t :=
  match ring with
  | [] => None
  | m :: ring => match m !! key with Some v => Some v | None => lookup_ring ring key end
  end.

Definition get_beyond_nat_entry (self : t) (sock_context : SockContext.t) :
    option (option SockContext.t) :=
  if SockContext.is_valid sock_context then
    match sock_context_to_egress_cxn_info sock_context with
    | Err _ => None
    | Ok internal_info =>
        match lookup_ring (conntrack_ringbuf self) internal_info with
        | Some external_info =>
            c ← ingress_cxn_info_to_sock_context external_info (SockContext.is_client sock_context);
            Some (Some c)
        | None => Some None
        end
    end
  else Some None.

Definition store_one (self : t) (st : SockOperationResult.t * SockCache.t)
    (entry : Z * SockWrapper.t) : option (SockOperationResult.t * SockCache.t) :=
  let '(result, sock_cache) := st in
  let '(key, sock_wrap) := entry in
  match SockWrapper.context_external sock_wrap with
  | Some _ => Some (result, sock_cache)
  | None =>
      found ← get_beyond_nat_entry self (SockWrapper.context sock_wrap);
      match found with
      | Some entry => Some (
          result <| SockOperationResult.completed ::= Z.add 1 |>,
          sock_cache <| SockCache.cache ::=
            <[key := sock_wrap <| SockWrapper.context_external := Some entry |>]> |>)
      | None => Some (result <| SockOperationResult.partial ::= Z.add 1 |>, sock_cache)
      end
  end.

Definition store_beyond_nat_entries (self : t) (sock_cache : SockCache.t)
    (order : list (Z * SockWrapper.t)) : option (SockOperationResult.t * SockCache.t) :=
  foldM (store_one self) (SockOperationResult.default, sock_cache) order.

#[global] Instance resolver : NatResolver t := {
  NatResolver.perform_aggregation_cycle := perform_aggregation_cycle;
  NatResolver.perform_eviction := perform_eviction;
  NatResolver.get_beyond_nat_entry := get_beyond_nat_entry;
  NatResolver.store_beyond_nat_entries := store_beyond_nat_entries;
  NatResolver.num_entries := num_entries;
}.

End impl.
Arguments t : clear implicits.
End NatResolverImpl.
