(* ===== verification/NatProperties.v ===== *)
(** * NatProperties: the guarantees of NAT resolution

    The ring of hash maps is related to an abstract list of generations, newest first; the laws of
    the resolver interface are discharged for the implementation; VPC membership, the event filter
    and the two address conversions are specified. *)

From stdpp Require Import base numbers gmap list strings.
From Stdlib Require Import Ascii.
From S2P Require Import Prelude Network SockCache Text VpcCidr Conntrack NatResolver.

(** ** The interface's laws *)
Module NatResolverFacts.
Import NatResolverImpl.

Section facts.
Context {S : Type} `{ConntrackProvider S}.
Implicit Types self : NatResolverImpl.t S.

Lemma only_external_refl w : only_external w w.
Proof. exists (SockWrapper.context_external w). by destruct w. Qed.

Lemma store_one_lookup self r c k w r' c' :
  store_one self (r, c) (k, w) = Some (r', c') →
  SockCache.max_sock_entries c' = SockCache.max_sock_entries c ∧
  (∀ k', k' ≠ k → SockCache.cache c' !! k' = SockCache.cache c !! k') ∧
  (SockCache.cache c' !! k = SockCache.cache c !! k ∨
   ∃ w', SockCache.cache c' !! k = Some w' ∧ only_external w w').
Proof.
  unfold store_one. destruct (SockWrapper.context_external w) as [e|] eqn:E.
  { intros [= <- <-]. auto. }
  intros Hs. apply bind_Some in Hs as (found & _ & Hs). destruct found as [e|]; simplify_eq; [|auto].
  simpl. split_and!; [done|..].
  - intros k' Hne. by rewrite lookup_insert_ne.
  - right. exists (w <| SockWrapper.context_external := Some e |>). rewrite lookup_insert_eq.
    split; [done|]. exists (Some e). split; [done|]. rewrite E. by intros [].
Qed.

Lemma store_loop self order r c r' c' :
  NoDup order.*1 → (∀ k w, (k, w) ∈ order → SockCache.cache c !! k = Some w) →
  foldM (store_one self) (r, c) order = Some (r', c') →
  SockCache.max_sock_entries c' = SockCache.max_sock_entries c ∧
  (∀ k, k ∉ order.*1 → SockCache.cache c' !! k = SockCache.cache c !! k) ∧
  (∀ k w, (k, w) ∈ order → ∃ w', SockCache.cache c' !! k = Some w' ∧ only_external w w').
Proof.
  revert r c. induction order as [|[k w] order IH]; intros r c Hnd Hin Hs.
  { simpl in Hs. simplify_eq. split_and!; [done..|]. by intros k w ?%elem_of_nil. }
  apply NoDup_cons in Hnd as [Hk Hnd]. cbn [foldM] in Hs.
  apply bind_Some in Hs as ([r1 c1] & Hone & Hs).
  destruct (store_one_lookup _ _ _ _ _ _ _ Hone) as (Hm1 & Hother & Hsame).
  assert (Hw : SockCache.cache c !! k = Some w) by (apply Hin; by left).
  apply IH in Hs as (Hm & Hout & Hins); [|done|].
  - split_and!; [congruence| |].
    + intros k' [Hne Hnot]%not_elem_of_cons. rewrite Hout by done. by apply Hother.
    + intros k' w' [[= -> ->]|Hin']%elem_of_cons; [|by apply Hins]. rewrite Hout by done.
      destruct Hsame as [->|?]; [|done]. exists w. split; [done|apply only_external_refl].
  - intros k' w' Hin'. rewrite Hother; [apply Hin; by right|]. intros ->. apply Hk.
    apply list_elem_of_fmap. by exists (k, w').
Qed.

#[global] Instance impl_laws : NatResolverLaws (NatResolverImpl.t S).
Proof.
  constructor. intros self c order r c' Hp Hs. cbn in Hs. unfold store_beyond_nat_entries in Hs.
  assert (NoDup order.*1) by (rewrite Hp; apply NoDup_fst_map_to_list).
  apply store_loop in Hs as (Hm & Hout & Hins); [|done|].
  2:{ intros k w. rewrite Hp. by rewrite elem_of_map_to_list. }
  split; [done|]. intros k. destruct (SockCache.cache c !! k) as [w|] eqn:E.
  - destruct (Hins k w) as (w' & -> & ?); [|done]. rewrite Hp. by apply elem_of_map_to_list.
  - rewrite Hout, E; [done|]. intros ([k' w] & -> & Hin)%list_elem_of_fmap. rewrite Hp in Hin.
    apply elem_of_map_to_list in Hin. simpl in *. congruence.
Qed.

(** ** The ring as generations *)

Definition ring_ok self : Prop :=
  length (conntrack_ringbuf self) = RING_BUF_ENTRIES ∧ (ringbuf_index self < RING_BUF_ENTRIES)%nat.

(** The generations, newest first. *)
Definition generations self : list (gmap ConnectionProperties.t ConnectionProperties.t) :=
  (λ age, conntrack_ringbuf self !!! ((ringbuf_index self + RING_BUF_ENTRIES - age) mod
    RING_BUF_ENTRIES)%nat) <$> seq 0 RING_BUF_ENTRIES.

Lemma ring_cases self :
  ring_ok self → ∃ a b c, conntrack_ringbuf self = [a; b; c] ∧
    (ringbuf_index self = 0 ∨ ringbuf_index self = 1 ∨ ringbuf_index self = 2)%nat.
Proof.
  unfold ring_ok, RING_BUF_ENTRIES. intros [Hl Hi].
  destruct (conntrack_ringbuf self) as [|a [|b [|c [|]]]]; try done. exists a, b, c. split; [done|lia].
Qed.

Lemma eviction_generations self :
  ring_ok self →
  ring_ok (perform_eviction self) ∧
  generations (perform_eviction self) = ∅ :: take 2 (generations self).
Proof.
  intros Hok. destruct (ring_cases self Hok) as (a & b & c & Hr & Hi).
  unfold ring_ok, generations, perform_eviction. simpl. rewrite Hr.
  destruct Hi as [->|[->| ->]]; (split; [split; [reflexivity|apply Nat.ltb_lt; reflexivity]|reflexivity]).
Qed.

Lemma aggregation_generations self :
  ring_ok self →
  ring_ok (perform_aggregation_cycle self) ∧
  generations (perform_aggregation_cycle self) =
    match (get_new_entries (conntrack_listener self)).1, generations self with
    | Ok entries, newest :: older => insert_entries newest entries :: older
    | _, gens => gens
    end.
Proof.
  intros Hok. destruct (ring_cases self Hok) as (a & b & c & Hr & Hi).
  unfold perform_aggregation_cycle. destruct (get_new_entries (conntrack_listener self)) as [[es|e] l'];
    unfold ring_ok, generations; simpl; rewrite Hr; destruct Hi as [->|[->| ->]];
    (split; [split; [reflexivity|apply Nat.ltb_lt; reflexivity]|reflexivity]).
Qed.

Lemma generations_perm self : ring_ok self → generations self ≡ₚ conntrack_ringbuf self.
Proof.
  intros Hok. destruct (ring_cases self Hok) as (a & b & c & Hr & Hi).
  unfold generations. rewrite Hr. destruct Hi as [->|[->| ->]]; simpl.
  - rewrite (Permutation_swap b c). done.
  - apply Permutation_swap.
  - etrans; [apply (Permutation_app_comm [c] [b; a])|]. apply Permutation_swap.
Qed.

Lemma lookup_ring_Some ring key v :
  lookup_ring ring key = Some v → ∃ g, g ∈ ring ∧ g !! key = Some v.
Proof.
  induction ring as [|m ring IH]; simpl; [done|]. destruct (m !! key) eqn:E.
  - intros [= <-]. exists m. split; [by left|done].
  - intros (g & ? & ?)%IH. exists g. split; [by right|done].
Qed.

Lemma lookup_ring_None ring key :
  lookup_ring ring key = None ↔ ∀ g, g ∈ ring → g !! key = None.
Proof.
  induction ring as [|m ring IH]; simpl; [split; [by intros _ g ?%elem_of_nil|done]|].
  destruct (m !! key) eqn:E.
  - split; [done|]. intros Hall. rewrite Hall in E; [done|by left].
  - rewrite IH. split; [intros Hall g [->|?]%elem_of_cons; auto|].
    intros Hall g ?. apply Hall. by right.
Qed.

(** *** What an entry contributes *)

Lemma insert_entries_app m es1 es2 :
  insert_entries m (es1 ++ es2) = insert_entries (insert_entries m es1) es2.
Proof. apply foldl_app. Qed.

(** The last event that mentions a connection decides, in both directions. *)
Lemma insert_entries_last m es o r :
  o ≠ r → let m' := insert_entries m (es ++ [ConntrackEntry.mk o r]) in
  m' !! o = Some r ∧ m' !! r = Some o.
Proof.
  intros Hne. simpl. rewrite insert_entries_app. simpl.
  rewrite lookup_insert_ne, !lookup_insert_eq by done. done.
Qed.

Lemma insert_entries_origin m es k v :
  insert_entries m es !! k = Some v → m !! k = Some v ∨
  ∃ e, e ∈ es ∧ (k = ConntrackEntry.original e ∧ v = ConntrackEntry.reply e ∨
                 k = ConntrackEntry.reply e ∧ v = ConntrackEntry.original e).
Proof.
  revert m. induction es as [|e es IH]; intros m; simpl; [by left|].
  intros [Hm|(e' & ? & ?)]%IH; [|right; exists e'; split; [by right|done]].
  apply lookup_insert_Some in Hm as [[<- <-]|[_ Hm]]; [right; exists e; split; [by left|tauto]|].
  apply lookup_insert_Some in Hm as [[<- <-]|[_ Hm]]; [right; exists e; split; [by left|tauto]|by left].
Qed.

(** *** Address families *)

Definition same_family (p : ConnectionProperties.t) : Prop :=
  match ConnectionProperties.src_ip p, ConnectionProperties.dst_ip p with
  | IpAddr.V4 _, IpAddr.V4 _ | IpAddr.V6 _, IpAddr.V6 _ => True
  | _, _ => False
  end.

Definition ring_families self : Prop :=
  ∀ g k v, g ∈ conntrack_ringbuf self → g !! k = Some v → same_family v.

Lemma get_beyond_total self c :
  ring_families self → is_Some (get_beyond_nat_entry self c).
Proof.
  intros Hf. unfold get_beyond_nat_entry. destruct (SockContext.is_valid c) eqn:Hv; [|done].
  unfold sock_context_to_egress_cxn_info. unfold SockContext.is_valid in Hv.
  destruct (SockContext.address_family c =? AF_INET);
    [|destruct (SockContext.address_family c =? AF_INET6); [|done]];
    (destruct (lookup_ring (conntrack_ringbuf self) _) as [v|] eqn:E; [|done];
     apply lookup_ring_Some in E as (g & Hg & Hk); specialize (Hf g _ v Hg Hk);
     unfold same_family in Hf; unfold ingress_cxn_info_to_sock_context;
     destruct (ConnectionProperties.src_ip v), (ConnectionProperties.dst_ip v); done).
Qed.

(** With families in order, resolving the whole cache cannot panic. *)
Lemma store_beyond_total self cache order :
  ring_families self → is_Some (store_beyond_nat_entries self cache order).
Proof.
  intros Hf. unfold store_beyond_nat_entries. generalize SockOperationResult.default. revert cache.
  induction order as [|[k w] order IH]; intros cache r; [done|]. cbn [foldM store_one].
  destruct (SockWrapper.context_external w); [apply IH|].
  destruct (get_beyond_total self (SockWrapper.context w) Hf) as [[c|] ->]; csimpl; apply IH.
Qed.

(** The same connection seen from its other end. *)
Definition reversed (v : ConnectionProperties.t) : ConnectionProperties.t :=
  ConnectionProperties.mk (ConnectionProperties.dst_ip v) (ConnectionProperties.src_ip v)
    (ConnectionProperties.dst_port v) (ConnectionProperties.src_port v) (ConnectionProperties.protocol v).

(** A connection as the lookup keys spell it: TCP, with IPv4 addresses that are wrapped as IPv6 ones
    unwrapped. *)
Definition unwrap_addr (a : IpAddr.t) : IpAddr.t :=
  match a with IpAddr.V4 _ => a | IpAddr.V6 octets => ipv6_to_ipaddr octets end.
Definition canonical (v : ConnectionProperties.t) : ConnectionProperties.t :=
  v <| ConnectionProperties.src_ip ::= unwrap_addr |> <| ConnectionProperties.dst_ip ::= unwrap_addr |>
    <| ConnectionProperties.protocol := IPPROTO_TCP |>.

(** The ingress conversion fails only on mixed families, and the egress conversion undoes it up to
    the direction. *)
Lemma ingress_reversed v is_client :
  match ingress_cxn_info_to_sock_context v is_client with
  | Some c => same_family v ∧ SockContext.is_client c = is_client ∧
      sock_context_to_egress_cxn_info c = Ok (canonical (reversed v))
  | None => ¬ same_family v
  end.
Proof.
  destruct v as [[src|src] [dst|dst] sport dport proto]; unfold same_family; simpl;
    try (split_and!; [done|reflexivity|reflexivity]); tauto.
Qed.

Lemma valid_egress c :
  SockContext.is_valid c = true → ∃ key, sock_context_to_egress_cxn_info c = Ok key.
Proof.
  unfold SockContext.is_valid, sock_context_to_egress_cxn_info.
  destruct (SockContext.address_family c =? AF_INET); [by eauto|].
  destruct (SockContext.address_family c =? AF_INET6); [by eauto|done].
Qed.

End facts.
End NatResolverFacts.

(** ** Draining the socket *)
Module DrainFacts.
Import ConntrackListener ConntrackFacts.

Section drain.
Context {Tuple Bytes : Type} (tuple_try_from : Tuple → Result ConnectionProperties.t unit).
Context (deserialize : Bytes → option (@Payload Tuple)).
Implicit Types self : ConntrackListener.t Bytes.

(** The entry a datagram yields, given the VPC's address ranges. *)
Definition entry_of (checker : VpcCidrChecker.t) (buf : Bytes) : option ConntrackEntry.t :=
  msg ← deserialize buf;
  match parse_connection_properties tuple_try_from msg with
  | Ok (o, r) =>
      if bool_decide (ConnectionProperties.protocol o = IPPROTO_TCP) &&
         negb (ConnectionProperties.is_inverse_of o r) &&
         negb (bool_decide (ConnectionProperties.src_ip o ≠ ConnectionProperties.dst_ip r ∧
                 ConnectionProperties.dst_ip o = ConnectionProperties.src_ip r) &&
               VpcCidrChecker.is_vpc_ip checker (ConnectionProperties.src_ip o))
      then Some (ConntrackEntry.mk o (normalized checker o r)) else None
  | Err _ => None
  end.

Lemma handle_datagram_spec self buf :
  let '(e, self') := handle_datagram tuple_try_from deserialize self buf in
  e = entry_of (vpc_cidr_checker self) buf ∧ vpc_cidr_checker self' = vpc_cidr_checker self ∧
  events self' = events self.
Proof.
  unfold handle_datagram, entry_of. destruct (deserialize buf) as [msg|]; [|done]. csimpl.
  destruct (parse_connection_properties tuple_try_from msg) as [[o r]|]; [|done].
  pose proof (filter_spec self o r) as Hf.
  destruct (filter_and_normalize_event self o r) as [[accept r'] self'].
  destruct Hf as (Hacc & Hyes & _ & Hv & _ & _ & Hev). split; [|done].
  unfold relevant in Hacc.
  destruct (bool_decide (ConnectionProperties.protocol o = IPPROTO_TCP) && _ && _) eqn:E.
  - rewrite !andb_true_iff, !negb_true_iff, andb_false_iff, bool_decide_eq_true, bool_decide_eq_false in E.
    assert (accept = true) as Ha; [|rewrite Ha; by destruct (Hyes Ha) as [-> _]].
    apply Hacc. destruct E as [[? ?] Hn]. split_and!; [done..|]. intros (? & ? & ?).
    destruct Hn; [tauto|congruence].
  - destruct accept; [|done]. destruct (proj1 Hacc eq_refl) as (Hp & Hi & Hn). exfalso.
    rewrite bool_decide_eq_true_2, Hi in E by done. simpl in E.
    apply negb_false_iff, andb_true_iff in E as [?%bool_decide_eq_true ?]. tauto.
Qed.

Lemma drain_datagrams bufs queue es self :
  ∃ self', vpc_cidr_checker self' = vpc_cidr_checker self ∧ events self' = events self ∧
    drain tuple_try_from deserialize (map Datagram bufs ++ queue) es self =
    drain tuple_try_from deserialize queue (es ++ omap (entry_of (vpc_cidr_checker self)) bufs) self'.
Proof.
  revert es self. induction bufs as [|buf bufs IH]; intros es self; cbn [map app drain].
  { exists self. by rewrite app_nil_r. }
  pose proof (handle_datagram_spec self buf) as Hb.
  destruct (handle_datagram tuple_try_from deserialize self buf) as [e self1].
  destruct Hb as (-> & Hv & Hev). destruct (IH (es ++ option_list (entry_of (vpc_cidr_checker self) buf)) self1)
    as (self' & Hv' & Hev' & ->). exists self'. split_and!; [congruence..|]. rewrite Hv, <- app_assoc. csimpl.
  by destruct (entry_of (vpc_cidr_checker self) buf).
Qed.

(** The two connections of a message are conversions of its tuples. *)
Lemma scan_origin o r nlas o' r' :
  (∀ c, o = Some c → ∃ t, tuple_try_from t = Ok c) → (∀ c, r = Some c → ∃ t, tuple_try_from t = Ok c) →
  scan_nlas tuple_try_from o r nlas = Ok (o', r') →
  (∀ c, o' = Some c → ∃ t, tuple_try_from t = Ok c) ∧ (∀ c, r' = Some c → ∃ t, tuple_try_from t = Ok c).
Proof.
  revert o r. induction nlas as [|[t|t|] nlas IH]; intros o r Ho Hr; cbn [scan_nlas].
  - by intros [= <- <-].
  - destruct (tuple_try_from t) as [c|] eqn:E; [|done]. apply IH; [|done]. intros ? [= <-]. eauto.
  - destruct (tuple_try_from t) as [c|] eqn:E; [|done].
    assert (∀ c', Some c = Some c' → ∃ t, tuple_try_from t = Ok c') by (intros ? [= <-]; eauto).
    case_bool_decide; [by intros [= <- <-]|by apply IH].
  - by apply IH.
Qed.

Lemma parse_origin payload o r :
  parse_connection_properties tuple_try_from payload = Ok (o, r) →
  (∃ t, tuple_try_from t = Ok o) ∧ (∃ t, tuple_try_from t = Ok r).
Proof.
  unfold parse_connection_properties.
  destruct (scan_nlas tuple_try_from None None _) as [[[o'|] [r'|]]|] eqn:E; try done. intros [= <- <-].
  apply scan_origin in E as [Ho Hr]; [|done..]. eauto.
Qed.

(** Draining any queue: what is left of it, and where the entries come from. *)
Lemma drain_origin queue es self :
  let '(res, self') := drain tuple_try_from deserialize queue es self in
  vpc_cidr_checker self' = vpc_cidr_checker self ∧ socket self' ⊆ queue ∧
  match res with
  | Ok es' => ∀ e, e ∈ es' → e ∈ es ∨
      ∃ buf, Datagram buf ∈ queue ∧ entry_of (vpc_cidr_checker self) buf = Some e
  | Err _ => True
  end.
Proof.
  revert es self. induction queue as [|[buf| |] queue IH]; intros es self; cbn [drain].
  - split_and!; [done..|]. by left.
  - pose proof (handle_datagram_spec self buf) as Hb.
    destruct (handle_datagram tuple_try_from deserialize self buf) as [e self1]. destruct Hb as (-> & Hv & _).
    specialize (IH (es ++ option_list (entry_of (vpc_cidr_checker self) buf)) self1).
    destruct (drain _ _ queue _ _) as [res self']. destruct IH as (IHv & IHq & IHe). rewrite Hv in IHv, IHe.
    split_and!; [done|set_solver|]. destruct res as [es'|]; [|done].
    intros e [[?|He]%elem_of_app|(buf' & ? & ?)]%IHe; [by left| |right; exists buf'; split; [by right|done]].
    right. exists buf. split; [by left|]. destruct (entry_of _ _); set_solver.
  - split_and!; [done|set_solver|by left].
  - split_and!; [done|set_solver|done].
Qed.

Lemma entry_of_relevant checker buf e :
  entry_of checker buf = Some e → ∃ payload o r, deserialize buf = Some payload ∧
    parse_connection_properties tuple_try_from payload = Ok (o, r) ∧ relevant checker o r ∧
    e = ConntrackEntry.mk o (normalized checker o r).
Proof.
  unfold entry_of. intros (payload & Hd & H)%bind_Some. exists payload.
  destruct (parse_connection_properties tuple_try_from payload) as [[o r]|]; [|done].
  exists o, r. destruct (_ && _ && _) eqn:E; [|done]. injection H as <-.
  rewrite !andb_true_iff, !negb_true_iff, andb_false_iff, bool_decide_eq_true, bool_decide_eq_false in E.
  destruct E as [[? ?] Hn]. unfold relevant. split_and!; try done. intros (? & ? & ?).
  destruct Hn; [tauto|congruence].
Qed.

End drain.
End DrainFacts.

(** ** Properties *)
Import NatResolverImpl NatResolverFacts.
#[local] Arguments generations : simpl never.
#[local] Arguments perform_eviction : simpl never.

(** C9: The ring of maps implements three generations of NAT mappings.  Newest first, an eviction
    puts an empty generation in front and drops the oldest, an aggregation adds the new entries to
    the newest one only (nothing changes when the listener fails), and a lookup answers from one
    of the three generations iff at least one of them knows the connection. *)
Theorem ring_implements_generations {S : Type} `{ConntrackProvider S} (self : NatResolverImpl.t S) :
  ring_ok self →
  (ring_ok (perform_eviction self) ∧
   generations (perform_eviction self) = ∅ :: take 2 (generations self)) ∧
  (ring_ok (perform_aggregation_cycle self) ∧
   generations (perform_aggregation_cycle self) =
     match (get_new_entries (conntrack_listener self)).1, generations self with
     | Ok entries, newest :: older => insert_entries newest entries :: older
     | _, gens => gens
     end) ∧
  (∀ key v, lookup_ring (conntrack_ringbuf self) key = Some v →
     ∃ g, g ∈ generations self ∧ g !! key = Some v) ∧
  (∀ key, lookup_ring (conntrack_ringbuf self) key = None ↔
     ∀ g, g ∈ generations self → g !! key = None).
Proof.
  intros Hok. assert (Hp := generations_perm self Hok). split_and!.
  - by apply eviction_generations.
  - by apply eviction_generations.
  - by apply aggregation_generations.
  - by apply aggregation_generations.
  - intros key v (g & ? & ?)%lookup_ring_Some. exists g. by rewrite Hp.
  - intros key. rewrite lookup_ring_None. split; intros Hall g; specialize (Hall g);
      [by rewrite Hp|by rewrite <- Hp].
Qed.

(** A listener that announces a fixed list of entries at each call. *)
Definition fixed_listener : Type := list ConntrackEntry.t.
#[global] Instance fixed_provider : ConntrackProvider fixed_listener := λ es, (Ok es, es).

Definition cxn (src dst sport dport : Z) : ConnectionProperties.t :=
  ConnectionProperties.mk (IpAddr.V4 src) (IpAddr.V4 dst) sport dport IPPROTO_TCP.
Definition nat_entry : ConntrackEntry.t := ConntrackEntry.mk (cxn 1 2 1000 80) (cxn 3 1 8080 1000).
Definition nat_start : NatResolverImpl.t fixed_listener := initialize [nat_entry].

Definition local_sock (src dst sport dport : Z) : SockContext.t :=
  SockContext.default
    <| SockContext.local_ipv4 := src |> <| SockContext.remote_ipv4 := dst |>
    <| SockContext.local_port := sport |> <| SockContext.remote_port := dport |>
    <| SockContext.address_family := AF_INET |> <| SockContext.is_client := true |>.

Lemma ring_implements_generations_witness :
  generations (perform_eviction nat_start) = [∅; ∅; ∅] ∧
  lookup_ring (conntrack_ringbuf (perform_aggregation_cycle nat_start)) (cxn 1 2 1000 80) =
    Some (cxn 3 1 8080 1000).
Proof.
  destruct (ring_implements_generations nat_start) as ((_ & ->) & _ & _).
  - split; [reflexivity|apply Nat.ltb_lt; reflexivity].
  - split; reflexivity.
Defined.

(** A NAT mapping lives for exactly three generations.  Mappings announced to the newest
    generation, in both directions, are resolved after zero, one and two further evictions, and
    after three evictions without announcements nothing is resolved any more. *)
Theorem nat_mapping_lifetime {S : Type} `{ConntrackProvider S} (self : NatResolverImpl.t S)
    es o r listener :
  ring_ok self → o ≠ r →
  get_new_entries (conntrack_listener self) = (Ok (es ++ [ConntrackEntry.mk o r]), listener) →
  let self1 := perform_aggregation_cycle self in
  (∀ n, (n < RING_BUF_ENTRIES)%nat →
    is_Some (lookup_ring (conntrack_ringbuf (Nat.iter n perform_eviction self1)) o) ∧
    is_Some (lookup_ring (conntrack_ringbuf (Nat.iter n perform_eviction self1)) r)) ∧
  (∀ key, lookup_ring (conntrack_ringbuf (Nat.iter 3 perform_eviction self1)) key = None).
Proof.
  intros Hok Hne Hget self1.
  destruct (aggregation_generations self Hok) as [Hok1 Hg1]. fold self1 in Hok1, Hg1.
  rewrite Hget in Hg1. cbn [fst] in Hg1. destruct (generations self) as [|g0 older] eqn:Eg.
  { exfalso. pose proof (Permutation_length (generations_perm self Hok)) as Hl.
    destruct Hok as [Hlen _]. rewrite Eg, Hlen in Hl. done. }
  destruct (insert_entries_last g0 es o r Hne) as [Ho Hr].
  set (newest := insert_entries g0 (es ++ [ConntrackEntry.mk o r])) in *.
  assert (∀ n, ring_ok (Nat.iter n perform_eviction self1) ∧
    generations (Nat.iter n perform_eviction self1) = take 3 (replicate n ∅ ++ newest :: older)) as Hn.
  { induction n as [|n [IHok IH]].
    - change (Nat.iter 0 perform_eviction self1) with self1. rewrite Hg1. split; [done|]. symmetry.
      apply (take_ge (newest :: older)).
      rewrite <- Hg1. unfold generations. rewrite length_fmap, length_seq. unfold RING_BUF_ENTRIES. lia.
    - change (Nat.iter (Datatypes.S n) perform_eviction self1)
        with (perform_eviction (Nat.iter n perform_eviction self1)).
      destruct (eviction_generations _ IHok) as [? ->]. split; [done|]. rewrite IH. simpl.
      by rewrite take_take. }
  split.
  - intros n Hlt. destruct (Hn n) as [Hokn Hgn].
    assert (newest ∈ conntrack_ringbuf (Nat.iter n perform_eviction self1)) as Hin.
    { rewrite <- generations_perm, Hgn by done. unfold RING_BUF_ENTRIES in Hlt.
      destruct n as [|[|[|]]]; simpl; [set_solver..|lia]. }
    split; destruct (lookup_ring _ _) eqn:El; try done;
      (eapply lookup_ring_None in El; [|exact Hin]); congruence.
  - intros key. destruct (Hn 3%nat) as [Hok3 Hg3]. apply lookup_ring_None. intros g.
    rewrite <- generations_perm, Hg3 by done. simpl. rewrite !elem_of_cons, elem_of_nil.
    intros Hg. destruct_or?; subst; by rewrite ?lookup_empty.
Qed.

Lemma nat_mapping_lifetime_witness :
  is_Some (lookup_ring (conntrack_ringbuf
    (Nat.iter 2 perform_eviction (perform_aggregation_cycle nat_start))) (cxn 3 1 8080 1000)).
Proof.
  refine (proj2 (proj1 (nat_mapping_lifetime nat_start [] (cxn 1 2 1000 80) (cxn 3 1 8080 1000)
    [nat_entry] _ _ _) 2%nat _)).
  - split; [reflexivity|apply Nat.ltb_lt; reflexivity].
  - intros Heq. discriminate Heq.
  - reflexivity.
  - apply Nat.ltb_lt; reflexivity.
Defined.

(** C21: What a lookup beyond the NAT answers, for every state of the ring and every socket.  The
    connection a socket sends on, its IPv4-mapped addresses unwrapped, is looked up, and the socket
    returned is the one that would send the reverse of the mapping found: its egress connection is
    the mapping with source and destination exchanged, spelled as lookup keys are ([canonical]).
    It keeps the client flag, and no answer is given for an invalid socket or one no generation
    maps.  The lookup panics exactly on a valid socket whose mapping pairs an IPv4 address with an
    IPv6 one. *)
Theorem nat_translation {S : Type} (self : NatResolverImpl.t S) c :
  match get_beyond_nat_entry self c with
  | None =>
      SockContext.is_valid c = true ∧
      ∃ key v, sock_context_to_egress_cxn_info c = Ok key ∧
        lookup_ring (conntrack_ringbuf self) key = Some v ∧
        (∃ g, g ∈ conntrack_ringbuf self ∧ g !! key = Some v) ∧ ¬ same_family v
  | Some None =>
      SockContext.is_valid c = false ∨
      ∃ key, sock_context_to_egress_cxn_info c = Ok key ∧
        ∀ g, g ∈ conntrack_ringbuf self → g !! key = None
  | Some (Some c') =>
      SockContext.is_valid c = true ∧ SockContext.is_client c' = SockContext.is_client c ∧
      ∃ key v, sock_context_to_egress_cxn_info c = Ok key ∧
        lookup_ring (conntrack_ringbuf self) key = Some v ∧
        (∃ g, g ∈ conntrack_ringbuf self ∧ g !! key = Some v) ∧ same_family v ∧
        sock_context_to_egress_cxn_info c' = Ok (canonical (reversed v))
  end.
Proof.
  unfold get_beyond_nat_entry. destruct (SockContext.is_valid c) eqn:Hv; [|by left].
  destruct (valid_egress c Hv) as [key ->].
  destruct (lookup_ring (conntrack_ringbuf self) key) as [v|] eqn:El.
  - pose proof (lookup_ring_Some _ _ _ El). pose proof (ingress_reversed v (SockContext.is_client c)) as Hi.
    destruct (ingress_cxn_info_to_sock_context v (SockContext.is_client c)) as [c'|]; csimpl.
    + destruct Hi as (? & ? & ?). split_and!; [done..|]. by exists key, v.
    + split; [done|]. by exists key, v.
  - right. exists key. split; [done|]. intros g. by apply lookup_ring_None.
Qed.

Example nat_translation_sample :
  get_beyond_nat_entry (perform_aggregation_cycle nat_start) (local_sock 1 2 1000 80) =
    Some (Some (local_sock 1 3 1000 8080)) ∧
  get_beyond_nat_entry (perform_aggregation_cycle nat_start) (local_sock 1 2 1001 80) = Some None.
Proof. by_eval. Qed.

(** C20: Draining the conntrack socket.  Everything queued before the first empty read is turned
    into entries in order of arrival, one for every well-formed TCP event whose connection is
    translated and is not merely masqueraded VPC traffic, with a source translation of a VPC
    address undone; the counter of events grows by their number.  A read error loses them all. *)
Theorem conntrack_entries {Tuple Bytes : Type} (tuple_try_from : Tuple → Result ConnectionProperties.t unit)
    (deserialize : Bytes → option (@ConntrackListener.Payload Tuple)) self bufs queue :
  ConntrackListener.socket self = map ConntrackListener.Datagram bufs ++ queue →
  let provider := ConntrackListener.listener_provider tuple_try_from deserialize in
  let entries := omap (DrainFacts.entry_of tuple_try_from deserialize
                         (ConntrackListener.vpc_cidr_checker self)) bufs in
  (∀ e, e ∈ entries → ∃ buf payload o r,
    buf ∈ bufs ∧ deserialize buf = Some payload ∧
    ConntrackListener.parse_connection_properties tuple_try_from payload = Ok (o, r) ∧
    ConntrackFacts.relevant (ConntrackListener.vpc_cidr_checker self) o r ∧
    e = ConntrackEntry.mk o (ConntrackFacts.normalized (ConntrackListener.vpc_cidr_checker self) o r)) ∧
  match queue with
  | [] | ConntrackListener.WouldBlock :: _ =>
      fst (@get_new_entries _ provider self) = Ok entries ∧
      ConntrackListener.events (snd (@get_new_entries _ provider self)) =
        ConntrackListener.events self + Z.of_nat (length entries)
  | ConntrackListener.RecvError :: _ => fst (@get_new_entries _ provider self) = Err tt
  | ConntrackListener.Datagram _ :: _ => True
  end.
Proof.
  intros Hs provider entries. split.
  - intros e (buf & Hb & He)%list_elem_of_omap.
    destruct (DrainFacts.entry_of_relevant _ _ _ _ _ He) as (payload & o & r & ? & ? & ? & ?).
    exists buf, payload, o, r. done.
  - destruct (DrainFacts.drain_datagrams tuple_try_from deserialize bufs queue [] self)
      as (self' & Hv & Hev & Hd). fold entries in Hd. simpl in Hd.
    unfold get_new_entries, provider, ConntrackListener.listener_provider. rewrite Hs, Hd.
    destruct queue as [|[buf| |] queue]; simpl; rewrite ?Hev; try done; split; try done; lia.
Qed.

(** A listener whose datagrams are messages and whose tuples are connections. *)
Definition plain_listener (socket : list (ConntrackListener.Recv (@ConntrackListener.Payload ConnectionProperties.t))) :
    ConntrackListener.t (@ConntrackListener.Payload ConnectionProperties.t) :=
  ConntrackListener.mk socket (VpcCidrChecker.mk [(1, 2 ^ 32 - 1)] []) 0 0 0 0 0.
Definition nat_event : @ConntrackListener.Payload ConnectionProperties.t :=
  Some [ConntrackListener.TupleOrig (cxn 1 2 1000 80); ConntrackListener.TupleReply (cxn 3 9 8080 1000)].
Definition masqueraded : @ConntrackListener.Payload ConnectionProperties.t :=
  Some [ConntrackListener.TupleOrig (cxn 1 2 1000 80); ConntrackListener.TupleReply (cxn 2 9 80 1000)].

Lemma conntrack_entries_witness :
  fst (@get_new_entries _ (ConntrackListener.listener_provider Ok Some)
    (plain_listener (map ConntrackListener.Datagram [nat_event; masqueraded]))) =
  Ok [ConntrackEntry.mk (cxn 1 2 1000 80) (cxn 3 1 8080 1000)].
Proof.
  pose proof (conntrack_entries Ok Some
    (plain_listener (map ConntrackListener.Datagram [nat_event; masqueraded]))
    [nat_event; masqueraded] [] eq_refl) as [_ [H _]].
  exact H.
Defined.

(** *** The resolver over the listener *)
Section listening.
Context {Tuple Bytes : Type} (tuple_try_from : Tuple → Result ConnectionProperties.t unit).
Context (deserialize : Bytes → option (@ConntrackListener.Payload Tuple)).
#[local] Instance listening : ConntrackProvider (ConntrackListener.t Bytes) :=
  ConntrackListener.listener_provider tuple_try_from deserialize.
Implicit Types self : NatResolverImpl.t (ConntrackListener.t Bytes).

(** What happens to the resolver: reads become available on the socket, the main loop aggregates,
    the main loop evicts. *)
Inductive nat_op :=
| Arrive (reads : list (ConntrackListener.Recv Bytes))
| Aggregate
| Evict.

Definition nat_step self (op : nat_op) : NatResolverImpl.t (ConntrackListener.t Bytes) :=
  match op with
  | Arrive reads =>
      self <| conntrack_listener ::= λ l, l <| ConntrackListener.socket ::= λ q, q ++ reads |> |>
  | Aggregate => perform_aggregation_cycle self
  | Evict => perform_eviction self
  end.

Definition arrived (ops : list nat_op) : list (ConntrackListener.Recv Bytes) :=
  mjoin ((λ op, match op with Arrive reads => reads | _ => [] end) <$> ops).

(** A mapping is one direction of a relevant event that was received. *)
Definition mapped_by (checker : VpcCidrChecker.t) (reads : list (ConntrackListener.Recv Bytes))
    (k v : ConnectionProperties.t) : Prop :=
  ∃ buf payload o r, ConntrackListener.Datagram buf ∈ reads ∧ deserialize buf = Some payload ∧
    ConntrackListener.parse_connection_properties tuple_try_from payload = Ok (o, r) ∧
    ConntrackFacts.relevant checker o r ∧
    (k = o ∧ v = ConntrackFacts.normalized checker o r ∨
     k = ConntrackFacts.normalized checker o r ∧ v = o).

Record listening_inv (checker : VpcCidrChecker.t) (reads : list (ConntrackListener.Recv Bytes)) self : Prop := {
  inv_checker : ConntrackListener.vpc_cidr_checker (conntrack_listener self) = checker;
  inv_socket : ConntrackListener.socket (conntrack_listener self) ⊆ reads;
  inv_ring g k v : g ∈ conntrack_ringbuf self → g !! k = Some v → mapped_by checker reads k v;
}.

Lemma mapped_by_more checker reads reads' k v :
  reads ⊆ reads' → mapped_by checker reads k v → mapped_by checker reads' k v.
Proof. intros Hsub (buf & payload & o & r & Hb & H). exists buf, payload, o, r. split; [by apply Hsub|done]. Qed.

Lemma listening_step checker reads self op :
  listening_inv checker reads self → listening_inv checker (reads ++ arrived [op]) (nat_step self op).
Proof.
  intros [Hc Hs Hr]. destruct op as [more| |]; unfold arrived; csimpl; rewrite !app_nil_r.
  - constructor; cbn; [done|set_solver|]. intros g k v Hg Hk. eapply mapped_by_more; [|by eapply Hr]. set_solver.
  - unfold perform_aggregation_cycle, get_new_entries, listening, ConntrackListener.listener_provider.
    pose proof (DrainFacts.drain_origin tuple_try_from deserialize
      (ConntrackListener.socket (conntrack_listener self)) [] (conntrack_listener self)) as Hd.
    destruct (ConntrackListener.drain _ _ _ _ _) as [[es|[]] l]; destruct Hd as (Hv & Hq & Hes);
      constructor; cbn; try congruence; try set_solver.
    intros g k v (i & Hi)%list_elem_of_lookup Hk. rewrite list_lookup_alter in Hi.
    destruct (decide (ringbuf_index self = i)) as [<-|]; [|by eapply Hr, Hk; apply list_elem_of_lookup; eauto].
    apply fmap_Some in Hi as (g0 & Hg0 & ->). apply insert_entries_origin in Hk as [Hk|(e & He & Hke)].
    { eapply Hr, Hk. apply list_elem_of_lookup; eauto. }
    destruct (Hes e He) as [?%elem_of_nil|(buf & Hb & Hentry)]; [done|]. rewrite Hc in Hentry.
    apply DrainFacts.entry_of_relevant in Hentry as (payload & o & r & ? & ? & ? & ->).
    exists buf, payload, o, r. split_and!; [by apply Hs|done..].
  - unfold nat_step, perform_eviction. constructor; [done..|]. simpl.
    intros g k v (i & Hi)%list_elem_of_lookup Hk. rewrite list_lookup_alter in Hi.
    destruct (decide _); [|by eapply Hr, Hk; apply list_elem_of_lookup; eauto].
    apply fmap_Some in Hi as (g0 & Hg0 & ->). by rewrite lookup_empty in Hk.
Qed.

Lemma listening_run checker ops reads self :
  listening_inv checker reads self → listening_inv checker (reads ++ arrived ops) (foldl nat_step self ops).
Proof.
  revert reads self. induction ops as [|op ops IH]; intros reads self Hinv; cbn [foldl].
  { by rewrite app_nil_r. }
  specialize (IH _ _ (listening_step checker reads self op Hinv)). unfold arrived in *. csimpl in *.
  by rewrite app_nil_r, <- app_assoc in IH.
Qed.

(** The addresses of one connection are of one family in both directions, as the kernel tracks it. *)
Definition one_family (o r : ConnectionProperties.t) : Prop :=
  same_family o ∧ same_family r ∧
  same_family (ConnectionProperties.mk (ConnectionProperties.src_ip o) (ConnectionProperties.src_ip r) 0 0 0).

Lemma mapped_same_family checker reads k v :
  (∀ buf payload o r, deserialize buf = Some payload →
    ConntrackListener.parse_connection_properties tuple_try_from payload = Ok (o, r) → one_family o r) →
  mapped_by checker reads k v → same_family v.
Proof.
  intros Hfam (buf & payload & o & r & _ & Hd & Hp & _ & Hkv). destruct (Hfam _ _ _ _ Hd Hp) as (Ho & Hr & Hor).
  destruct Hkv as [[_ ->]|[_ ->]]; [|done]. unfold ConntrackFacts.normalized. destruct (_ && _); [|done].
  unfold same_family in *. simpl in *.
  destruct (ConnectionProperties.src_ip o), (ConnectionProperties.src_ip r); done.
Qed.

(** C31: NAT resolution over the conntrack listener is safe.  From the set-up on, however reads of the
    netlink socket (datagrams, empty reads, errors) arrive between the aggregations and evictions of
    the main loop, every mapping of the ring is one direction of a relevant TCP event that was
    received, with the source translation of a VPC address undone; so, given that the kernel
    reports connections whose addresses are of one family, neither looking up a socket nor
    resolving the whole cache in any visiting order ever panics. *)
Theorem nat_resolution_safe call_ok checker listener ops :
  ConntrackListener.initialize call_ok [] checker = Some listener →
  let self := foldl nat_step (NatResolverImpl.initialize listener) ops in
  (∀ g k v, g ∈ conntrack_ringbuf self → g !! k = Some v → mapped_by checker (arrived ops) k v) ∧
  ((∀ buf payload o r, deserialize buf = Some payload →
     ConntrackListener.parse_connection_properties tuple_try_from payload = Ok (o, r) → one_family o r) →
   (∀ c, is_Some (get_beyond_nat_entry self c)) ∧
   (∀ cache order, is_Some (store_beyond_nat_entries self cache order))).
Proof.
  intros Hinit self.
  assert (listening_inv checker (arrived ops) self) as [_ _ Hr].
  { apply (listening_run checker ops []). unfold ConntrackListener.initialize in Hinit.
    destruct (forallb _ _); [|done]. injection Hinit as <-. constructor; cbn; [done..|].
    intros g k v Hg. apply (elem_of_replicate RING_BUF_ENTRIES) in Hg as [-> _]. by rewrite lookup_empty. }
  split; [done|]. intros Hfam.
  assert (ring_families self) as Hf by (intros g k v Hg Hk; by eapply mapped_same_family, Hr).
  split; [intros c; by apply get_beyond_total|intros cache order; by apply store_beyond_total].
Qed.

End listening.

(** A kernel that tracks IPv4 connections. *)
Definition v4_tuple (t : Z * Z * Z * Z) : Result ConnectionProperties.t unit :=
  let '(src, dst, sport, dport) := t in Ok (cxn src dst sport dport).
Definition v4_event : @ConntrackListener.Payload (Z * Z * Z * Z) :=
  Some [ConntrackListener.TupleOrig (1, 2, 1000, 80); ConntrackListener.TupleReply (3, 9, 8080, 1000)].
Definition v4_run : NatResolverImpl.t (ConntrackListener.t (@ConntrackListener.Payload (Z * Z * Z * Z))) :=
  foldl (nat_step v4_tuple Some)
    (NatResolverImpl.initialize (ConntrackListener.mk [] (VpcCidrChecker.mk [(1, 2 ^ 32 - 1)] []) 0 0 0 0 0))
    [Arrive [ConntrackListener.Datagram v4_event]; Aggregate; Evict].

Lemma nat_resolution_safe_witness :
  lookup_ring (conntrack_ringbuf v4_run) (cxn 1 2 1000 80) = Some (cxn 3 1 8080 1000) ∧
  is_Some (get_beyond_nat_entry v4_run (local_sock 1 2 1000 80)).
Proof.
  destruct (nat_resolution_safe v4_tuple Some (λ _, true) (VpcCidrChecker.mk [(1, 2 ^ 32 - 1)] [])
    (ConntrackListener.mk [] (VpcCidrChecker.mk [(1, 2 ^ 32 - 1)] []) 0 0 0 0 0)
    [Arrive [ConntrackListener.Datagram v4_event]; Aggregate; Evict] eq_refl) as [_ H].
  split; [vm_compute; reflexivity|]. refine (proj1 (H _) (local_sock 1 2 1000 80)).
  intros buf payload o r _ Hp. apply DrainFacts.parse_origin in Hp as ([[[[? ?] ?] ?] Ho] & [[[[? ?] ?] ?] Hr]).
  injection Ho as <-. injection Hr as <-. repeat split.
Defined.

(** C26: Membership of the VPC.  With the address ranges the metadata service lists for the first
    network interface, an address is a VPC address exactly when it shares the leading bits with
    the address of some line of the form address/length, for IPv4 and IPv6 alike; lines that do
    not parse, or whose length exceeds the width, match nothing.  Without interfaces nothing is. *)
Theorem vpc_membership get_metadata :
  let macs := lines (get_metadata VpcCidrChecker.macs_path) in
  let checker := VpcCidrChecker.with_provider get_metadata in
  let document kind mac :=
    lines (get_metadata (VpcCidrChecker.macs_path ++ trim_end_matches "/"%char mac ++ kind)) in
  (∀ x, in_range u32 x → VpcCidrChecker.is_vpc_ip checker (IpAddr.V4 x) = true ↔
    ∃ mac line block, head macs = Some mac ∧ line ∈ document (chr "/vpc-ipv4-cidr-blocks") mac ∧
      VpcCidrFacts.cidr_block 32 parse_ipv4 (trim line) = Some block ∧ VpcCidrFacts.in_block 32 x block) ∧
  (∀ octets, in_range u128 (VpcCidrChecker.ipv6_bits octets) →
    VpcCidrChecker.is_vpc_ip checker (IpAddr.V6 octets) = true ↔
    ∃ mac line block, head macs = Some mac ∧ line ∈ document (chr "/vpc-ipv6-cidr-blocks") mac ∧
      VpcCidrFacts.cidr_block 128 parse_ipv6 (trim line) = Some block ∧
      VpcCidrFacts.in_block 128 (VpcCidrChecker.ipv6_bits octets) block).
Proof.
  intros macs checker document.
  destruct (VpcCidrFacts.with_provider_spec get_metadata) as [H4 H6]. fold checker in H4, H6.
  split.
  - intros x Hx. unfold VpcCidrChecker.is_vpc_ip. rewrite H4.
    rewrite (VpcCidrFacts.existsb_blocks 32 parse_ipv4) by
      (done || exact VpcCidrFacts.parse_ipv4_range || exact VpcCidrFacts.parse_cidr_v4_block).
    apply VpcCidrFacts.exists_first_interface.
  - intros o Hx. unfold VpcCidrChecker.is_vpc_ip. rewrite H6.
    rewrite (VpcCidrFacts.existsb_blocks 128 parse_ipv6) by
      (done || exact VpcCidrFacts.parse_ipv6_range || exact VpcCidrFacts.parse_cidr_v6_block).
    apply VpcCidrFacts.exists_first_interface.
Qed.
