(* ===== verification/EventProvider.v ===== *)
(** * EventProvider: the aggregation cycle of the agent

    Models nfm-controller/src/events/event_provider_ebpf.rs.  The state holds the user-space side
    of the BPF maps: the control word, the per-CPU counters and the two socket maps.  What the
    iterators over the kernel maps yield is an input of the cycle ([reads]), since the kernel may
    change the maps meanwhile, and so is the order in which each hash map of the agent is visited
    ([orders]); the theorems quantify over both.  [None] is a panic: an overflowing counter or a
    conversion that fails.  Tallies of map entries are exact integers.  Loading and attaching the
    program (aya) is left out; [new] starts from the loaded, empty maps. *)

From stdpp Require Import base numbers gmap list strings.
From S2P Require Import Prelude Network BpfMaps SockCache ReportData NetworkEvent NatResolver.

(** ** Sizing *)

Definition map_max_entries (mem_total_bytes : Z) : Z * Z :=
  let divisor := 5000000000 in
  let clamp x lo hi := Z.min hi (Z.max lo x) in
  let sock_props_max_entries :=
    clamp (mem_total_bytes / divisor * MAX_ENTRIES_SK_PROPS_LO)
      MAX_ENTRIES_SK_PROPS_LO MAX_ENTRIES_SK_PROPS_HI in
  let sock_stats_max_entries :=
    clamp (sock_props_max_entries * SK_STATS_TO_PROPS_RATIO)
      MAX_ENTRIES_SK_STATS_LO MAX_ENTRIES_SK_STATS_HI in
  (sock_props_max_entries, sock_stats_max_entries).

(** [size_of] of the [repr(C)] structs. *)
Definition size_of_CpuSockKey : Z := 8 + 8.
Definition size_of_SockContext : Z := 4 + 4 + 16 + 16 + 2 + 2 + 4 + 1 + 3.
Definition size_of_SockStats : Z := 5 * 8 + 11 * 4 + 4 + 1 + 1 + 6.

(** The quotient is far from the precision of an [f64], so that rounding it up is exact; the cast
    to [u32] saturates. *)
Definition calculate_ebpf_memory_usage (sock_props_max_entries sock_stats_max_entries : Z) : Z :=
  let sock_context_size := size_of_CpuSockKey + size_of_SockContext in
  let sock_stats_size := size_of_CpuSockKey + size_of_SockStats in
  Z.min (umax u32)
    ((sock_props_max_entries * sock_context_size + sock_stats_max_entries * sock_stats_size + 999) / 1000).

(** ** [SocketQueries] *)
Module SocketQueries.

(** Iterator items that are errors are skipped by [flatten]. *)
Definition flatten {A E} (items : list (Result A E)) : list A :=
  omap (λ r, match r with Ok a => Some a | Err _ => None end) items.

Definition aggregate_one (sock_cache : SockCache.t) (agg_stats_by_sock : gmap Z AggSockStats.t)
    (item : CpuSockKey.t * SockStats.t) : option (gmap Z AggSockStats.t) :=
  let '(composite_key, new_stats) := item in
  let sock_key := CpuSockKey.sock_key composite_key in
  let agg_stats := default AggSockStats.default (agg_stats_by_sock !! sock_key) in
  let sock_last_read := SockCache.get_last_touched sock_cache sock_key in
  stats ← SockStats.add_from (AggSockStats.stats agg_stats) new_stats sock_last_read;
  cpu ← try_into u32 (CpuSockKey.cpu_id composite_key);
  Some (<[sock_key := AggSockStats.mk stats (AggSockStats.cpus agg_stats ++ [cpu])]> agg_stats_by_sock).

(** Retrieve sock stats from the eBPF map and sum results across CPU cores. *)
Definition aggregate_sock_stats {E} (sock_stats_map : list (Result (CpuSockKey.t * SockStats.t) E))
    (sock_cache : SockCache.t) (agg_stats_by_sock : gmap Z AggSockStats.t) :
    option (gmap Z AggSockStats.t) :=
  foldM (aggregate_one sock_cache) agg_stats_by_sock (flatten sock_stats_map).

Abbreviation FlowCache := (gmap FlowProperties.t AggregateResults.t).

(** One socket of the loop of [aggregate_into_flows]. *)
Definition into_flow (sock_cache : SockCache.t) (st : SockOperationResult.t * FlowCache)
    (item : Z * AggSockStats.t) : option (SockOperationResult.t * FlowCache) :=
  let '(result, flow_cache) := st in
  let '(sock_key, agg_stats) := item in
  match SockCache.get sock_cache sock_key with
  | None => Some (result <| SockOperationResult.failed ::= Z.add 1 |>, flow_cache)
  | Some sock_wrapper =>
      let context_beyond_nat :=
        default (SockWrapper.context sock_wrapper) (SockWrapper.context_external sock_wrapper) in
      match FlowProperties.try_from context_beyond_nat with
      | Ok flow_props =>
          let flow_count := Z.of_nat (size flow_cache) in
          let flow_entry :=
            match flow_cache !! flow_props with
            | Some o => Some o
            | None =>
                if flow_count <? AGG_FLOWS_MAX_ENTRIES then
                  (* When below the flow limit, track new flows. *)
                  Some (AggregateResults.mk flow_props NetworkStats.default)
                else None
            end in
          match flow_entry with
          | None => Some (result <| SockOperationResult.failed ::= Z.add 1 |>, flow_cache)
          | Some flow_agg =>
              stats ← NetworkStats.add_from (AggregateResults.stats flow_agg) (AggSockStats.stats agg_stats);
              stats ← (
                if SockWrapper.should_evict sock_wrapper then
                  n ← checked_add u32 (NetworkStats.sockets_completed stats) 1;
                  Some (stats <| NetworkStats.sockets_completed := n |>)
                else Some stats);
              Some (result <| SockOperationResult.completed ::= Z.add 1 |>,
                    <[flow_props := flow_agg <| AggregateResults.stats := stats |>]> flow_cache)
          end
      | Err _ => Some (result <| SockOperationResult.partial ::= Z.add 1 |>, flow_cache)
      end
  end.

(** Reset the counts of sockets per state. *)
Definition clear_flow_levels (flow_cache : FlowCache) : FlowCache :=
  (λ flow, flow <| AggregateResults.stats ::= NetworkStats.clear_levels |>) <$> flow_cache.

(** Aggregates socket stats into stats by flow properties; [order] lists the deltas as visited. *)
Definition aggregate_into_flows (order : list (Z * AggSockStats.t)) (sock_cache : SockCache.t)
    (flow_cache : FlowCache) : option (SockOperationResult.t * FlowCache) :=
  foldM (into_flow sock_cache) (SockOperationResult.default, clear_flow_levels flow_cache) order.

End SocketQueries.

(** ** [EventProviderEbpf] *)
Module EventProviderEbpf.
Import SocketQueries.

Record t := mk {
  (** The maps reached through [ebpf_handle]: the control word, and each CPU's counters. *)
  nfm_control : list ControlData.t;
  nfm_counters : list EventCounters.t;
  ebpf_sock_props : SharedHashMap.t CpuSockKey.t SockContext.t;
  ebpf_sock_stats : SharedHashMap.t CpuSockKey.t SockStats.t;
  ebpf_control_data : ControlData.t;
  ebpf_counters_latest : EventCounters.t;
  ebpf_counters_published : EventCounters.t;
  ebpf_allocated_mem_kb : Z;
  process_counters : ProcessCounters.t;
  notrack_us : Z;
  agg_socks_handled : Z;
  sock_cache : SockCache.t;
  sock_stream : gmap Z AggSockStats.t;
  flow_cache : FlowCache;
}.

#[global] Instance eta_t : Eta t := λ r,
  mk (nfm_control r) (nfm_counters r) (ebpf_sock_props r) (ebpf_sock_stats r) (ebpf_control_data r)
    (ebpf_counters_latest r) (ebpf_counters_published r) (ebpf_allocated_mem_kb r)
    (process_counters r) (notrack_us r) (agg_socks_handled r) (sock_cache r) (sock_stream r)
    (flow_cache r).

(** [data.set(0, ..)] fails, and the agent panics, when the array has no such element. *)
Definition send_control_data (self : t) : option t :=
  data ← SharedArray.insert (nfm_control self) 0 (ebpf_control_data self);
  Some (self <| nfm_control := data |>).

Definition set_interval (self : t) (n : Z) : t :=
  self <| ebpf_control_data ::= λ c, c <| ControlData.sampling_interval := n |> |>.

Definition increase_sampling_interval (self : t) : option t :=
  let max_sampling_interval := 1000 in
  let interval := ControlData.sampling_interval (ebpf_control_data self) in
  if max_sampling_interval <? interval then Some self
  else
    let self :=
      if 1 <? interval then
        set_interval self (Z.min max_sampling_interval (saturating_mul u32 interval 3 / 2))
      else set_interval self 2 in
    send_control_data self.

Definition decrease_sampling_interval (self : t) : option t :=
  let interval := ControlData.sampling_interval (ebpf_control_data self) in
  if 1 <? interval then
    n ← checked_sub interval ((interval + 6) / 7);
    send_control_data (set_interval self n)
  else Some self.

(** Returns the counts since the last call; a failed read of the per-CPU array is an empty list. *)
Definition ebpf_counters (self : t) : EventCounters.t * t :=
  let new_counters := foldl EventCounters.add_from EventCounters.default (nfm_counters self) in
  let delta_counts := EventCounters.subtract new_counters (ebpf_counters_latest self) in
  (delta_counts, self <| ebpf_counters_latest := new_counters |>).

Definition take_process_counters (self : t) : ProcessCounters.t * t :=
  (process_counters self, self <| process_counters := ProcessCounters.default |>).

(** Returns and resets tracked counters. *)
Definition counters (self : t) : CountersOverall.t * t :=
  let ebpf_counters_delta :=
    EventCounters.subtract (ebpf_counters_latest self) (ebpf_counters_published self) in
  let self := self <| ebpf_counters_published := ebpf_counters_latest self |> in
  let '(process_related, self) := take_process_counters self in
  (CountersOverall.mk ebpf_counters_delta process_related, self).

(** Returns and resets aggregated network stats, in the order the map is drained in. *)
Definition network_stats (self : t) (order : list (FlowProperties.t * AggregateResults.t)) :
    list AggregateResults.t * t :=
  (order.*2, self <| flow_cache := ∅ |>).

Definition socket_count (self : t) : Z := agg_socks_handled self.

(** Removes the entries of one socket; stops at the first that is missing. *)
Fixpoint evict_cpus (sock_key : Z) (cpus : list Z)
    (stats : SharedHashMap.t CpuSockKey.t SockStats.t) :
    bool * SharedHashMap.t CpuSockKey.t SockStats.t :=
  match cpus with
  | [] => (true, stats)
  | cpu_id :: cpus =>
      match SharedHashMap.remove stats (CpuSockKey.mk cpu_id sock_key) with
      | (Err _, stats) => (false, stats)
      | (Ok _, stats) => evict_cpus sock_key cpus stats
      end
  end.

Definition evict_sock
    (st : SockOperationResult.t * SharedHashMap.t CpuSockKey.t SockStats.t)
    (entry : Z * SockWrapper.t) :
    SockOperationResult.t * SharedHashMap.t CpuSockKey.t SockStats.t :=
  let '(result, stats) := st in
  let '(sock_key, sock_wrap) := entry in
  let '(all_removed, stats) :=
    evict_cpus sock_key (AggSockStats.cpus (SockWrapper.agg_stats sock_wrap)) stats in
  if all_removed then (result <| SockOperationResult.completed ::= Z.add 1 |>, stats)
  else (result <| SockOperationResult.failed ::= Z.add 1 |>, stats).

(** Evicts from the sock_stats map; [to_evict] as it is visited. *)
Definition perform_bpf_eviction (self : t) (to_evict : list (Z * SockWrapper.t)) :
    SockOperationResult.t * t :=
  let '(result, stats) :=
    foldl evict_sock (SockOperationResult.default, ebpf_sock_stats self) to_evict in
  (result, self <| ebpf_sock_stats := stats |>).

(** The loop that reads new contexts, up to the first that does not fit. *)
Fixpoint add_contexts (items : list (CpuSockKey.t * SockContext.t)) (context_timestamp : Z)
    (cache : SockCache.t) (sock_add_result : SockOperationResult.t) (new_cpu_sock_keys : gset CpuSockKey.t) :
    SockCache.t * SockOperationResult.t * gset CpuSockKey.t :=
  match items with
  | [] => (cache, sock_add_result, new_cpu_sock_keys)
  | (cpu_sock_key, sock_context) :: items =>
      let '(result, cache) :=
        SockCache.add_context cache (CpuSockKey.sock_key cpu_sock_key) sock_context context_timestamp in
      let sock_add_result := SockOperationResult.add sock_add_result result in
      if 0 <? SockOperationResult.failed result then (cache, sock_add_result, new_cpu_sock_keys)
      else add_contexts items context_timestamp cache sock_add_result ({[cpu_sock_key]} ∪ new_cpu_sock_keys)
  end.

(** Frees the contexts that were read; counts the failures. *)
Definition free_contexts (self : t) (keys : list CpuSockKey.t) : t :=
  foldl (λ self cpu_sock_key,
    match SharedHashMap.remove (ebpf_sock_props self) cpu_sock_key with
    | (Ok _, props) => self <| ebpf_sock_props := props |>
    | (Err _, props) =>
        self <| ebpf_sock_props := props |>
             <| process_counters ::= λ c, c <| ProcessCounters.socket_eviction_failed ::= Z.add 1 |> |>
    end) self keys.

(** What the kernel maps yield during a cycle, and when. *)
Record reads := mk_reads {
  now_us : Z;
  props_read : list (Result (CpuSockKey.t * SockContext.t) unit);
  stats_read : list (Result (CpuSockKey.t * SockStats.t) unit);
}.

(** The order in which each hash map is visited, as a function of its contents. *)
Record orders := mk_orders {
  keys_order : gset CpuSockKey.t → list CpuSockKey.t;
  stream_order : gmap Z AggSockStats.t → list (Z * AggSockStats.t);
  cache_order : gmap Z SockWrapper.t → list (Z * SockWrapper.t);
  flow_order : gmap Z AggSockStats.t → list (Z * AggSockStats.t);
  evict_order : gmap Z SockWrapper.t → list (Z * SockWrapper.t);
}.

Section cycle.
Context {R : Type} `{NatResolver R}.

Definition adapt_sampling (self : t) : option t :=
  let '(delta, self) := ebpf_counters self in
  if 0 <? EventCounters.map_insertion_errors delta then increase_sampling_interval self
  else decrease_sampling_interval self.

(** Aggregates results from the eBPF layer, and evicts closed sockets. *)
Definition perform_aggregation_cycle (rd : reads) (ord : orders) (self : t) (nat_resolver : R) :
    option (t * R) :=
  (* Apply adaptive sampling if we're receiving events faster than we can process. *)
  self ← adapt_sampling self;
  (* Retrieve properties of newly initiated sockets. *)
  let context_timestamp := saturating_sub (now_us rd) (notrack_us self / 2) in
  let '(cache, sock_add_result, new_cpu_sock_keys) :=
    add_contexts (flatten (props_read rd)) context_timestamp (sock_cache self)
      SockOperationResult.default ∅ in
  let self := self <| sock_cache := cache |> in
  (* Free the now no-longer needed contexts from BPF. *)
  let self := free_contexts self (keys_order ord new_cpu_sock_keys) in
  (* Aggregate stats across CPU cores, then take the delta from the previous aggregation cycle. *)
  stream ← aggregate_sock_stats (stats_read rd) (sock_cache self) (sock_stream self);
  let staleness_timestamp := saturating_sub (now_us rd) (notrack_us self) in
  let '(sock_delta_result, cache, stream) :=
    SockCache.update_stats_and_get_deltas (sock_cache self) stream (stream_order ord stream)
      staleness_timestamp in
  (* Apply beyond-NAT sock properties to any NAT'd sockets. *)
  let nat_resolver := NatResolver.perform_aggregation_cycle nat_resolver in
  '(sock_nat_result, cache) ← store_beyond_nat_entries nat_resolver cache (cache_order ord (SockCache.cache cache));
  (* Aggregate our delta stats into flows. *)
  '(flow_aggregation_result, flows) ← aggregate_into_flows (flow_order ord stream) cache (flow_cache self);
  let self := self <| sock_stream := ∅ |> <| flow_cache := flows |> in
  (* Collect some stats before evicting entries. *)
  let self := self <| agg_socks_handled := SockCache.len cache |> in
  (* Evict sockets. *)
  let '(socks_to_evict, num_stale, cache) := SockCache.perform_eviction cache in
  let self := self <| sock_cache := cache |> in
  let '(sock_eviction_result, self) := perform_bpf_eviction self (evict_order ord socks_to_evict) in
  (* Update counters. *)
  let self := self <| process_counters ::= λ c, c
    <| ProcessCounters.sockets_added ::= Z.add (SockOperationResult.completed sock_add_result) |>
    <| ProcessCounters.sockets_stale ::= Z.add num_stale |>
    <| ProcessCounters.sockets_natd ::= Z.add (SockOperationResult.completed sock_nat_result) |>
    <| ProcessCounters.socket_deltas_completed ::= Z.add (SockOperationResult.completed sock_delta_result) |>
    <| ProcessCounters.socket_deltas_missing_props ::= Z.add (SockOperationResult.partial sock_delta_result) |>
    <| ProcessCounters.socket_deltas_above_limit ::= Z.add (SockOperationResult.failed sock_delta_result) |>
    <| ProcessCounters.socket_agg_completed ::= Z.add (SockOperationResult.completed flow_aggregation_result) |>
    <| ProcessCounters.socket_agg_missing_props ::= Z.add (SockOperationResult.partial flow_aggregation_result) |>
    <| ProcessCounters.socket_agg_above_limit ::= Z.add (SockOperationResult.failed flow_aggregation_result) |>
    <| ProcessCounters.socket_eviction_completed ::= Z.add (SockOperationResult.completed sock_eviction_result) |>
    <| ProcessCounters.socket_eviction_failed ::= Z.add (SockOperationResult.failed sock_eviction_result) |> |> in
  Some (self, nat_resolver).

End cycle.

(** The provider over freshly loaded maps; [num_cpus] is the number of possible CPUs. *)
Definition new (mem_total_bytes notrack_secs : Z) (num_cpus : nat) : option t :=
  let '(sock_props_max_entries, sock_stats_max_entries) := map_max_entries mem_total_bytes in
  notrack_us ← checked_mul u64 notrack_secs 1000000;
  let provider := {|
    nfm_control := SharedArray.with_max_entries ControlData.default 1;
    nfm_counters := replicate num_cpus EventCounters.default;
    ebpf_sock_props := SharedHashMap.with_max_entries sock_props_max_entries;
    ebpf_sock_stats := SharedHashMap.with_max_entries sock_stats_max_entries;
    ebpf_control_data := ControlData.default;
    ebpf_counters_latest := EventCounters.default;
    ebpf_counters_published := EventCounters.default;
    ebpf_allocated_mem_kb :=
      calculate_ebpf_memory_usage sock_props_max_entries sock_stats_max_entries;
    process_counters := ProcessCounters.default <| ProcessCounters.restarts := 1 |>;
    notrack_us := notrack_us;
    agg_socks_handled := 0;
    sock_cache := SockCache.with_max_entries sock_props_max_entries;
    sock_stream := ∅;
    flow_cache := ∅
  |} in
  increase_sampling_interval provider.

End EventProviderEbpf.
