(* ===== verification/EventProviderFacts.v ===== *)
(** * EventProviderFacts: lemmas about the aggregation cycle

    Closed forms of the two aggregation loops (statistics of a socket over all cores, statistics
    of a flow over all sockets), what the eviction removes from the BPF map, the dynamics of the
    sampling interval and the conservation of the event counters. *)

From stdpp Require Import base numbers gmap list strings.
From S2P Require Import Prelude Network BpfMaps SockCache SockCacheFacts ReportData NetworkEvent.
From S2P Require Import NetworkEventFacts NatResolver EventProvider.

(** ** Statistics of a socket over all cores *)
Module StreamFacts.
Import SocketQueries SockStatsFacts.

Section stream.
Context (cache : SockCache.t).
Implicit Types l : list (CpuSockKey.t * SockStats.t).

Definition entries_of (k : Z) l : list (CpuSockKey.t * SockStats.t) :=
  filter (λ it, CpuSockKey.sock_key it.1 = k) l.
Definition stats_of (k : Z) l : list SockStats.t := (entries_of k l).*2.
Definition cpus_of (k : Z) l : list Z := CpuSockKey.cpu_id <$> (entries_of k l).*1.

Definition item_ok (it : CpuSockKey.t * SockStats.t) : Prop :=
  SockStats.wf it.2 ∧ in_range u32 (CpuSockKey.cpu_id it.1).

(** What the stream holds for a socket. *)
Definition stream_spec (k : Z) l : option AggSockStats.t :=
  match stats_of k l with
  | [] => None
  | ss => Some (AggSockStats.mk (merge_spec (SockCache.get_last_touched cache k) ss) (cpus_of k l))
  end.

Definition stream_fits l : bool :=
  forallb (λ it, merge_fits (stats_of (CpuSockKey.sock_key it.1) l)) l.

Lemma entries_snoc k l it :
  entries_of k (l ++ [it]) = entries_of k l ++ (if decide (CpuSockKey.sock_key it.1 = k) then [it] else []).
Proof. unfold entries_of. by rewrite filter_app, filter_cons, filter_nil. Qed.

Lemma stats_snoc_same l it :
  stats_of (CpuSockKey.sock_key it.1) (l ++ [it]) = stats_of (CpuSockKey.sock_key it.1) l ++ [it.2] ∧
  cpus_of (CpuSockKey.sock_key it.1) (l ++ [it]) =
    cpus_of (CpuSockKey.sock_key it.1) l ++ [CpuSockKey.cpu_id it.1].
Proof.
  unfold stats_of, cpus_of. rewrite entries_snoc, decide_True, !fmap_app by done. done.
Qed.

Lemma stats_snoc_other k l it :
  CpuSockKey.sock_key it.1 ≠ k →
  stats_of k (l ++ [it]) = stats_of k l ∧ cpus_of k (l ++ [it]) = cpus_of k l.
Proof.
  intros. unfold stats_of, cpus_of. rewrite entries_snoc, decide_False, app_nil_r by done. done.
Qed.

Lemma stats_of_wf k l : Forall item_ok l → Forall SockStats.wf (stats_of k l).
Proof.
  intros Hl. unfold stats_of, entries_of. apply Forall_fmap, Forall_forall. intros it Hit.
  apply list_elem_of_filter in Hit as [_ Hit]. by eapply Forall_forall in Hl as [? _].
Qed.

Lemma merge_fits_nil : merge_fits [] = true.
Proof. done. Qed.

(** Fitting is about every socket, whether it occurs or not. *)
Lemma stream_fits_all l : stream_fits l = true ↔ ∀ k, merge_fits (stats_of k l) = true.
Proof.
  unfold stream_fits. rewrite forallb_forall. split.
  - intros Hl k. destruct (stats_of k l) as [|s ss] eqn:E; [done|]. rewrite <- E.
    assert (s ∈ stats_of k l) as Hs by (rewrite E; by left).
    apply list_elem_of_fmap in Hs as (it & _ & Hit). apply list_elem_of_filter in Hit as [<- Hit].
    apply Hl. by apply list_elem_of_In.
  - intros Hk it _. apply Hk.
Qed.

Lemma stream_fits_snoc l it :
  Forall item_ok (l ++ [it]) →
  stream_fits (l ++ [it]) = stream_fits l &&
    sums_fit (merge_spec (SockCache.get_last_touched cache (CpuSockKey.sock_key it.1))
                (stats_of (CpuSockKey.sock_key it.1) l)) it.2.
Proof.
  intros [Hl [[Hit _] _]%Forall_cons]%Forall_app. apply eq_true_iff_eq.
  rewrite andb_true_iff, !stream_fits_all. set (k0 := CpuSockKey.sock_key it.1).
  rewrite sums_fit_merge_spec. split.
  - intros Hk. assert (Hk0 := Hk k0). unfold k0 in Hk0.
    rewrite (proj1 (stats_snoc_same l it)), merge_fits_snoc in Hk0 by (done || by apply stats_of_wf).
    apply andb_true_iff in Hk0 as [Hk1 Hk2]. split; [|done]. intros k.
    destruct (decide (k0 = k)) as [<-|Hne]; [done|].
    by rewrite <- (proj1 (stats_snoc_other k l it Hne)).
  - intros [Hk Hs] k. destruct (decide (k0 = k)) as [<-|Hne].
    + unfold k0. rewrite (proj1 (stats_snoc_same l it)), merge_fits_snoc by (done || by apply stats_of_wf).
      apply andb_true_iff. split; [apply Hk|exact Hs].
    + by rewrite (proj1 (stats_snoc_other k l it Hne)).
Qed.

(** The loop over the cores, in closed form. *)
Lemma aggregate_loop l :
  Forall item_ok l →
  match foldM (aggregate_one cache) ∅ l with
  | Some m => stream_fits l = true ∧ ∀ k, m !! k = stream_spec k l
  | None => stream_fits l = false
  end.
Proof.
  induction l as [|it l IH] using rev_ind; intros Hok.
  { split; [done|]. intros k. apply lookup_empty. }
  rewrite foldM_snoc, stream_fits_snoc by done.
  assert (Hok' := Hok). apply Forall_app in Hok' as [Hl [[Hwf Hcpu] _]%Forall_cons].
  specialize (IH Hl). destruct (foldM (aggregate_one cache) ∅ l) as [m|]; simpl; [|by rewrite IH].
  destruct IH as [-> Hm]. destruct it as [key s]. simpl in Hwf, Hcpu |- *.
  set (k0 := CpuSockKey.sock_key key) in *.
  assert (AggSockStats.stats (default AggSockStats.default (m !! k0)) =
      merge_spec (SockCache.get_last_touched cache k0) (stats_of k0 l) ∧
    AggSockStats.cpus (default AggSockStats.default (m !! k0)) = cpus_of k0 l) as [-> ->].
  { rewrite Hm. unfold stream_spec, stats_of, cpus_of. by destruct (entries_of k0 l) as [|it ?]. }
  rewrite add_from_merged. destruct (sums_fit _ s); [|done]. simpl.
  unfold try_into. rewrite (proj2 (in_rangeb_spec _ _) Hcpu). simpl. split; [done|].
  destruct (stats_snoc_same l (key, s)) as [Hss Hcs]. simpl in Hss, Hcs. fold k0 in Hss, Hcs.
  intros k. destruct (decide (k0 = k)) as [<-|Hne].
  - rewrite lookup_insert_eq. unfold stream_spec. rewrite Hss, Hcs, merged_merge_spec
      by (done || by apply stats_of_wf). by destruct (stats_of k0 l).
  - destruct (stats_snoc_other k l (key, s) Hne) as [E1 E2].
    rewrite lookup_insert_ne, Hm by done. unfold stream_spec. by rewrite E1, E2.
Qed.

Lemma stats_of_perm k l1 l2 :
  l1 ≡ₚ l2 → stats_of k l1 ≡ₚ stats_of k l2 ∧ cpus_of k l1 ≡ₚ cpus_of k l2.
Proof. intros Hp. unfold stats_of, cpus_of, entries_of. by rewrite Hp. Qed.

Lemma stream_spec_perm k l1 l2 :
  l1 ≡ₚ l2 → Forall item_ok l1 →
  AggSockStats.stats <$> stream_spec k l1 = AggSockStats.stats <$> stream_spec k l2.
Proof.
  intros Hp Hok. destruct (stats_of_perm k l1 l2 Hp) as [Hs _]. unfold stream_spec.
  assert (Hspec := merge_spec_perm (SockCache.get_last_touched cache k) _ _ Hs (stats_of_wf k l1 Hok)).
  destruct (stats_of k l1), (stats_of k l2); try done.
  - by apply Permutation_nil_l in Hs.
  - by apply Permutation_nil_r in Hs.
  - simpl. by rewrite Hspec.
Qed.

Lemma stream_fits_perm l1 l2 : l1 ≡ₚ l2 → Forall item_ok l1 → stream_fits l1 = stream_fits l2.
Proof.
  intros Hp Hok. apply eq_true_iff_eq. rewrite !stream_fits_all.
  enough (∀ k, merge_fits (stats_of k l1) = merge_fits (stats_of k l2)) as Hk
    by (split; intros Hall k; specialize (Hall k); congruence).
  intros k. destruct (stats_of_perm k l1 l2 Hp) as [Hs _]. unfold merge_fits. by rewrite !Hs.
Qed.

End stream.
End StreamFacts.

(** Records that each indicator in the goal is 0 or 1. *)
Ltac bound_ones := repeat match goal with |- context [FlowSpec.one ?b] =>
  pose proof (NetworkEventFacts.NetworkEventFacts.one_range b);
  generalize dependent (FlowSpec.one b); intros end.

(** ** Statistics of a flow over all sockets *)
Module FlowFacts.
Import SocketQueries NetworkEvent.NetworkStats FlowSpec NetworkEventFacts.NetworkEventFacts.

(** The flow a tracked socket belongs to. *)
Definition flow_of (w : SockWrapper.t) : option FlowProperties.t :=
  match FlowProperties.try_from
          (from_option id (SockWrapper.context w) (SockWrapper.context_external w)) with
  | Ok f => Some f
  | Err _ => None
  end.

(** One socket's contribution: its deltas, and whether it is about to be evicted. *)
Definition flow_step (s : t) (c : SockStats.t * bool) : option t :=
  s ← add_from s c.1;
  if c.2 then n ← checked_add u32 (sockets_completed s) 1; Some (s <| sockets_completed := n |>)
  else Some s.

(** Room for [n] more sockets in every counter that is checked. *)
Definition room (n : Z) (s : t) : Prop :=
  sockets_connecting s + n ≤ umax u32 ∧ sockets_established s + n ≤ umax u32 ∧
  sockets_closing s + n ≤ umax u32 ∧ sockets_closed s + n ≤ umax u32 ∧
  sockets_completed s + n ≤ umax u32 ∧ severed_connect s + n ≤ umax u32 ∧
  severed_establish s + n ≤ umax u32.

Lemma room_le n m s : m ≤ n → room n s → room m s.
Proof. unfold room. lia. Qed.

Lemma flow_step_room n s c :
  1 ≤ n → room n s → ∃ s', flow_step s c = Some s' ∧ room (n - 1) s'.
Proof.
  intros Hn Hs. unfold flow_step. rewrite add_from_accumulate.
  assert (all_fit s c.1 = true) as ->.
  { unfold all_fit, fits, room in *.
    unfold connecting, established, closing, closed, cut_connect, cut_establish.
    bound_ones. lia. }
  assert (room (n - 1) (accumulate s c.1) ∧ sockets_completed (accumulate s c.1) = sockets_completed s)
    as [Hr Hc].
  { split; [|done]. unfold room, accumulate in *. simpl.
    unfold connecting, established, closing, closed, cut_connect, cut_establish.
    bound_ones. lia. }
  generalize dependent (accumulate s c.1). intros s1 Hr Hc.
  csimpl. destruct c.2; [|by eexists]. unfold checked_add. rewrite Hc.
  rewrite (proj2 (Z.leb_le _ _)) by (unfold room in Hs; lia). csimpl. eexists. split; [done|].
  unfold room in *. simpl. lia.
Qed.

Section flows.
Context (cache : SockCache.t).
Implicit Types (flows : FlowCache) (l : list (Z * AggSockStats.t)).

(** The contribution of one delta to the flow [f]. *)
Definition contrib (f : FlowProperties.t) (it : Z * AggSockStats.t) : option (SockStats.t * bool) :=
  w ← SockCache.get cache it.1;
  if decide (flow_of w = Some f)
  then Some (AggSockStats.stats it.2, SockWrapper.should_evict w) else None.
Definition contribs f l : list (SockStats.t * bool) := omap (contrib f) l.

Definition start flows (f : FlowProperties.t) : AggregateResults.t :=
  from_option id (AggregateResults.mk f NetworkStats.default) (flows !! f).

(** What the loop leaves for each flow. *)
Definition flows_exact flows l flows' : Prop :=
  ∀ f, match flows' !! f with
       | Some a' =>
           AggregateResults.flow a' = AggregateResults.flow (start flows f) ∧
           foldM flow_step (AggregateResults.stats (start flows f)) (contribs f l) =
             Some (AggregateResults.stats a') ∧
           (flows !! f = None → contribs f l ≠ [])
       | None =>
           flows !! f = None ∧
           (contribs f l = [] ∨ AGG_FLOWS_MAX_ENTRIES ≤ Z.of_nat (size flows'))
       end.

Lemma contribs_snoc f l it : contribs f (l ++ [it]) = contribs f l ++ option_list (contrib f it).
Proof. unfold contribs. rewrite omap_app. csimpl. by destruct (contrib f it). Qed.

Lemma size_insert_cases flows f a :
  (size flows ≤ size (<[f := a]> flows))%nat ∧
  (size (<[f := a]> flows) = size flows ∨ flows !! f = None ∧ size (<[f := a]> flows) = S (size flows)).
Proof. rewrite map_size_insert. destruct (flows !! f); unfold id; split; auto with lia. Qed.

(** The sockets that no flow receives. *)
Definition lost (r : SockOperationResult.t) : Z := SockOperationResult.partial r + SockOperationResult.failed r.

(** One turn of the loop, as a case distinction. *)
Lemma into_flow_cases r flows it r' flows' :
  into_flow cache (r, flows) it = Some (r', flows') →
  SockOperationResult.total r' = SockOperationResult.total r + 1 ∧
  ((flows' = flows ∧ lost r' = lost r + 1 ∧ (∀ f, contrib f it = None ∨
      flows !! f = None ∧ AGG_FLOWS_MAX_ENTRIES ≤ Z.of_nat (size flows))) ∨
   ∃ f c s, lost r' = lost r ∧ contrib f it = Some c ∧ (∀ f', f' ≠ f → contrib f' it = None) ∧
     (flows !! f = None → Z.of_nat (size flows) < AGG_FLOWS_MAX_ENTRIES) ∧
     flow_step (AggregateResults.stats (start flows f)) c = Some s ∧
     flows' = <[f := (start flows f) <| AggregateResults.stats := s |>]> flows).
Proof.
  destruct it as [k a]. unfold into_flow, contrib, flow_of. simpl.
  unfold SockOperationResult.total, lost. destruct (SockCache.get cache k) as [w|]; simpl.
  2:{ intros [= <- <-]. simpl. split; [lia|]. left. split; [done|]. split; [lia|]. by left. }
  destruct (FlowProperties.try_from _) as [f|]; simpl.
  2:{ intros [= <- <-]. simpl. split; [lia|]. left. split; [done|]. split; [lia|]. by left. }
  assert (∀ f' (X : SockStats.t * bool), f' ≠ f → (if decide (Some f = Some f') then Some X else None) = None)
    as Hother by (intros f' X ?; rewrite decide_False; congruence).
  destruct (match flows !! f with Some o => Some o | None => _ end) as [agg|] eqn:E.
  - assert (agg = start flows f ∧ (flows !! f = None → Z.of_nat (size flows) < AGG_FLOWS_MAX_ENTRIES))
      as [-> Hlt].
    { unfold start. destruct (flows !! f) as [o|] eqn:Ef; simpl.
      - by injection E as ->.
      - destruct (Z.ltb_spec (Z.of_nat (size flows)) AGG_FLOWS_MAX_ENTRIES); [|done].
        by injection E as <-. }
    intros H. apply bind_Some in H as (s1 & Hs1 & H). apply bind_Some in H as (s2 & Hs2 & H).
    injection H as <- <-. simpl. split; [lia|]. right.
    exists f, (AggSockStats.stats a, SockWrapper.should_evict w), s2.
    split_and!; [done|by rewrite decide_True|auto|done| |done].
    unfold flow_step. simpl. rewrite Hs1. exact Hs2.
  - intros [= <- <-]. simpl. split; [lia|]. left. split; [done|]. split; [lia|]. intros f'.
    destruct (decide (f' = f)) as [->|]; [right|left; auto].
    destruct (flows !! f); [done|]. split; [done|].
    destruct (Z.ltb_spec (Z.of_nat (size flows)) AGG_FLOWS_MAX_ENTRIES); [done|lia].
Qed.

Lemma flows_loop l r flows r' flows' :
  foldM (into_flow cache) (r, flows) l = Some (r', flows') →
  flows_exact flows l flows' ∧
  (size flows ≤ size flows')%nat ∧
  Z.of_nat (size flows') ≤ Z.max AGG_FLOWS_MAX_ENTRIES (Z.of_nat (size flows)) ∧
  SockOperationResult.total r' = SockOperationResult.total r + Z.of_nat (length l).
Proof.
  revert r' flows'. induction l as [|it l IH] using rev_ind; intros r' flows'.
  { intros [= <- <-]. split_and!; [|done|lia|simpl; lia]. intros f. unfold start.
    destruct (flows !! f) as [a|]; simpl; [|by auto]. done. }
  rewrite foldM_snoc. intros H. apply bind_Some in H as ([r1 flows1] & H1 & H2).
  destruct (IH r1 flows1 H1) as (Hex & Hle & Hmax & Htot).
  destruct (into_flow_cases _ _ _ _ _ H2) as (Ht & Hcase).
  assert (SockOperationResult.total r' =
    SockOperationResult.total r + Z.of_nat (length (l ++ [it]))) as Htotal
    by (rewrite length_app; simpl; lia).
  destruct Hcase as [(-> & _ & Hnone) | (f0 & c & s & _ & Hc & Hother & Hlim & Hstep & ->)].
  - split_and!; [|done..]. intros f. specialize (Hex f). rewrite contribs_snoc.
    destruct (Hnone f) as [->|[Hf Hl]]; [by rewrite app_nil_r|]. rewrite Hf in Hex |- *. tauto.
  - split_and!; [|pose proof (size_insert_cases flows1 f0 ((start flows1 f0) <| AggregateResults.stats := s |>)); lia| |done].
    + intros f. rewrite contribs_snoc. specialize (Hex f).
      destruct (decide (f = f0)) as [->|Hne].
      * rewrite lookup_insert_eq, Hc. simpl. rewrite foldM_snoc. unfold start in Hstep |- * at 1.
        destruct (flows1 !! f0) as [a1|] eqn:E1; simpl in Hstep |- *.
        -- destruct Hex as (Hfl & Hfold & _). rewrite Hfold. split_and!; [done|exact Hstep|].
           intros _. by destruct (contribs f0 l).
        -- destruct Hex as [Hf0 [Hnil|Hlarge]]; [|specialize (Hlim eq_refl); lia].
           rewrite Hnil. unfold start. rewrite Hf0. simpl. split_and!; [done|exact Hstep|done].
      * rewrite lookup_insert_ne, Hother, app_nil_r by done.
        destruct (flows1 !! f); [done|]. destruct Hex as [? [?|?]]; [by auto|]. split; [done|]. right.
        match goal with |- context [size (<[?i := ?x]> ?m)] => pose proof (size_insert_cases m i x) end. lia.
    + match goal with |- context [size (<[?i := ?x]> ?m)] =>
        destruct (size_insert_cases m i x) as [_ [?|[?%Hlim ?]]] end; lia.
Qed.

(** With room in the flows' counters the loop cannot panic. *)
Definition flows_room (n : Z) flows : Prop :=
  ∀ f a, flows !! f = Some a → room n (AggregateResults.stats a).

Lemma start_room n flows f : n ≤ umax u32 → flows_room n flows → room n (AggregateResults.stats (start flows f)).
Proof.
  intros Hn Hroom. unfold start. destruct (flows !! f) eqn:E; simpl; [by eapply Hroom|].
  unfold room. simpl. lia.
Qed.

Lemma into_flow_total n r flows it :
  1 ≤ n ≤ umax u32 → flows_room n flows →
  ∃ r' flows', into_flow cache (r, flows) it = Some (r', flows') ∧ flows_room (n - 1) flows'.
Proof.
  intros Hn Hroom. assert (flows_room (n - 1) flows) as Hroom'
    by (intros f a Ha; eapply room_le; [|by eapply Hroom]; lia).
  destruct it as [k a]. unfold into_flow. destruct (SockCache.get cache k) as [w|]; [|by eauto].
  destruct (FlowProperties.try_from _) as [f|]; [|by eauto].
  pose proof (start_room n flows f ltac:(lia) Hroom) as Hstart. unfold start in Hstart.
  destruct (match flows !! f with Some o => Some o | None => _ end) as [agg|] eqn:E; [|by eauto].
  assert (room n (AggregateResults.stats agg)) as Hagg.
  { destruct (flows !! f); simpl in Hstart; [by simplify_eq|]. destruct (_ <? _); by simplify_eq. }
  destruct (flow_step_room n _ (AggSockStats.stats a, SockWrapper.should_evict w) ltac:(lia) Hagg)
    as (s' & Hs' & Hr').
  unfold flow_step in Hs'. cbn [fst snd] in Hs'. apply bind_Some in Hs' as (s1 & -> & Hs').
  change (mbind ?f (Some s1)) with (f s1). cbv beta. rewrite Hs'. csimpl.
  do 2 eexists. split; [reflexivity|]. intros f' a'. rewrite lookup_insert_Some.
  intros [[<- <-]|[_ Hf']]; [done|by eapply Hroom'].
Qed.

Lemma flows_loop_total l r flows :
  Z.of_nat (length l) ≤ umax u32 → flows_room (Z.of_nat (length l)) flows →
  is_Some (foldM (into_flow cache) (r, flows) l).
Proof.
  revert r flows. induction l as [|it l IH]; intros r flows Hl Hroom; [done|].
  cbn [length] in Hl, Hroom. rewrite Nat2Z.inj_succ in Hl, Hroom.
  destruct (into_flow_total (Z.succ (Z.of_nat (length l))) r flows it ltac:(lia) Hroom) as (r' & flows' & Hi & Hr').
  cbn [foldM]. rewrite Hi. csimpl. apply IH; [lia|]. by replace (Z.of_nat (length l)) with (Z.succ (Z.of_nat (length l)) - 1) by lia.
Qed.

End flows.

Lemma clear_levels_wf s : StatsTypes.stats_wf s → StatsTypes.stats_wf (clear_levels s).
Proof.
  unfold StatsTypes.stats_wf. rewrite !Forall_cons, !Forall_nil. intros. destruct_and!. cbn. split_and!; try done; by_eval.
Qed.

Lemma flow_step_wf s c s' :
  StatsTypes.stats_wf s → SockStats.wf c.1 → flow_step s c = Some s' → StatsTypes.stats_wf s'.
Proof.
  intros Hs Hc. unfold flow_step. intros (s1 & H1 & H2)%bind_Some. apply StatsTypes.add_from_wf in H1; [|done..].
  destruct c.2; [|by injection H2 as <-]. apply bind_Some in H2 as (n & [-> ?]%checked_add_Some & [= <-]).
  unfold StatsTypes.stats_wf in *. rewrite !Forall_cons, !Forall_nil in *. destruct_and!. cbn. split_and!; try done.
  unfold in_range, umax in *. lia.
Qed.

Lemma into_flow_wf cache r flows it r' flows' :
  map_Forall (λ _ a, StatsTypes.stats_wf (AggregateResults.stats a)) flows →
  SockStats.wf (AggSockStats.stats it.2) →
  into_flow cache (r, flows) it = Some (r', flows') →
  map_Forall (λ _ a, StatsTypes.stats_wf (AggregateResults.stats a)) flows'.
Proof.
  intros Hf Hit H. apply into_flow_cases in H as (_ & [[-> _]|(f & c & s & _ & Hc & _ & _ & Hstep & ->)]); [done|].
  apply map_Forall_insert_2; [|done]. cbn. eapply flow_step_wf; [| |exact Hstep].
  - unfold start. destruct (flows !! f) eqn:E; cbn; [by apply (Hf f)|apply StatsTypes.stats_wf_default].
  - unfold contrib in Hc. apply bind_Some in Hc as (w & _ & Hc). case_match; by simplify_eq.
Qed.

Lemma aggregate_into_flows_wf order cache flows r flows' :
  Forall (λ it, SockStats.wf (AggSockStats.stats it.2)) order →
  map_Forall (λ _ a, StatsTypes.stats_wf (AggregateResults.stats a)) flows →
  aggregate_into_flows order cache flows = Some (r, flows') →
  map_Forall (λ _ a, StatsTypes.stats_wf (AggregateResults.stats a)) flows'.
Proof.
  intros Hord Hflows. unfold aggregate_into_flows.
  assert (map_Forall (λ _ a, StatsTypes.stats_wf (AggregateResults.stats a)) (clear_flow_levels flows)) as Hclear
    by (apply map_Forall_fmap; intros f a Ha; by apply clear_levels_wf, (Hflows f)).
  revert Hclear. generalize (clear_flow_levels flows). clear Hflows flows.
  generalize SockOperationResult.default. induction Hord as [|it order Hit Hord IH]; intros r0 flows Hf; cbn [foldM].
  { by intros [= <- <-]. }
  intros ([r1 flows1] & Hstep & Hrest)%bind_Some. eapply IH; [|exact Hrest].
  by eapply into_flow_wf.
Qed.

End FlowFacts.

(** ** The provider's own operations *)
Module ProviderFacts.
Import EventProviderEbpf.

(** *** Adaptive sampling *)

Definition interval (self : t) : Z := ControlData.sampling_interval (ebpf_control_data self).

(** The BPF program sees the interval the agent has decided on. *)
Definition synced (self : t) : Prop :=
  head (nfm_control self) = Some (ebpf_control_data self) ∧ 0 ≤ interval self ≤ 1000.

Definition up (i : Z) : Z := if 1 <? i then Z.min 1000 (saturating_mul u32 i 3 / 2) else 2.
Definition down (i : Z) : Z := if 1 <? i then i - (i + 6) / 7 else i.

(** Everything but the control word is as before. *)
Definition same_but_control (self self' : t) : Prop :=
  ∃ c d, self' = self <| nfm_control := c |> <| ebpf_control_data := d |>.

Lemma send_control_synced self n :
  nfm_control self ≠ [] → 0 ≤ n ≤ 1000 →
  ∃ self', send_control_data (set_interval self n) = Some self' ∧ synced self' ∧
    interval self' = n ∧ same_but_control self self'.
Proof.
  intros Hne Hn. unfold send_control_data, SharedArray.insert. simpl.
  destruct (nfm_control self) as [|c0 cs] eqn:E; [done|]. rewrite bool_decide_eq_true_2 by (simpl; lia).
  csimpl. eexists. split; [reflexivity|]. split; [by split|]. split; [done|].
  eexists _, _. reflexivity.
Qed.

Lemma synced_nonempty self : synced self → nfm_control self ≠ [].
Proof. intros [H _] E. by rewrite E in H. Qed.

Lemma up_range i : 0 ≤ i ≤ 1000 → 2 ≤ up i ≤ 1000 ∧ (i < up i ∨ i = 1000 ∧ up i = 1000).
Proof.
  intros Hi. unfold up, saturating_mul, umax. destruct (Z.ltb_spec 1 i); [|lia].
  rewrite (Z.min_r (2 ^ 32 - 1)) by lia. mlia.
Qed.

Lemma down_range i : 0 ≤ i ≤ 1000 → 0 ≤ down i ≤ i ∧ (1 < i → 1 ≤ down i < i).
Proof. intros Hi. unfold down. destruct (Z.ltb_spec 1 i); [|lia]. mlia. Qed.

Lemma increase_synced self :
  synced self → ∃ self', increase_sampling_interval self = Some self' ∧ synced self' ∧
    interval self' = up (interval self) ∧ same_but_control self self'.
Proof.
  intros Hs. pose proof (synced_nonempty self Hs) as Hne. destruct Hs as [_ Hi].
  unfold increase_sampling_interval. fold (interval self).
  destruct (Z.ltb_spec 1000 (interval self)); [lia|].
  destruct (up_range (interval self) Hi) as [Hup _]. unfold up in *.
  destruct (1 <? interval self); apply send_control_synced; (done || lia).
Qed.

Lemma decrease_synced self :
  synced self → ∃ self', decrease_sampling_interval self = Some self' ∧ synced self' ∧
    interval self' = down (interval self) ∧ same_but_control self self'.
Proof.
  intros Hs. pose proof (synced_nonempty self Hs) as Hne. assert (Hi := proj2 Hs).
  unfold decrease_sampling_interval. fold (interval self).
  destruct (down_range (interval self) Hi) as [Hd _]. unfold down in *.
  destruct (Z.ltb_spec 1 (interval self)).
  - unfold checked_sub. rewrite (proj2 (Z.leb_le _ _)) by mlia. csimpl.
    apply send_control_synced; [done|lia].
  - exists self. split_and!; [done..|]. exists (nfm_control self), (ebpf_control_data self).
    by destruct self.
Qed.

(** Enough steps in one direction reach the end of the range, from anywhere in it. *)
Definition intervals : list Z := seqZ 0 1001.

Lemma elem_of_intervals i : 0 ≤ i ≤ 1000 → In i intervals.
Proof. intros. apply list_elem_of_In, elem_of_seqZ. lia. Qed.

Lemma up_converges i n : 0 ≤ i ≤ 1000 → (18 ≤ n)%nat → Nat.iter n up i = 1000.
Proof.
  intros Hi Hn. replace n with ((n - 18) + 18)%nat by lia. rewrite Nat.iter_add.
  assert (forallb (λ i, Nat.iter 18 up i =? 1000) intervals = true) as Hall by (vm_compute; reflexivity).
  rewrite forallb_forall in Hall. specialize (Hall i (elem_of_intervals i Hi)).
  apply Z.eqb_eq in Hall. rewrite Hall. clear. induction (n - 18)%nat as [|m IH]; [done|].
  simpl. rewrite IH. reflexivity.
Qed.

Lemma down_converges i n : 0 ≤ i ≤ 1000 → (36 ≤ n)%nat → 0 ≤ Nat.iter n down i ≤ 1.
Proof.
  intros Hi Hn. replace n with ((n - 36) + 36)%nat by lia. rewrite Nat.iter_add.
  assert (forallb (λ i, (0 <=? Nat.iter 36 down i) && (Nat.iter 36 down i <=? 1)) intervals = true)
    as Hall by (vm_compute; reflexivity).
  rewrite forallb_forall in Hall. specialize (Hall i (elem_of_intervals i Hi)).
  assert (0 ≤ Nat.iter 36 down i ≤ 1) as Hb by lia. revert Hb. generalize (Nat.iter 36 down i). clear.
  intros j Hj. induction (n - 36)%nat as [|m IH]; [done|]. simpl. unfold down at 1 3.
  destruct (Z.ltb_spec 1 (Nat.iter m down j)); lia.
Qed.

(** *** Eviction from the BPF map *)

Abbreviation StatsMap := (SharedHashMap.t CpuSockKey.t SockStats.t).

Lemma evict_cpus_other k cpus (m : StatsMap) key :
  CpuSockKey.sock_key key ≠ k →
  SharedHashMap.data (evict_cpus k cpus m).2 !! key = SharedHashMap.data m !! key.
Proof.
  intros Hk. revert m. induction cpus as [|cpu cpus IH]; intros m; [done|]. simpl.
  unfold SharedHashMap.remove. destruct (SharedHashMap.data m !! _); [|done].
  rewrite IH. simpl. apply lookup_delete_ne. by intros <-.
Qed.

Lemma evict_cpus_bounded k cpus (m : StatsMap) :
  SharedHashMap.bounded m → SharedHashMap.bounded (evict_cpus k cpus m).2.
Proof.
  revert m. induction cpus as [|cpu cpus IH]; intros m Hm; [done|]. simpl.
  pose proof (SharedHashMap.remove_bounded m (CpuSockKey.mk cpu k) Hm) as Hr.
  destruct (SharedHashMap.remove m (CpuSockKey.mk cpu k)) as [[?|?] m']; simpl in *; auto.
Qed.

Lemma evict_cpus_all k cpus (m : StatsMap) :
  NoDup cpus → (∀ cpu, cpu ∈ cpus → is_Some (SharedHashMap.data m !! CpuSockKey.mk cpu k)) →
  (evict_cpus k cpus m).1 = true ∧
  ∀ cpu, cpu ∈ cpus → SharedHashMap.data (evict_cpus k cpus m).2 !! CpuSockKey.mk cpu k = None.
Proof.
  revert m. induction cpus as [|cpu cpus IH]; intros m Hnd Hin.
  { split; [done|]. by intros ? ?%not_elem_of_nil. }
  apply NoDup_cons in Hnd as [Hnot Hnd]. simpl. unfold SharedHashMap.remove.
  destruct (Hin cpu) as [s Hs]; [by left|]. rewrite Hs.
  set (m' := SharedHashMap.mk _ _).
  assert (∀ cpu' : Z, SharedHashMap.data (evict_cpus k cpus m').2 !! CpuSockKey.mk cpu' k =
    SharedHashMap.data m' !! CpuSockKey.mk cpu' k ∨
    SharedHashMap.data (evict_cpus k cpus m').2 !! CpuSockKey.mk cpu' k = None) as Hmono.
  { clear. generalize m'. clear. induction cpus as [|c cpus IH]; intros m cpu'; [by left|]. simpl.
    unfold SharedHashMap.remove. destruct (SharedHashMap.data m !! CpuSockKey.mk c k); [|by left].
    destruct (IH (SharedHashMap.mk (delete (CpuSockKey.mk c k) (SharedHashMap.data m))
      (SharedHashMap.capacity m)) cpu') as [-> | ->]; [|by right]. simpl.
    destruct (decide (c = cpu')) as [->|]; [right; apply lookup_delete_eq|].
    left. apply lookup_delete_ne. congruence. }
  destruct (IH m') as [Hok Hgone]; [done| |].
  - intros c Hc. simpl. rewrite lookup_delete_ne; [apply Hin; by right|]. congruence.
  - split; [done|]. intros c Hc. destruct (decide (c = cpu)) as [->|Hne].
    + destruct (Hmono cpu) as [-> | ->]; [|done]. apply lookup_delete_eq.
    + apply Hgone. by apply elem_of_cons in Hc as [?|?].
Qed.

(** The entries of the sockets to evict that the eviction will look for. *)
Definition evictable (m : StatsMap) (entry : Z * SockWrapper.t) : Prop :=
  NoDup (AggSockStats.cpus (SockWrapper.agg_stats entry.2)) ∧
  ∀ cpu, cpu ∈ AggSockStats.cpus (SockWrapper.agg_stats entry.2) →
    is_Some (SharedHashMap.data m !! CpuSockKey.mk cpu entry.1).

Lemma evict_loop r (m : StatsMap) l :
  let '(r', m') := foldl evict_sock (r, m) l in
  (∀ key, CpuSockKey.sock_key key ∉ l.*1 → SharedHashMap.data m' !! key = SharedHashMap.data m !! key) ∧
  (SharedHashMap.bounded m → SharedHashMap.bounded m') ∧
  SockOperationResult.total r' = SockOperationResult.total r + Z.of_nat (length l) ∧
  (NoDup l.*1 → Forall (evictable m) l →
   SockOperationResult.failed r' = SockOperationResult.failed r ∧
   ∀ k w cpu, (k, w) ∈ l → cpu ∈ AggSockStats.cpus (SockWrapper.agg_stats w) →
     SharedHashMap.data m' !! CpuSockKey.mk cpu k = None).
Proof.
  revert r m. induction l as [|[k w] l IH]; intros r m.
  { simpl. split_and!; [done|done|lia|]. intros _ _. split; [done|]. by intros ? ? ? ?%not_elem_of_nil. }
  cbn [foldl evict_sock].
  pose proof (evict_cpus_bounded k (AggSockStats.cpus (SockWrapper.agg_stats w)) m) as Hb.
  pose proof (λ key, evict_cpus_other k (AggSockStats.cpus (SockWrapper.agg_stats w)) m key) as Ho.
  pose proof (evict_cpus_all k (AggSockStats.cpus (SockWrapper.agg_stats w)) m) as Ha.
  destruct (evict_cpus k _ m) as [ok m1]. simpl in Hb, Ho, Ha.
  set (r1 := if ok then _ else _).
  assert (r1 = (if ok then r <| SockOperationResult.completed ::= Z.add 1 |>
                else r <| SockOperationResult.failed ::= Z.add 1 |>, m1)) as -> by by destruct ok.
  specialize (IH (if ok then r <| SockOperationResult.completed ::= Z.add 1 |>
                else r <| SockOperationResult.failed ::= Z.add 1 |>) m1).
  destruct (foldl evict_sock _ l) as [r' m']. destruct IH as (IH1 & IH2 & IH3 & IH4). split_and!.
  - intros key Hkey. csimpl in Hkey. apply not_elem_of_cons in Hkey as [Hne Hkey].
    rewrite IH1 by done. by apply Ho.
  - auto.
  - rewrite IH3. unfold SockOperationResult.total. cbn [length]. destruct ok; simpl; lia.
  - csimpl. intros [Hk Hnd]%NoDup_cons [[Hw1 Hw2] Hl]%Forall_cons. simpl in Hw1, Hw2.
    destruct (Ha Hw1 Hw2) as [-> Hgone].
    destruct (IH4 Hnd) as [Hf Hrest].
    { apply Forall_forall. intros [k' w'] Hin. eapply Forall_forall in Hl as [Hl1 Hl2]; [|exact Hin].
      split; [done|]. simpl in *. intros cpu Hcpu. rewrite Ho; [by apply Hl2|]. simpl. intros ->.
      apply Hk. apply list_elem_of_fmap. by exists (k, w'). }
    split; [done|]. intros k' w' cpu [[= -> ->]|Hin]%elem_of_cons Hcpu; [|by eapply Hrest].
    rewrite IH1 by done. by apply Hgone.
Qed.

(** *** Event counters *)

Definition sum_counters (cs : list EventCounters.t) : EventCounters.t :=
  foldl EventCounters.add_from EventCounters.default cs.

Lemma sum_counters_wf cs : EventCounters.wf (sum_counters cs).
Proof.
  unfold sum_counters. destruct cs as [|c cs] using rev_ind; [apply EventCountersFacts.counters_default_wf|].
  rewrite foldl_app. apply EventCountersFacts.counters_add_from_wf.
Qed.

(** What happens to the counters between two reports: the kernel updates them and a cycle reads
    them, or a report publishes them. *)
Inductive counter_op :=
| ReadCounters (per_cpu : list EventCounters.t)
| Publish.

Definition counter_step (st : list EventCounters.t * t) (op : counter_op) : list EventCounters.t * t :=
  let '(published, self) := st in
  match op with
  | ReadCounters per_cpu => (published, (ebpf_counters (self <| nfm_counters := per_cpu |>)).2)
  | Publish => let '(c, self) := counters self in (published ++ [CountersOverall.event_related c], self)
  end.

Definition counters_inv (published : list EventCounters.t) (self : t) : Prop :=
  EventCounters.wf (ebpf_counters_latest self) ∧
  foldl EventCounters.add_from EventCounters.default published = ebpf_counters_published self.

Lemma counter_step_inv st op :
  counters_inv st.1 st.2 → counters_inv (counter_step st op).1 (counter_step st op).2.
Proof.
  destruct st as [published self]. intros [Hw Hsum]. cbn [fst snd] in Hw, Hsum. destruct op as [cs|].
  - split; [apply sum_counters_wf|exact Hsum].
  - split; [exact Hw|]. cbn [counter_step fst snd]. unfold counters, take_process_counters. simpl.
    rewrite foldl_app. simpl. rewrite Hsum. by apply EventCountersFacts.counters_add_from_subtract.
Qed.

(** *** New contexts *)

Lemma add_context_size cache k c now :
  let '(r, cache') := SockCache.add_context cache k c now in
  SockCache.max_sock_entries cache' = SockCache.max_sock_entries cache ∧
  SockCache.len cache' ≤ Z.max (SockCache.len cache) (SockCache.max_sock_entries cache) ∧
  dom (SockCache.cache cache) ⊆ dom (SockCache.cache cache') ∧
  (SockOperationResult.failed r ≤ 0 → k ∈ dom (SockCache.cache cache')).
Proof.
  unfold SockCache.add_context, SockCache.len.
  destruct (SockCache.cache cache !! k) as [w|] eqn:E; [|destruct (Z.ltb_spec
    (Z.of_nat (size (SockCache.cache cache))) (SockCache.max_sock_entries cache))]; simpl.
  - rewrite map_size_insert_Some by done. split_and!; [done|lia|set_solver|set_solver].
  - rewrite map_size_insert_None by done. split_and!; [done|lia|set_solver|set_solver].
  - split_and!; [done|lia|done|lia].
Qed.

Lemma add_contexts_spec items now cache r keys :
  let '(cache', r', keys') := add_contexts items now cache r keys in
  SockCache.max_sock_entries cache' = SockCache.max_sock_entries cache ∧
  SockCache.len cache' ≤ Z.max (SockCache.len cache) (SockCache.max_sock_entries cache) ∧
  dom (SockCache.cache cache) ⊆ dom (SockCache.cache cache') ∧
  keys ⊆ keys' ∧
  (∀ key, key ∈ keys' → key ∈ keys ∨ key ∈ items.*1 ∧ CpuSockKey.sock_key key ∈ dom (SockCache.cache cache')).
Proof.
  revert cache r keys. induction items as [|[key c] items IH]; intros cache r keys.
  { simpl. split_and!; [done|lia|done|done|]. by left. }
  cbn [add_contexts].
  pose proof (add_context_size cache (CpuSockKey.sock_key key) c now) as Ha.
  destruct (SockCache.add_context cache (CpuSockKey.sock_key key) c now) as [r1 cache1].
  destruct Ha as (Hm & Hlen & Hdom & Hin).
  destruct (Z.ltb_spec 0 (SockOperationResult.failed r1)).
  { split_and!; [done|done|done|done|]. by left. }
  specialize (IH cache1 (SockOperationResult.add r r1) ({[key]} ∪ keys)).
  destruct (add_contexts items now cache1 _ _) as [[cache2 r2] keys2].
  destruct IH as (IHm & IHl & IHd & IHk & IHin). split_and!.
  - congruence.
  - rewrite Hm in IHl. lia.
  - set_solver.
  - set_solver.
  - intros key' [[->%elem_of_singleton|?]%elem_of_union|[? ?]]%IHin; [right|by left|right].
    + csimpl. set_solver.
    + csimpl. set_solver.
Qed.

(** The contexts that a reading hands over to the table, by counting sockets alone: those up to
    which the sockets of the table and of the reading together stay within the limit of the table
    (or within its size, where it is over the limit already). *)
Definition taken_over (cache : SockCache.t) (items : list (CpuSockKey.t * SockContext.t))
    (key : CpuSockKey.t) : Prop :=
  ∃ before c after, items = before ++ (key, c) :: after ∧
    Z.of_nat (size (dom (SockCache.cache cache) ∪
      list_to_set (CpuSockKey.sock_key <$> before.*1) ∪ {[CpuSockKey.sock_key key]})) ≤
    Z.max (SockCache.len cache) (SockCache.max_sock_entries cache).

Lemma taken_over_cons cache cache1 key c items key' :
  dom (SockCache.cache cache1) = {[CpuSockKey.sock_key key]} ∪ dom (SockCache.cache cache) →
  Z.max (SockCache.len cache1) (SockCache.max_sock_entries cache1) =
    Z.max (SockCache.len cache) (SockCache.max_sock_entries cache) →
  SockCache.len cache1 ≤ Z.max (SockCache.len cache) (SockCache.max_sock_entries cache) →
  taken_over cache ((key, c) :: items) key' ↔ key' = key ∨ taken_over cache1 items key'.
Proof.
  intros Hd Hm Hl. unfold taken_over. rewrite Hm, Hd. split.
  - intros (before & c' & after & Heq & Hle). destruct before as [|[kb cb] before]; [left|right].
    { by simplify_eq/=. }
    csimpl in *. injection Heq as <- <- ->. exists before, c', after. split; [done|].
    rewrite (comm_L (∪) {[_]}), <- (assoc_L (∪) (dom _)). done.
  - intros [->|(before & c' & after & -> & Hle)].
    + exists [], c, items. split; [done|]. csimpl. rewrite (right_id_L ∅ (∪)), (comm_L (∪)), <- Hd.
      unfold SockCache.len in *. rewrite size_dom. lia.
    + exists ((key, c) :: before), c', after. split; [done|]. csimpl.
      rewrite (comm_L (∪) {[_]}), <- (assoc_L (∪) (dom _)) in Hle. done.
Qed.

(** The loop reads exactly the contexts the table takes over. *)
Lemma add_contexts_taken items now cache r keys key :
  key ∈ (add_contexts items now cache r keys).2 ↔ key ∈ keys ∨ taken_over cache items key.
Proof.
  revert cache r keys. induction items as [|[k c] items IH]; intros cache r keys.
  { simpl. split; [by left|]. intros [?|(before & ? & ? & Heq & _)]; [done|]. by destruct before. }
  cbn [add_contexts]. unfold SockCache.add_context.
  destruct (SockCache.cache cache !! CpuSockKey.sock_key k) as [w|] eqn:E; [|destruct (Z.ltb_spec
    (SockCache.len cache) (SockCache.max_sock_entries cache))]; cbn.
  - rewrite IH. match goal with |- context [taken_over ?c1 items key] => rewrite (taken_over_cons cache c1) end;
      [set_solver|..];
      unfold SockCache.len; csimpl; rewrite ?map_size_insert_Some by done; [set_solver|lia..].
  - rewrite IH. match goal with |- context [taken_over ?c1 items key] => rewrite (taken_over_cons cache c1) end;
      [set_solver|..];
      unfold SockCache.len in *; csimpl; rewrite ?map_size_insert_None by done; [set_solver|lia..].
  - split; [by left|]. intros [?|(before & c' & after & Heq & Hle)]; [done|]. exfalso.
    apply not_elem_of_dom in E. unfold SockCache.len in *. rewrite <- size_dom in *.
    assert (size ({[CpuSockKey.sock_key k]} ∪ dom (SockCache.cache cache)) ≤
      size (dom (SockCache.cache cache) ∪ list_to_set (CpuSockKey.sock_key <$> before.*1) ∪
        {[CpuSockKey.sock_key key]}))%nat as Hsub.
    { apply subseteq_size. destruct before as [|[kb cb] before]; simplify_eq/=; set_solver. }
    rewrite size_union, size_singleton in Hsub by set_solver. lia.
Qed.

(** Freeing contexts touches nothing but their map and the tally of failures. *)
Lemma free_contexts_spec self keys :
  ∃ props n, 0 ≤ n ≤ Z.of_nat (length keys) ∧
    free_contexts self keys = self <| ebpf_sock_props := props |>
      <| process_counters ::= λ c, c <| ProcessCounters.socket_eviction_failed ::= Z.add n |> |> ∧
    (∀ key, SharedHashMap.data props !! key =
       if decide (key ∈ keys) then None else SharedHashMap.data (ebpf_sock_props self) !! key).
Proof.
  unfold free_contexts. revert self. induction keys as [|key keys IH]; intros self.
  { exists (ebpf_sock_props self), 0. split; [simpl; lia|]. split; [by destruct self as [? ? ? ? ? ? ? ? []]|].
    intros k. rewrite decide_False by apply not_elem_of_nil. done. }
  cbn [foldl]. unfold SharedHashMap.remove at 2.
  destruct (SharedHashMap.data (ebpf_sock_props self) !! key) as [c|] eqn:E.
  - edestruct IH as (props & n & Hn & -> & Hp). exists props, n. split; [cbn [length]; lia|].
    split; [done|]. intros k. rewrite Hp. simpl. destruct (decide (k = key)) as [->|Hne].
    + rewrite (decide_True (P := key ∈ key :: keys)) by by left. rewrite lookup_delete_eq.
      by destruct (decide _).
    + rewrite lookup_delete_ne by done.
      destruct (decide (k ∈ keys)); destruct (decide (k ∈ key :: keys)); try done; set_solver.
  - edestruct IH as (props & n & Hn & -> & Hp). exists props, (n + 1). split; [cbn [length]; lia|].
    split. { destruct self as [? ? ? ? ? ? ? ? []]. simpl. f_equal. f_equal. lia. }
    intros k. rewrite Hp. simpl. destruct (decide (k = key)) as [->|Hne].
    + rewrite (decide_True (P := key ∈ key :: keys)) by by left. rewrite E. by destruct (decide _).
    + destruct (decide (k ∈ keys)); destruct (decide (k ∈ key :: keys)); try done; set_solver.
Qed.

(** What the agent does to the maps of the program is to remove entries. *)
Lemma free_contexts_shrinks self keys :
  SharedHashMap.shrinks (ebpf_sock_props self) (ebpf_sock_props (free_contexts self keys)).
Proof.
  unfold free_contexts. revert self. induction keys as [|key keys IH]; intros self; [done|]. cbn [foldl].
  etrans; [|apply IH]. pose proof (SharedHashMap.remove_shrinks (ebpf_sock_props self) key) as Hr.
  by destruct (SharedHashMap.remove _ _) as [[] ?].
Qed.

Lemma evict_cpus_shrinks k cpus m : SharedHashMap.shrinks m (evict_cpus k cpus m).2.
Proof.
  revert m. induction cpus as [|cpu cpus IH]; intros m; [done|]. cbn [evict_cpus].
  pose proof (SharedHashMap.remove_shrinks m (CpuSockKey.mk cpu k)) as Hr.
  destruct (SharedHashMap.remove _ _) as [[] m']; [|done]. etrans; [exact Hr|apply IH].
Qed.

Lemma evict_loop_shrinks r m l : SharedHashMap.shrinks m (foldl evict_sock (r, m) l).2.
Proof.
  revert r m. induction l as [|[k w] l IH]; intros r m; [done|]. cbn [foldl evict_sock].
  pose proof (evict_cpus_shrinks k (AggSockStats.cpus (SockWrapper.agg_stats w)) m) as Hc.
  destruct (evict_cpus _ _ _) as [[] m']; (etrans; [exact Hc|apply IH]).
Qed.

End ProviderFacts.

(** ** The phases of a cycle *)
Module CycleFacts.
Import EventProviderEbpf ProviderFacts.

Lemma adapt_frame self self0 :
  adapt_sampling self = Some self0 →
  ∃ c d, self0 = self <| ebpf_counters_latest := sum_counters (nfm_counters self) |>
                      <| nfm_control := c |> <| ebpf_control_data := d |>.
Proof.
  unfold adapt_sampling, ebpf_counters. fold (sum_counters (nfm_counters self)).
  set (self1 := self <| ebpf_counters_latest := _ |>).
  assert (∀ s1 s2, send_control_data s1 = Some s2 → s2 = s1 <| nfm_control := nfm_control s2 |>) as Hsend.
  { intros s1 s2. unfold send_control_data. intros (? & _ & [= <-])%bind_Some. reflexivity. }
  assert (∀ n s2, send_control_data (set_interval self1 n) = Some s2 →
    ∃ c d, s2 = self1 <| nfm_control := c |> <| ebpf_control_data := d |>) as Hset.
  { intros n s2 ->%Hsend. eexists _, _. reflexivity. }
  assert (∃ c d, self1 = self1 <| nfm_control := c |> <| ebpf_control_data := d |>) as Hsame
    by (exists (nfm_control self1), (ebpf_control_data self1); done).
  destruct (0 <? _).
  - unfold increase_sampling_interval. destruct (1000 <? _); [by intros [= <-]|].
    destruct (1 <? _); apply Hset.
  - unfold decrease_sampling_interval. destruct (1 <? _); [|by intros [= <-]].
    intros (n & _ & H)%bind_Some. by eapply Hset.
Qed.

(** The control array keeps its length. *)
Lemma adapt_control_length self self0 :
  adapt_sampling self = Some self0 → length (nfm_control self0) = length (nfm_control self).
Proof.
  assert (∀ s1 s2, send_control_data s1 = Some s2 → length (nfm_control s2) = length (nfm_control s1)) as Hsend.
  { intros s1 s2. unfold send_control_data, SharedArray.insert. intros (l & Hl & [= <-])%bind_Some.
    case_bool_decide; simplify_eq. cbn. by rewrite length_insert. }
  unfold adapt_sampling, ebpf_counters. destruct (0 <? _).
  - unfold increase_sampling_interval. destruct (1000 <? _); [by intros [= <-]|]. destruct (1 <? _); by intros ?%Hsend.
  - unfold decrease_sampling_interval. destruct (1 <? _); [|by intros [= <-]].
    intros (n & _ & Hs)%bind_Some. by apply Hsend in Hs.
Qed.

Lemma adapt_synced self :
  synced self → ∃ self0, adapt_sampling self = Some self0 ∧ synced self0 ∧
    interval self0 =
      (if 0 <? EventCounters.map_insertion_errors
                 (EventCounters.subtract (sum_counters (nfm_counters self)) (ebpf_counters_latest self))
       then up else down) (interval self).
Proof.
  intros Hs. unfold adapt_sampling, ebpf_counters. fold (sum_counters (nfm_counters self)).
  set (self1 := self <| ebpf_counters_latest := _ |>). assert (synced self1) as Hs1 by done.
  destruct (0 <? _).
  - destruct (increase_synced self1 Hs1) as (s & ? & ? & ? & _). eauto.
  - destruct (decrease_synced self1 Hs1) as (s & ? & ? & ? & _). eauto.
Qed.

(** The intermediate results of a cycle. *)
Record trace := mk_trace {
  tr_adapted : t;
  tr_added : SockCache.t * SockOperationResult.t * gset CpuSockKey.t;
  tr_stream : gmap Z AggSockStats.t;
  tr_deltas : SockOperationResult.t * SockCache.t * gmap Z AggSockStats.t;
  tr_natted : SockOperationResult.t * SockCache.t;
  tr_flows : SockOperationResult.t * SocketQueries.FlowCache;
}.

Section trace.
Context {R : Type} `{NatResolver R} (rd : reads) (ord : orders).

Definition added_cache tr := tr.(tr_added).1.1.
Definition delta_cache tr := tr.(tr_deltas).1.2.
Definition deltas tr := tr.(tr_deltas).2.
Definition natted_cache tr := tr.(tr_natted).2.
Definition staleness (self : t) : Z := saturating_sub (now_us rd) (notrack_us self).

Record runs (self : t) (nat_resolver : R) (tr : trace) : Prop := {
  run_adapt : adapt_sampling self = Some (tr_adapted tr);
  run_add : add_contexts (SocketQueries.flatten (props_read rd))
    (saturating_sub (now_us rd) (notrack_us self / 2)) (sock_cache self) SockOperationResult.default ∅ =
    tr_added tr;
  run_stream : SocketQueries.aggregate_sock_stats (stats_read rd) (added_cache tr) (sock_stream self) =
    Some (tr_stream tr);
  run_deltas : SockCache.update_stats_and_get_deltas (added_cache tr) (tr_stream tr)
    (stream_order ord (tr_stream tr)) (staleness self) = tr_deltas tr;
  run_nat : store_beyond_nat_entries (NatResolver.perform_aggregation_cycle nat_resolver)
    (delta_cache tr) (cache_order ord (SockCache.cache (delta_cache tr))) = Some (tr_natted tr);
  run_flows : SocketQueries.aggregate_into_flows (flow_order ord (deltas tr)) (natted_cache tr)
    (flow_cache self) = Some (tr_flows tr);
}.

(** The sockets that leave the table, in the order they are visited. *)
Definition to_evict tr : list (Z * SockWrapper.t) :=
  evict_order ord (SockCache.perform_eviction (natted_cache tr)).1.1.
Definition bpf_eviction (self : t) tr :=
  foldl evict_sock (SockOperationResult.default, ebpf_sock_stats self) (to_evict tr).

(** The counters of the cycle. *)
Definition counted_cycle (self : t) tr (freed : Z) (c : ProcessCounters.t) : Prop :=
  let p := process_counters self in
  ProcessCounters.sockets_added c =
    SockOperationResult.completed tr.(tr_added).1.2 + ProcessCounters.sockets_added p ∧
  ProcessCounters.sockets_natd c =
    SockOperationResult.completed tr.(tr_natted).1 + ProcessCounters.sockets_natd p ∧
  ProcessCounters.socket_deltas_completed c =
    SockOperationResult.completed tr.(tr_deltas).1.1 + ProcessCounters.socket_deltas_completed p ∧
  ProcessCounters.socket_deltas_missing_props c =
    SockOperationResult.partial tr.(tr_deltas).1.1 + ProcessCounters.socket_deltas_missing_props p ∧
  ProcessCounters.socket_deltas_above_limit c =
    SockOperationResult.failed tr.(tr_deltas).1.1 + ProcessCounters.socket_deltas_above_limit p ∧
  ProcessCounters.socket_agg_completed c =
    SockOperationResult.completed tr.(tr_flows).1 + ProcessCounters.socket_agg_completed p ∧
  ProcessCounters.socket_agg_missing_props c =
    SockOperationResult.partial tr.(tr_flows).1 + ProcessCounters.socket_agg_missing_props p ∧
  ProcessCounters.socket_agg_above_limit c =
    SockOperationResult.failed tr.(tr_flows).1 + ProcessCounters.socket_agg_above_limit p ∧
  ProcessCounters.socket_eviction_completed c =
    SockOperationResult.completed (bpf_eviction self tr).1 + ProcessCounters.socket_eviction_completed p ∧
  ProcessCounters.socket_eviction_failed c =
    SockOperationResult.failed (bpf_eviction self tr).1 + (freed + ProcessCounters.socket_eviction_failed p).

(** The state a cycle ends in. *)
Record ends (self : t) tr (self' : t) : Prop := {
  end_control : nfm_control self' = nfm_control (tr_adapted tr) ∧
    ebpf_control_data self' = ebpf_control_data (tr_adapted tr);
  end_cache : sock_cache self' = (SockCache.perform_eviction (natted_cache tr)).2;
  end_stats : ebpf_sock_stats self' = (bpf_eviction self tr).2;
  end_props : ∀ key, SharedHashMap.data (ebpf_sock_props self') !! key =
    if decide (key ∈ keys_order ord tr.(tr_added).2) then None
    else SharedHashMap.data (ebpf_sock_props self) !! key;
  end_stream : sock_stream self' = ∅;
  end_flows : flow_cache self' = tr.(tr_flows).2;
  end_handled : agg_socks_handled self' = SockCache.len (natted_cache tr);
  end_counters : ∃ n, 0 ≤ n ≤ Z.of_nat (length (keys_order ord tr.(tr_added).2)) ∧
    counted_cycle self tr n (process_counters self');
  end_latest : ebpf_counters_latest self' = sum_counters (nfm_counters self) ∧
    ebpf_counters_published self' = ebpf_counters_published self;
  end_notrack : notrack_us self' = notrack_us self;
  end_cpus : nfm_counters self' = nfm_counters self;
  end_shrinks : SharedHashMap.shrinks (ebpf_sock_props self) (ebpf_sock_props self') ∧
    SharedHashMap.shrinks (ebpf_sock_stats self) (ebpf_sock_stats self');
}.

(** A cycle succeeds exactly when its phases do, and ends in their combined effect. *)
Lemma cycle_runs self nat_resolver :
  match perform_aggregation_cycle rd ord self nat_resolver with
  | Some (self', nat_resolver') =>
      nat_resolver' = NatResolver.perform_aggregation_cycle nat_resolver ∧
      ∃ tr, runs self nat_resolver tr ∧ ends self tr self'
  | None => ¬ ∃ tr, runs self nat_resolver tr
  end.
Proof.
  unfold perform_aggregation_cycle.
  destruct (adapt_sampling self) as [self0|] eqn:E0; cbn [mbind option_bind]; [|intros [tr []]; congruence].
  destruct (adapt_frame _ _ E0) as (ctl & dat & Hs0).
  destruct (add_contexts _ _ _ _ _) as [[cache1 add_r] keys] eqn:E1.
  pose proof (free_contexts_shrinks (self0 <| sock_cache := cache1 |>) (keys_order ord keys)) as Hshr.
  destruct (free_contexts_spec (self0 <| sock_cache := cache1 |>) (keys_order ord keys))
    as (props & n & Hn & Hfree & Hp). rewrite Hfree in Hshr |- *. clear Hfree.
  assert (notrack_us self0 = notrack_us self ∧ sock_cache self0 = sock_cache self ∧
    sock_stream self0 = sock_stream self ∧ flow_cache self0 = flow_cache self ∧
    ebpf_sock_stats self0 = ebpf_sock_stats self) as (En & Ec & Es & Ef & Em) by by rewrite Hs0.
  rewrite En, Ec in E1. csimpl. rewrite Es, Ef, Em, En.
  destruct (SocketQueries.aggregate_sock_stats _ _ _) as [stream|] eqn:E2; csimpl.
  2:{ intros [tr [A1 A2 A3 _ _ _]]. unfold added_cache in A3. rewrite <- A2, E1 in A3. simpl in A3. congruence. }
  destruct (SockCache.update_stats_and_get_deltas _ _ _ _) as [[delta_r cache2] ds] eqn:E3.
  destruct (store_beyond_nat_entries _ _ _) as [[nat_r cache3]|] eqn:E4; csimpl.
  2:{ intros [[ad add' st' dl' na' fl'] [A1 A2 A3 A4 A5 _]]. unfold added_cache, delta_cache in *. simpl in *.
      rewrite E1 in A2. subst add'. simpl in *. rewrite E2 in A3. injection A3 as <-.
      unfold staleness in A4. rewrite E3 in A4. subst dl'. simpl in A5. congruence. }
  destruct (SocketQueries.aggregate_into_flows _ _ _) as [[flow_r flows]|] eqn:E5; csimpl.
  2:{ intros [[ad add' st' dl' na' fl'] [A1 A2 A3 A4 A5 A6]].
      unfold added_cache, delta_cache, deltas, natted_cache in *. simpl in *.
      rewrite E1 in A2. subst add'. simpl in *. rewrite E2 in A3. injection A3 as <-.
      unfold staleness in A4. rewrite E3 in A4. subst dl'. simpl in A5, A6. rewrite E4 in A5.
      injection A5 as <-. simpl in A6. congruence. }
  set (tr := mk_trace self0 (cache1, add_r, keys) stream (delta_r, cache2, ds) (nat_r, cache3) (flow_r, flows)).
  destruct (perform_bpf_eviction _ _) as [evict_r self4] eqn:E6. split; [done|].
  unfold perform_bpf_eviction in E6. csimpl in E6. simpl in E6.
  destruct (foldl evict_sock _ _) as [evict_r' stats'] eqn:E7. simplify_eq E6. intros <- <-.
  assert (bpf_eviction self tr = (evict_r', stats')) as E8.
  { unfold bpf_eviction, to_evict, natted_cache, SockCache.perform_eviction. simpl.
    exact E7. }
  exists tr. split; [by constructor|].
  constructor; rewrite ?E8; simpl; try (by rewrite Hs0); try done.
  - intros key. rewrite Hp. simpl. by rewrite Hs0.
  - exists n. split; [done|]. unfold counted_cycle. rewrite E8. simpl. by rewrite Hs0.
  - split; [by rewrite Hs0 in Hshr|]. pose proof (evict_loop_shrinks SockOperationResult.default (ebpf_sock_stats self)
      (to_evict tr)) as Hev. unfold bpf_eviction in E8. by rewrite E8 in Hev.
Qed.

End trace.
End CycleFacts.

(** ** Counting the sockets of a cycle *)
Module CountFacts.
Import StreamFacts SockCacheFacts RoundSpec.

Lemma known_new_length (self : SockCache.t) (l : list (Z * AggSockStats.t)) :
  n_known self l + n_new self l = Z.of_nat (length l).
Proof.
  unfold n_known, n_new. induction l as [|[k a] l IH]; [done|]. rewrite !filter_cons. simpl.
  destruct (SockCache.cache self !! k); [rewrite decide_True by done; rewrite decide_False by done
    | rewrite decide_False by (intros []; done); rewrite decide_True by done]; cbn [length]; lia.
Qed.

Lemma tally_total len max a b :
  SockOperationResult.total (tally len max a b) = a + b.
Proof. unfold tally, SockOperationResult.total. simpl. lia. Qed.

Definition seen_socks (l : list (CpuSockKey.t * SockStats.t)) : gset Z :=
  list_to_set ((λ it, CpuSockKey.sock_key it.1) <$> l).

Lemma stream_dom cache l (m : gmap Z AggSockStats.t) :
  (∀ k, m !! k = stream_spec cache k l) → dom m = seen_socks l.
Proof.
  intros Hm. apply set_eq. intros k. rewrite elem_of_dom, Hm. unfold seen_socks.
  rewrite elem_of_list_to_set, list_elem_of_fmap. unfold stream_spec, stats_of. split.
  - destruct (entries_of k l) as [|it its] eqn:E; [by intros [? ?]|]. intros _. exists it.
    assert (it ∈ entries_of k l) as Hin by (rewrite E; by left).
    apply list_elem_of_filter in Hin as [<- ?]. done.
  - intros (it & -> & Hit). assert (it ∈ entries_of (CpuSockKey.sock_key it.1) l) as Hin
      by by apply list_elem_of_filter.
    destruct (entries_of _ l); [by apply not_elem_of_nil in Hin|done].
Qed.

(** Resolving addresses does not change whether a socket is evicted. *)
Lemma external_should_evict w w' :
  only_external w w' → SockWrapper.should_evict w' = SockWrapper.should_evict w ∧
  SockWrapper.last_touched_us w' = SockWrapper.last_touched_us w ∧ age w' = age w ∧
  SockWrapper.is_complete w' = SockWrapper.is_complete w.
Proof. by intros (e & -> & _). Qed.

End CountFacts.
