(* ===== verification/EventProviderProperties.v ===== *)
(** * EventProviderProperties: the guarantees of the aggregation cycle

    Sizing of the BPF maps, adaptive sampling, conservation of the event counters, exactness of the
    two aggregation loops, the effect of a whole cycle, and when a cycle can and cannot panic. *)

From stdpp Require Import base numbers gmap list strings.
From S2P Require Import Prelude Network BpfMaps SockCache SockCacheFacts ReportData NetworkEvent.
From S2P Require Import NetworkEventFacts NatResolver EventProvider EventProviderFacts.
Import SocketQueries EventProviderEbpf StreamFacts FlowFacts ProviderFacts CycleFacts CountFacts.

(** Every visit of a hash map meets each of its entries once. *)
Record orders_ok (ord : orders) : Prop := {
  keys_perm : ∀ ks, keys_order ord ks ≡ₚ elements ks;
  stream_perm : ∀ m, stream_order ord m ≡ₚ map_to_list m;
  cache_perm : ∀ m, cache_order ord m ≡ₚ map_to_list m;
  flow_perm : ∀ m, flow_order ord m ≡ₚ map_to_list m;
  evict_perm : ∀ m, evict_order ord m ≡ₚ map_to_list m;
}.

Definition plain_orders : orders :=
  mk_orders elements map_to_list map_to_list map_to_list map_to_list.

Lemma plain_orders_ok : orders_ok plain_orders.
Proof. by constructor. Defined.

(** C39: The sizes of the BPF maps.  For every amount of memory a u64 can hold, computing them does
    not overflow; the properties map has between 250 and 20000 entries, the statistics map exactly
    three times as many, more memory never gives smaller maps, and their footprint is at most 8080
    kilobytes, the exact sum of the entry sizes rounded up. *)
Theorem map_sizing mem :
  in_range u64 mem →
  let '(props, stats) := map_max_entries mem in
  in_range u64 (mem / 5000000000 * MAX_ENTRIES_SK_PROPS_LO) ∧
  MAX_ENTRIES_SK_PROPS_LO ≤ props ≤ MAX_ENTRIES_SK_PROPS_HI ∧
  stats = SK_STATS_TO_PROPS_RATIO * props ∧
  (∀ mem', mem ≤ mem' → props ≤ (map_max_entries mem').1) ∧
  (let kb := calculate_ebpf_memory_usage props stats in
   1000 * (kb - 1) < 404 * props ≤ 1000 * kb ∧ kb ≤ 8080).
Proof.
  intros Hmem. unfold map_max_entries, calculate_ebpf_memory_usage, size_of_CpuSockKey,
    size_of_SockContext, size_of_SockStats, in_range, MAX_ENTRIES_SK_STATS_LO, MAX_ENTRIES_SK_STATS_HI,
    MAX_ENTRIES_SK_PROPS_LO, MAX_ENTRIES_SK_PROPS_HI, SK_STATS_TO_PROPS_RATIO, umax in *. simpl fst.
  split_and!; try mlia.
  intros mem' Hle. pose proof (Z.div_le_mono mem mem' 5000000000 ltac:(lia) Hle). lia.
Qed.

Lemma map_sizing_witness :
  map_max_entries 64000000000 = (3000, 9000) ∧ calculate_ebpf_memory_usage 3000 9000 ≤ 8080.
Proof.
  split; [reflexivity|].
  destruct (map_sizing 64000000000) as (_ & _ & _ & _ & _ & H); [by_eval|]. exact H.
Defined.

(** C19: Adaptive sampling.  The control word the BPF program reads is always the one the agent has
    decided on, starting at 2; each cycle raises the interval when the maps overflowed since the
    last one, up to 1000, and lowers it otherwise, down to 1, without a panic; 18 cycles with
    errors reach the maximum, and 36 without errors reach 1 or less, from any interval. *)
Theorem sampling_adapts self :
  synced self →
  (∃ self', adapt_sampling self = Some self' ∧ synced self' ∧
    interval self' =
      (if 0 <? EventCounters.map_insertion_errors (EventCounters.subtract
                 (sum_counters (nfm_counters self)) (ebpf_counters_latest self))
       then up else down) (interval self)) ∧
  (interval self < up (interval self) ≤ 1000 ∨ interval self = 1000 ∧ up (interval self) = 1000) ∧
  (1 < interval self → 1 ≤ down (interval self) < interval self) ∧
  (∀ n, (18 ≤ n)%nat → Nat.iter n up (interval self) = 1000) ∧
  (∀ n, (36 ≤ n)%nat → 0 ≤ Nat.iter n down (interval self) ≤ 1) ∧
  (∀ mem secs cpus p, new mem secs cpus = Some p → synced p ∧ interval p = 2).
Proof.
  intros Hs. assert (Hi := proj2 Hs). destruct (up_range _ Hi). destruct (down_range _ Hi).
  split; [by apply adapt_synced|]. split; [lia|]. split; [done|].
  split; [intros; by apply up_converges|]. split; [intros; by apply down_converges|].
  intros mem secs cpus p. unfold new. destruct (map_max_entries mem).
  intros (us & _ & Hp)%bind_Some. injection Hp as <-. by repeat split.
Qed.

Definition sampled : t :=
  default (mk [] [] (SharedHashMap.with_max_entries 0) (SharedHashMap.with_max_entries 0)
             ControlData.default EventCounters.default EventCounters.default 0
             ProcessCounters.default 0 0 SockCache.new ∅ ∅)
    (new 64000000000 60 2).

Lemma sampling_adapts_witness :
  ∃ self', adapt_sampling sampled = Some self' ∧ interval self' = 1.
Proof.
  destruct (sampling_adapts sampled) as ((self' & H1 & _ & H2) & _); [by repeat split|].
  exists self'. split; [exact H1|]. rewrite H2. reflexivity.
Defined.

(** C18: No event is lost or reported twice.  However the kernel's per-CPU counters evolve, wrap
    around, are read by cycles and published by reports, the deltas published so far always add up
    to the totals at the last publication, and publishing after a read brings them to the totals
    of that read. *)
Theorem event_counters_conserved mem secs cpus p ops per_cpu :
  new mem secs cpus = Some p →
  let '(published, self) := foldl counter_step ([], p) ops in
  foldl EventCounters.add_from EventCounters.default published = ebpf_counters_published self ∧
  let '(published', _) := foldl counter_step (published, self) [ReadCounters per_cpu; Publish] in
  foldl EventCounters.add_from EventCounters.default published' = sum_counters per_cpu.
Proof.
  intros Hp. assert (counters_inv [] p) as Hinit.
  { unfold new in Hp. destruct (map_max_entries mem). apply bind_Some in Hp as (? & _ & Hp).
    injection Hp as <-. split; [apply EventCountersFacts.counters_default_wf|done]. }
  assert (counters_inv (foldl counter_step ([], p) ops).1 (foldl counter_step ([], p) ops).2) as Hops.
  { revert Hinit. generalize (@nil EventCounters.t) p. induction ops as [|op ops IH]; intros l s Hls; [done|].
    cbn [foldl]. pose proof (counter_step_inv (l, s) op Hls) as Hstep.
    destruct (counter_step (l, s) op). by apply IH. }
  destruct (foldl counter_step ([], p) ops) as [published self]. simpl in Hops.
  split; [apply Hops|]. cbn [foldl].
  pose proof (counter_step_inv (published, self) (ReadCounters per_cpu) Hops) as Hread.
  pose proof (counter_step_inv (_, _) Publish Hread) as Hpub. exact (proj2 Hpub).
Qed.

Lemma event_counters_conserved_witness :
  let '(published, self) := foldl counter_step ([], sampled)
    [ReadCounters [EventCounters.default <| EventCounters.rtt_events := 5 |>]; Publish] in
  foldl EventCounters.add_from EventCounters.default published = ebpf_counters_published self.
Proof.
  exact (proj1 (event_counters_conserved 64000000000 60 2 sampled
    [ReadCounters [EventCounters.default <| EventCounters.rtt_events := 5 |>]; Publish] [] eq_refl)).
Defined.

(** C8: Merging a socket's statistics over the CPU cores.  The stream built from the entries of the
    statistics map holds, for each socket seen and no other, the largest cumulative values, the
    sums of the per-core counters, the union of the state flags and the extreme round-trip times
    over its cores, with the list of those cores; building it panics exactly when one of the sums
    overflows, and neither depends on the order in which the map yields its entries. *)
Theorem core_aggregation_exact (items items' : list (Result (CpuSockKey.t * SockStats.t) unit)) cache :
  Forall item_ok (flatten items) → flatten items ≡ₚ flatten items' →
  match aggregate_sock_stats items cache ∅, aggregate_sock_stats items' cache ∅ with
  | Some m, Some m' =>
      stream_fits (flatten items) = true ∧
      (∀ k, m !! k = stream_spec cache k (flatten items)) ∧
      (∀ k, AggSockStats.stats <$> m !! k = AggSockStats.stats <$> m' !! k)
  | None, None => stream_fits (flatten items) = false
  | _, _ => False
  end.
Proof.
  intros Hok Hp. assert (Forall item_ok (flatten items')) as Hok' by by rewrite <- Hp.
  pose proof (aggregate_loop cache _ Hok) as H1. pose proof (aggregate_loop cache _ Hok') as H2.
  pose proof (stream_fits_perm _ _ Hp Hok) as Hf. unfold aggregate_sock_stats.
  destruct (foldM _ ∅ (flatten items)) as [m|], (foldM _ ∅ (flatten items')) as [m'|].
  - destruct H1 as [H1 Hm], H2 as [_ Hm']. split_and!; [done..|]. intros k. rewrite Hm, Hm'.
    by apply stream_spec_perm.
  - destruct H1. congruence.
  - destruct H2. congruence.
  - done.
Qed.

Definition two_cores : list (Result (CpuSockKey.t * SockStats.t) unit) :=
  [Ok (CpuSockKey.mk 0 7, SockStats.default <| SockStats.bytes_received := 10 |> <| SockStats.retrans_est := 2 |>);
   Err tt;
   Ok (CpuSockKey.mk 3 7, SockStats.default <| SockStats.bytes_received := 25 |> <| SockStats.retrans_est := 1 |>)].

#[global] Instance item_ok_dec it : Decision (item_ok it).
Proof. unfold item_ok, SockStats.wf. apply _. Defined.

Lemma core_aggregation_exact_witness :
  match aggregate_sock_stats two_cores SockCache.new ∅ with
  | Some m => stream_fits (flatten two_cores) = true ∧
      m !! 7 = Some (AggSockStats.mk (SockStats.default <| SockStats.bytes_received := 25 |>
        <| SockStats.retrans_est := 3 |>) [0; 3])
  | None => False
  end.
Proof.
  pose proof (core_aggregation_exact two_cores (reverse two_cores) SockCache.new) as H.
  destruct (aggregate_sock_stats two_cores SockCache.new ∅) as [m|] eqn:E;
    [|vm_compute in E; discriminate E].
  destruct (aggregate_sock_stats (reverse two_cores) SockCache.new ∅) as [m'|] eqn:E';
    [|vm_compute in E'; discriminate E'].
  destruct H as (Hf & Hm & _).
  - by_eval.
  - by_eval.
  - split; [exact Hf|]. rewrite Hm. vm_compute. reflexivity.
Defined.

(** C7: Aggregation into flows accounts for every socket.  Each delta is counted exactly once, as
    completed, partial or failed; each flow tracked afterwards has the statistics obtained by
    clearing its levels and adding the deltas of all its sockets in turn, one completed socket for
    each that is about to be evicted; a flow is left out only when the limit is reached; and the
    number of flows stays within the limit. *)
Theorem flows_account_sockets order cache flows r flows' :
  aggregate_into_flows order cache flows = Some (r, flows') →
  SockOperationResult.total r = Z.of_nat (length order) ∧
  FlowFacts.flows_exact cache (clear_flow_levels flows) order flows' ∧
  Z.of_nat (size flows') ≤ Z.max AGG_FLOWS_MAX_ENTRIES (Z.of_nat (size flows)).
Proof.
  unfold aggregate_into_flows. intros H.
  destruct (FlowFacts.flows_loop cache _ _ _ _ _ H) as (Hex & _ & Hmax & Ht).
  split; [done|]. split; [done|]. unfold clear_flow_levels in Hmax. by rewrite map_size_fmap in Hmax.
Qed.

Definition tracked (c : SockContext.t) : SockCache.t :=
  (SockCache.add_context SockCache.new 7 c 100).2.
Definition client_sock : SockContext.t :=
  SockContext.default <| SockContext.local_ipv4 := 1 |> <| SockContext.remote_ipv4 := 2 |>
    <| SockContext.remote_port := 443 |> <| SockContext.address_family := AF_INET |>
    <| SockContext.is_client := true |>.

Lemma flows_account_sockets_witness :
  match aggregate_into_flows [(7, AggSockStats.default)] (tracked client_sock) ∅ with
  | Some (r, _) => SockOperationResult.total r = 1
  | None => False
  end.
Proof.
  destruct (aggregate_into_flows [(7, AggSockStats.default)] (tracked client_sock) ∅) as [[r flows']|] eqn:E.
  - exact (proj1 (flows_account_sockets _ _ _ _ _ E)).
  - refine (succeeds_None _ _ E). vm_compute. reflexivity.
Defined.

(** What the phases of a cycle amount to when its inputs are well formed. *)
Section cycle.
Context {R : Type} `{NatResolverLaws R} (rd : reads) (ord : orders) (Hord : orders_ok ord).
Context (self : t) (nat_resolver : R) (Hstream : sock_stream self = ∅).
Context (Hitems : Forall item_ok (flatten (stats_read rd))).

Lemma runs_stream tr :
  runs rd ord self nat_resolver tr →
  dom (tr_stream tr) = seen_socks (flatten (stats_read rd)) ∧ dom (deltas tr) = dom (tr_stream tr).
Proof.
  intros [_ _ Hs Hd _ _]. split.
  - rewrite Hstream in Hs. pose proof (aggregate_loop (added_cache tr) _ Hitems) as Hl.
    unfold aggregate_sock_stats in Hs. rewrite Hs in Hl. destruct Hl as [_ Hl]. by eapply stream_dom.
  - pose proof (SockCacheFacts.update_stats_spec (added_cache tr) (tr_stream tr)
      (stream_order ord (tr_stream tr)) (staleness rd self) (stream_perm _ Hord _)) as Hu.
    unfold deltas. rewrite Hd in Hu. destruct (tr_deltas tr) as [[r c] D]. simpl.
    destruct Hu as (_ & _ & _ & Hu). apply set_eq. intros k. rewrite !elem_of_dom, Hu.
    apply fmap_is_Some.
Qed.

Lemma runs_counts tr :
  runs rd ord self nat_resolver tr →
  SockOperationResult.total tr.(tr_deltas).1.1 = Z.of_nat (size (seen_socks (flatten (stats_read rd)))) ∧
  SockOperationResult.total tr.(tr_flows).1 = Z.of_nat (size (seen_socks (flatten (stats_read rd)))).
Proof.
  intros Hr. destruct (runs_stream tr Hr) as [Hd1 Hd2]. destruct Hr as [_ _ _ Hd _ Hf]. split.
  - pose proof (SockCacheFacts.update_stats_spec (added_cache tr) (tr_stream tr)
      (stream_order ord (tr_stream tr)) (staleness rd self) (stream_perm _ Hord _)) as Hu.
    rewrite Hd in Hu. destruct (tr_deltas tr) as [[r c] D]. simpl in *. destruct Hu as (-> & _).
    rewrite tally_total, known_new_length, length_map_to_list, <- Hd1, size_dom. done.
  - unfold aggregate_into_flows in Hf. destruct (tr_flows tr) as [r flows]. simpl.
    apply FlowFacts.flows_loop in Hf as (_ & _ & _ & ->). simpl.
    rewrite (flow_perm _ Hord), length_map_to_list, <- Hd1, <- Hd2, size_dom. done.
Qed.

(** The table after the cycle: sockets that are live. *)
Lemma runs_survivor tr k w :
  runs rd ord self nat_resolver tr →
  SockCache.cache (SockCache.perform_eviction (natted_cache tr)).2 !! k = Some w →
  staleness rd self < SockWrapper.last_touched_us w ∧ SockCacheFacts.age w ≤ 1 ∧
  SockWrapper.is_complete w = false ∧ k ∉ (to_evict ord tr).*1.
Proof.
  intros [_ _ _ Hd Hn _]. unfold natted_cache, SockCache.perform_eviction. simpl.
  rewrite map_lookup_filter_Some. simpl. intros [Hw Hev].
  destruct (tr_natted tr) as [nr cache3] eqn:Etr. simpl in Hw.
  apply store_only_external in Hn as [_ Hn]; [|by apply cache_perm]. specialize (Hn k). rewrite Hw in Hn.
  destruct (SockCache.cache (delta_cache tr) !! k) as [w0|] eqn:Ew0; [|done].
  apply external_should_evict in Hn as (He & Hl & Ha & Hc).
  assert (SockCache.cache (SockCacheFacts.cycle (added_cache tr)
    (tr_stream tr, stream_order ord (tr_stream tr), staleness rd self)) !! k = Some w0) as Hcyc.
  { unfold SockCacheFacts.cycle. rewrite Hd. unfold delta_cache in Ew0.
    destruct (tr_deltas tr) as [[r c] D]. simpl in *. apply map_lookup_filter_Some. simpl.
    split; [done|]. congruence. }
  apply SockCacheFacts.survivor in Hcyc as (_ & ? & ? & ?); [|by apply stream_perm].
  split_and!; [congruence|congruence|congruence|].
  unfold to_evict, natted_cache. rewrite Etr, (evict_perm _ Hord). simpl.
  intros ([k' w'] & -> & Hin)%list_elem_of_fmap. apply elem_of_map_to_list, map_lookup_filter_Some in Hin as [Hin Hev'].
  simpl in *. congruence.
Qed.

End cycle.

(** C4: The effect of an aggregation cycle.  Whatever the kernel maps yield and however hash maps
    are visited, a cycle that completes empties the stream, counts every socket it has seen once
    in the delta counters and once in the flow counters, keeps only sockets that are recent, not
    closed and not overdue for their properties, leaves the BPF statistics of all sockets it keeps
    untouched, keeps the number of flows within the limit and the control word in step, and never
    lets the statistics map exceed its capacity.  It frees exactly the contexts its table of sockets
    has taken over ([taken_over]): those read before the sockets of the table and of the reading
    together pass the limit of the table; the context that does not fit, every context read after
    it and every context not read stay in the map for a later cycle. *)
Theorem cycle_effect {R : Type} `{NatResolverLaws R} rd ord self (nat nat' : R) self' :
  orders_ok ord → sock_stream self = ∅ → Forall item_ok (flatten (stats_read rd)) → synced self →
  EventProviderEbpf.perform_aggregation_cycle rd ord self nat = Some (self', nat') →
  let seen := Z.of_nat (size (seen_socks (flatten (stats_read rd)))) in
  let p := process_counters self in
  let p' := process_counters self' in
  sock_stream self' = ∅ ∧ synced self' ∧
  ProcessCounters.socket_deltas_completed p' + ProcessCounters.socket_deltas_missing_props p' +
    ProcessCounters.socket_deltas_above_limit p' =
  ProcessCounters.socket_deltas_completed p + ProcessCounters.socket_deltas_missing_props p +
    ProcessCounters.socket_deltas_above_limit p + seen ∧
  ProcessCounters.socket_agg_completed p' + ProcessCounters.socket_agg_missing_props p' +
    ProcessCounters.socket_agg_above_limit p' =
  ProcessCounters.socket_agg_completed p + ProcessCounters.socket_agg_missing_props p +
    ProcessCounters.socket_agg_above_limit p + seen ∧
  (∀ k w, SockCache.get (sock_cache self') k = Some w →
    saturating_sub (now_us rd) (notrack_us self) < SockWrapper.last_touched_us w ∧
    SockCacheFacts.age w ≤ 1 ∧ SockWrapper.is_complete w = false ∧
    ∀ cpu, SharedHashMap.data (ebpf_sock_stats self') !! CpuSockKey.mk cpu k =
           SharedHashMap.data (ebpf_sock_stats self) !! CpuSockKey.mk cpu k) ∧
  (∀ key, taken_over (sock_cache self) (flatten (props_read rd)) key →
    SharedHashMap.data (ebpf_sock_props self') !! key = None) ∧
  (∀ key, ¬ taken_over (sock_cache self) (flatten (props_read rd)) key →
    SharedHashMap.data (ebpf_sock_props self') !! key = SharedHashMap.data (ebpf_sock_props self) !! key) ∧
  Z.of_nat (size (flow_cache self')) ≤
    Z.max AGG_FLOWS_MAX_ENTRIES (Z.of_nat (size (flow_cache self))) ∧
  (SharedHashMap.bounded (ebpf_sock_stats self) → SharedHashMap.bounded (ebpf_sock_stats self')).
Proof.
  intros Hord Hst Hit Hsync Hcyc seen p p'. pose proof (cycle_runs rd ord self nat) as Hruns.
  rewrite Hcyc in Hruns. destruct Hruns as (-> & tr & Hr & He).
  destruct (runs_counts rd ord Hord self nat Hst Hit tr Hr) as [Hc1 Hc2].
  unfold SockOperationResult.total in Hc1, Hc2.
  pose proof (evict_loop SockOperationResult.default (ebpf_sock_stats self) (to_evict ord tr)) as Hev.
  fold (bpf_eviction ord self tr) in Hev.
  destruct (adapt_synced self Hsync) as (self0 & Ha & Hs0 & _). rewrite (run_adapt _ _ _ _ _ Hr) in Ha.
  injection Ha as Ha. destruct He as [[Hctl Hdat] Hca Hsm Hpr Hem Hfl _ (n & Hn & Hcnt) _ _ _ _].
  destruct Hcnt as (_ & _ & D1 & D2 & D3 & F1 & F2 & F3 & _). fold p p' in D1, D2, D3, F1, F2, F3.
  assert (∀ key, key ∈ (tr_added tr).2 ↔ taken_over (sock_cache self) (flatten (props_read rd)) key) as Hkeys.
  { intros key. rewrite <- (run_add _ _ _ _ _ Hr), add_contexts_taken. set_solver. }
  split_and!.
  - done.
  - unfold synced, interval in *. by rewrite Hctl, Hdat, Ha.
  - lia.
  - lia.
  - intros k w Hw. unfold SockCache.get in Hw. rewrite Hca in Hw.
    apply (runs_survivor rd ord Hord self nat) in Hw as (? & ? & ? & Hk); [|done].
    split_and!; [done..|]. intros cpu. rewrite Hsm. destruct (bpf_eviction ord self tr) as [r m].
    destruct Hev as (Hother & _). by apply Hother.
  - intros key Hk. rewrite Hpr, decide_True; [done|]. by rewrite (keys_perm _ Hord), elem_of_elements, Hkeys.
  - intros key Hk. rewrite Hpr, decide_False; [done|]. by rewrite (keys_perm _ Hord), elem_of_elements, Hkeys.
  - rewrite Hfl. pose proof (run_flows _ _ _ _ _ Hr) as Hf. destruct (tr_flows tr) as [r flows].
    unfold aggregate_into_flows in Hf. apply FlowFacts.flows_loop in Hf as (_ & _ & Hmax & _).
    unfold clear_flow_levels in Hmax. by rewrite map_size_fmap in Hmax.
  - rewrite Hsm. destruct (bpf_eviction ord self tr) as [r m]. tauto.
Qed.

Definition sample_reads : reads :=
  mk_reads 100000000 [Ok (CpuSockKey.mk 0 7, client_sock)] two_cores.

Lemma cycle_effect_witness :
  match EventProviderEbpf.perform_aggregation_cycle sample_reads plain_orders sampled NatResolverNoOp.mk with
  | Some (self', _) =>
      ProcessCounters.socket_agg_completed (process_counters self') +
      ProcessCounters.socket_agg_missing_props (process_counters self') +
      ProcessCounters.socket_agg_above_limit (process_counters self') = 1
  | None => False
  end.
Proof.
  destruct (EventProviderEbpf.perform_aggregation_cycle sample_reads plain_orders sampled NatResolverNoOp.mk)
    as [[self' nat']|] eqn:E.
  - destruct (cycle_effect sample_reads plain_orders sampled NatResolverNoOp.mk nat' self'
      plain_orders_ok eq_refl ltac:(by_eval) ltac:(repeat split; discriminate) E)
      as (_ & _ & _ & H & _).
    rewrite H. vm_compute. reflexivity.
  - refine (succeeds_None _ _ E). vm_compute. reflexivity.
Defined.

(** A cycle does not panic, with a control word in step, an empty stream, statistics entries as the
    BPF program writes them whose per-core counters add up within their widths, a resolver that
    resolves, and room in the flows for the sockets seen. *)
Lemma cycle_succeeds {R : Type} `{NatResolver R} rd ord self (nat : R) :
  orders_ok ord → synced self → sock_stream self = ∅ →
  Forall item_ok (flatten (stats_read rd)) → stream_fits (flatten (stats_read rd)) = true →
  (∀ cache order, is_Some (store_beyond_nat_entries (NatResolver.perform_aggregation_cycle nat) cache order)) →
  Z.of_nat (size (seen_socks (flatten (stats_read rd)))) ≤ umax u32 →
  FlowFacts.flows_room (Z.of_nat (size (seen_socks (flatten (stats_read rd)))))
    (clear_flow_levels (flow_cache self)) →
  is_Some (EventProviderEbpf.perform_aggregation_cycle rd ord self nat).
Proof.
  intros Hord Hsync Hst Hit Hfit Hnat Hseen Hroom.
  pose proof (cycle_runs rd ord self nat) as Hruns.
  destruct (EventProviderEbpf.perform_aggregation_cycle rd ord self nat); [done|]. exfalso. apply Hruns.
  destruct (adapt_synced self Hsync) as (self0 & Ha & _).
  destruct (add_contexts (flatten (props_read rd)) (saturating_sub (now_us rd) (notrack_us self / 2))
    (sock_cache self) SockOperationResult.default ∅) as [[cache1 add_r] keys] eqn:Eadd.
  pose proof (aggregate_loop cache1 _ Hit) as Hl.
  destruct (foldM (aggregate_one cache1) ∅ (flatten (stats_read rd))) as [stream|] eqn:Es; [|congruence].
  destruct Hl as [_ Hl]. apply stream_dom in Hl.
  pose proof (SockCacheFacts.update_stats_spec cache1 stream (stream_order ord stream) (staleness rd self)
    (stream_perm _ Hord _)) as Hu.
  destruct (SockCache.update_stats_and_get_deltas cache1 stream (stream_order ord stream) (staleness rd self))
    as [[delta_r cache2] ds] eqn:Ed. destruct Hu as (_ & _ & _ & Hu).
  destruct (Hnat cache2 (cache_order ord (SockCache.cache cache2))) as [[nat_r cache3] Hn].
  assert (length (flow_order ord ds) = size (seen_socks (flatten (stats_read rd)))) as Hlen.
  { rewrite (flow_perm _ Hord), length_map_to_list, <- Hl, <- (size_dom ds). f_equal.
    apply set_eq. intros k. rewrite !elem_of_dom, Hu. apply fmap_is_Some. }
  destruct (FlowFacts.flows_loop_total cache3 (flow_order ord ds) SockOperationResult.default
    (clear_flow_levels (flow_cache self))) as [flows Hf]; [by rewrite Hlen..|].
  exists (mk_trace self0 (cache1, add_r, keys) stream (delta_r, cache2, ds) (nat_r, cache3) flows).
  constructor; unfold aggregate_sock_stats, added_cache; simpl; try done. by rewrite Hst.
Qed.

(** C40: A cycle panics when the connection attempts of one socket, summed over the cores, exceed
    255: each core counts up to 255 attempts of its own, but their sum is taken in eight bits with
    overflow checks. *)
Theorem attempts_overflow_panics {R : Type} `{NatResolver R} rd ord self (nat : R) k :
  sock_stream self = ∅ → Forall item_ok (flatten (stats_read rd)) →
  umax u8 < Zsum (SockStats.connect_attempts <$> stats_of k (flatten (stats_read rd))) →
  EventProviderEbpf.perform_aggregation_cycle rd ord self nat = None.
Proof.
  intros Hst Hit Hsum. pose proof (cycle_runs rd ord self nat) as Hruns.
  destruct (EventProviderEbpf.perform_aggregation_cycle rd ord self nat) as [[self' nat']|]; [|done].
  exfalso. destruct Hruns as (_ & tr & [_ _ Hs _ _ _] & _). rewrite Hst in Hs.
  pose proof (aggregate_loop (added_cache tr) _ Hit) as Hl. unfold aggregate_sock_stats in Hs.
  rewrite Hs in Hl. destruct Hl as [Hfit _]. rewrite stream_fits_all in Hfit. specialize (Hfit k).
  unfold SockStatsFacts.merge_fits in Hfit. rewrite !andb_true_iff, !Z.leb_le in Hfit. lia.
Qed.

Definition busy_cores : list (Result (CpuSockKey.t * SockStats.t) unit) :=
  [Ok (CpuSockKey.mk 0 7, SockStats.default <| SockStats.connect_attempts := 200 |>);
   Ok (CpuSockKey.mk 1 7, SockStats.default <| SockStats.connect_attempts := 56 |>)].

Lemma attempts_overflow_panics_witness :
  EventProviderEbpf.perform_aggregation_cycle (mk_reads 100000000 [] busy_cores) plain_orders sampled
    NatResolverNoOp.mk = None.
Proof.
  refine (attempts_overflow_panics (mk_reads 100000000 [] busy_cores) plain_orders sampled
    NatResolverNoOp.mk 7 eq_refl _ _).
  - by_eval.
  - by_eval.
Defined.
