(* ===== verification/System.v ===== *)
(** * System: the kernel side and the agent together

    The eBPF program and the agent share four maps: the program writes the properties and statistics
    of sockets and the counters of its CPU, and reads the control word; the agent reads the first
    three, removes entries, and writes the fourth.  The maps are those of the provider of
    EventProvider.v; an event runs the entry point of SockOps.v over them, with the counters of the
    CPU it runs on.

    The two sides are interleaved.  The agent reads the hash maps one entry at a time, and events
    come in between, so that the entries a cycle works on have been in the maps at some time, but
    not at the same time.  The cycle itself then runs on what was read. *)

From stdpp Require Import base numbers gmap list strings relations.
From S2P Require Import Prelude Network BpfMaps SockOps SockOpsFacts SockCache ReportData NetworkEvent NatResolver.
From S2P Require Import EventProvider EventProviderFacts EventProviderProperties.
Import EventProviderEbpf SocketQueries.

Module System.
Section system.
Context {R : Type} `{NatResolver R}.

Record t := mk {
  provider : EventProviderEbpf.t;
  resolver : R;
  (** What the current cycle has read so far. *)
  props_seen : list (CpuSockKey.t * SockContext.t);
  stats_seen : list (CpuSockKey.t * SockStats.t);
  (** The time of the last event, in microseconds since boot. *)
  now : Z;
}.

#[global] Instance eta_t : Eta t := λ r, mk (provider r) (resolver r) (props_seen r) (stats_seen r) (now r).

(** The maps as the program sees them on one CPU, whose counters are [c]. *)
Definition maps_on (p : EventProviderEbpf.t) (c : EventCounters.t) (rand : Z) : EbpfMaps.t :=
  EbpfMaps.mk (nfm_control p) [c] (ebpf_sock_props p) (ebpf_sock_stats p) rand.

(** The maps after an event on the CPU [cpu]. *)
Definition store_maps (p : EventProviderEbpf.t) (cpu : nat) (maps : EbpfMaps.t) : EventProviderEbpf.t :=
  p <| nfm_control := EbpfMaps.NFM_CONTROL maps |>
    <| nfm_counters ::= λ cs, match EbpfMaps.NFM_COUNTERS maps with [c] => <[cpu := c]> cs | _ => cs end |>
    <| ebpf_sock_props := EbpfMaps.NFM_SK_PROPS maps |>
    <| ebpf_sock_stats := EbpfMaps.NFM_SK_STATS maps |>.

(** The program handles an event. *)
Definition on_event (cpu : nat) (set_cb_flags : SockOpsContext.t → Z → Result unit Z) (rand : Z)
    (ctx : SockOpsContext.t) (now' : Z) (self : t) : option t :=
  c ← nfm_counters (provider self) !! cpu;
  maps ← TcpSockOpsHandler.nfm_sock_ops (Z.of_nat cpu) set_cb_flags ctx now' (maps_on (provider self) c rand);
  Some (self <| provider := store_maps (provider self) cpu maps |> <| now := now' |>).

(** The agent reads one more entry. *)
Definition read_props (key : CpuSockKey.t) (self : t) : option t :=
  sc ← SharedHashMap.get (ebpf_sock_props (provider self)) key;
  Some (self <| props_seen ::= λ l, l ++ [(key, sc)] |>).

Definition read_stats (key : CpuSockKey.t) (self : t) : option t :=
  s ← SharedHashMap.get (ebpf_sock_stats (provider self)) key;
  Some (self <| stats_seen ::= λ l, l ++ [(key, s)] |>).

(** The agent runs a cycle on what it has read; [agent_now] is the time it has read before. *)
Definition run_cycle (agent_now : Z) (ord : orders) (self : t) : option t :=
  '(p, r) ← perform_aggregation_cycle
              (mk_reads agent_now (Ok <$> props_seen self) (Ok <$> stats_seen self)) ord (provider self) (resolver self);
  Some (self <| provider := p |> <| resolver := NatResolver.perform_eviction r |>
             <| props_seen := [] |> <| stats_seen := [] |>).

(** The agent takes the flows for a report, and the counters. *)
Definition take_report (order : gmap FlowProperties.t AggregateResults.t → list (FlowProperties.t * AggregateResults.t))
    (self : t) : list AggregateResults.t * CountersOverall.t * t :=
  let '(flows, p) := network_stats (provider self) (order (flow_cache (provider self))) in
  let '(counters, p) := counters p in
  (flows, counters, self <| provider := p |>).

(** What a step shows to the outside. *)
Inductive label :=
| Silent
| Aggregated
| Reported (flows : list AggregateResults.t) (counters : CountersOverall.t).

(** All that happens. *)
Inductive step : t → label → t → Prop :=
| step_event cpu scb rand ctx now' s s' :
    MapInvariant.kernel_event ctx → now s ≤ now' → in_range u64 now' →
    on_event cpu scb rand ctx now' s = Some s' → step s Silent s'
| step_read_props key s s' : read_props key s = Some s' → step s Silent s'
| step_read_stats key s s' : read_stats key s = Some s' → step s Silent s'
| step_cycle agent_now ord s s' :
    orders_ok ord → run_cycle agent_now ord s = Some s' → step s Aggregated s'
| step_refresh s :
    step s Silent (s <| resolver ::= NatResolver.perform_aggregation_cycle |>)
| step_report order s flows counters s' :
    (∀ m, order m ≡ₚ map_to_list m) → take_report order s = (flows, counters, s') →
    step s (Reported flows counters) s'.

Definition moves (s s' : t) : Prop := ∃ l, step s l s'.

(** After start-up. *)
Definition start (mem_total_bytes notrack_secs : Z) (num_cpus : nat) (r : R) : option t :=
  p ← EventProviderEbpf.new mem_total_bytes notrack_secs num_cpus;
  Some (mk p r [] [] 0).

End system.
Arguments t : clear implicits.
End System.
