(* ===== verification/SystemProperties.v ===== *)
(** * SystemProperties: what holds of the kernel side and the agent together

    The invariant of all states that interleavings of kernel events, reads, cycles and reports lead
    to.  It discharges the assumptions that the theorems of the single components make of each
    other. *)

From stdpp Require Import base numbers gmap list strings relations.
From S2P Require Import Prelude Network BpfMaps SockOps SockOpsFacts SockOpsProperties SockCache SockCacheFacts.
From S2P Require Import ReportData NetworkEvent NetworkEventFacts NatResolver.
From S2P Require Import EventProvider EventProviderFacts EventProviderProperties System.
Import EventProviderEbpf SocketQueries StreamFacts FlowFacts ProviderFacts CycleFacts CountFacts.
Import TcpSockOpsHandler SockSlotFacts MapInvariant.

(** ** The invariant *)
Module SystemInvariant.
Import System.

Section invariant.
Context {R : Type} `{NatResolverLaws R}.
Implicit Types (s : System.t R) (p : EventProviderEbpf.t).

Lemma flatten_seen {K V : Type} (l : list (K * V)) : flatten (Ok (E := unit) <$> l) = l.
Proof. induction l as [|x l IH]; [done|]. cbn. by f_equal. Qed.

Record system_ok (s : System.t R) : Prop := {
  (** The maps are those the program maintains, up to the agent's removals. *)
  ok_maps : maps_ok (now s) (maps_on (provider s) EventCounters.default 0);
  ok_counters : Forall EventCounters.wf (nfm_counters (provider s));
  ok_cpus : Z.of_nat (length (nfm_counters (provider s))) ≤ 2 ^ 32;
  ok_keys : map_Forall (λ key _, in_range u32 (CpuSockKey.cpu_id key))
    (SharedHashMap.data (ebpf_sock_stats (provider s)));
  (** What was read is well formed, also if it has changed since. *)
  ok_stats_seen : Forall item_ok (stats_seen s);
  ok_props_seen : Forall (λ it, props_ok it.2) (props_seen s);
  (** The agent's side. *)
  ok_synced : synced (provider s);
  ok_stream : sock_stream (provider s) = ∅;
  ok_flows : map_Forall (λ _ a, StatsTypes.stats_wf (AggregateResults.stats a)) (flow_cache (provider s));
  ok_flow_count : Z.of_nat (size (flow_cache (provider s))) ≤ AGG_FLOWS_MAX_ENTRIES;
}.

(** The counters of a CPU do not matter to the rest of the maps. *)
Lemma maps_on_ok t p c c' rand rand' :
  EventCounters.wf c' → maps_ok t (maps_on p c rand) → maps_ok t (maps_on p c' rand').
Proof. intros Hc [Hs Hp Hst _ [_ Hl]]. constructor; try done. by apply Forall_singleton. Qed.

(** An event changes its own slot and the counters of its CPU. *)
Lemma event_frame cpu scb c t maps maps' :
  kernel_event c → nfm_sock_ops cpu scb c t maps = Some maps' →
  EbpfMaps.NFM_CONTROL maps' = EbpfMaps.NFM_CONTROL maps ∧
  length (EbpfMaps.NFM_COUNTERS maps') = length (EbpfMaps.NFM_COUNTERS maps) ∧
  ∀ key, key ≠ event_key cpu c → SockSlot.load maps' key = SockSlot.load maps key.
Proof.
  intros Hc [[_ ->]|[_ [res Hrun]]]%nfm_sock_ops_run; [done|].
  destruct (kernel_event_slot cpu scb c t maps Hc) as (a0 & a1 & sc & _ & _ & _ & Hev). rewrite Hev in Hrun.
  destruct (SockSlot.step _ _ _ _ _ _ _ _ _) as [res' slot']. injection Hrun as <- <-.
  split_and!; [done|by cbn; rewrite length_alter|]. intros key Hne. by rewrite load_other.
Qed.

Lemma event_ok cpu scb rand c t s s' :
  kernel_event c → now s ≤ t → in_range u64 t → on_event cpu scb rand c t s = Some s' →
  system_ok s → system_ok s'.
Proof.
  intros Hc Hle Ht Hrun [Hmaps Hcnt Hcpus Hkeys Hst Hpr Hsync Hstr Hfl Hfc].
  unfold on_event in Hrun. apply bind_Some in Hrun as (cn & Hcn & Hrun). apply bind_Some in Hrun as (maps & Hrun & [= <-]).
  assert (EventCounters.wf cn) as Hcw by (by eapply Forall_lookup_1 in Hcn).
  assert (maps_ok t maps) as Hok'.
  { change (maps_ok (maps, t).2 (maps, t).1). eapply map_step_ok; [by eapply MapInvariant.step_event|]. by eapply maps_on_ok. }
  destruct (event_frame _ _ _ _ _ _ Hc Hrun) as (Hctl & Hlen & Hother).
  destruct Hok' as [Hs Hpb Hsb Hc' [_ Hcl]].
  destruct (EbpfMaps.NFM_COUNTERS maps) as [|c' [|]] eqn:Ec; try done. apply Forall_cons in Hc' as [Hc' _].
  constructor; unfold store_maps; cbn; rewrite ?Ec; try done.
  - constructor; cbn; try done. repeat constructor; apply EventCountersFacts.counters_default_wf.
  - by apply Forall_insert.
  - by rewrite length_insert.
  - intros key st Hk. destruct (decide (key = event_key (Z.of_nat cpu) c)) as [->|Hne].
    + cbn. apply lookup_lt_Some in Hcn. unfold in_range. lia.
    + apply (Hkeys key st). specialize (Hother key Hne). unfold SockSlot.load in Hother. cbn in Hother.
      injection Hother as _ Hk'. by rewrite <- Hk', Hk.
  - unfold synced, interval in *. cbn. rewrite Hctl. done.
Qed.

(** The maps after a removal of entries. *)
Lemma maps_shrink t p p' :
  SharedHashMap.shrinks (ebpf_sock_props p) (ebpf_sock_props p') →
  SharedHashMap.shrinks (ebpf_sock_stats p) (ebpf_sock_stats p') →
  length (nfm_control p') = 1%nat →
  maps_ok t (maps_on p EventCounters.default 0) → maps_ok t (maps_on p' EventCounters.default 0).
Proof.
  intros Hp Hs Hl [Hslots Hpb Hsb Hc _]. constructor; try done; cbn in *.
  - intros key. destruct (Hslots key) as [H1 H2]. split; cbn; [intros sc Hk; apply H1|intros st Hk; apply H2];
      cbn; by eapply SharedHashMap.shrinks_lookup.
  - by eapply SharedHashMap.shrinks_bounded.
  - by eapply SharedHashMap.shrinks_bounded.
Qed.

(** The deltas of a round keep the widths. *)
Lemma deltas_wf rd ord p (r : R) tr :
  orders_ok ord → sock_stream p = ∅ → Forall item_ok (flatten (stats_read rd)) → runs rd ord p r tr →
  Forall (λ it, SockStats.wf (AggSockStats.stats it.2)) (flow_order ord (deltas tr)).
Proof.
  intros Hord Hst Hit [_ _ Hs Hd _ _]. rewrite Hst in Hs. unfold aggregate_sock_stats in Hs.
  pose proof (aggregate_loop (added_cache tr) _ Hit) as Hl. rewrite Hs in Hl. destruct Hl as [Hfit Hl].
  pose proof (SockCacheFacts.update_stats_spec (added_cache tr) (tr_stream tr)
    (stream_order ord (tr_stream tr)) (staleness rd p) (stream_perm _ Hord _)) as Hu.
  rewrite Hd in Hu. unfold deltas. destruct (tr_deltas tr) as [[r1 c] D]. destruct Hu as (_ & _ & _ & Hu).
  rewrite (flow_perm _ Hord). apply Forall_forall. intros [k a] Hin%elem_of_map_to_list. rewrite Hu in Hin.
  apply fmap_Some in Hin as (inc & Hinc & ->). rewrite Hl in Hinc. unfold stream_spec in Hinc.
  assert (SockStats.wf (AggSockStats.stats inc)) as Hwf.
  { pose proof (stats_of_wf k _ Hit) as Hall. rewrite stream_fits_all in Hfit. specialize (Hfit k).
    destruct (stats_of k _) as [|x xs]; [done|]. injection Hinc as <-. cbn [AggSockStats.stats].
    eapply (SockStatsFacts.merge_cores_wf (SockCache.get_last_touched (added_cache tr) k)); [exact Hall|].
    by rewrite SockStatsFacts.merge_cores_spec, Hfit. }
  cbn. unfold RoundSpec.delta. destruct (SockCache.cache (added_cache tr) !! k); [|done].
  by apply SockStatsFacts.stats_subtract_wf.
Qed.

Lemma system_cycle_ok agent_now ord s s' :
  orders_ok ord → run_cycle agent_now ord s = Some s' → system_ok s → system_ok s'.
Proof.
  intros Hord Hrun [Hmaps Hcnt Hcpus Hkeys Hst Hpr Hsync Hstr Hfl Hfc]. unfold run_cycle in Hrun.
  set (rd := mk_reads agent_now (Ok <$> props_seen s) (Ok <$> stats_seen s)) in Hrun.
  assert (flatten (stats_read rd) = stats_seen s) as Hread by apply flatten_seen.
  apply bind_Some in Hrun as ([p' r'] & Hcyc & [= <-]).
  pose proof (cycle_runs rd ord (provider s) (resolver s)) as Hruns. rewrite Hcyc in Hruns.
  destruct Hruns as (-> & tr & Hr & He).
  assert (Forall item_ok (flatten (stats_read rd))) as Hit by by rewrite Hread.
  pose proof (deltas_wf rd ord _ _ tr Hord Hstr Hit Hr) as Hwf.
  destruct (adapt_synced _ Hsync) as (self0 & Ha & Hs0 & _). rewrite (run_adapt _ _ _ _ _ Hr) in Ha. injection Ha as Ha.
  pose proof (run_flows _ _ _ _ _ Hr) as Hrf. destruct He as [[Hctl Hdat] _ _ _ Hem Hflows _ _ _ _ Hcp [Hsp Hss]].
  assert (synced p') as Hsync' by (unfold synced, interval in *; by rewrite Hctl, Hdat, Ha).
  constructor; cbn; try done.
  - eapply maps_shrink; [done..| |done]. rewrite Hctl, Ha.
    rewrite <- Ha, (adapt_control_length _ _ (run_adapt _ _ _ _ _ Hr)). by destruct Hmaps as [_ _ _ _ [_ Hl]].
  - by rewrite Hcp.
  - by rewrite Hcp.
  - intros key st Hk. eapply SharedHashMap.shrinks_lookup in Hk; [|done]. by eapply Hkeys.
  - rewrite Hflows. destruct (tr_flows tr) as [res flows]. by eapply aggregate_into_flows_wf.
  - rewrite Hflows. destruct (tr_flows tr) as [res flows]. unfold aggregate_into_flows in Hrf.
    apply FlowFacts.flows_loop in Hrf as (_ & _ & Hmax & _). unfold clear_flow_levels in Hmax.
    rewrite map_size_fmap in Hmax. cbn. lia.
Qed.
Lemma read_props_ok key s s' : read_props key s = Some s' → system_ok s → system_ok s'.
Proof.
  intros (sc & Hsc & [= <-])%bind_Some [Hmaps Hcnt Hcpus Hkeys Hst Hpr Hsync Hstr Hfl Hfc].
  constructor; try done. cbn. apply Forall_app. split; [done|]. apply Forall_singleton.
  by apply (maps_slots _ _ Hmaps key).
Qed.

Lemma read_stats_ok key s s' : read_stats key s = Some s' → system_ok s → system_ok s'.
Proof.
  intros (st & Hst & [= <-])%bind_Some [Hmaps Hcnt Hcpus Hkeys Hsts Hpr Hsync Hstr Hfl Hfc].
  constructor; try done. cbn. apply Forall_app. split; [done|]. apply Forall_singleton. split; cbn.
  - by apply (maps_slots _ _ Hmaps key).
  - by apply (Hkeys key st).
Qed.

Lemma report_ok order s flows counters s' :
  take_report order s = (flows, counters, s') → system_ok s → system_ok s'.
Proof.
  intros [= <- <- <-] [Hmaps Hcnt Hcpus Hkeys Hst Hpr Hsync Hstr Hfl Hfc].
  by constructor.
Qed.

(** Every step keeps the invariant. *)
Lemma system_step_ok s l s' : step s l s' → system_ok s → system_ok s'.
Proof.
  intros []; eauto using event_ok, read_props_ok, read_stats_ok, system_cycle_ok, report_ok. by intros [].
Qed.

(** The maps are created empty, and large enough for that. *)
Lemma sizes_nonneg mem : 0 ≤ (map_max_entries mem).1 ∧ 0 ≤ (map_max_entries mem).2.
Proof.
  unfold map_max_entries, MAX_ENTRIES_SK_STATS_LO, MAX_ENTRIES_SK_STATS_HI, MAX_ENTRIES_SK_PROPS_LO,
    MAX_ENTRIES_SK_PROPS_HI, SK_STATS_TO_PROPS_RATIO. cbn. lia.
Qed.

Lemma start_ok mem secs cpus (r : R) s :
  Z.of_nat cpus ≤ 2 ^ 32 → start mem secs cpus r = Some s → system_ok s.
Proof.
  intros Hcpus (p & Hp & [= <-])%bind_Some. unfold new in Hp. destruct (sizes_nonneg mem) as [Hsp Hss].
  apply bind_Some in Hp as (us & _ & Hp).
  pose proof EventCountersFacts.counters_default_wf. injection Hp as <-. constructor; try done.
  - constructor; [by split|done|done|by apply Forall_singleton|done].
  - by apply Forall_replicate.
  - cbn. by rewrite length_replicate.
Qed.

Lemma reachable_ok mem secs cpus (r : R) s0 s :
  Z.of_nat cpus ≤ 2 ^ 32 → start mem secs cpus r = Some s0 → rtc moves s0 s → system_ok s.
Proof.
  intros Hc Hs Hr. apply (start_ok _ _ _ _ _ Hc) in Hs. induction Hr as [|s0 s1 s [l Hl] _ IH]; [done|].
  apply IH. by eapply system_step_ok.
Qed.
(** The number of CPUs does not change. *)
Lemma step_cpus s l s' :
  step s l s' → length (nfm_counters (provider s')) = length (nfm_counters (provider s)).
Proof.
  intros [cpu scb rand ctx t s1 s2 _ _ _ Hrun|key s1 s2 Hrun|key s1 s2 Hrun|t ord s1 s2 _ Hrun|s1|order s1 fl cs s2 _ Hrun].
  - unfold on_event in Hrun. apply bind_Some in Hrun as (x & _ & Hrun). apply bind_Some in Hrun as (m & _ & [= <-]).
    cbn. destruct (EbpfMaps.NFM_COUNTERS m) as [|? []]; try done. apply length_insert.
  - by apply bind_Some in Hrun as (x & _ & [= <-]).
  - by apply bind_Some in Hrun as (x & _ & [= <-]).
  - apply bind_Some in Hrun as ([p' r'] & Hcyc & [= <-]).
    match type of Hcyc with EventProviderEbpf.perform_aggregation_cycle ?rd _ _ _ = _ =>
      pose proof (cycle_runs rd ord (provider s1) (resolver s1)) as Hruns end.
    rewrite Hcyc in Hruns. destruct Hruns as (_ & tr & _ & He). cbn. by rewrite (end_cpus _ _ _ _ He).
  - done.
  - by injection Hrun as _ _ <-.
Qed.

Lemma reachable_cpus mem secs cpus (r : R) s0 s :
  start mem secs cpus r = Some s0 → rtc moves s0 s → length (nfm_counters (provider s)) = cpus.
Proof.
  intros (p & Hp & [= <-])%bind_Some Hr. unfold new in Hp. apply bind_Some in Hp as (us & _ & [= <-]).
  match type of Hr with rtc _ ?s1 _ => assert (length (nfm_counters (provider s1)) = cpus) as Hl by apply length_replicate end.
  induction Hr as [|x y z [l Hl'] _ IH]; [done|]. apply IH. by rewrite (step_cpus _ _ _ Hl').
Qed.

(** The program handles every event on every CPU. *)
Lemma event_runs cpu scb rand c t s :
  (cpu < length (nfm_counters (provider s)))%nat → kernel_event c → is_Some (on_event cpu scb rand c t s).
Proof.
  intros [cn Hcn]%lookup_lt_is_Some Hc. unfold on_event. rewrite Hcn. cbn [mbind option_bind].
  unfold nfm_sock_ops. destruct (BpfControlConveyor.should_handle_event _ _); [|by eexists].
  destruct (kernel_event_slot (Z.of_nat cpu) scb c t (maps_on (provider s) cn rand) Hc) as (a0 & a1 & sc & _ & _ & _ & Hev).
  unfold run_event in Hev. destruct (SockSlot.step _ _ _ _ _ _ _ _ _) as [res slot'].
  destruct (handle_socket_event _ _ _) as [[? ?]|]; [by eexists|done].
Qed.

(** A cycle completes on whatever has been read. *)
Lemma cycle_completes agent_now ord s :
  system_ok s → orders_ok ord → stream_fits (stats_seen s) = true →
  (∀ cache order, is_Some (store_beyond_nat_entries (NatResolver.perform_aggregation_cycle (resolver s)) cache order)) →
  Z.of_nat (size (seen_socks (stats_seen s))) ≤ umax u32 →
  flows_room (Z.of_nat (size (seen_socks (stats_seen s)))) (clear_flow_levels (flow_cache (provider s))) →
  is_Some (run_cycle agent_now ord s).
Proof.
  intros Hok Hord Hfit Hnat Hseen Hroom. unfold run_cycle.
  set (rd := mk_reads agent_now (Ok <$> props_seen s) (Ok <$> stats_seen s)).
  assert (flatten (stats_read rd) = stats_seen s) as Hread by apply flatten_seen.
  destruct (cycle_succeeds rd ord (provider s) (resolver s) Hord) as [[p' r'] ->]; rewrite ?Hread; try apply Hok; try done.
Qed.

End invariant.
End SystemInvariant.

(** ** A run for the witnesses *)
Module SampleRun.
Import System.

(** Two CPUs; a connection on the first of them is opened, transfers 4000 bytes, is seen by a cycle,
    transfers 5000 more and closes, and is seen by another cycle before the report. *)
Definition ev_transfer : SockOpsContext.t := ev_connect
  <| SockOpsContext.op := BPF_SOCK_OPS_HDR_OPT_LEN_CB |>
  <| SockOpsContext.stats := SockOpsStats.mk 4000 1000 5 4 300 |>.
Definition ev_close : SockOpsContext.t := ev_state BPF_TCP_ESTABLISHED BPF_TCP_CLOSE final_stats.
Definition key : CpuSockKey.t := CpuSockKey.mk 0 77.

Definition s0 : System.t NatResolverNoOp.t :=
  default (mk sampled NatResolverNoOp.mk [] [] 0) (start 64000000000 60 2 NatResolverNoOp.mk).
Definition s1 := default s0 (on_event 0 accept_flags 0 ev_connect 1000 s0).
Definition s2 := default s1 (on_event 0 accept_flags 0 ev_transfer 2000 s1).
Definition s3 := default s2 (read_props key s2).
Definition s4 := default s3 (read_stats key s3).
Definition s5 := default s4 (run_cycle 3000 plain_orders s4).
Definition s6 := default s5 (on_event 0 accept_flags 0 ev_close 4000 s5).
Definition s7 := default s6 (read_stats key s6).
Definition s8 := default s7 (run_cycle 5000 plain_orders s7).
Definition s9 := (take_report map_to_list s8).2.

Lemma sample_step1 : step s0 Silent s1.
Proof. apply (step_event 0 accept_flags 0 ev_connect 1000); [apply ev_connect_kernel|by_eval..|]. by vm_compute. Defined.
Lemma sample_step2 : step s1 Silent s2.
Proof. apply (step_event 0 accept_flags 0 ev_transfer 2000); [by_eval..|]. by vm_compute. Defined.
Lemma sample_step3 : step s2 Silent s3.
Proof. apply (step_read_props key). by vm_compute. Defined.
Lemma sample_step4 : step s3 Silent s4.
Proof. apply (step_read_stats key). by vm_compute. Defined.
Lemma sample_step5 : step s4 Aggregated s5.
Proof. apply (step_cycle 3000 plain_orders); [apply plain_orders_ok|]. by vm_compute. Defined.
Lemma sample_step6 : step s5 Silent s6.
Proof. apply (step_event 0 accept_flags 0 ev_close 4000); [apply ev_state_kernel|by_eval..|]. by vm_compute. Defined.
Lemma sample_step7 : step s6 Silent s7.
Proof. apply (step_read_stats key). by vm_compute. Defined.
Lemma sample_step8 : step s7 Aggregated s8.
Proof. apply (step_cycle 5000 plain_orders); [apply plain_orders_ok|]. by vm_compute. Defined.
Lemma sample_step9 : step s8 (Reported (take_report map_to_list s8).1.1 (take_report map_to_list s8).1.2) s9.
Proof. by apply (step_report map_to_list). Defined.

Lemma sample_run : rtc moves s0 s7.
Proof.
  exact (rtc_l _ _ _ _ (ex_intro _ _ sample_step1) (rtc_l _ _ _ _ (ex_intro _ _ sample_step2)
    (rtc_l _ _ _ _ (ex_intro _ _ sample_step3) (rtc_l _ _ _ _ (ex_intro _ _ sample_step4)
    (rtc_l _ _ _ _ (ex_intro _ _ sample_step5) (rtc_l _ _ _ _ (ex_intro _ _ sample_step6)
    (rtc_once _ _ (ex_intro _ _ sample_step7)))))))).
Defined.

(** The flows of the run have room for one more socket. *)
Lemma sample_room : flows_room (Z.of_nat (size (seen_socks (stats_seen s7)))) (clear_flow_levels (flow_cache (provider s7))).
Proof. unfold flows_room, room. intros f a. revert f a. apply map_Forall_to_list. by_eval. Defined.
End SampleRun.

(** ** The guarantees *)
Import System SystemInvariant SampleRun.

(** C3: The invariant of the whole system.  From start-up, whatever the interleaving of kernel events
    on any CPU, reads of single map entries by the agent, aggregation cycles on what has been read,
    refreshes of the NAT resolver and reports: the BPF maps stay within their capacities and
    consistent, the entries the agent has read are well formed even when the kernel has changed
    them since, the control word is the one the agent has decided on, no delta is left over from a
    cycle, and the flows keep their widths and their limit. *)
Theorem system_reachable_ok {R : Type} `{NatResolverLaws R} mem secs cpus (r : R) s0 s :
  Z.of_nat cpus ≤ 2 ^ 32 → start mem secs cpus r = Some s0 → rtc moves s0 s → system_ok s.
Proof. apply reachable_ok. Qed.

Lemma system_reachable_ok_witness : system_ok s7.
Proof. apply (system_reachable_ok 64000000000 60 2 NatResolverNoOp.mk s0); [by_eval|reflexivity|apply sample_run]. Defined.

(** C11: The whole system never gets stuck.  In every state reachable from start-up, the program
    handles every event the kernel can deliver on any CPU; and a cycle on whatever the agent has
    read so far completes, however hash maps are visited, as long as the per-core counters of each
    socket add up within their widths, the resolver resolves, and the flows have room for the
    sockets seen.  Both lead to a state from which the same holds again. *)
Theorem system_never_stuck {R : Type} `{NatResolverLaws R} mem secs cpus (r : R) s0 s :
  Z.of_nat cpus ≤ 2 ^ 32 → start mem secs cpus r = Some s0 → rtc moves s0 s →
  (∀ cpu scb rand c t, (cpu < cpus)%nat → kernel_event c → now s ≤ t → in_range u64 t →
     ∃ s', on_event cpu scb rand c t s = Some s' ∧ rtc moves s0 s') ∧
  (∀ agent_now ord, orders_ok ord → stream_fits (stats_seen s) = true →
     (∀ cache order, is_Some (store_beyond_nat_entries (NatResolver.perform_aggregation_cycle (resolver s)) cache order)) →
     Z.of_nat (size (seen_socks (stats_seen s))) ≤ umax u32 →
     flows_room (Z.of_nat (size (seen_socks (stats_seen s)))) (clear_flow_levels (flow_cache (provider s))) →
     ∃ s', run_cycle agent_now ord s = Some s' ∧ rtc moves s0 s').
Proof.
  intros Hc Hs Hr. pose proof (reachable_ok _ _ _ _ _ _ Hc Hs Hr) as Hok.
  pose proof (reachable_cpus _ _ _ _ _ _ Hs Hr) as Hlen. split.
  - intros cpu scb rand c t Hcpu Hev Hle Ht. destruct (event_runs cpu scb rand c t s) as [s' Hs']; [lia|done|].
    exists s'. split; [done|]. eapply rtc_r; [done|]. exists Silent. by eapply step_event.
  - intros agent_now ord Hord Hfit Hnat Hseen Hroom.
    destruct (cycle_completes agent_now ord s) as [s' Hs']; [done..|].
    exists s'. split; [done|]. eapply rtc_r; [done|]. exists Aggregated. by eapply step_cycle.
Qed.

Lemma system_never_stuck_witness :
  (∃ s', on_event 1 accept_flags 3 ev_connect 5000 s7 = Some s' ∧ rtc moves s0 s') ∧
  (∃ s', run_cycle 5000 plain_orders s7 = Some s' ∧ rtc moves s0 s').
Proof.
  destruct (system_never_stuck 64000000000 60 2 NatResolverNoOp.mk s0 s7) as [H1 H2];
    [by_eval|reflexivity|apply sample_run|]. split.
  - apply H1; [lia|apply ev_connect_kernel|by_eval..].
  - apply H2; [apply plain_orders_ok|by_eval|by eexists|by_eval|]. apply sample_room.
Defined.
