(* ===== verification/Ledger.v ===== *)
(** * Ledger: from what the kernel records to what is reported

    The books of the agent.  On one side stand the amounts that flows have been reported with, and
    those still pending in the table of flows; on the other the last known amounts of every socket
    that is tracked, and of every socket that was.  The ledger of a run is the run of System.v with
    the reports it has given out and the sockets it has let go. *)

From stdpp Require Import base numbers gmap list strings relations.
From S2P Require Import Prelude Network BpfMaps SockOpsFacts SockCache SockCacheFacts ReportData.
From S2P Require Import NetworkEvent NetworkEventFacts NatResolver EventProvider EventProviderFacts.
From S2P Require Import EventProviderProperties System SystemProperties.
Import EventProviderEbpf SocketQueries StreamFacts ProviderFacts CycleFacts CountFacts.

(** ** Sums over finite maps *)
Module MapSums.

Lemma Zsum_app l1 l2 : Zsum (l1 ++ l2) = Zsum l1 + Zsum l2.
Proof. apply list_sum_app_Z. Qed.

Section sums.
Context `{Countable K} {A : Type} (f : A → Z).
Implicit Types (m : gmap K A) (X : gset K) (g : K → Z).

Definition total m : Z := Zsum (f <$> (map_to_list m).*2).
Definition sum_over X g : Z := Zsum (g <$> elements X).
Definition amount m (k : K) : Z := from_option f 0 (m !! k).

Lemma sum_over_union X Y g : X ## Y → sum_over (X ∪ Y) g = sum_over X g + sum_over Y g.
Proof.
  intros Hd. unfold sum_over. rewrite elements_disj_union, fmap_app by done. apply Zsum_app.
Qed.

Lemma sum_over_singleton k g : sum_over {[k]} g = g k.
Proof. unfold sum_over. rewrite elements_singleton. cbn. lia. Qed.

Lemma sum_over_ext X g g' : (∀ k, k ∈ X → g k = g' k) → sum_over X g = sum_over X g'.
Proof.
  intros Hg. unfold sum_over. f_equal. apply list_fmap_ext. intros i k Hk. apply Hg.
  apply list_elem_of_lookup_2 in Hk. by apply elem_of_elements.
Qed.

Lemma sum_over_add X g g' : sum_over X (λ k, g k + g' k) = sum_over X g + sum_over X g'.
Proof. unfold sum_over. induction (elements X) as [|k l IH]; cbn; [done|]. unfold Zsum in IH. lia. Qed.

Lemma sum_over_zero X g : (∀ k, k ∈ X → g k = 0) → sum_over X g = 0.
Proof.
  intros Hg. rewrite (sum_over_ext X g (λ _, 0)) by done. unfold sum_over.
  induction (elements X); cbn; [done|]. unfold Zsum in *. lia.
Qed.

(** Elements outside a set do not count when they are zero. *)
Lemma sum_over_subset X Y g :
  X ⊆ Y → (∀ k, k ∈ Y → k ∉ X → g k = 0) → sum_over Y g = sum_over X g.
Proof.
  intros Hs Hz. rewrite (union_difference_L X Y Hs), sum_over_union by set_solver.
  rewrite (sum_over_zero (Y ∖ X)); [lia|]. intros k [? ?]%elem_of_difference. auto.
Qed.

Lemma total_empty : total ∅ = 0.
Proof. unfold total. by rewrite map_to_list_empty. Qed.

Lemma total_insert_new m k x : m !! k = None → total (<[k := x]> m) = f x + total m.
Proof. intros Hk. unfold total. by rewrite map_to_list_insert. Qed.

Lemma total_insert m k x : total (<[k := x]> m) = f x + total m - amount m k.
Proof.
  unfold amount. destruct (m !! k) as [y|] eqn:Hk; cbn; [|rewrite total_insert_new by done; lia].
  rewrite <- (insert_delete_id m k y Hk) at 2. rewrite <- insert_delete_eq.
  rewrite !total_insert_new by apply lookup_delete_eq. lia.
Qed.

(** The total as a sum over any set that contains the keys. *)
Lemma total_sum_over m X : dom m ⊆ X → total m = sum_over X (amount m).
Proof.
  intros Hd. rewrite (sum_over_subset (dom m) X); [|done|].
  2:{ intros k _ Hk. unfold amount. by rewrite (not_elem_of_dom_1 _ _ Hk). }
  clear X Hd. induction m as [|k x m Hk IH] using map_ind; [by rewrite total_empty, dom_empty_L|].
  rewrite total_insert_new, dom_insert_L, sum_over_union, sum_over_singleton by
    (try done; apply not_elem_of_dom in Hk; set_solver).
  unfold amount at 1. rewrite lookup_insert_eq. cbn. rewrite IH. f_equal. apply sum_over_ext.
  intros k' Hk'. unfold amount. rewrite lookup_insert_ne; [done|]. intros ->. by apply not_elem_of_dom in Hk.
Qed.

Lemma amount_nonneg m k : map_Forall (λ _ x, 0 ≤ f x) m → 0 ≤ amount m k.
Proof. intros Hm. unfold amount. destruct (m !! k) as [x|] eqn:Hk; cbn; [by apply (Hm k)|done]. Qed.

Lemma total_nonneg m : map_Forall (λ _ x, 0 ≤ f x) m → 0 ≤ total m.
Proof.
  intros Hm. unfold total. apply Zsum_nonneg, Forall_forall. intros z (x & -> & Hx)%list_elem_of_fmap.
  apply list_elem_of_fmap in Hx as ([k y] & -> & Hk%elem_of_map_to_list). by apply (Hm k).
Qed.

Lemma amount_le_total m k : map_Forall (λ _ x, 0 ≤ f x) m → amount m k ≤ total m.
Proof.
  intros Hm. unfold amount. destruct (m !! k) as [x|] eqn:Hk; cbn; [|by apply total_nonneg].
  rewrite <- (insert_delete_id m k x Hk), total_insert_new by apply lookup_delete_eq.
  pose proof (total_nonneg (delete k m)) as Hn. ospecialize (Hn _); [by apply map_Forall_delete|]. lia.
Qed.

End sums.
End MapSums.

(** ** The counters *)
Module Counters.
Import FlowSpec.

(** The counters that flows sum up over their sockets. *)
Inductive counter :=
| ConnectAttempts | BytesReceived | BytesDelivered | SegmentsReceived | SegmentsDelivered
| RetransSyn | RetransEst | RetransClose | RtosSyn | RtosEst | RtosClose.

Definition in_sock (c : counter) : SockStats.t → Z :=
  match c with
  | ConnectAttempts => SockStats.connect_attempts
  | BytesReceived => SockStats.bytes_received
  | BytesDelivered => SockStats.bytes_delivered
  | SegmentsReceived => SockStats.segments_received
  | SegmentsDelivered => SockStats.segments_delivered
  | RetransSyn => SockStats.retrans_syn
  | RetransEst => SockStats.retrans_est
  | RetransClose => SockStats.retrans_close
  | RtosSyn => SockStats.rtos_syn
  | RtosEst => SockStats.rtos_est
  | RtosClose => SockStats.rtos_close
  end.

Definition in_flow (c : counter) : NetworkStats.t → Z :=
  match c with
  | ConnectAttempts => NetworkStats.connect_attempts
  | BytesReceived => NetworkStats.bytes_received
  | BytesDelivered => NetworkStats.bytes_delivered
  | SegmentsReceived => NetworkStats.segments_received
  | SegmentsDelivered => NetworkStats.segments_delivered
  | RetransSyn => NetworkStats.retrans_syn
  | RetransEst => NetworkStats.retrans_est
  | RetransClose => NetworkStats.retrans_close
  | RtosSyn => NetworkStats.rtos_syn
  | RtosEst => NetworkStats.rtos_est
  | RtosClose => NetworkStats.rtos_close
  end.

(** The widths of a counter in a socket and in a flow. *)
Definition sock_width (c : counter) : Z :=
  match c with ConnectAttempts => u8 | BytesReceived | BytesDelivered => u64 | _ => u32 end.
Definition flow_width (c : counter) : Z :=
  match c with
  | BytesReceived | BytesDelivered | SegmentsReceived | SegmentsDelivered => u64
  | _ => u32
  end.

Lemma in_sock_range c s : SockStats.wf s → in_range (sock_width c) (in_sock c s).
Proof. unfold SockStats.wf. intros. destruct_and!. by destruct c. Qed.

Lemma in_flow_range c s : StatsTypes.stats_wf s → in_range (flow_width c) (in_flow c s).
Proof. unfold StatsTypes.stats_wf. rewrite !Forall_cons. intros. destruct_and!. by destruct c. Qed.

(** A difference of amounts of which the second has grown. *)
Lemma in_sock_subtract c s r :
  in_range (sock_width c) (in_sock c s) → in_range (sock_width c) (in_sock c r) → in_sock c r ≤ in_sock c s →
  in_sock c (SockStats.subtract s r) = in_sock c s - in_sock c r.
Proof.
  intros Hs Hr Hle.
  assert (in_sock c (SockStats.subtract s r) = wrapping_sub (sock_width c) (in_sock c s) (in_sock c r)) as ->
    by by destruct c.
  unfold wrapping_sub. apply wrap_id. unfold in_range in *. lia.
Qed.

(** The amounts of a socket do not depend on when its cores were last touched. *)
Lemma in_sock_merge c T T' l : in_sock c (SockStatsFacts.merge_spec T l) = in_sock c (SockStatsFacts.merge_spec T' l).
Proof. by destruct c. Qed.

(** A socket adds its amounts to its flow, up to the width of the counter. *)
Lemma in_flow_step c s x s' :
  FlowFacts.flow_step s x = Some s' →
  in_flow c s' = Z.min (umax (flow_width c)) (in_flow c s + in_sock c x.1).
Proof.
  unfold FlowFacts.flow_step. rewrite NetworkEventFacts.add_from_accumulate.
  destruct (all_fit s x.1); [|done]. cbn [mbind option_bind].
  assert (in_flow c (accumulate s x.1) = Z.min (umax (flow_width c)) (in_flow c s + in_sock c x.1)) as <-
    by by destruct c.
  destruct x.2; [|by intros [= <-]]. intros (n & _ & [= <-])%bind_Some. by destruct c.
Qed.

Lemma in_flow_clear c s : in_flow c (NetworkStats.clear_levels s) = in_flow c s.
Proof. by destruct c. Qed.

End Counters.

(** ** The books of a run *)
Module Ledger.
Import System MapSums Counters SockCacheFacts.

(** What has been reported, and the last known statistics of the sockets no longer tracked. *)
Record books := mk_books {
  published : list AggregateResults.t;
  counted : list CountersOverall.t;
  retired : list SockStats.t;
}.

#[global] Instance eta_books : Eta books := λ b, mk_books (published b) (counted b) (retired b).

Section books.
Context {R : Type} `{NatResolver R}.
Implicit Types s : System.t R.

Definition socks s : gmap Z SockWrapper.t := SockCache.cache (sock_cache (provider s)).

(** The statistics of a socket as last read: in this cycle, or before. *)
Definition last_read (m : gmap Z SockWrapper.t) (l : list (CpuSockKey.t * SockStats.t)) (k : Z) : SockStats.t :=
  match stats_of k l with
  | [] => base (m !! k)
  | ss => SockStatsFacts.merge_spec 0 ss
  end.
Definition last_known s : Z → SockStats.t := last_read (socks s) (stats_seen s).

Definition let_go s s' : list SockStats.t :=
  last_known s <$> elements ((dom (socks s) ∪ seen_socks (stats_seen s)) ∖ dom (socks s')).

Definition enter s (l : label) s' (b : books) : books :=
  match l with
  | Silent => b
  | Aggregated => b <| retired ::= λ r, r ++ let_go s s' |>
  | Reported flows counters => b <| published ::= λ p, p ++ flows |> <| counted ::= λ p, p ++ [counters] |>
  end.

Context (c : counter).

Definition sock_amount (w : SockWrapper.t) : Z := in_sock c (AggSockStats.stats (SockWrapper.agg_stats w)).
Definition flow_amount (a : AggregateResults.t) : Z := in_flow c (AggregateResults.stats a).

(** The kernel's counters of a socket only grow while it is tracked. *)
Definition grows (m : gmap Z SockWrapper.t) (l : list (CpuSockKey.t * SockStats.t)) : Prop :=
  ∀ k w, m !! k = Some w → sock_amount w ≤ in_sock c (last_read m l k).
Definition grown s : Prop := grows (socks s) (stats_seen s).

(** A step, with its entry in the books. *)
Inductive audited : System.t R * books → System.t R * books → Prop :=
| audit s l s' b : step s l s' → (l = Aggregated → grown s) → audited (s, b) (s', enter s l s' b).

(** The two sides of the books. *)
Definition reported (b : books) : Z := Zsum (flow_amount <$> published b).
Definition pending s : Z := total flow_amount (flow_cache (provider s)).
Definition closed (b : books) : Z := Zsum (in_sock c <$> retired b).
Definition tracked s : Z := total sock_amount (socks s).

(** The sockets whose deltas no flow has received, by the agent's own counters. *)
Definition unplaced (p : ProcessCounters.t) : Z :=
  ProcessCounters.socket_agg_missing_props p + ProcessCounters.socket_agg_above_limit p.
Definition all_unplaced s (b : books) : Z :=
  Zsum (unplaced ∘ CountersOverall.process_related <$> counted b) + unplaced (process_counters (provider s)).

End books.
End Ledger.

(** ** The effect of a cycle on the books *)
Module LedgerFacts.
Import System MapSums Counters SockCacheFacts Ledger FlowFacts.

Section facts.
Context {R : Type} `{NatResolverLaws R} (c : counter).
Implicit Types (s : System.t R) (p : EventProviderEbpf.t).

Definition delta_amount (a : AggSockStats.t) : Z := in_sock c (AggSockStats.stats a).

Lemma amount_base (m : gmap Z SockWrapper.t) k : amount (sock_amount c) m k = in_sock c (base (m !! k)).
Proof. unfold amount, base, sock_amount. destruct (m !! k); [done|]. by destruct c. Qed.

(** The flows receive what the deltas hold, less what saturates and what finds no flow. *)
Lemma flows_amount cache l r flows r' flows' :
  Forall (λ it, SockStats.wf (AggSockStats.stats it.2)) l →
  map_Forall (λ _ a, StatsTypes.stats_wf (AggregateResults.stats a)) flows →
  foldM (into_flow cache) (r, flows) l = Some (r', flows') →
  let d := Zsum (delta_amount <$> l.*2) in
  let T := total (flow_amount c) in
  0 ≤ d ∧ lost r ≤ lost r' ∧ T flows' ≤ T flows + d ∧
  map_Forall (λ _ a, StatsTypes.stats_wf (AggregateResults.stats a)) flows' ∧
  (lost r' = lost r → T flows + d ≤ umax (flow_width c) → T flows' = T flows + d).
Proof.
  intros Hl Hf. revert r' flows'. induction l as [|it l IH] using rev_ind; intros r' flows'.
  { intros [= <- <-]. cbn. split_and!; try done; lia. }
  apply Forall_app in Hl as [Hl Hit%Forall_cons]. destruct Hit as [Hit _]. rewrite foldM_snoc, !fmap_app.
  intros ([r1 flows1] & H1 & H2)%bind_Some. destruct (IH Hl r1 flows1 H1) as (Hd & Hlost & Hle & Hwf & Heq).
  clear IH. cbn zeta. assert (∀ z, Zsum ((delta_amount <$> l.*2) ++ [z]) = Zsum (delta_amount <$> l.*2) + z) as Hsnoc.
  { intros z. rewrite Zsum_app. cbn. lia. }
  cbn [fmap list_fmap]. rewrite Hsnoc. set (d := Zsum _) in *.
  pose proof (in_sock_range c _ Hit) as Hr. fold (delta_amount it.2) in Hr.
  assert (map_Forall (λ _ a, StatsTypes.stats_wf (AggregateResults.stats a)) flows') as Hwf' by by eapply into_flow_wf.
  assert (map_Forall (λ _ a, 0 ≤ flow_amount c a) flows1) as Hnn.
  { intros f a Ha. unfold flow_amount. specialize (Hwf f a Ha). by apply (in_flow_range c) in Hwf as [? _]. }
  apply into_flow_cases in H2 as (_ & [(-> & Hlr & _)|(f & x & st & Hlr & Hx & _ & _ & Hstep & ->)]).
  { split_and!; try done; unfold in_range in Hr; lia. }
  assert (x.1 = AggSockStats.stats it.2) as Hx1.
  { unfold contrib in Hx. apply bind_Some in Hx as (w & _ & Hx). destruct (decide _); [|done]. by injection Hx as <-. }
  assert (amount (flow_amount c) flows1 f = in_flow c (AggregateResults.stats (FlowFacts.start flows1 f))) as Ha.
  { unfold amount, FlowFacts.start. destruct (flows1 !! f); [done|]. by destruct c. }
  apply (in_flow_step c) in Hstep. rewrite Hx1 in Hstep. fold (delta_amount it.2) in Hstep. rewrite <- Ha in Hstep.
  pose proof (amount_le_total (flow_amount c) flows1 f Hnn) as Hat.
  rewrite total_insert. change (flow_amount c (_ <| AggregateResults.stats := st |>)) with (in_flow c st). rewrite Hstep.
  split_and!; try done; unfold in_range in Hr; lia.
Qed.

(** A new context leaves the amounts of its socket. *)
Lemma add_contexts_amount items t cache r keys k :
  in_sock c (base (SockCache.cache (add_contexts items t cache r keys).1.1 !! k)) =
  in_sock c (base (SockCache.cache cache !! k)).
Proof.
  revert cache r keys. induction items as [|[key sc] items IH]; intros cache r keys; [done|]. cbn [add_contexts].
  assert (in_sock c (base (SockCache.cache (SockCache.add_context cache (CpuSockKey.sock_key key) sc t).2 !! k)) =
    in_sock c (base (SockCache.cache cache !! k))) as Hone.
  { unfold SockCache.add_context. destruct (decide (k = CpuSockKey.sock_key key)) as [->|Hne].
    - destruct (SockCache.cache cache !! _) as [w|] eqn:Hw; [|destruct (_ <? _)]; cbn; rewrite ?lookup_insert_eq, ?Hw;
        cbn; [|by destruct c|done]. unfold SockWrapper.update_context. case_match; by destruct c.
    - destruct (SockCache.cache cache !! CpuSockKey.sock_key key) as [w|]; [|destruct (_ <? _)]; cbn;
        by rewrite ?lookup_insert_ne by done. }
  destruct (SockCache.add_context _ _ _ _) as [r1 cache1]. cbn in Hone.
  destruct (0 <? SockOperationResult.failed r1); [done|]. by rewrite IH.
Qed.

Section cycle.
Context (rd : reads) (ord : orders) (p : EventProviderEbpf.t) (r : R) (tr : trace).
Context (Hord : orders_ok ord) (Hst : sock_stream p = ∅).
Context (Hit : Forall item_ok (flatten (stats_read rd))) (Hr : runs rd ord p r tr).
Context (Hrange : map_Forall (λ _ w, in_range (sock_width c) (sock_amount c w)) (SockCache.cache (sock_cache p))).
Context (Hgrow : grows c (SockCache.cache (sock_cache p)) (flatten (stats_read rd))).

Lemma base_range k : in_range (sock_width c) (in_sock c (base (SockCache.cache (sock_cache p) !! k))).
Proof.
  unfold base. destruct (SockCache.cache (sock_cache p) !! k) as [w|] eqn:Hw; [by apply (Hrange k)|].
  apply in_sock_range, SockStatsFacts.stats_default_wf.
Qed.

(** For each socket, what is tracked grows by its delta, to what was last read. *)
Lemma cycle_amount k :
  let now := amount (sock_amount c) (SockCache.cache (natted_cache tr)) k in
  now = amount (sock_amount c) (SockCache.cache (sock_cache p)) k + amount delta_amount (deltas tr) k ∧
  now = in_sock c (last_read (SockCache.cache (sock_cache p)) (flatten (stats_read rd)) k) ∧
  in_range (sock_width c) now.
Proof.
  destruct Hr as [_ Ha Hs Hd Hn _]. rewrite Hst in Hs. unfold aggregate_sock_stats in Hs.
  pose proof (aggregate_loop (added_cache tr) _ Hit) as Hl. rewrite Hs in Hl. destruct Hl as [Hfit Hl].
  pose proof (update_stats_spec (added_cache tr) (tr_stream tr) (stream_order ord (tr_stream tr)) (staleness rd p)
    (stream_perm _ Hord _)) as Hu. rewrite Hd in Hu.
  assert (in_sock c (base (SockCache.cache (added_cache tr) !! k)) =
    in_sock c (base (SockCache.cache (sock_cache p) !! k))) as Hadd.
  { unfold added_cache. rewrite <- Ha. apply add_contexts_amount. }
  assert (amount (sock_amount c) (SockCache.cache (natted_cache tr)) k =
    in_sock c (base (SockCache.cache (delta_cache tr) !! k))) as Hnat.
  { unfold natted_cache. destruct (tr_natted tr) as [nr cache3]. cbn.
    apply store_only_external in Hn as [_ Hn]; [|by apply cache_perm]. specialize (Hn k). rewrite amount_base.
    destruct (SockCache.cache (delta_cache tr) !! k), (SockCache.cache cache3 !! k); try done.
    by destruct Hn as (e & -> & _). }
  pose proof (base_range k) as Hb. cbn zeta. rewrite Hnat, amount_base. unfold deltas, delta_cache, last_read, amount.
  destruct (tr_deltas tr) as [[r1 cd] D]. destruct Hu as (_ & _ & Hc & HD). cbn. rewrite Hc, HD, Hl.
  unfold stream_spec. pose proof (stats_of_wf k _ Hit) as Hwf. rewrite stream_fits_all in Hfit. specialize (Hfit k).
  pose proof (Hgrow k) as Hg. unfold last_read in Hg.
  destruct (stats_of k (flatten (stats_read rd))) as [|x xs] eqn:Ek.
  { cbn [fmap option_fmap option_map from_option RoundSpec.round]. rewrite base_absent, Hadd. split; [lia|done]. }
  cbn [fmap option_fmap option_map from_option RoundSpec.round]. rewrite base_present. cbn [AggSockStats.stats].
  set (T := SockCache.get_last_touched _ _). rewrite (in_sock_merge c T 0).
  assert (SockStats.wf (SockStatsFacts.merge_spec T (x :: xs))) as Hw.
  { eapply (SockStatsFacts.merge_cores_wf T); [exact Hwf|]. by rewrite SockStatsFacts.merge_cores_spec, Hfit. }
  apply (in_sock_range c) in Hw. rewrite (in_sock_merge c T 0) in Hw. split; [|done].
  unfold delta_amount, RoundSpec.delta. rewrite <- Hadd in Hb |- *.
  assert (in_sock c (base (SockCache.cache (added_cache tr) !! k)) ≤
    in_sock c (SockStatsFacts.merge_spec 0 (x :: xs))) as Hle.
  { rewrite Hadd. unfold base. destruct (SockCache.cache (sock_cache p) !! k); [by apply Hg|].
    unfold in_range in Hw. destruct c; cbn in *; lia. }
  destruct (SockCache.cache (added_cache tr) !! k) as [w|]; cbn [base AggSockStats.stats] in *.
  - change (AggSockStats.stats (_ <| AggSockStats.stats := ?x |>)) with x. rewrite in_sock_subtract;
      rewrite ?(in_sock_merge c T 0); try done. lia.
  - rewrite (in_sock_merge c T 0). destruct c; cbn; lia.
Qed.

(** Over all sockets: the deltas are what the table has grown by, before it lets sockets go. *)
Lemma cycle_total :
  total (sock_amount c) (SockCache.cache (natted_cache tr)) =
    total (sock_amount c) (SockCache.cache (sock_cache p)) + Zsum (delta_amount <$> (flow_order ord (deltas tr)).*2).
Proof.
  set (X := dom (SockCache.cache (natted_cache tr)) ∪ dom (SockCache.cache (sock_cache p)) ∪ dom (deltas tr)).
  rewrite (flow_perm _ Hord). fold (total delta_amount (deltas tr)).
  rewrite !(total_sum_over _ _ X), <- sum_over_add by set_solver.
  apply sum_over_ext. intros k _. apply cycle_amount.
Qed.

(** A socket that was tracked or seen is in the table until the eviction. *)
Lemma cycle_dom : dom (SockCache.cache (sock_cache p)) ∪ seen_socks (flatten (stats_read rd)) ⊆
  dom (SockCache.cache (natted_cache tr)).
Proof.
  destruct (runs_stream rd ord Hord p r Hst Hit tr Hr) as [Hseen _]. destruct Hr as [_ Ha _ Hd Hn _].
  pose proof (update_stats_spec (added_cache tr) (tr_stream tr) (stream_order ord (tr_stream tr)) (staleness rd p)
    (stream_perm _ Hord _)) as Hu. rewrite Hd in Hu.
  pose proof (add_contexts_spec (flatten (props_read rd)) (saturating_sub (now_us rd) (notrack_us p / 2))
    (sock_cache p) SockOperationResult.default ∅) as Hadd. rewrite Ha in Hadd.
  unfold natted_cache, delta_cache, added_cache in *. destruct (tr_natted tr) as [nr c3], (tr_deltas tr) as [[r1 c2] D],
    (tr_added tr) as [[c1 r0] keys]. cbn in *.
  destruct Hu as (_ & _ & Hc & _), Hadd as (_ & _ & Hsub & _).
  apply store_only_external in Hn as [_ Hn]; [|by apply cache_perm].
  intros k Hk. specialize (Hn k). rewrite Hc in Hn. apply elem_of_dom. unfold RoundSpec.round in Hn.
  assert (is_Some (tr_stream tr !! k) ∨ is_Some (SockCache.cache c1 !! k)) as Hin.
  { rewrite <- !elem_of_dom. set_solver. }
  destruct (tr_stream tr !! k), (SockCache.cache c1 !! k), (SockCache.cache c3 !! k); cbn in Hn; try done.
  by destruct Hin as [[? ?]|[? ?]].
Qed.

(** What the eviction takes out of the table is what was last read of the sockets it drops. *)
Lemma cycle_let_go :
  let m' := SockCache.cache (SockCache.perform_eviction (natted_cache tr)).2 in
  total (sock_amount c) (SockCache.cache (natted_cache tr)) = total (sock_amount c) m' +
    Zsum (in_sock c <$> (last_read (SockCache.cache (sock_cache p)) (flatten (stats_read rd)) <$>
      elements ((dom (SockCache.cache (sock_cache p)) ∪ seen_socks (flatten (stats_read rd))) ∖ dom m'))).
Proof.
  intros m'. set (Y := _ ∖ dom m'). set (X := dom (SockCache.cache (natted_cache tr))).
  assert (∀ k w, m' !! k = Some w → SockCache.cache (natted_cache tr) !! k = Some w) as Hsub.
  { intros k w Hw. unfold m', SockCache.perform_eviction in Hw. cbn in Hw. by apply map_lookup_filter_Some in Hw as [? _]. }
  assert (dom m' ⊆ X) as Hm'. { intros k [w Hw]%elem_of_dom. apply elem_of_dom. eauto. }
  pose proof cycle_dom as Hdom. fold X in Hdom. rewrite <- list_fmap_compose.
  fold (sum_over Y (in_sock c ∘ last_read (SockCache.cache (sock_cache p)) (flatten (stats_read rd)))).
  rewrite (sum_over_ext Y _ (amount (sock_amount c) (SockCache.cache (natted_cache tr)))) by
    (intros k _; symmetry; apply cycle_amount).
  rewrite (total_sum_over _ _ X) by done. rewrite (total_sum_over _ m' (dom m')) by done.
  rewrite (sum_over_subset (dom m' ∪ Y) X); [|set_solver|].
  - rewrite sum_over_union by set_solver. f_equal. apply sum_over_ext. intros k [w Hw]%elem_of_dom. unfold amount. by rewrite Hw, (Hsub k w Hw).
  - intros k Hk Hn. destruct (cycle_amount k) as (-> & _ & _).
    assert (k ∉ dom (SockCache.cache (sock_cache p)) ∧ k ∉ seen_socks (flatten (stats_read rd))) as [Hn1 Hn2].
    { unfold Y in Hn. rewrite not_elem_of_union, not_elem_of_difference, not_elem_of_union in Hn. tauto. }
    destruct (runs_stream rd ord Hord p r Hst Hit tr Hr) as [Hs1 Hs2]. rewrite <- Hs1, <- Hs2 in Hn2.
    unfold amount. by rewrite (not_elem_of_dom_1 _ _ Hn1), (not_elem_of_dom_1 _ _ Hn2).
Qed.

End cycle.
End facts.
End LedgerFacts.
