(* ===== verification/LedgerProperties.v ===== *)
(** * LedgerProperties: the books of the agent balance

    Over every run of the whole system, from the events of the kernel to the flows in the reports. *)

From stdpp Require Import base numbers gmap list strings relations.
From S2P Require Import Prelude Network BpfMaps SockOps SockOpsFacts SockOpsProperties SockCache SockCacheFacts.
From S2P Require Import ReportData NetworkEvent NetworkEventFacts NatResolver EventProvider EventProviderFacts.
From S2P Require Import EventProviderProperties System SystemProperties Ledger.
Import EventProviderEbpf SocketQueries StreamFacts ProviderFacts CycleFacts CountFacts FlowFacts.
Import System MapSums Counters Ledger LedgerFacts SystemInvariant.

Module LedgerInvariant.
Section invariant.
Context {R : Type} `{NatResolverLaws R} (c : counter).
Implicit Types (s : System.t R) (b : books).

Record balanced (st : System.t R * books) : Prop := {
  bal_system : system_ok st.1;
  bal_range : map_Forall (λ _ w, in_range (sock_width c) (sock_amount c w)) (socks st.1);
  bal_published : 0 ≤ reported c st.2;
  bal_unplaced : 0 ≤ all_unplaced st.1 st.2;
  bal_never_more : reported c st.2 + pending c st.1 ≤ closed c st.2 + tracked c st.1;
  bal_exact : all_unplaced st.1 st.2 = 0 → closed c st.2 + tracked c st.1 ≤ umax (flow_width c) →
    reported c st.2 + pending c st.1 = closed c st.2 + tracked c st.1;
}.

(** Steps that change neither the table of sockets nor the flows. *)
Lemma silent_frame s s' :
  step s Silent s' → flow_cache (provider s') = flow_cache (provider s) ∧
  sock_cache (provider s') = sock_cache (provider s) ∧ process_counters (provider s') = process_counters (provider s).
Proof.
  inversion 1 as [cpu scb rand ctx t s0 s1 _ _ _ Hrun|key s0 s1 Hrun|key s0 s1 Hrun| |s0|]; subst; try done.
  - unfold on_event in Hrun. apply bind_Some in Hrun as (x & _ & Hrun). by apply bind_Some in Hrun as (m & _ & [= <-]).
  - by apply bind_Some in Hrun as (x & _ & [= <-]).
  - by apply bind_Some in Hrun as (x & _ & [= <-]).
Qed.

Lemma silent_balanced s s' b : step s Silent s' → balanced (s, b) → balanced (s', b).
Proof.
  intros Hstep [Hok Hr Hp Hu Hle Heq]. destruct (silent_frame _ _ Hstep) as (Hf & Hs & Hc).
  unfold all_unplaced, pending, tracked, socks in *. cbn in *.
  constructor; unfold all_unplaced, pending, tracked, socks; cbn; rewrite ?Hf, ?Hs, ?Hc; try done. by eapply system_step_ok.
Qed.

Lemma report_balanced order s flows counters s' b :
  (∀ m, order m ≡ₚ map_to_list m) → take_report order s = (flows, counters, s') →
  balanced (s, b) → balanced (s', enter s (Reported flows counters) s' b).
Proof.
  intros Hord Hrep [Hok Hr Hp Hu Hle Heq]. pose proof (report_ok _ _ _ _ _ Hrep Hok) as Hok'. cbn [fst snd] in *.
  assert (0 ≤ pending c s) as Hpend.
  { apply total_nonneg. intros f a Ha. by apply (in_flow_range c), (ok_flows _ Hok f a). }
  unfold take_report in Hrep. cbn in Hrep. injection Hrep as <- <- Hs'. set (b' := enter s _ s' b).
  assert (reported c b' = reported c b + pending c s) as Hrep.
  { unfold reported, b'. cbn. rewrite fmap_app, Zsum_app. unfold pending, total. by rewrite Hord. }
  assert (all_unplaced s' b' = all_unplaced s b) as Hun.
  { unfold all_unplaced, b'. cbn. rewrite fmap_app, Zsum_app, <- Hs'. cbn.
    change (unplaced ProcessCounters.default) with 0. lia. }
  assert (pending c s' = 0) as Hpend' by (rewrite <- Hs'; apply total_empty).
  assert (tracked c s' = tracked c s ∧ closed c b' = closed c b) as [Htr Hcl] by (by rewrite <- Hs').
  constructor; cbn [fst snd]; rewrite ?Hun, ?Hrep, ?Hpend', ?Htr, ?Hcl; try done; try lia. by rewrite <- Hs'.
Qed.

Lemma cycle_balanced agent_now ord s s' b :
  orders_ok ord → run_cycle agent_now ord s = Some s' → grown c s →
  balanced (s, b) → balanced (s', enter s Aggregated s' b).
Proof.
  intros Hord Hrun Hgrow [Hok Hr Hp Hu Hle Heq]. cbn [fst snd] in *.
  pose proof (system_cycle_ok _ _ _ _ Hord Hrun Hok) as Hok'. unfold run_cycle in Hrun.
  set (rd := mk_reads agent_now (Ok <$> props_seen s) (Ok <$> stats_seen s)) in Hrun.
  assert (flatten (stats_read rd) = stats_seen s) as Hread by apply flatten_seen.
  apply bind_Some in Hrun as ([p' r'] & Hcyc & Hs'). injection Hs' as Hs'.
  pose proof (cycle_runs rd ord (provider s) (resolver s)) as Hruns. rewrite Hcyc in Hruns.
  destruct Hruns as (_ & tr & Hrn & He). assert (sock_stream (provider s) = ∅) as Hstr by apply Hok.
  assert (Forall item_ok (flatten (stats_read rd))) as Hit by (rewrite Hread; apply Hok).
  assert (grows c (socks s) (flatten (stats_read rd))) as Hgr by by rewrite Hread.
  pose proof (cycle_total c rd ord _ _ tr Hord Hstr Hit Hrn Hr Hgr) as Htot.
  pose proof (cycle_let_go c rd ord _ _ tr Hord Hstr Hit Hrn Hr Hgr) as Hgo.
  pose proof (deltas_wf rd ord _ _ tr Hord Hstr Hit Hrn) as Hwf.
  pose proof (run_flows _ _ _ _ _ Hrn) as Hfl. destruct (tr_flows tr) as [res flows] eqn:Etr.
  unfold aggregate_into_flows in Hfl. apply (flows_amount c) in Hfl as (Hd & Hl & Hfle & _ & Hfeq);
    [|done|by apply map_Forall_fmap; intros f a Ha; apply clear_levels_wf, (ok_flows _ Hok f a)].
  assert (total (flow_amount c) (clear_flow_levels (flow_cache (provider s))) = pending c s) as Hclear.
  { unfold pending, total, clear_flow_levels. rewrite map_to_list_fmap, <- !list_fmap_compose. f_equal.
    apply list_fmap_ext. intros i [f a] _. cbn. apply in_flow_clear. }
  rewrite Hclear in Hfle, Hfeq. destruct He as [_ Hca _ _ _ Hflows _ (n & _ & Hcnt) _ _ _ _].
  destruct Hcnt as (_ & _ & _ & _ & _ & _ & F2 & F3 & _). rewrite Etr in F2, F3, Hflows. cbn in F2, F3, Hflows.
  set (b' := enter s Aggregated s' b). set (d := Zsum (delta_amount c <$> (flow_order ord (deltas tr)).*2)) in *.
  assert (pending c s' = total (flow_amount c) flows) as Hpend by (rewrite <- Hs', <- Hflows; done).
  assert (socks s' = SockCache.cache (SockCache.perform_eviction (natted_cache tr)).2) as Hsk
    by (rewrite <- Hs', <- Hca; done).
  assert (all_unplaced s' b' = all_unplaced s b + lost res) as Hun.
  { unfold all_unplaced, unplaced, lost. rewrite <- Hs'. cbn in *. unfold Zsum. lia. }
  assert (closed c b' + tracked c s' = closed c b + tracked c s + d) as Hsum.
  { unfold closed, tracked. change (retired b') with (retired b ++ let_go s s'). rewrite fmap_app, Zsum_app. unfold let_go, last_known.
    rewrite Hread in Hgo. rewrite Hsk. unfold socks in *. lia. }
  assert (lost SockOperationResult.default = 0) as Hl0 by done. rewrite Hl0 in Hl, Hfeq.
  constructor; cbn [fst snd]; rewrite ?Hun, ?Hpend, ?Hsum; change (reported c b') with (reported c b); try done; try lia.
  rewrite Hsk. intros k w Hw. cbn in Hw. apply map_lookup_filter_Some in Hw as [Hw _].
  destruct (cycle_amount c rd ord _ _ tr Hord Hstr Hit Hrn Hr Hgr k) as (_ & _ & Hrk). unfold amount in Hrk.
  by rewrite Hw in Hrk.
Qed.

Lemma audit_silent s s' b : step s Silent s' → audited c (s, b) (s', b).
Proof. intros Hs. by apply (audit c s Silent s' b). Qed.

Lemma audited_balanced st st' : audited c st st' → balanced st → balanced st'.
Proof.
  intros [s l s' b Hstep Hgrow]. destruct l as [| |flows counters].
  - by apply silent_balanced.
  - specialize (Hgrow eq_refl). inversion Hstep; subst. by eapply cycle_balanced.
  - inversion Hstep; subst. by eapply report_balanced.
Qed.

Lemma reachable_balanced mem secs cpus (r : R) s0 st :
  Z.of_nat cpus ≤ 2 ^ 32 → start mem secs cpus r = Some s0 → rtc (audited c) (s0, mk_books [] [] []) st → balanced st.
Proof.
  intros Hc Hs Hr. assert (balanced (s0, mk_books [] [] [])) as Hb.
  { pose proof (start_ok _ _ _ _ _ Hc Hs) as Hok. apply bind_Some in Hs as (p & Hp & [= <-]). unfold new in Hp.
    apply bind_Some in Hp as (us & _ & [= <-]). by constructor. }
  induction Hr as [|x y z Hxy _ IH]; [done|]. apply IH. by eapply audited_balanced.
Qed.

End invariant.
End LedgerInvariant.

(** ** The guarantee *)
Import LedgerInvariant SampleRun.

Definition empty_books : books := mk_books [] [] [].

(** C1: The books balance, from the kernel's counters to the reports.  Take any run from start-up in
    which the amounts read for a tracked socket never shrink, and any of the eleven counters that
    flows sum up (connection attempts, bytes, segments, retransmissions and timeouts).  The amounts
    reported so far and those pending in the flows never exceed the last known amounts of all
    sockets tracked now or in the past; and they are equal to them, nothing lost and nothing
    reported twice, when the agent's own counters show no socket without a flow and the total fits
    in the counter of a flow. *)
Theorem ledger_balances {R : Type} `{NatResolverLaws R} c mem secs cpus (r : R) s0 s b :
  Z.of_nat cpus ≤ 2 ^ 32 → start mem secs cpus r = Some s0 → rtc (audited c) (s0, empty_books) (s, b) →
  reported c b + pending c s ≤ closed c b + tracked c s ∧
  (all_unplaced s b = 0 → closed c b + tracked c s ≤ umax (flow_width c) →
   reported c b + pending c s = closed c b + tracked c s).
Proof. intros Hc Hs Hr. by destruct (reachable_balanced c mem secs cpus r s0 (s, b) Hc Hs Hr). Qed.

(** The connection of the sample run: 4000 bytes in the first cycle, 9000 by the second. *)
Definition b5 : books := enter s4 Aggregated s5 empty_books.
Definition b8 : books := enter s7 Aggregated s8 b5.
Definition b9 : books :=
  enter s8 (Reported (take_report map_to_list s8).1.1 (take_report map_to_list s8).1.2) s9 b8.

Lemma sample_grown : grown BytesReceived s4 ∧ grown BytesReceived s7.
Proof. unfold grown, grows. split; apply map_Forall_to_list; by_eval. Defined.

Lemma ledger_balances_witness :
  reported BytesReceived b9 + pending BytesReceived s9 = closed BytesReceived b9 + tracked BytesReceived s9 ∧
  reported BytesReceived b9 = 9000.
Proof.
  assert (audited BytesReceived (s4, empty_books) (s5, b5)) as H5
    by exact (audit _ s4 Aggregated s5 empty_books sample_step5 (λ _, proj1 sample_grown)).
  assert (audited BytesReceived (s7, b5) (s8, b8)) as H8
    by exact (audit _ s7 Aggregated s8 b5 sample_step8 (λ _, proj2 sample_grown)).
  assert (audited BytesReceived (s8, b8) (s9, b9)) as H9
    by exact (audit _ s8 _ s9 b8 sample_step9 (λ H, match H with end)).
  assert (rtc (audited BytesReceived) (s0, empty_books) (s9, b9)) as Hrun.
  { exact (rtc_l _ _ _ _ (audit_silent _ s0 s1 _ sample_step1) (rtc_l _ _ _ _ (audit_silent _ s1 s2 _ sample_step2)
      (rtc_l _ _ _ _ (audit_silent _ s2 s3 _ sample_step3) (rtc_l _ _ _ _ (audit_silent _ s3 s4 _ sample_step4)
      (rtc_l _ _ _ _ H5 (rtc_l _ _ _ _ (audit_silent _ s5 s6 _ sample_step6)
      (rtc_l _ _ _ _ (audit_silent _ s6 s7 _ sample_step7) (rtc_l _ _ _ _ H8 (rtc_once _ _ H9))))))))). }
  destruct (ledger_balances BytesReceived 64000000000 60 2 NatResolverNoOp.mk s0 s9 b9) as [_ H];
    [by_eval|reflexivity|exact Hrun|]. split; [apply H; by_eval|by_eval].
Defined.
