(* ===== verification/Timer.v ===== *)
(** * Timer: clocks and the schedule of the main loop

    Models nfm-controller/src/utils/clock.rs and utils/event_timer.rs.  A clock is the class
    [Clock] with the law that sleeping lasts at least as long as asked; [FakeClock] is an instance.
    [BinaryHeap] pops an earliest event and leaves ties unspecified, so the index among the
    earliest ones is a parameter [tie]; so is the random generator, of which [gen_range(0..n)]
    returns a value below [n].  The exit flag is set by a signal at any time: the value of each
    load is given by [flag].  [None] is a panic: with overflow checks, the arithmetic on times. *)

From stdpp Require Import base numbers gmap list.
From S2P Require Import Prelude.

(** ** clock.rs *)

Module timespec.

Record t := mk { tv_sec : Z; tv_nsec : Z }.

#[global] Instance eq_dec : EqDecision t.
Proof. solve_decision. Defined.

(** As [clock_gettime] returns them. *)
Definition wf (s : t) : Prop := 0 ≤ tv_sec s < 2 ^ 33 ∧ 0 ≤ tv_nsec s < 1000000000.

(** The instant in nanoseconds. *)
Definition nanos (s : t) : Z := tv_sec s * 1000000000 + tv_nsec s.

End timespec.

Definition NSEC_PER_SEC : Z := 1000000000.

Definition i64_range (x : Z) : bool := (- 2 ^ 63 <=? x) && (x <? 2 ^ 63).
Definition checked_i64 (x : Z) : option Z := if i64_range x then Some x else None.

(** Gets the amount of time that has elapsed from a point in the past until [now]. *)
Definition clock_delta (now past : timespec.t) : option timespec.t :=
  let '(sec_adjustment, nsec_adjustment) :=
    if timespec.tv_nsec now <? timespec.tv_nsec past then (-1, NSEC_PER_SEC) else (0, 0) in
  s ← checked_i64 (timespec.tv_sec now - timespec.tv_sec past);
  s ← checked_i64 (s + sec_adjustment);
  n ← checked_i64 (timespec.tv_nsec now - timespec.tv_nsec past);
  n ← checked_i64 (n + nsec_adjustment);
  if (0 <=? s) && (0 <=? n) then Some (timespec.mk s n) else None.

Definition timespec_to_us (spec : timespec.t) : option Z :=
  s ← checked_mul u64 (wrap u64 (timespec.tv_sec spec)) 1000000;
  checked_add u64 s (wrap u64 (timespec.tv_nsec spec) / 1000).

Definition timespec_to_nsec (spec : timespec.t) : option Z :=
  s ← checked_i64 (timespec.tv_sec spec * NSEC_PER_SEC);
  n ← checked_i64 (s + timespec.tv_nsec spec);
  Some (wrap u64 n).

(** The system clocks read the kernel's, of their kind; a failed call gives zero. *)
Definition CLOCK_REALTIME : Z := 0.
Definition CLOCK_PROCESS_CPUTIME_ID : Z := 2.
Definition CLOCK_BOOTTIME : Z := 7.

Definition clock_time (clock_gettime : Z → Result timespec.t unit) (clock_type : Z) : timespec.t :=
  match clock_gettime clock_type with
  | Ok spec => spec
  | Err _ => timespec.mk 0 0
  end.

Definition process_now (clock_gettime : Z → Result timespec.t unit) : timespec.t :=
  clock_time clock_gettime CLOCK_PROCESS_CPUTIME_ID.
Definition boot_now (clock_gettime : Z → Result timespec.t unit) : timespec.t :=
  clock_time clock_gettime CLOCK_BOOTTIME.
Definition real_now (clock_gettime : Z → Result timespec.t unit) : timespec.t :=
  clock_time clock_gettime CLOCK_REALTIME.

(** The trait: reading the time in microseconds, and sleeping for a number of them. *)
Class Clock (T : Type) := {
  now_us : T → Z;
  sleep : T → Z → T;
}.

Class ClockLaws (T : Type) `{Clock T} := {
  sleep_lasts (c : T) (span : Z) : 0 ≤ span → now_us c + span ≤ now_us (sleep c span);
}.

Module FakeClock.

Record t := mk { now : Z }.

#[global] Instance clock : Clock t := {
  now_us self := now self;
  sleep self span := mk (now self + span);
}.

(** [impl Clock for FakeClock]: the same instant as a [timespec]. *)
Definition now_timespec (self : t) : timespec.t :=
  timespec.mk (now self / 1000000) ((now self mod 1000000) * 1000).

#[global] Instance laws : ClockLaws t.
Proof. constructor. intros c span _. simpl. lia. Qed.

End FakeClock.

(** ** event_timer.rs *)

Definition EXIT_EVENT : Z := 0.
Definition UNKNOWN_EVENT : Z := umax u32.

Module PeriodicEvent.

Record t := mk {
  id : Z;
  period_us : Z;
  jitter_us : Z;
  next_invocation : Z;
}.

#[global] Instance eta_t : Eta t := λ r, mk (id r) (period_us r) (jitter_us r) (next_invocation r).

#[global] Instance eq_dec : EqDecision t.
Proof. solve_decision. Defined.

(** Sets this event's next invocation to be within +/- jitter one period from now;
    [gen_range n] is what the generator draws from [0..n]. *)
Definition choose_next_invocation (gen_range : Z → Z) (self : t) (now_us : Z) : option t :=
  rand_jitter ← (
    if 0 <? jitter_us self then
      n ← checked_mul u64 (jitter_us self) 2;
      Some (gen_range n)
    else Some 0);
  next ← checked_add u64 now_us (period_us self);
  next ← checked_sub next (jitter_us self);
  next ← checked_add u64 next rand_jitter;
  Some (self <| next_invocation := next |>).

(** [Ord::cmp]: the heap is a max-heap, so that the greatest event is the earliest. *)
Definition cmp (self other : t) : comparison :=
  match Z.compare (next_invocation self) (next_invocation other) with
  | Lt => Gt
  | Eq => Eq
  | Gt => Lt
  end.

End PeriodicEvent.

Module EventTimer.
Import PeriodicEvent.

Section timer.
Context {T : Type} `{Clock T}.

Record t := mk {
  clock : T;
  last_id : Z;
  events : list PeriodicEvent.t;
  (** Whether an exit flag is set, and if so what its loads return. *)
  has_exit_flag : bool;
}.

#[global] Instance eta_t : Eta t := λ r, mk (clock r) (last_id r) (events r) (has_exit_flag r).

Definition new (clock : T) : t := mk clock EXIT_EVENT [] false.

Definition set_exit_flag (self : t) : t := self <| has_exit_flag := true |>.

Definition create_event (gen_range : Z → Z) (self : t) (period jitter : Z) :
    option (PeriodicEvent.t * t) :=
  next_id ← checked_add u32 (last_id self) 1;
  period_us ← try_into u64 period;
  jitter_us ← try_into u64 jitter;
  event ← choose_next_invocation gen_range
    (PeriodicEvent.mk next_id period_us jitter_us 0) (now_us (clock self));
  Some (event, self <| last_id := next_id |>).

Definition add_event (gen_range : Z → Z) (self : t) (period jitter : Z) : option (Z * t) :=
  '(event, self) ← create_event gen_range self period jitter;
  let self := self <| events ::= cons event |> in
  Some (last_id self, self).

Definition add_event_with_delay (gen_range : Z → Z) (self : t) (period jitter delay : Z) :
    option (Z * t) :=
  '(event, self) ← create_event gen_range self period jitter;
  next ← checked_add u64 (next_invocation event) (wrap u64 delay);
  let self := self <| events ::= cons (event <| next_invocation := next |>) |> in
  Some (last_id self, self).

(** [BinaryHeap::pop]: one of the greatest elements. *)
Definition is_greatest (events : list PeriodicEvent.t) (e : PeriodicEvent.t) : bool :=
  forallb (λ e', match cmp e e' with Lt => false | _ => true end) events.

Fixpoint positions_of_greatest (all : list PeriodicEvent.t) (i : nat) (events : list PeriodicEvent.t) :
    list nat :=
  match events with
  | [] => []
  | e :: rest =>
      if is_greatest all e then i :: positions_of_greatest all (S i) rest
      else positions_of_greatest all (S i) rest
  end.

Definition pop (tie : nat) (events : list PeriodicEvent.t) :
    option (PeriodicEvent.t * list PeriodicEvent.t) :=
  let tops := positions_of_greatest events 0 events in
  i ← tops !! (tie mod length tops)%nat;
  e ← events !! i;
  Some (e, take i events ++ drop (S i) events).

(** Sleeps in fragments of at most a second, [fuel] bounding their number; [flag] gives the value
    of each load of the exit flag. *)
Fixpoint try_sleep_loop (fuel : nat) (flag : nat → bool) (self : t) (until_us now_us : Z) (i : nat) :
    option (Result unit unit * t) :=
  if now_us <? until_us then
    match fuel with
    | O => None
    | S fuel =>
        let sleep_fragment_us := Z.min (until_us - now_us) 1000000 in
        let self := self <| clock ::= λ c, sleep c sleep_fragment_us |> in
        now_us ← checked_add u64 now_us sleep_fragment_us;
        if has_exit_flag self && flag i then Some (Err tt, self)
        else try_sleep_loop fuel flag self until_us now_us (S i)
    end
  else Some (Ok tt, self).

Definition try_sleep (flag : nat → bool) (self : t) (until_us now_us : Z) :
    option (Result unit unit * t) :=
  _ ← checked_sub until_us now_us;
  try_sleep_loop (Z.to_nat ((until_us - now_us + 999999) / 1000000)) flag self until_us now_us 0.

(** Sleeps until returning the next event ID that should be invoked. *)
Definition await_next_event (tie : nat) (gen_range : Z → Z) (flag : nat → bool) (self : t) :
    option (Z * t) :=
  match pop tie (events self) with
  | Some (event, rest) =>
      let event_id := id event in
      let self := self <| events := rest |> in
      let now := now_us (clock self) in
      '(res, self) ← (
        if now <? next_invocation event then try_sleep flag self (next_invocation event) now
        else Some (Ok tt, self));
      match res with
      | Err _ => Some (EXIT_EVENT, self)
      | Ok _ =>
          event ← choose_next_invocation gen_range event (now_us (clock self));
          Some (event_id, self <| events ::= cons event |>)
      end
  | None => Some (EXIT_EVENT, self)
  end.

End timer.
Arguments t : clear implicits.
End EventTimer.
