(* ===== verification/TimerProperties.v ===== *)
(** * TimerProperties: the guarantees of clocks and of the schedule *)

From stdpp Require Import base numbers gmap list.
From S2P Require Import Prelude Timer.
Import PeriodicEvent EventTimer.

(** ** The heap *)
Module HeapFacts.

Lemma is_greatest_spec all e :
  is_greatest all e = true ↔ ∀ e', e' ∈ all → next_invocation e ≤ next_invocation e'.
Proof.
  unfold is_greatest. rewrite forallb_forall. unfold cmp.
  split; intros Hall e' He'.
  - specialize (Hall e' (proj1 (list_elem_of_In _ _) He')). revert Hall.
    destruct (Z.compare_spec (next_invocation e) (next_invocation e')); (lia || done).
  - apply list_elem_of_In in He'. specialize (Hall e' He').
    destruct (Z.compare_spec (next_invocation e) (next_invocation e')); (lia || done).
Qed.

Lemma exists_greatest (all : list PeriodicEvent.t) :
  all ≠ [] → ∃ e, e ∈ all ∧ is_greatest all e = true.
Proof.
  intros Hne. enough (∃ e, e ∈ all ∧ ∀ e', e' ∈ all → next_invocation e ≤ next_invocation e') as (e & ? & ?)
    by (exists e; by rewrite is_greatest_spec).
  induction all as [|e all IH]; [done|]. destruct all as [|e1 all].
  { exists e. split; [by left|]. intros e' ->%list_elem_of_singleton. lia. }
  destruct IH as (m & Hm & Hmin); [done|].
  destruct (Z.le_ge_cases (next_invocation e) (next_invocation m)).
  - exists e. split; [by left|]. intros e' [->|He']%elem_of_cons; [lia|]. specialize (Hmin e' He'). lia.
  - exists m. split; [by right|]. intros e' [->|He']%elem_of_cons; [lia|]. by apply Hmin.
Qed.

Lemma elem_of_positions all k l i :
  i ∈ positions_of_greatest all k l ↔
  ∃ j e, i = (k + j)%nat ∧ l !! j = Some e ∧ is_greatest all e = true.
Proof.
  revert k. induction l as [|e l IH]; intros k; simpl.
  { split; [by intros ?%not_elem_of_nil|]. by intros (j & ? & _ & ? & _). }
  assert (i ∈ positions_of_greatest all (S k) l ↔
    ∃ j e', i = (k + S j)%nat ∧ l !! j = Some e' ∧ is_greatest all e' = true) as IH'.
  { rewrite IH. split; intros (j & e' & -> & ? & ?); exists j, e'; split_and!; (done || lia). }
  destruct (is_greatest all e) eqn:E.
  - rewrite elem_of_cons, IH'. split.
    + intros [->|(j & e' & -> & ? & ?)]; [exists 0%nat, e|exists (S j), e']; split_and!; (done || lia).
    + intros ([|j] & e' & -> & ? & ?); [left; lia|right; by exists j, e'].
  - rewrite IH'. split.
    + intros (j & e' & -> & ? & ?). by exists (S j), e'.
    + intros ([|j] & e' & -> & Hl & ?); [simpl in Hl; congruence|by exists j, e'].
Qed.

(** Popping takes an earliest event out and leaves the others. *)
Lemma pop_spec tie events :
  match pop tie events with
  | Some (e, rest) =>
      events ≡ₚ e :: rest ∧ ∀ e', e' ∈ events → next_invocation e ≤ next_invocation e'
  | None => events = []
  end.
Proof.
  unfold pop. set (tops := positions_of_greatest events 0 events).
  destruct (decide (events = [])) as [->|Hne]; [done|].
  assert (tops ≠ []) as Htops.
  { destruct (exists_greatest events Hne) as (e & [j Hj]%list_elem_of_lookup & Hg).
    assert (j ∈ tops) as Hin by (apply elem_of_positions; by exists j, e). by intros Heq; rewrite Heq in Hin; apply not_elem_of_nil in Hin. }
  assert (tie mod length tops < length tops)%nat as Hlt
    by (apply Nat.mod_upper_bound; by destruct tops).
  destruct (lookup_lt_is_Some_2 tops _ Hlt) as [i Hi]. rewrite Hi. csimpl.
  apply list_elem_of_lookup_2, elem_of_positions in Hi as (j & e & -> & Hj & Hg). simpl. rewrite Hj. csimpl.
  split; [|by apply is_greatest_spec].
  rewrite <- (take_drop_middle events j e Hj) at 1. by rewrite Permutation_middle.
Qed.

End HeapFacts.

(** ** Sleeping and rescheduling *)
Module TimerFacts.

(** Decides the overflow checks of the goal one after the other. *)
Ltac check_bounds := cbn [mbind option_bind]; repeat match goal with
  |- context [Z.leb ?a ?b] => destruct (Z.leb_spec a b); cbn [mbind option_bind]; try lia end.

Definition gen_range_ok (gen_range : Z → Z) : Prop := ∀ n, 0 < n → 0 ≤ gen_range n < n.

(** An event whose next invocation can be computed. *)
Definition event_ok (e : PeriodicEvent.t) : Prop :=
  0 ≤ jitter_us e ≤ period_us e ∧ period_us e ≤ 2 ^ 60 ∧ in_range u64 (next_invocation e).

(** The next invocation is within the jitter of a period from now; computing it fails only when the
    clock is far beyond any real time. *)
Lemma choose_next_spec gen_range e now :
  gen_range_ok gen_range → event_ok e → 0 ≤ now →
  match choose_next_invocation gen_range e now with
  | Some e' => ∃ next, e' = e <| next_invocation := next |> ∧
      now + period_us e - jitter_us e ≤ next ≤ now + period_us e + jitter_us e
  | None => 2 ^ 62 < now
  end.
Proof.
  intros Hg (Hj & Hp & _) Hnow. unfold choose_next_invocation, checked_mul, checked_add, checked_sub, umax.
  destruct (Z.ltb_spec 0 (jitter_us e)) as [Hpos|Hz].
  - pose proof (Hg (jitter_us e * 2) ltac:(lia)) as Hr.
    check_bounds. eexists. split; [reflexivity|]. lia.
  - check_bounds. eexists. split; [reflexivity|]. lia.
Qed.

(** The fragments a sleep is cut into: whole seconds, then what is left. *)
Definition fragments (d : Z) : list Z :=
  replicate (Z.to_nat (d / 1000000)) 1000000 ++ (if d mod 1000000 =? 0 then [] else [d mod 1000000]).

Lemma fragments_cons d :
  0 < d → fragments d = Z.min d 1000000 :: fragments (d - Z.min d 1000000).
Proof.
  intros Hd. unfold fragments. destruct (Z.le_gt_cases 1000000 d) as [Hle|Hlt].
  - rewrite Z.min_r by lia. assert (d / 1000000 = 1 + (d - 1000000) / 1000000 ∧
      d mod 1000000 = (d - 1000000) mod 1000000) as [-> ->] by mlia.
    rewrite Z2Nat.inj_add by mlia. done.
  - rewrite Z.min_l by lia. rewrite (Z.div_small d), (Z.mod_small d) by lia. rewrite Z.sub_diag.
    destruct (Z.eqb_spec d 0); [lia|done].
Qed.

Lemma fragments_sum d : 0 ≤ d → foldr Z.add 0 (fragments d) = d ∧ Forall (Z.le 0) (fragments d).
Proof.
  induction (Z.lt_wf 0 d) as [d _ IH]. intros Hd. destruct (decide (d = 0)) as [->|]; [done|].
  rewrite fragments_cons by lia. destruct (IH (d - Z.min d 1000000)) as [Hs Hf]; [lia..|].
  split; [simpl; lia|]. constructor; [lia|done].
Qed.

Section sleep.
Context {T : Type} `{ClockLaws T}.
Implicit Types self : EventTimer.t T.

(** The clock after a list of sleeps, one after the other. *)
Definition after_sleeps (c : T) (frags : list Z) : T := foldl sleep c frags.

Lemma after_sleeps_lasts frags c :
  Forall (Z.le 0) frags → now_us c + foldr Z.add 0 frags ≤ now_us (after_sleeps c frags).
Proof.
  unfold after_sleeps. revert c. induction frags as [|f frags IH]; intros c Hf; simpl; [lia|].
  apply Forall_cons in Hf as [Hf Hfs]. pose proof (sleep_lasts c f Hf). specialize (IH (sleep c f) Hfs). lia.
Qed.

(** The sleep ends: after all its fragments with the exit flag not seen, or at the fragment whose
    load of the flag is the first to see it. *)
Definition slept (flag : nat → bool) self (d : Z) (i : nat) (r : Result unit unit * EventTimer.t T) : Prop :=
  match r.1 with
  | Ok _ => r.2 = self <| clock := after_sleeps (clock self) (fragments d) |> ∧
      (has_exit_flag self = true → ∀ j, (j < length (fragments d))%nat → flag (i + j)%nat = false)
  | Err _ => has_exit_flag self = true ∧ ∃ k, (k < length (fragments d))%nat ∧ flag (i + k)%nat = true ∧
      (∀ j, (j < k)%nat → flag (i + j)%nat = false) ∧
      r.2 = self <| clock := after_sleeps (clock self) (take (S k) (fragments d)) |>
  end.

Lemma try_sleep_loop_ends fuel flag self until now i :
  until ≤ umax u64 → (until - now + 999999) / 1000000 ≤ Z.of_nat fuel →
  ∃ r, try_sleep_loop fuel flag self until now i = Some r ∧
    (now ≤ until → slept flag self (until - now) i r).
Proof.
  intros Hu. revert self now i. induction fuel as [|fuel IH]; intros self now i Hf; simpl.
  { destruct (Z.ltb_spec now until); [mlia|]. eexists. split; [done|]. intros ?.
    replace (until - now) with 0 by lia. split; [by destruct self|]. simpl. lia. }
  destruct (Z.ltb_spec now until).
  2:{ eexists. split; [done|]. intros ?. replace (until - now) with 0 by lia.
      split; [by destruct self|]. simpl. lia. }
  set (frag := Z.min (until - now) 1000000). unfold checked_add.
  rewrite (proj2 (Z.leb_le _ _)) by lia. csimpl.
  assert (fragments (until - now) = frag :: fragments (until - (now + frag))) as Hfr.
  { rewrite fragments_cons by lia. f_equal. f_equal. unfold frag. lia. }
  unfold slept. rewrite Hfr. destruct (has_exit_flag self && flag i) eqn:E.
  { eexists. split; [done|]. intros _. apply andb_true_iff in E as [? ?]. split; [done|]. exists 0%nat.
    rewrite Nat.add_0_r. split_and!; [simpl; lia|done|lia|done]. }
  destruct (IH (self <| clock ::= λ c, sleep c frag |>) (now + frag) (S i)) as (r & Hr & Hs).
  { unfold frag. mlia. }
  exists r. split; [exact Hr|]. intros _. specialize (Hs ltac:(lia)). unfold slept in Hs.
  assert (has_exit_flag self = true → flag i = false) as Hi by (intros Hx; by rewrite Hx in E).
  destruct r as [[]]; cbn [fst snd] in *.
  - destruct Hs as [-> Hs]. split; [done|]. intros Hx [|j] Hj; rewrite ?Nat.add_0_r, <- ?plus_n_Sm; [auto|].
    apply (Hs Hx). simpl in Hj. lia.
  - destruct Hs as (Hx & k & Hk & Hfk & Hlt & ->). split; [done|]. exists (S k). rewrite <- plus_n_Sm.
    split_and!; [simpl; lia|done| |done]. intros [|j] Hj; rewrite ?Nat.add_0_r, <- ?plus_n_Sm; [auto|].
    apply Hlt. lia.
Qed.

Lemma try_sleep_ends flag self until now :
  until ≤ umax u64 → now ≤ until →
  ∃ r, try_sleep flag self until now = Some r ∧ slept flag self (until - now) 0 r.
Proof.
  intros Hu Hn. unfold try_sleep, checked_sub. rewrite (proj2 (Z.leb_le _ _)) by lia. csimpl.
  edestruct (try_sleep_loop_ends (Z.to_nat ((until - now + 999999) / 1000000)) flag self until now 0)
    as (r & Hr & Hs); [done| |by eauto]. mlia.
Qed.

(** The sleep before an event, which is skipped when the event is due. *)
Lemma sleeps_if_early flag self until :
  until ≤ umax u64 →
  ∃ r, (if now_us (clock self) <? until then try_sleep flag self until (now_us (clock self))
        else Some (Ok tt, self)) = Some r ∧
    slept flag self (Z.max 0 (until - now_us (clock self))) 0 r.
Proof.
  intros Hu. destruct (Z.ltb_spec (now_us (clock self)) until).
  - rewrite Z.max_r by lia. apply try_sleep_ends; lia.
  - rewrite Z.max_l by lia. eexists. split; [done|]. split; [by destruct self|]. simpl. lia.
Qed.

(** More fuel does not change a sleep that ends. *)
Lemma try_sleep_loop_fuel fuel fuel' flag self until now i r :
  (fuel ≤ fuel')%nat → try_sleep_loop fuel flag self until now i = Some r →
  try_sleep_loop fuel' flag self until now i = Some r.
Proof.
  revert fuel' self now i. induction fuel as [|fuel IH]; intros [|fuel'] self now i Hle; simpl; try lia;
    destruct (now <? until); try done.
  intros (n & Hn & Hr)%bind_Some. rewrite Hn. csimpl. destruct (_ && _); [done|]. by apply IH; [lia|].
Qed.

(** Once the flag is set the sleep ends with the fragment under way. *)
Lemma try_sleep_loop_exit fuel flag self until now i j :
  until ≤ umax u64 → has_exit_flag self = true → (i ≤ j)%nat → flag j = true → (j - i < fuel)%nat →
  is_Some (try_sleep_loop fuel flag self until now i).
Proof.
  intros Hu. revert self now i. induction fuel as [|fuel IH]; intros self now i Hx Hij Hj Hf; [lia|]. simpl.
  destruct (Z.ltb_spec now until); [|done]. unfold checked_add. rewrite (proj2 (Z.leb_le _ _)) by lia. csimpl.
  rewrite Hx. destruct (flag i) eqn:Ei; [done|]. simpl. destruct (decide (i = j)) as [->|]; [congruence|].
  apply IH; [done|lia|done|lia].
Qed.

End sleep.
End TimerFacts.

(** ** Properties *)
Import HeapFacts TimerFacts.


Definition sample_timer : EventTimer.t FakeClock.t :=
  EventTimer.mk (FakeClock.mk 10000000) 2
    [PeriodicEvent.mk 1 500000 0 10500000; PeriodicEvent.mk 2 30000000 5000000 40000000] true.

Definition fired_timer : EventTimer.t FakeClock.t :=
  EventTimer.mk (FakeClock.mk 10500000) 2
    [PeriodicEvent.mk 1 500000 0 11000000; PeriodicEvent.mk 2 30000000 5000000 40000000] true.


(** Scheduling with a jitter longer than the period panics soon after boot.  The next invocation
    is computed as now plus period minus jitter in unsigned arithmetic with overflow checks, so
    registering an event whose jitter exceeds the time since boot plus the period never returns;
    the accepted ranges of the publishing period and its jitter allow it. *)
Theorem jitter_underflow_panics {T : Type} `{Clock T} (self : EventTimer.t T) gen_range period jitter :
  0 ≤ now_us (clock self) → 0 ≤ period → now_us (clock self) + period < jitter →
  add_event gen_range self period jitter = None.
Proof.
  intros Hn Hp Hj. destruct (add_event gen_range self period jitter) as [r|] eqn:E; [|done]. exfalso.
  unfold add_event, create_event in E.
  apply bind_Some in E as ([event self'] & E & _). apply bind_Some in E as (next_id & _ & E).
  apply bind_Some in E as (p & [-> _]%try_into_Some & E). apply bind_Some in E as (j & [-> _]%try_into_Some & E).
  apply bind_Some in E as (e & E & _). unfold choose_next_invocation in E.
  apply bind_Some in E as (? & _ & E). apply bind_Some in E as (n1 & [-> _]%checked_add_Some & E).
  apply bind_Some in E as (n2 & [_ Hle]%checked_sub_Some & _). simpl in Hle. lia.
Qed.

Lemma jitter_underflow_panics_witness :
  add_event (λ _, 0) (EventTimer.new (FakeClock.mk (120 * 1000000))) (1 * 1000000) (600 * 1000000) = None.
Proof.
  refine (jitter_underflow_panics (EventTimer.new (FakeClock.mk (120 * 1000000))) (λ _, 0) (1 * 1000000)
    (600 * 1000000) _ _ _); by_eval.
Defined.

(** Time arithmetic is exact.  For time stamps as the system returns them, the elapsed time is
    the difference of the instants, normalised to less than a second of nanoseconds, and it is
    computed exactly when the past is not in the future; the conversions give the instant in
    nanoseconds and in whole microseconds without overflow. *)
Theorem clock_arithmetic now past :
  timespec.wf now → timespec.wf past →
  match clock_delta now past with
  | Some d => timespec.wf d ∧ timespec.nanos d = timespec.nanos now - timespec.nanos past
  | None => timespec.nanos now < timespec.nanos past
  end ∧
  timespec_to_nsec now = Some (timespec.nanos now) ∧
  timespec_to_us now = Some (timespec.nanos now / 1000).
Proof.
  destruct now as [ns nn], past as [ps pn].
  unfold timespec.wf, timespec.nanos, clock_delta, timespec_to_nsec, timespec_to_us, checked_i64,
    i64_range, NSEC_PER_SEC, checked_mul, checked_add, umax. simpl. intros Hn Hp.
  assert (∀ x, - 2 ^ 63 ≤ x < 2 ^ 63 → (- 2 ^ 63 <=? x) && (x <? 2 ^ 63) = true) as Hrange
    by (intros; lia).
  split_and!.
  - destruct (Z.ltb_spec nn pn); repeat (rewrite Hrange by lia; cbn [mbind option_bind]);
      (destruct (_ && _) eqn:E; simpl; lia).
  - repeat (rewrite Hrange by lia; cbn [mbind option_bind]). f_equal. apply wrap_id. unfold in_range. lia.
  - rewrite !wrap_id by (unfold in_range; lia).
    assert (nn / 1000 ≤ nn) by mlia. assert (0 ≤ nn / 1000) by mlia.
    rewrite (proj2 (Z.leb_le _ _)) by lia. cbn [mbind option_bind].
    rewrite (proj2 (Z.leb_le _ _)) by lia. f_equal.
    replace (ns * 1000000000 + nn) with (nn + ns * 1000000 * 1000) by lia. rewrite Z.div_add by lia. lia.
Qed.

Lemma clock_arithmetic_witness :
  clock_delta (timespec.mk 5 100) (timespec.mk 3 200) = Some (timespec.mk 1 999999900) ∧
  timespec_to_us (timespec.mk 5 100) = Some (timespec.nanos (timespec.mk 5 100) / 1000).
Proof.
  split; [reflexivity|].
  refine (proj2 (proj2 (clock_arithmetic (timespec.mk 5 100) (timespec.mk 3 200) _ _)));
    unfold timespec.wf; by_eval.
Defined.

(** C37: sleeping always ends, and a signal ends it soon.  The loop needs at most one fragment per
    begun second of the time asked for: with that many it returns, and with more it returns the
    same; when the exit flag is seen at the [j]-th load, [j + 1] fragments are enough. *)
Theorem sleep_terminates {T : Type} `{ClockLaws T} (self : EventTimer.t T) flag until now :
  until ≤ umax u64 →
  (∃ r, ∀ fuel, (until - now + 999999) / 1000000 ≤ Z.of_nat fuel →
     try_sleep_loop fuel flag self until now 0 = Some r) ∧
  (∀ j, has_exit_flag self = true → flag j = true →
     ∃ r, ∀ fuel, (S j ≤ fuel)%nat → try_sleep_loop fuel flag self until now 0 = Some r).
Proof.
  intros Hu. split.
  - set (n := Z.to_nat ((until - now + 999999) / 1000000)).
    destruct (try_sleep_loop_ends n flag self until now 0) as (r & Hr & _); [done|unfold n; lia|].
    exists r. intros fuel Hf. apply (try_sleep_loop_fuel n); [unfold n; lia|done].
  - intros j Hx Hj. destruct (try_sleep_loop_exit (S j) flag self until now 0 j) as [r Hr]; [done|done|lia|done|lia|].
    exists r. intros fuel Hf. by apply (try_sleep_loop_fuel (S j)).
Qed.

Lemma sleep_terminates_witness :
  ∃ r, ∀ fuel, (3 ≤ fuel)%nat → try_sleep_loop fuel (λ i, (2 <=? i)%nat) sample_timer 100000000 10000000 0 = Some r.
Proof.
  destruct (sleep_terminates sample_timer (λ i, (2 <=? i)%nat) 100000000 10000000) as [_ H].
  - by_eval.
  - apply (H 2%nat); reflexivity.
Defined.
