(* ===== verification/Metadata.v ===== *)
(** * Metadata: what the agent knows about its host

    Models nfm-controller/src/metadata: the metadata dictionary, the instance metadata service with
    the mapping of network interfaces to devices (eni.rs), the machine identifier (host.rs), the
    compute platform and the Kubernetes names taken from the environment, and their combination.
    The instance metadata service, the environment, the file system and the output of [ip] are
    parameters: functions giving the answer to each query. *)

From stdpp Require Import base numbers gmap list strings.
From Stdlib Require Import Ascii.
From S2P Require Import Prelude Network ReportData Text.

(** ** [EnvMetadata] *)
Module EnvMetadata.

Definition t : Type := list (string * ReportValue.t).

Definition new : t := [].
Definition from (vec : list (string * ReportValue.t)) : t := vec.
Definition insert (self : t) (key : string) (value : ReportValue.t) : t := self ++ [(key, value)].
Definition enumerate (self : t) : list (string * ReportValue.t) := self.
Definition extend (self other : t) : t := self ++ other.
Definition len (self : t) : Z := Z.of_nat (length self).
Definition is_empty (self : t) : bool := bool_decide (self = []).
Definition default : t := new.
Definition contains_key (self : t) (key : string) : bool :=
  existsb (λ '(k, _), bool_decide (k = key)) self.
Fixpoint get (self : t) (key : string) : option ReportValue.t :=
  match self with
  | [] => None
  | (k, v) :: self => if bool_decide (k = key) then Some v else get self key
  end.

End EnvMetadata.

(** ** [NetworkDevice] *)
Module NetworkDevice.

Record t := mk {
  device_name : chars;
  interface_id : chars;
}.

#[global] Instance eta_t : Eta t := λ r, mk (device_name r) (interface_id r).

#[global] Instance eq_dec : EqDecision t.
Proof. solve_decision. Defined.

#[global] Instance countable : Countable t.
Proof. refine (inj_countable' (λ d, (device_name d, interface_id d)) (λ '(a, b), mk a b) _). by intros []. Defined.

End NetworkDevice.

(** ** eni.rs *)
Module NetworkInterfaceInfo.
Record t := mk { mac : chars; interface_id : chars }.
End NetworkInterfaceInfo.

Module EniMetadataProvider.

Section provider.
(** The metadata service's answer to a path ([imds_answer] of Runtimes.v: no executor is an error
    like any other). *)
Context (imds_get : chars → Result chars unit).

Record t := mk {
  instance_id : chars;
  instance_type : chars;
  network : list NetworkInterfaceInfo.t;
}.

#[global] Instance eta_t : Eta t := λ r, mk (instance_id r) (instance_type r) (network r).

Definition retrieve_imds_metadata (path : chars) : chars :=
  match imds_get path with Ok v => v | Err _ => [] end.
Definition retrieve_instance_id : chars := retrieve_imds_metadata (chr "/latest/meta-data/instance-id").
Definition retrieve_instance_type : chars := retrieve_imds_metadata (chr "/latest/meta-data/instance-type").

Definition macs_prefix : chars := chr "/latest/meta-data/network/interfaces/macs/".

Definition get_mac_attribute (mac attribute : chars) : chars :=
  match imds_get (macs_prefix ++ mac ++ chr "/" ++ attribute) with
  | Ok attribute => attribute
  | Err _ => []
  end.

Definition retrieve_mac_information (mac : chars) : list NetworkInterfaceInfo.t :=
  [NetworkInterfaceInfo.mk mac (get_mac_attribute mac (chr "interface-id"))].

(** One trailing slash of a line is removed. *)
Definition pop_slash (mac : chars) : chars :=
  match rev mac with c :: r => if bool_decide (c = "/"%char) then rev r else mac | [] => mac end.

Definition retrieve_network_information : list NetworkInterfaceInfo.t :=
  match imds_get macs_prefix with
  | Ok macs => flat_map (λ mac, retrieve_mac_information (pop_slash mac)) (split LF macs)
  | Err _ => []
  end.

Definition new : t := mk retrieve_instance_id retrieve_instance_type retrieve_network_information.

Definition default : t := new.

Definition refresh (self : t) : t :=
  let self := if bool_decide (instance_id self = []) then self <| instance_id := retrieve_instance_id |> else self in
  let self := if bool_decide (instance_type self = []) then self <| instance_type := retrieve_instance_type |> else self in
  self <| network := retrieve_network_information |>.

Definition get_metadata (self : t) : EnvMetadata.t :=
  let metadata := EnvMetadata.new in
  let metadata := EnvMetadata.insert metadata "instance-id" (ReportValue.String (str (instance_id self))) in
  EnvMetadata.insert metadata "instance-type" (ReportValue.String (str (instance_type self))).

(** The devices [ip] lists that are not virtual, by hardware address; a later line of the same
    address wins. *)
Definition mac_to_device (is_virtual : chars → Result bool unit) (output : chars) : list (chars * chars) :=
  foldl (λ m line,
    match split_ascii_whitespace line with
    | [name; _; mac; _] =>
        match is_virtual name with
        | Ok false => (mac, name) :: m
        | _ => m
        end
    | _ => m
    end) [] (lines output).

Fixpoint device_of (m : list (chars * chars)) (mac : chars) : option chars :=
  match m with
  | [] => None
  | (k, v) :: m => if bool_decide (k = mac) then Some v else device_of m mac
  end.

(** Gets the network devices associated with the current host. *)
Definition get_network_devices (ip_link : Result chars unit) (is_virtual : chars → Result bool unit)
    (self : t) : list NetworkDevice.t :=
  match ip_link with
  | Err _ => []
  | Ok output =>
      let devices := mac_to_device is_virtual output in
      omap (λ net_info,
        dev_name ← device_of devices (NetworkInterfaceInfo.mac net_info);
        Some (NetworkDevice.mk dev_name (NetworkInterfaceInfo.interface_id net_info))) (network self)
  end.

End provider.
End EniMetadataProvider.

(** ** host.rs *)
Module HostMetadataProvider.

Record t := mk { machine_id : chars }.

Definition get_machine_id (file : Result chars unit) : chars :=
  trim (match file with Ok s => s | Err _ => [] end).

Definition new (file : Result chars unit) : t := mk (get_machine_id file).
Definition default (file : Result chars unit) : t := new file.

Definition refresh (file : Result chars unit) (self : t) : t :=
  if bool_decide (machine_id self = []) then mk (get_machine_id file) else self.

Definition get_metadata (self : t) : EnvMetadata.t :=
  EnvMetadata.from [("machine-id"%string, ReportValue.String (str (machine_id self)))].

End HostMetadataProvider.

(** ** k8s_metadata.rs and runtime_environment_metadata.rs *)

Definition ENV_K8S_NODE_NAME : string := "K8S_NODE_NAME".
Definition ENV_EKS_CLUSTER_NAME : string := "EKS_CLUSTER_NAME".

Module K8sMetadata.

Record t := mk {
  node_name : option ReportValue.t;
  cluster_name : option ReportValue.t;
}.

(** [env_var] is the environment of the process. *)
Definition default (env_var : string → option string) : t :=
  mk (ReportValue.String <$> env_var ENV_K8S_NODE_NAME)
     (ReportValue.String <$> env_var ENV_EKS_CLUSTER_NAME).

Definition new (node_name cluster_name : string) : t :=
  mk (Some (ReportValue.String node_name)) (Some (ReportValue.String cluster_name)).

End K8sMetadata.

Module RuntimeEnvironmentMetadataProvider.

Inductive ComputePlatform :=
| Ec2Plain
| Ec2K8sEks
| Ec2K8sVanilla.

Definition platform_to_string (p : ComputePlatform) : string :=
  match p with
  | Ec2Plain => "EC2_PLAIN"
  | Ec2K8sEks => "EC2_K8S_EKS"
  | Ec2K8sVanilla => "EC2_K8S_VANILLA"
  end.

Definition get_compute_platform (env_var : string → option string) : ComputePlatform :=
  match env_var ENV_EKS_CLUSTER_NAME with
  | Some _ => Ec2K8sEks
  | None => match env_var ENV_K8S_NODE_NAME with Some _ => Ec2K8sVanilla | None => Ec2Plain end
  end.

Definition KEY_COMPUTE_PLATFORM : string := "compute_platform".

Record t := mk { compute_platform : ComputePlatform }.

Definition from (compute_platform : ComputePlatform) : t := mk compute_platform.
Definition new (env_var : string → option string) : t := mk (get_compute_platform env_var).
Definition default (env_var : string → option string) : t := new env_var.

(** The runtime environment is static, no need to refresh. *)
Definition refresh (self : t) : t := self.

Definition get_metadata (self : t) : EnvMetadata.t :=
  EnvMetadata.from [(KEY_COMPUTE_PLATFORM, ReportValue.String (platform_to_string (compute_platform self)))].

End RuntimeEnvironmentMetadataProvider.

(** ** service_metadata.rs *)

Definition PROJECT_NAME : string := "network-flow-monitor".

Module ServiceMetadata.

Record t := mk {
  name : ReportValue.t;
  version : ReportValue.t;
  build_ts : ReportValue.t;
}.

Definition new (name version build_time : string) : t :=
  mk (ReportValue.String name) (ReportValue.String version) (ReportValue.String build_time).

(** The version and the time of the build are constants generated by it. *)
Definition default (PKG_VERSION BUILD_TIME_3339 : string) : t := new PROJECT_NAME PKG_VERSION BUILD_TIME_3339.

End ServiceMetadata.

(** ** [MultiMetadataProvider] *)
Module MultiMetadataProvider.

Record t := mk {
  eni_metadata : EniMetadataProvider.t;
  host_metadata : HostMetadataProvider.t;
  runtime_env_metadata : RuntimeEnvironmentMetadataProvider.t;
}.

#[global] Instance eta_t : Eta t := λ r, mk (eni_metadata r) (host_metadata r) (runtime_env_metadata r).

Definition get_network_devices (ip_link : Result chars unit) (is_virtual : chars → Result bool unit)
    (self : t) : list NetworkDevice.t :=
  EniMetadataProvider.get_network_devices ip_link is_virtual (eni_metadata self).

Definition refresh (imds_get : chars → Result chars unit) (machine_id_file : Result chars unit)
    (self : t) : t :=
  self <| eni_metadata ::= EniMetadataProvider.refresh imds_get |>
       <| host_metadata ::= HostMetadataProvider.refresh machine_id_file |>
       <| runtime_env_metadata ::= RuntimeEnvironmentMetadataProvider.refresh |>.

Definition get_metadata (self : t) : EnvMetadata.t :=
  let metadata := EnvMetadata.new in
  let metadata := EnvMetadata.extend metadata (EniMetadataProvider.get_metadata (eni_metadata self)) in
  let metadata := EnvMetadata.extend metadata (HostMetadataProvider.get_metadata (host_metadata self)) in
  EnvMetadata.extend metadata (RuntimeEnvironmentMetadataProvider.get_metadata (runtime_env_metadata self)).

End MultiMetadataProvider.
