(* ===== verification/HostStats.v ===== *)
(** * HostStats: network interface statistics

    Models nfm-controller/src/events/host_stats_provider.rs.  [ethtool] is the answer of the command
    runner during one operation: for each device its standard output, or the error of running it.
    The agent iterates over a hash map of devices; as every device is handled on its own, the
    operations are maps over the table, and only the reported list needs an order. *)

From stdpp Require Import base numbers gmap list strings.
From Stdlib Require Import Ascii.
From S2P Require Import Prelude Network ReportData Text Metadata.

Module NetworkInterfaceStats.

Record t := mk {
  bw_in_allowance_exceeded : Z;
  bw_out_allowance_exceeded : Z;
  conntrack_allowance_exceeded : Z;
  linklocal_allowance_exceeded : Z;
  pps_allowance_exceeded : Z;
  conntrack_allowance_available : Z;
}.

#[global] Instance eta_t : Eta t := λ r,
  mk (bw_in_allowance_exceeded r) (bw_out_allowance_exceeded r) (conntrack_allowance_exceeded r)
    (linklocal_allowance_exceeded r) (pps_allowance_exceeded r) (conntrack_allowance_available r).

Definition default : t := mk 0 0 0 0 0 0.

#[global] Instance eq_dec : EqDecision t.
Proof. solve_decision. Defined.

Definition subtract (self rhs : t) : t := {|
  bw_in_allowance_exceeded :=
    wrapping_sub u64 (bw_in_allowance_exceeded self) (bw_in_allowance_exceeded rhs);
  bw_out_allowance_exceeded :=
    wrapping_sub u64 (bw_out_allowance_exceeded self) (bw_out_allowance_exceeded rhs);
  conntrack_allowance_exceeded :=
    wrapping_sub u64 (conntrack_allowance_exceeded self) (conntrack_allowance_exceeded rhs);
  linklocal_allowance_exceeded :=
    wrapping_sub u64 (linklocal_allowance_exceeded self) (linklocal_allowance_exceeded rhs);
  pps_allowance_exceeded :=
    wrapping_sub u64 (pps_allowance_exceeded self) (pps_allowance_exceeded rhs);
  (* Maintain level-based stats. *)
  conntrack_allowance_available := conntrack_allowance_available self
|}.

Definition serialize (self : t) : list (string * json) :=
  [("bw_in_allowance_exceeded", json_uint (bw_in_allowance_exceeded self));
   ("bw_out_allowance_exceeded", json_uint (bw_out_allowance_exceeded self));
   ("conntrack_allowance_exceeded", json_uint (conntrack_allowance_exceeded self));
   ("linklocal_allowance_exceeded", json_uint (linklocal_allowance_exceeded self));
   ("pps_allowance_exceeded", json_uint (pps_allowance_exceeded self));
   ("conntrack_allowance_available", json_uint (conntrack_allowance_available self))]%string.

Definition enumerate (self : t) : list (string * ReportValue.t) := to_value_pairs (serialize self).

End NetworkInterfaceStats.

Module GroupedInterfaceStats.
Record t := mk { interface_id : chars; stats : NetworkInterfaceStats.t }.
End GroupedInterfaceStats.

Module HostStats.
Record t := mk { interface_stats : list GroupedInterfaceStats.t }.
Definition default : t := mk [].
End HostStats.

Module HostStatsProviderImpl.
Import NetworkInterfaceStats.

(** [network_interface_stats]: the latest totals of each device. *)
Abbreviation Table := (gmap NetworkDevice.t NetworkInterfaceStats.t).

Definition new : Table := ∅.

(** One line of the output. *)
Definition apply_line (stats : NetworkInterfaceStats.t) (line : chars) : NetworkInterfaceStats.t :=
  match split_ascii_whitespace line with
  | [name; value] =>
      let val := from_option id 0 (parse_uint u64 value) in
      if bool_decide (name = chr "bw_in_allowance_exceeded:") then
        stats <| bw_in_allowance_exceeded := val |>
      else if bool_decide (name = chr "bw_out_allowance_exceeded:") then
        stats <| bw_out_allowance_exceeded := val |>
      else if bool_decide (name = chr "conntrack_allowance_exceeded:") then
        stats <| conntrack_allowance_exceeded := val |>
      else if bool_decide (name = chr "linklocal_allowance_exceeded:") then
        stats <| linklocal_allowance_exceeded := val |>
      else if bool_decide (name = chr "pps_allowance_exceeded:") then
        stats <| pps_allowance_exceeded := val |>
      else if bool_decide (name = chr "conntrack_allowance_available:") then
        stats <| conntrack_allowance_available := val |>
      else stats
  | _ => stats
  end.

Section provider.
Context (ethtool : chars → Result chars unit).

(** Loads stats for a single network interface. *)
Definition load_single_iface_stats (dev_name : chars) : Result NetworkInterfaceStats.t unit :=
  match ethtool dev_name with
  | Ok stdout => Ok (foldl apply_line NetworkInterfaceStats.default (lines stdout))
  | Err e => Err e
  end.

(** Loads stats for all configured network interfaces, preserving prior stats on error. *)
Definition load_all_iface_stats (self : Table) : Table :=
  map_imap (λ net_device prior,
    match load_single_iface_stats (NetworkDevice.device_name net_device) with
    | Ok stats => Some stats
    | Err _ => Some prior
    end) self.

(** Adds a device, loading its stats so that historical values are not treated as large deltas. *)
Definition register (net_dev : NetworkDevice.t) (self : Table) : Table :=
  match self !! net_dev with
  | Some _ => self
  | None =>
      let stats := match load_single_iface_stats (NetworkDevice.device_name net_dev) with
                   | Ok stats => stats
                   | Err _ => NetworkInterfaceStats.default
                   end in
      <[net_dev := stats]> self
  end.

Definition set_network_devices (self : Table) (net_devices : list NetworkDevice.t) : Table :=
  let devices : gset NetworkDevice.t := list_to_set net_devices in
  (* Purge old devices. *)
  let self := filter (λ kv, kv.1 ∈ devices) self in
  (* Add new. *)
  set_fold register self devices.

Definition build_host_stats (order : list (NetworkDevice.t * NetworkInterfaceStats.t)) : HostStats.t :=
  HostStats.mk (map (λ '(net_dev, stats),
    GroupedInterfaceStats.mk (NetworkDevice.interface_id net_dev) stats) order).

(** The deltas; [unwrap] cannot fail, as both tables have the same devices. *)
Definition delta_iface_stats (latest self : Table) : option Table :=
  map_fold (λ net_device latest_stats acc,
    acc ← acc;
    prior ← self !! net_device;
    Some (<[net_device := NetworkInterfaceStats.subtract latest_stats prior]> acc)) (Some ∅) latest.

(** [order] is the order in which the hash map of deltas is drained. *)
Definition get_stats (order : Table → list (NetworkDevice.t * NetworkInterfaceStats.t)) (self : Table) :
    option (HostStats.t * Table) :=
  let latest_iface_stats := load_all_iface_stats self in
  deltas ← delta_iface_stats latest_iface_stats self;
  Some (build_host_stats (order deltas), latest_iface_stats).

End provider.
End HostStatsProviderImpl.
