(* ===== verification/HostStatsProperties.v ===== *)
(** * HostStatsProperties: the guarantees of interface statistics and metadata *)

From stdpp Require Import base numbers gmap list strings.
From Stdlib Require Import Ascii.
From S2P Require Import Prelude Network ReportData Text VpcCidr Metadata HostStats.
Import HostStatsProviderImpl NetworkInterfaceStats.

Module HostStatsFacts.

(** What registering a device records: its current totals, zero when they cannot be read. *)
Definition registered (ethtool : chars → Result chars unit) (d : NetworkDevice.t) : NetworkInterfaceStats.t :=
  match load_single_iface_stats ethtool (NetworkDevice.device_name d) with
  | Ok s => s
  | Err _ => NetworkInterfaceStats.default
  end.

Lemma set_devices_lookup ethtool (self : Table) net_devices d :
  set_network_devices ethtool self net_devices !! d =
  if decide (d ∈ net_devices) then Some (from_option id (registered ethtool d) (self !! d)) else None.
Proof.
  unfold set_network_devices. set (self0 := filter _ self).
  set (devices := list_to_set net_devices : gset NetworkDevice.t).
  assert (self0 !! d = if decide (d ∈ net_devices) then self !! d else None) as H0.
  { unfold self0. rewrite map_lookup_filter. destruct (self !! d) as [s|]; simpl; [|by case_decide].
    assert (d ∈ devices ↔ d ∈ net_devices) as Hd by apply elem_of_list_to_set.
    case_guard as Hg; case_decide; try done; simpl in Hg; tauto. }
  assert (∀ (s : Table) (X : gset NetworkDevice.t), set_fold (register ethtool) s X !! d =
    match s !! d with Some v => Some v
    | None => if decide (d ∈ X) then Some (registered ethtool d) else None end) as Hfold.
  { intros s X. revert X. apply (set_fold_ind_L (λ (r : Table) (X : gset NetworkDevice.t), r !! d =
      match s !! d with Some v => Some v
      | None => if decide (d ∈ X) then Some (registered ethtool d) else None end)).
    - destruct (s !! d); [done|]. rewrite decide_False by set_solver. done.
    - intros x X r Hx IH. unfold register. destruct (decide (x = d)) as [->|Hne].
      + rewrite decide_False in IH by done. destruct (r !! d) as [v|] eqn:Er.
        * rewrite Er. by destruct (s !! d).
        * rewrite lookup_insert_eq. destruct (s !! d); [done|]. rewrite decide_True by set_solver. done.
      + assert (∀ v, (match r !! x with Some _ => r | None => <[x := v]> r end) !! d = r !! d) as E.
        { intros v. destruct (r !! x); [done|]. by rewrite lookup_insert_ne. }
        rewrite E, IH. destruct (s !! d); [done|].
        destruct (decide (d ∈ X)), (decide (d ∈ {[x]} ∪ X)); try done; set_solver. }
  rewrite Hfold, H0. unfold devices. destruct (decide (d ∈ net_devices)).
  - destruct (self !! d); [done|]. rewrite decide_True by by apply elem_of_list_to_set. done.
  - rewrite decide_False by by rewrite elem_of_list_to_set. done.
Qed.

Lemma load_all_lookup ethtool (self : Table) d :
  load_all_iface_stats ethtool self !! d =
  (λ prior, match load_single_iface_stats ethtool (NetworkDevice.device_name d) with
            | Ok s => s | Err _ => prior end) <$> self !! d.
Proof.
  unfold load_all_iface_stats. rewrite map_lookup_imap. destruct (self !! d); [|done]. simpl. by case_match.
Qed.

(** The deltas exist for exactly the devices that were loaded. *)
Lemma delta_lookup (latest self : Table) :
  (∀ d, is_Some (latest !! d) → is_Some (self !! d)) →
  ∃ m, delta_iface_stats latest self = Some m ∧
    ∀ d, m !! d = (s ← latest !! d; p ← self !! d; Some (subtract s p)).
Proof.
  unfold delta_iface_stats. set (f := λ _ _ _, _).
  revert latest. apply (map_fold_weak_ind (λ (r : option Table) (latest : Table),
    (∀ d, is_Some (latest !! d) → is_Some (self !! d)) →
    ∃ m, r = Some m ∧ ∀ d, m !! d = (s ← latest !! d; p ← self !! d; Some (subtract s p)))).
  - intros _. exists ∅. split; [done|]. intros d. by rewrite !lookup_empty.
  - intros d s m r Hd IH Hdom.
    destruct IH as (m' & -> & Hm').
    { intros d' Hd'. apply Hdom. destruct (decide (d = d')) as [->|]; [congruence || (by rewrite lookup_insert_eq)|].
      by rewrite lookup_insert_ne. }
    destruct (Hdom d) as [p Hp]; [by rewrite lookup_insert_eq|].
    unfold f. cbn [mbind option_bind]. rewrite Hp. cbn [mbind option_bind]. eexists. split; [reflexivity|].
    intros d'. destruct (decide (d = d')) as [<-|].
    + rewrite !lookup_insert_eq. csimpl. by rewrite Hp.
    + by rewrite !lookup_insert_ne.
Qed.

(** A round of statistics: no panic, new totals, and the deltas in between. *)
Lemma get_stats_spec ethtool order (self : Table) :
  ∃ deltas, get_stats ethtool order self = Some (build_host_stats (order deltas), load_all_iface_stats ethtool self) ∧
    ∀ d, deltas !! d = (s ← load_all_iface_stats ethtool self !! d; p ← self !! d; Some (subtract s p)).
Proof.
  unfold get_stats. destruct (delta_lookup (load_all_iface_stats ethtool self) self) as (m & -> & Hm).
  - intros d. rewrite load_all_lookup. by rewrite fmap_is_Some.
  - csimpl. by exists m.
Qed.

(** Adding a delta to the totals it was taken from. *)
Definition add_delta (base delta : NetworkInterfaceStats.t) : NetworkInterfaceStats.t := {|
  bw_in_allowance_exceeded := wrapping_add u64 (bw_in_allowance_exceeded base) (bw_in_allowance_exceeded delta);
  bw_out_allowance_exceeded := wrapping_add u64 (bw_out_allowance_exceeded base) (bw_out_allowance_exceeded delta);
  conntrack_allowance_exceeded :=
    wrapping_add u64 (conntrack_allowance_exceeded base) (conntrack_allowance_exceeded delta);
  linklocal_allowance_exceeded :=
    wrapping_add u64 (linklocal_allowance_exceeded base) (linklocal_allowance_exceeded delta);
  pps_allowance_exceeded := wrapping_add u64 (pps_allowance_exceeded base) (pps_allowance_exceeded delta);
  conntrack_allowance_available := conntrack_allowance_available delta
|}.

Definition stats_wf (s : NetworkInterfaceStats.t) : Prop :=
  in_range u64 (bw_in_allowance_exceeded s) ∧ in_range u64 (bw_out_allowance_exceeded s) ∧
  in_range u64 (conntrack_allowance_exceeded s) ∧ in_range u64 (linklocal_allowance_exceeded s) ∧
  in_range u64 (pps_allowance_exceeded s) ∧ in_range u64 (conntrack_allowance_available s).

Lemma add_delta_subtract s p : stats_wf s → add_delta p (subtract s p) = s.
Proof.
  unfold stats_wf, add_delta, subtract. destruct s. simpl. intros. destruct_and!.
  by rewrite !wrapping_add_sub.
Qed.

(** Reading [ethtool]'s output gives values in range. *)
Lemma apply_line_wf s line : stats_wf s → stats_wf (apply_line s line).
Proof.
  intros Hs. unfold apply_line. destruct (split_ascii_whitespace line) as [|name [|value [|]]]; try done.
  assert (in_range u64 (from_option id 0 (parse_uint u64 value))) as Hv.
  { destruct (parse_uint u64 value) eqn:E; [|by_eval]. simpl. by eapply parse_uint_range. }
  unfold stats_wf in *. destruct_and!.
  repeat (destruct (bool_decide _); [simpl; by split_and!|]). by split_and!.
Qed.

Lemma load_wf ethtool dev s : load_single_iface_stats ethtool dev = Ok s → stats_wf s.
Proof.
  unfold load_single_iface_stats. destruct (ethtool dev) as [out|]; [|done]. intros [= <-].
  assert (stats_wf NetworkInterfaceStats.default) as Hd by (unfold stats_wf; by_eval).
  revert Hd. generalize NetworkInterfaceStats.default.
  induction (lines out) as [|line ls IH]; intros s Hs; simpl; [done|]. apply IH. by apply apply_line_wf.
Qed.

Definition table_wf (self : Table) : Prop := map_Forall (λ _ s, stats_wf s) self.

Lemma load_all_wf ethtool self : table_wf self → table_wf (load_all_iface_stats ethtool self).
Proof.
  intros Hw d s. rewrite load_all_lookup. intros (p & Hp & ->)%fmap_Some.
  destruct (load_single_iface_stats ethtool _) eqn:E; [by eapply load_wf|by eapply Hw].
Qed.

(** What a report says about an interface. *)
Definition reported (d : NetworkDevice.t) (r : HostStats.t) : list NetworkInterfaceStats.t :=
  omap (λ g, if bool_decide (GroupedInterfaceStats.interface_id g = NetworkDevice.interface_id d)
             then Some (GroupedInterfaceStats.stats g) else None) (HostStats.interface_stats r).

(** No other device of the table has the interface of [d]. *)
Definition own_interface (d : NetworkDevice.t) (self : Table) : Prop :=
  ∀ d', is_Some (self !! d') → NetworkDevice.interface_id d' = NetworkDevice.interface_id d → d' = d.

Lemma omap_nothing {A B} (f : A → option B) l : (∀ x, x ∈ l → f x = None) → omap f l = [].
Proof.
  induction l as [|x l IH]; intros Hf; [done|]. csimpl. rewrite (Hf x) by by left.
  apply IH. intros y Hy. apply Hf. by right.
Qed.

Lemma reported_build d (deltas : Table) order :
  order ≡ₚ map_to_list deltas → own_interface d deltas →
  reported d (build_host_stats order) = option_list (deltas !! d).
Proof.
  intros Hp Hown. unfold reported, build_host_stats. simpl. rewrite VpcCidrFacts.omap_map.
  set (f := λ x, _).
  assert (∀ l : list (NetworkDevice.t * NetworkInterfaceStats.t),
    (∀ x, x ∈ l → x.1 ≠ d ∧ is_Some (deltas !! x.1)) → omap f l = []) as Hnone.
  { intros l Hl. apply omap_nothing. intros [d' s] Hx. destruct (Hl _ Hx) as [Hne His]. simpl in *.
    unfold f. rewrite bool_decide_eq_false_2; [done|]. intros Heq. by apply Hne, Hown. }
  destruct (deltas !! d) as [s|] eqn:E.
  - rewrite <- (map_to_list_delete deltas d s E) in Hp.
    assert (omap f order ≡ₚ [s]) as Hperm; [|by apply Permutation_singleton_r in Hperm].
    rewrite Hp. csimpl. unfold f at 1. rewrite bool_decide_eq_true_2 by done. simpl.
    rewrite Hnone; [done|]. intros [d' s'] Hx%elem_of_map_to_list.
    rewrite lookup_delete_Some in Hx. simpl. destruct Hx as [? Hx]. split; [congruence|by eexists].
  - apply Hnone. intros [d' s'] Hx. rewrite Hp in Hx. apply elem_of_map_to_list in Hx. simpl.
    split; [congruence|by eexists].
Qed.

(** Consecutive rounds, each with the answers [ethtool] gives during it. *)
Fixpoint run_rounds (order : Table → list (NetworkDevice.t * NetworkInterfaceStats.t)) (self : Table)
    (answers : list (chars → Result chars unit)) : option (list HostStats.t * Table) :=
  match answers with
  | [] => Some ([], self)
  | ethtool :: answers =>
      '(report, self) ← get_stats ethtool order self;
      '(reports, self) ← run_rounds order self answers;
      Some (report :: reports, self)
  end.

Lemma own_interface_dom d (m1 m2 : Table) :
  (∀ d', is_Some (m2 !! d') → is_Some (m1 !! d')) → own_interface d m1 → own_interface d m2.
Proof. intros Hsub Hown d' Hd'. by apply Hown, Hsub. Qed.

Lemma iface_rounds_conserve order answers self d s0 :
  (∀ m, order m ≡ₚ map_to_list m) → table_wf self → own_interface d self → self !! d = Some s0 →
  ∃ reports self', run_rounds order self answers = Some (reports, self') ∧
    self' !! d = Some (foldl add_delta s0 (flat_map (reported d) reports)).
Proof.
  intros Hord. revert self s0. induction answers as [|ethtool answers IH]; intros self s0 Hw Hown H0.
  { exists [], self. done. }
  destruct (get_stats_spec ethtool order self) as (deltas & Hget & Hd).
  set (latest := load_all_iface_stats ethtool self) in *.
  assert (∀ d', is_Some (latest !! d') → is_Some (self !! d')) as Hsub
    by (intros d'; unfold latest; rewrite load_all_lookup; by rewrite fmap_is_Some).
  assert (∃ s1, latest !! d = Some s1) as [s1 H1] by (unfold latest; rewrite load_all_lookup, H0; by eexists).
  assert (table_wf latest) as Hw' by by apply load_all_wf.
  destruct (IH latest s1 Hw' (own_interface_dom d _ _ Hsub Hown) H1) as (reports & self' & Hrun & Hfin).
  exists (build_host_stats (order deltas) :: reports), self'. split.
  { cbn [run_rounds]. rewrite Hget. csimpl. rewrite Hrun. done. }
  rewrite Hfin. f_equal. cbn [flat_map]. rewrite foldl_app. f_equal.
  rewrite (reported_build d deltas) by (done || (eapply own_interface_dom; [|exact Hown]; intros d' Hd';
    apply Hsub; rewrite Hd in Hd'; destruct (latest !! d'); [by eexists|by destruct Hd'])).
  rewrite Hd, H0, H1. csimpl. symmetry. apply add_delta_subtract. by eapply Hw'.
Qed.

End HostStatsFacts.

(** ** Properties *)
Import HostStatsFacts.

(** C25: Interface statistics are conserved.  Over any number of rounds, whatever [ethtool] prints
    and whenever it fails, the deltas reported for an interface add up from the totals recorded at
    the start to the totals read last, across wrap-around; nothing panics. *)
Theorem host_deltas_conserved order answers self d s0 :
  (∀ m, order m ≡ₚ map_to_list m) → table_wf self → own_interface d self → self !! d = Some s0 →
  ∃ reports self', run_rounds order self answers = Some (reports, self') ∧
    self' !! d = Some (foldl add_delta s0 (flat_map (reported d) reports)).
Proof. apply iface_rounds_conserve. Qed.

Definition eth0 : NetworkDevice.t := NetworkDevice.mk (chr "eth0") (chr "eni-1").
Definition nl : string := String LF "".
Definition ena_output (v : string) : chars :=
  chr ("NIC statistics:" ++ nl ++ "     bw_in_allowance_exceeded: " ++ v ++ nl ++
       "     pps_allowance_exceeded: 7" ++ nl ++ "     queue_0_tx_cnt: 12" ++ nl)%string.
Definition one_device : Table := {[eth0 := NetworkInterfaceStats.default <| bw_in_allowance_exceeded := 5 |>]}.

Lemma host_deltas_conserved_witness :
  ∃ reports self',
    run_rounds map_to_list one_device [λ _, Ok (ena_output "9"); λ _, Err tt; λ _, Ok (ena_output "20")] =
      Some (reports, self') ∧
    self' !! eth0 = Some (foldl add_delta (NetworkInterfaceStats.default <| bw_in_allowance_exceeded := 5 |>)
      (flat_map (reported eth0) reports)).
Proof.
  refine (host_deltas_conserved map_to_list _ one_device eth0 _ _ _ _ _).
  - done.
  - apply map_Forall_singleton. unfold stats_wf. by_eval.
  - intros d' [s Hs] _. unfold one_device in Hs. apply lookup_singleton_Some in Hs as [<- _]. done.
  - reflexivity.
Defined.

(** Tracking network devices.  After a refresh the table holds exactly the devices given; those
    that were known keep the totals their next delta is taken from, and a new one starts from the
    totals read now, so that its history is not reported, or from zero when they cannot be read. *)
Theorem devices_tracked ethtool (self : Table) net_devices d :
  set_network_devices ethtool self net_devices !! d =
  if decide (d ∈ net_devices) then Some (from_option id (registered ethtool d) (self !! d)) else None.
Proof. apply set_devices_lookup. Qed.

(** A failed first reading makes the whole history a delta.  When the totals of a new device
    cannot be read at registration, it is recorded with zeros, and the next successful reading is
    reported as if all of it had happened since. *)
Theorem failed_registration_reports_history ethtool1 ethtool2 order d s :
  (∀ m, order m ≡ₚ map_to_list m) →
  ethtool1 (NetworkDevice.device_name d) = Err tt →
  load_single_iface_stats ethtool2 (NetworkDevice.device_name d) = Ok s →
  ∃ report self', get_stats ethtool2 order (set_network_devices ethtool1 new [d]) = Some (report, self') ∧
    reported d report = [s].
Proof.
  intros Hord H1 H2. set (self := set_network_devices ethtool1 new [d]).
  assert (∀ d', self !! d' = if decide (d' = d) then Some NetworkInterfaceStats.default else None) as Hs.
  { intros d'. unfold self. rewrite set_devices_lookup. unfold new. rewrite lookup_empty. simpl.
    destruct (decide (d' = d)) as [->|Hne]; [|by rewrite decide_False by (by rewrite list_elem_of_singleton)].
    rewrite decide_True by by apply list_elem_of_singleton. unfold registered, load_single_iface_stats.
    by rewrite H1. }
  destruct (get_stats_spec ethtool2 order self) as (deltas & Hget & Hd). rewrite Hget. eexists _, _.
  split; [done|]. rewrite (reported_build d deltas), Hd, load_all_lookup, (Hs d); [|done|].
  - rewrite decide_True by done. csimpl. rewrite H2. unfold option_list, subtract. simpl. f_equal.
    pose proof (load_wf _ _ _ H2) as Hw. unfold stats_wf in Hw. destruct s. simpl in *. destruct_and!.
    f_equal; rewrite wrapping_sub_exact by (done || (unfold in_range in *; lia)); lia.
  - intros d'. rewrite Hd, load_all_lookup, Hs. destruct (decide (d' = d)); [done|]. by intros [? ?].
Qed.

Lemma failed_registration_reports_history_witness :
  ∃ report self',
    get_stats (λ _, Ok (ena_output "123456")) map_to_list (set_network_devices (λ _, Err tt) new [eth0]) =
      Some (report, self') ∧
    reported eth0 report = [NetworkInterfaceStats.default <| bw_in_allowance_exceeded := 123456 |>
      <| pps_allowance_exceeded := 7 |>].
Proof.
  refine (failed_registration_reports_history (λ _, Err tt) (λ _, Ok (ena_output "123456")) map_to_list eth0
    _ _ _ _).
  - done.
  - reflexivity.
  - vm_compute. reflexivity.
Defined.
