(* ===== verification/Report.v ===== *)
(** * Report: the report and its export

    Models nfm-controller/src/reports/report.rs (the report) and report_otlp.rs (its conversion to
    an OpenTelemetry export request).  The OpenTelemetry messages are generated code: they are the
    records of the fields the agent sets, all others being defaults; their protobuf encoding is a
    parameter of Publisher.v.  An [f64] is the rational it denotes, and the cast of an integer to it
    rounds ([as_f64]); the conversion of a [u32] is exact.  [None] is a panic. *)

From stdpp Require Import base numbers gmap list strings.
From Stdlib Require Import QArith_base.
From S2P Require Import Prelude Network ReportData NetworkEvent Text Metadata HostStats.
Open Scope Z_scope.

Definition REPORT_VERSION : string := "1.1".

Module NfmReport.

Record t := mk {
  network_stats : list AggregateResults.t;
  process_stats : ProcessStats.t;
  host_stats : HostStats.t;
  env_metadata : EnvMetadata.t;
  service_metadata : ServiceMetadata.t;
  failed_reports : Z;
  report_version : string;
  k8s_metadata : K8sMetadata.t;
}.

#[global] Instance eta_t : Eta t := λ r,
  mk (network_stats r) (process_stats r) (host_stats r) (env_metadata r) (service_metadata r)
    (failed_reports r) (report_version r) (k8s_metadata r).

(** The build's identity and the environment determine the default metadata. *)
Definition new (service : ServiceMetadata.t) (env_var : string → option string) : t := {|
  network_stats := [];
  process_stats := ProcessStats.default;
  host_stats := HostStats.default;
  env_metadata := EnvMetadata.new;
  service_metadata := service;
  failed_reports := 0;
  report_version := REPORT_VERSION;
  k8s_metadata := K8sMetadata.default env_var
|}.

Definition set_network_stats (self : t) (agg_stats : list AggregateResults.t) : t :=
  self <| network_stats := agg_stats |>.
Definition set_process_stats (self : t) (stats : ProcessStats.t) : t := self <| process_stats := stats |>.
Definition set_host_stats (self : t) (stats : HostStats.t) : t := self <| host_stats := stats |>.
Definition set_env_metadata (self : t) (metadata : EnvMetadata.t) : t := self <| env_metadata := metadata |>.
Definition set_service_metadata (self : t) (metadata : ServiceMetadata.t) : t :=
  self <| service_metadata := metadata |>.
Definition set_k8s_metadata (self : t) (metadata : K8sMetadata.t) : t := self <| k8s_metadata := metadata |>.
Definition set_failed_reports (self : t) (n : Z) : t := self <| failed_reports := n |>.

End NfmReport.

(** ** OpenTelemetry messages *)

Inductive Value :=
| DoubleValue (f : Q)
| IntValue (i : Z)
| StringValue (s : string).

Record KeyValue := mk_kv { key : string; value : Value }.

Inductive NumberValue :=
| AsDouble (f : Q)
| AsInt (i : Z).

Record HistogramDataPoint := mk_hdp {
  h_time_unix_nano : Z;
  h_start_time_unix_nano : Z;
  h_count : Z;
  h_sum : option Q;
  h_min : option Q;
  h_max : option Q;
}.

Record NumberDataPoint := mk_ndp {
  n_time_unix_nano : Z;
  n_start_time_unix_nano : Z;
  n_value : option NumberValue;
}.

#[global] Instance eta_hdp : Eta HistogramDataPoint := λ r,
  mk_hdp (h_time_unix_nano r) (h_start_time_unix_nano r) (h_count r) (h_sum r) (h_min r) (h_max r).
#[global] Instance eta_ndp : Eta NumberDataPoint := λ r,
  mk_ndp (n_time_unix_nano r) (n_start_time_unix_nano r) (n_value r).

(** Sums and histograms are deltas, and sums monotonic. *)
Inductive Data :=
| Histogram (data_points : list HistogramDataPoint)
| Gauge (data_points : list NumberDataPoint)
| Sum (data_points : list NumberDataPoint).

Record Metric := mk_metric { name : string; data : Data }.

Record ScopeMetrics := mk_scope {
  scope_name : string;
  attributes : list KeyValue;
  metrics : list Metric;
}.

#[global] Instance eta_scope : Eta ScopeMetrics := λ r, mk_scope (scope_name r) (attributes r) (metrics r).

Record ResourceMetrics := mk_resource {
  resource : list KeyValue;
  scope_metrics : list ScopeMetrics;
}.

#[global] Instance eta_resource : Eta ResourceMetrics := λ r, mk_resource (resource r) (scope_metrics r).

(** ** report_otlp.rs *)
Module NfmReportOTLP.

Definition SCOPE_NAME_NETWORK_STAT : string := "network_stats".
Definition SCOPE_NAME_HOST_STAT : string := "host_stats".
Definition SCOPE_NAME_PROCESS_STAT : string := "process_stats".
Definition SCOPE_NAME_COUNTERS : string := "counters".
Definition METADATA_SERVICE_NAME : string := "service.name".
Definition METADATA_SERVICE_VERSION : string := "service.version".
Definition METADATA_AGENT_BUILD_TIME : string := "agent.build_ts".
Definition METADATA_K8S_NODE_NAME : string := "k8s_node_name".
Definition METADATA_K8S_EKS_CLUSTER_NAME : string := "k8s_eks_cluster_name".

(** [x as i64] of a [u64]. *)
Definition as_i64 (x : Z) : Z := if x <? 2 ^ 63 then x else x - 2 ^ 64.

(** [x as f64] of an integer: the nearest number with 53 significant bits, ties to even. *)
Definition round_f64 (x : Z) : Z :=
  let m := Z.abs x in
  if m <? 2 ^ 53 then x
  else
    let ulp := 2 ^ (Z.log2 m - 52) in
    let q := m / ulp in
    let r := m mod ulp in
    let q := if (2 * r <? ulp) || ((2 * r =? ulp) && Z.even q) then q else q + 1 in
    Z.sgn x * (q * ulp).
Definition as_f64 (x : Z) : Q := inject_Z (round_f64 x).

(** [From<ReportValue> for Value]. *)
Definition value_from (report_val : ReportValue.t) : option Value :=
  match report_val with
  | ReportValue.Float f => Some (DoubleValue f)
  | ReportValue.UInt u => Some (IntValue (if u <? 2 ^ 63 then u else 0))
  | ReportValue.Int i => Some (IntValue i)
  | ReportValue.String s => Some (StringValue s)
  | ReportValue.Invalid => Some (StringValue "")
  | ReportValue.Histogram _ => None
  end.

Definition build_metric_histogram (name : string) (timestamp_ns : Z) (value : ReportValue.t) :
    Result Metric unit :=
  let data_point := mk_hdp timestamp_ns timestamp_ns 1 None None None in
  let data_point :=
    match value with
    | ReportValue.Float value => Ok (data_point <| h_sum := Some value |>)
    | ReportValue.Int value => Ok (data_point <| h_sum := Some (as_f64 value) |>)
    | ReportValue.UInt value => Ok (data_point <| h_sum := Some (as_f64 value) |>)
    | ReportValue.Histogram histo => Ok (data_point
        <| h_count := MetricHistogram.count histo |>
        <| h_min := Some (inject_Z (MetricHistogram.min histo)) |>
        <| h_max := Some (inject_Z (MetricHistogram.max histo)) |>
        <| h_sum := Some (as_f64 (MetricHistogram.sum histo)) |>)
    | _ => Err tt
    end in
  match data_point with
  | Ok data_point => Ok (mk_metric name (Histogram [data_point]))
  | Err e => Err e
  end.

(** The value of a number point. *)
Definition number_point (timestamp_ns : Z) (value : ReportValue.t) : Result NumberDataPoint unit :=
  let data_point := mk_ndp timestamp_ns timestamp_ns None in
  match value with
  | ReportValue.Float value => Ok (data_point <| n_value := Some (AsDouble value) |>)
  | ReportValue.Int value => Ok (data_point <| n_value := Some (AsInt value) |>)
  | ReportValue.UInt value => Ok (data_point <| n_value := Some (AsInt (as_i64 value)) |>)
  | _ => Err tt
  end.

Definition build_metric_gauge (name : string) (timestamp_ns : Z) (value : ReportValue.t) :
    Result Metric unit :=
  match number_point timestamp_ns value with
  | Ok data_point => Ok (mk_metric name (Gauge [data_point]))
  | Err e => Err e
  end.

Definition build_metric_sum (name : string) (timestamp_ns : Z) (value : ReportValue.t) :
    Result Metric unit :=
  match number_point timestamp_ns value with
  | Ok data_point => Ok (mk_metric name (Sum [data_point]))
  | Err e => Err e
  end.

(** The metrics of a list of values; those that cannot be built are logged and skipped. *)
Definition push_metrics (build : string → Z → ReportValue.t → Result Metric unit) (timestamp_ns : Z)
    (values : list (string * ReportValue.t)) : list Metric :=
  omap (λ '(name, value), match build name timestamp_ns value with Ok m => Some m | Err _ => None end) values.

Definition key_value (entry : string * ReportValue.t) : option KeyValue :=
  v ← value_from (snd entry); Some (mk_kv (fst entry) v).

Section build.
(** [IpAddr]'s [Display]. *)
Context (ip_to_string : IpAddr.t → string).

Definition network_scope (timestamp_ns : Z) (network_stat : AggregateResults.t) : option ScopeMetrics :=
  attributes ← mapM key_value (FlowProperties.enumerate ip_to_string (AggregateResults.flow network_stat));
  Some (mk_scope SCOPE_NAME_NETWORK_STAT attributes
    (push_metrics build_metric_histogram timestamp_ns
       (NetworkStats.enumerate (AggregateResults.stats network_stat)))).

Definition add_network_stats (report : NfmReport.t) (timestamp_ns : Z) (rm : ResourceMetrics) :
    option ResourceMetrics :=
  scopes ← mapM (network_scope timestamp_ns) (NfmReport.network_stats report);
  Some (rm <| scope_metrics ::= λ l, l ++ scopes |>).

Definition host_scope (timestamp_ns : Z) (grouped_stats : GroupedInterfaceStats.t) : ScopeMetrics :=
  mk_scope SCOPE_NAME_HOST_STAT
    [mk_kv "interface_id" (StringValue (str (GroupedInterfaceStats.interface_id grouped_stats)))]
    (push_metrics build_metric_sum timestamp_ns
       (NetworkInterfaceStats.enumerate (GroupedInterfaceStats.stats grouped_stats))).

Definition add_host_stats (report : NfmReport.t) (timestamp_ns : Z) (rm : ResourceMetrics) : ResourceMetrics :=
  rm <| scope_metrics ::= λ l,
    l ++ map (host_scope timestamp_ns) (HostStats.interface_stats (NfmReport.host_stats report)) |>.

Definition add_process_stats (report : NfmReport.t) (timestamp_ns : Z) (rm : ResourceMetrics) : ResourceMetrics :=
  rm <| scope_metrics ::= λ l,
    l ++ [mk_scope SCOPE_NAME_PROCESS_STAT []
      (push_metrics build_metric_gauge timestamp_ns
         (ProcessStats.enumerate_usage (NfmReport.process_stats report)))] |>.

Definition add_counters (report : NfmReport.t) (timestamp_ns : Z) (rm : ResourceMetrics) : ResourceMetrics :=
  rm <| scope_metrics ::= λ l,
    l ++ [mk_scope SCOPE_NAME_COUNTERS []
      (push_metrics build_metric_sum timestamp_ns
         (ProcessStats.enumerate_counters (NfmReport.process_stats report)) ++
       push_metrics build_metric_sum timestamp_ns
         [("publish_report_failed"%string, ReportValue.UInt (NfmReport.failed_reports report))])] |>.

Definition add_resource_data (report : NfmReport.t) (rm : ResourceMetrics) : option ResourceMetrics :=
  let service := NfmReport.service_metadata report in
  let k8s := NfmReport.k8s_metadata report in
  resource ← mapM key_value (
    EnvMetadata.enumerate (NfmReport.env_metadata report) ++
    [(METADATA_SERVICE_NAME, ServiceMetadata.name service);
     (METADATA_SERVICE_VERSION, ServiceMetadata.version service);
     (METADATA_AGENT_BUILD_TIME, ServiceMetadata.build_ts service);
     ("report.version"%string, ReportValue.String (NfmReport.report_version report))] ++
    option_list ((λ n, (METADATA_K8S_NODE_NAME, n)) <$> K8sMetadata.node_name k8s) ++
    option_list ((λ n, (METADATA_K8S_EKS_CLUSTER_NAME, n)) <$> K8sMetadata.cluster_name k8s));
  Some (mk_resource resource (scope_metrics rm)).

Definition build_export (report : NfmReport.t) (timestamp_ns : Z) : option ResourceMetrics :=
  let rm := mk_resource [] [] in
  rm ← add_resource_data report rm;
  rm ← add_network_stats report timestamp_ns rm;
  let rm := add_process_stats report timestamp_ns rm in
  let rm := add_host_stats report timestamp_ns rm in
  Some (add_counters report timestamp_ns rm).

End build.
End NfmReportOTLP.
