(* ===== verification/ReportProperties.v ===== *)
(** * ReportProperties: the guarantees of the exported report *)

From stdpp Require Import base numbers gmap list strings.
From Stdlib Require Import QArith_base.
From S2P Require Import Prelude Network ReportData NetworkEvent Text Metadata HostStats Report.
Import NfmReportOTLP.
Open Scope Z_scope.

Module ReportFacts.

(** A value that is not a histogram has an attribute form. *)
Definition plain (v : ReportValue.t) : Prop := match v with ReportValue.Histogram _ => False | _ => True end.

Lemma value_from_plain v : plain v → is_Some (value_from v).
Proof. by destruct v. Qed.

(** What an attribute says of the value it is made from: numbers and strings as they are, numbers
    that do not fit a signed 64-bit integer as zero, and other values as the empty string. *)
Definition carries (v : ReportValue.t) (x : Value) : Prop :=
  match v with
  | ReportValue.Float f => x = DoubleValue f
  | ReportValue.UInt u => (u < 2 ^ 63 → x = IntValue u) ∧ (2 ^ 63 ≤ u → x = IntValue 0)
  | ReportValue.Int i => x = IntValue i
  | ReportValue.String s => x = StringValue s
  | ReportValue.Invalid => x = StringValue ""
  | ReportValue.Histogram _ => False
  end.

Lemma value_from_carries v x : value_from v = Some x → carries v x.
Proof. destruct v; simpl; intros [= <-]; try done. destruct (Z.ltb_spec u (2 ^ 63)); (split; [done|lia]) || split; lia || done. Qed.

Lemma key_values_plain (l : list (string * ReportValue.t)) :
  Forall (λ e, plain e.2) l →
  ∃ kvs, mapM key_value l = Some kvs ∧ Forall2 (λ e kv, key kv = e.1 ∧ carries e.2 (value kv)) l kvs.
Proof.
  induction 1 as [|[k v] l Hv _ (kvs & IH & Hk)]; [exists []; by split|].
  destruct (value_from_plain v Hv) as [x Hx]. simpl in Hx.
  exists (mk_kv k x :: kvs). split; [|constructor; [split; [done|by apply value_from_carries]|done]]. cbn [mapM].
  assert (key_value (k, v) = Some (mk_kv k x)) as -> by (unfold key_value; cbn [fst snd]; by rewrite Hx).
  cbn [mbind option_bind]. by rewrite IH.
Qed.

Lemma from_json_plain j : plain (ReportValue.from_json j).
Proof. destruct j as [| |[]| | |]; try done; simpl; by repeat case_match. Qed.

Lemma value_pairs_plain fields : Forall (λ e, plain e.2) (to_value_pairs fields).
Proof.
  unfold to_value_pairs. apply Forall_forall. intros [k v] ([k' j] & _ & Hj)%list_elem_of_omap.
  destruct (_ && _); [|done]. injection Hj as <- <-. apply from_json_plain.
Qed.

Lemma flow_values_plain f flow : Forall (λ e, plain e.2) (FlowProperties.enumerate f flow).
Proof.
  unfold FlowProperties.enumerate. pose proof (value_pairs_plain (FlowProperties.serialize f flow)) as Hv.
  destruct (FlowProperties.kubernetes_metadata flow) as [md|]; [|done].
  apply Forall_app. split; [done|]. unfold FlowMetadata.enumerate.
  destruct (FlowMetadata.local md), (FlowMetadata.remote md); repeat constructor.
Qed.

(** *** The cast to [f64] *)

Lemma round_f64_exact n : Z.abs n ≤ 2 ^ 53 → round_f64 n = n.
Proof.
  intros Hn. unfold round_f64. destruct (Z.ltb_spec (Z.abs n) (2 ^ 53)) as [|Hge]; [done|].
  assert (Z.abs n = 2 ^ 53) as -> by lia. change (Z.sgn n * 2 ^ 53 = n). lia.
Qed.

(** The error is at most half a unit in the last of 53 places. *)
Lemma round_f64_near n : 2 ^ 53 * Z.abs (round_f64 n - n) ≤ Z.abs n.
Proof.
  unfold round_f64. destruct (Z.ltb_spec (Z.abs n) (2 ^ 53)) as [|Hge]; [rewrite Z.sub_diag; lia|].
  set (m := Z.abs n) in *. pose proof (Z.log2_spec m ltac:(lia)) as [Hlo _].
  assert (53 ≤ Z.log2 m) as Hlog by (rewrite <- (Z.log2_pow2 53) by lia; by apply Z.log2_le_mono).
  set (ulp := 2 ^ (Z.log2 m - 52)). assert (2 ^ 52 * ulp ≤ m) as Hulp.
  { unfold ulp. rewrite <- Z.pow_add_r by lia. by replace (52 + (Z.log2 m - 52)) with (Z.log2 m) by lia. }
  assert (0 < ulp) as Hpos by (apply Z.pow_pos_nonneg; lia). clearbody ulp.
  pose proof (Z.div_mod m ulp ltac:(lia)) as Hdm. pose proof (Z.mod_pos_bound m ulp Hpos) as Hr.
  set (q := m / ulp) in *. set (r := m mod ulp) in *. clearbody q r.
  match goal with |- context [if ?c then q else q + 1] => set (q' := if c then q else q + 1) end.
  assert (2 * Z.abs (q' * ulp - m) ≤ ulp) as Herr.
  { unfold q'. destruct (Z.ltb_spec (2 * r) ulp); cbn [orb]; [nia|].
    destruct (Z.eqb_spec (2 * r) ulp); cbn [andb]; [destruct (Z.even q); nia|nia]. }
  assert (Z.abs (Z.sgn n * (q' * ulp) - n) = Z.abs (q' * ulp - m)) as ->.
  { unfold m. destruct (Z.lt_total n 0) as [Hs|[Hs|Hs]].
    - rewrite (Z.sgn_neg n), (Z.abs_neq n) by lia. lia.
    - subst n. unfold m in *. simpl in Hge. lia.
    - rewrite (Z.sgn_pos n), (Z.abs_eq n) by lia. lia. }
  nia.
Qed.

(** *** The metrics of a flow *)

Definition scalar_metric (ts : Z) (e : string * Z) : Metric :=
  mk_metric e.1 (Histogram [mk_hdp ts ts 1 (Some (as_f64 e.2)) None None]).
Definition histogram_metric (ts : Z) (e : string * MetricHistogram.t) : Metric :=
  mk_metric e.1 (Histogram [mk_hdp ts ts (MetricHistogram.count e.2)
    (Some (as_f64 (MetricHistogram.sum e.2))) (Some (inject_Z (MetricHistogram.min e.2)))
    (Some (inject_Z (MetricHistogram.max e.2)))]).

(** The scalar statistics of a flow, by name. *)
Definition scalars (s : NetworkStats.t) : list (string * Z) :=
  [("bytes_delivered", NetworkStats.bytes_delivered s);
   ("bytes_received", NetworkStats.bytes_received s);
   ("connect_attempts", NetworkStats.connect_attempts s);
   ("retrans_close", NetworkStats.retrans_close s);
   ("retrans_est", NetworkStats.retrans_est s);
   ("retrans_syn", NetworkStats.retrans_syn s);
   ("rtos_close", NetworkStats.rtos_close s);
   ("rtos_est", NetworkStats.rtos_est s);
   ("rtos_syn", NetworkStats.rtos_syn s);
   ("segments_delivered", NetworkStats.segments_delivered s);
   ("segments_received", NetworkStats.segments_received s);
   ("severed_connect", NetworkStats.severed_connect s);
   ("severed_establish", NetworkStats.severed_establish s);
   ("sockets_closed", NetworkStats.sockets_closed s);
   ("sockets_closing", NetworkStats.sockets_closing s);
   ("sockets_completed", NetworkStats.sockets_completed s);
   ("sockets_connecting", NetworkStats.sockets_connecting s);
   ("sockets_established", NetworkStats.sockets_established s)]%string.
Definition histograms (s : NetworkStats.t) : list (string * MetricHistogram.t) :=
  [("connect_us", NetworkStats.connect_us s); ("rtt_us", NetworkStats.rtt_us s);
   ("rtt_smoothed_us", NetworkStats.rtt_smoothed_us s)]%string.

(** The members of the serialised statistics are ordered by name. *)
Lemma sorted_members s :
  let member := λ e : string * Z, (e.1, json_uint e.2) in
  to_object (NetworkStats.serialize s) =
  (member <$> take 3 (scalars s)) ++
  [("connect_us"%string, json_histogram (NetworkStats.connect_us s))] ++
  (member <$> take 6 (drop 3 (scalars s))) ++
  [("rtt_smoothed_us"%string, json_histogram (NetworkStats.rtt_smoothed_us s));
   ("rtt_us"%string, json_histogram (NetworkStats.rtt_us s))] ++
  (member <$> drop 9 (scalars s)).
Proof. vm_compute. reflexivity. Qed.

Lemma omap_members (l : list (string * Z)) :
  omap (λ '(k, v), if negb (is_object v) && negb (is_array v) then Some (k, ReportValue.from_json v) else None)
    ((λ e : string * Z, (e.1, json_uint e.2)) <$> l) =
  (λ e, (e.1, ReportValue.from_json (json_uint e.2))) <$> l.
Proof. induction l as [|[n v] l IH]; [done|]. csimpl. by rewrite IH. Qed.

Lemma scalar_pairs s :
  to_value_pairs (NetworkStats.serialize s) =
  (λ e, (e.1, ReportValue.from_json (json_uint e.2))) <$> scalars s.
Proof. unfold to_value_pairs. rewrite sorted_members. rewrite !omap_app, !omap_members. reflexivity. Qed.

Lemma build_uint ts n v :
  build_metric_histogram n ts (ReportValue.from_json (json_uint v)) = Ok (scalar_metric ts (n, v)).
Proof. unfold json_uint. simpl. by repeat case_match. Qed.

Lemma flow_metrics ts s :
  push_metrics build_metric_histogram ts (NetworkStats.enumerate s) =
  (scalar_metric ts <$> scalars s) ++ (histogram_metric ts <$> histograms s).
Proof.
  unfold push_metrics, NetworkStats.enumerate. rewrite omap_app, scalar_pairs. f_equal.
  induction (scalars s) as [|[n v] l IH]; [done|]. rewrite !fmap_cons. cbn [omap list_omap].
  cbn [fst snd]. rewrite build_uint. cbv iota. by rewrite IH.
Qed.

(** *** The attributes of a flow *)

Definition pod_attributes (side : string) (pod : option PodInfo.t) : list KeyValue :=
  match pod with
  | Some pod =>
      [mk_kv (side +:+ "_pod_name") (StringValue (PodInfo.name pod));
       mk_kv (side +:+ "_pod_namespace") (StringValue (PodInfo.namespace pod));
       mk_kv (side +:+ "_pod_service") (StringValue (PodInfo.service_name pod))]
  | None => []
  end.

Definition flow_attributes (ip_to_string : IpAddr.t → string) (f : FlowProperties.t) : list KeyValue :=
  [mk_kv "local_address" (StringValue (ip_to_string (FlowProperties.local_address f)));
   mk_kv "local_port" (IntValue (FlowProperties.local_port f));
   mk_kv "protocol" (StringValue (protocol_to_string (FlowProperties.protocol f)));
   mk_kv "remote_address" (StringValue (ip_to_string (FlowProperties.remote_address f)));
   mk_kv "remote_port" (IntValue (FlowProperties.remote_port f))] ++
  match FlowProperties.kubernetes_metadata f with
  | Some md => pod_attributes "local" (FlowMetadata.local md) ++ pod_attributes "remote" (FlowMetadata.remote md)
  | None => []
  end.

Definition ports_ok (f : FlowProperties.t) : Prop :=
  in_range u16 (FlowProperties.local_port f) ∧ in_range u16 (FlowProperties.remote_port f).

Lemma flow_key_values ip_to_string f :
  ports_ok f → mapM key_value (FlowProperties.enumerate ip_to_string f) = Some (flow_attributes ip_to_string f).
Proof.
  intros [Hl Hr]. unfold in_range in Hl, Hr.
  assert (to_value_pairs (FlowProperties.serialize ip_to_string f) =
    [("local_address"%string, ReportValue.String (ip_to_string (FlowProperties.local_address f)));
     ("local_port"%string, ReportValue.Int (FlowProperties.local_port f));
     ("protocol"%string, ReportValue.String (protocol_to_string (FlowProperties.protocol f)));
     ("remote_address"%string, ReportValue.String (ip_to_string (FlowProperties.remote_address f)));
     ("remote_port"%string, ReportValue.Int (FlowProperties.remote_port f))]) as Hv.
  { assert (to_object (FlowProperties.serialize ip_to_string f) =
      [("local_address"%string, JString (ip_to_string (FlowProperties.local_address f)));
       ("local_port"%string, json_uint (FlowProperties.local_port f));
       ("protocol"%string, JString (protocol_to_string (FlowProperties.protocol f)));
       ("remote_address"%string, JString (ip_to_string (FlowProperties.remote_address f)));
       ("remote_port"%string, json_uint (FlowProperties.remote_port f))]) as Ho by (vm_compute; reflexivity).
    unfold to_value_pairs. rewrite Ho. cbn -[Z.ltb]. by rewrite !(proj2 (Z.ltb_lt _ _)) by lia. }
  unfold FlowProperties.enumerate, flow_attributes, FlowMetadata.enumerate. rewrite Hv.
  destruct (FlowProperties.kubernetes_metadata f) as [[[] []]|]; reflexivity.
Qed.

(** *** The other metrics *)

Definition sum_metric (ts : Z) (e : string * Z) : Metric :=
  mk_metric e.1 (Sum [mk_ndp ts ts (Some (AsInt (as_i64 e.2)))]).
Definition gauge_metric (ts : Z) (e : string * NumberValue) : Metric :=
  mk_metric e.1 (Gauge [mk_ndp ts ts (Some e.2)]).

(** The statistics of an interface, the counters and the usage of the agent, by name. *)
Definition interface_values (s : NetworkInterfaceStats.t) : list (string * Z) :=
  [("bw_in_allowance_exceeded", NetworkInterfaceStats.bw_in_allowance_exceeded s);
   ("bw_out_allowance_exceeded", NetworkInterfaceStats.bw_out_allowance_exceeded s);
   ("conntrack_allowance_available", NetworkInterfaceStats.conntrack_allowance_available s);
   ("conntrack_allowance_exceeded", NetworkInterfaceStats.conntrack_allowance_exceeded s);
   ("linklocal_allowance_exceeded", NetworkInterfaceStats.linklocal_allowance_exceeded s);
   ("pps_allowance_exceeded", NetworkInterfaceStats.pps_allowance_exceeded s)]%string.
Definition event_values (c : EventCounters.t) : list (string * Z) :=
  [("active_connect_events", EventCounters.active_connect_events c);
   ("active_established_events", EventCounters.active_established_events c);
   ("map_insertion_errors", EventCounters.map_insertion_errors c);
   ("other_errors", EventCounters.other_errors c);
   ("other_events", EventCounters.other_events c);
   ("passive_established_events", EventCounters.passive_established_events c);
   ("retrans_events", EventCounters.retrans_events c);
   ("rto_events", EventCounters.rto_events c);
   ("rtt_events", EventCounters.rtt_events c);
   ("rtts_invalid", EventCounters.rtts_invalid c);
   ("set_flags_errors", EventCounters.set_flags_errors c);
   ("socket_events", EventCounters.socket_events c);
   ("sockets_invalid", EventCounters.sockets_invalid c);
   ("state_change_events", EventCounters.state_change_events c)]%string.
Definition process_values (c : ProcessCounters.t) : list (string * Z) :=
  [("remote_nat_reversal_errors", ProcessCounters.remote_nat_reversal_errors c);
   ("restarts", ProcessCounters.restarts c);
   ("socket_agg_above_limit", ProcessCounters.socket_agg_above_limit c);
   ("socket_agg_completed", ProcessCounters.socket_agg_completed c);
   ("socket_agg_missing_props", ProcessCounters.socket_agg_missing_props c);
   ("socket_deltas_above_limit", ProcessCounters.socket_deltas_above_limit c);
   ("socket_deltas_completed", ProcessCounters.socket_deltas_completed c);
   ("socket_deltas_missing_props", ProcessCounters.socket_deltas_missing_props c);
   ("socket_eviction_completed", ProcessCounters.socket_eviction_completed c);
   ("socket_eviction_failed", ProcessCounters.socket_eviction_failed c);
   ("sockets_added", ProcessCounters.sockets_added c);
   ("sockets_natd", ProcessCounters.sockets_natd c);
   ("sockets_stale", ProcessCounters.sockets_stale c)]%string.
Definition usage_values (u : UsageStats.t) : list (string * NumberValue) :=
  [("cpu_util", AsDouble (UsageStats.cpu_util u));
   ("ebpf_allocated_mem_kb", AsInt (as_i64 (UsageStats.ebpf_allocated_mem_kb u)));
   ("mem_used_kb", AsInt (as_i64 (UsageStats.mem_used_kb u)));
   ("mem_used_ratio", AsDouble (UsageStats.mem_used_ratio u));
   ("sockets_tracked", AsInt (as_i64 (UsageStats.sockets_tracked u)))]%string.

(** The point of an unsigned integer that went through its serialised form. *)
Lemma number_uint ts v :
  number_point ts (ReportValue.from_json (json_uint v)) = Ok (mk_ndp ts ts (Some (AsInt (as_i64 v)))).
Proof. unfold json_uint, number_point, as_i64. simpl. by destruct (v <? 2 ^ 63) eqn:E; simpl; rewrite ?E. Qed.

Lemma uint_sums ts fields (l : list (string * Z)) :
  to_object fields = ((λ e : string * Z, (e.1, json_uint e.2)) <$> l) →
  push_metrics build_metric_sum ts (to_value_pairs fields) = sum_metric ts <$> l.
Proof.
  intros Hf. unfold to_value_pairs. rewrite Hf, omap_members. clear Hf. unfold push_metrics.
  induction l as [|[n v] l IH]; [done|]. rewrite !fmap_cons. cbn [omap list_omap fst snd].
  unfold build_metric_sum. rewrite number_uint. cbv iota beta. f_equal. exact IH.
Qed.

Lemma counter_metrics ts p :
  push_metrics build_metric_sum ts (ProcessStats.enumerate_counters p) =
  (sum_metric ts <$> event_values (CountersOverall.event_related (ProcessStats.counters p))) ++
  (sum_metric ts <$> process_values (CountersOverall.process_related (ProcessStats.counters p))).
Proof.
  unfold ProcessStats.enumerate_counters. unfold push_metrics at 1. rewrite omap_app.
  f_equal; apply uint_sums; vm_compute; reflexivity.
Qed.

Lemma usage_metrics ts p :
  push_metrics build_metric_gauge ts (ProcessStats.enumerate_usage p) =
  from_option (λ u, gauge_metric ts <$> usage_values u) [] (last (ProcessStats.usage p)).
Proof.
  unfold ProcessStats.enumerate_usage. destruct (last (ProcessStats.usage p)) as [u|]; [|done].
  assert (to_value_pairs (UsageStats.serialize u) =
    [("cpu_util"%string, ReportValue.Float (UsageStats.cpu_util u));
     ("ebpf_allocated_mem_kb"%string, ReportValue.from_json (json_uint (UsageStats.ebpf_allocated_mem_kb u)));
     ("mem_used_kb"%string, ReportValue.from_json (json_uint (UsageStats.mem_used_kb u)));
     ("mem_used_ratio"%string, ReportValue.Float (UsageStats.mem_used_ratio u));
     ("sockets_tracked"%string, ReportValue.from_json (json_uint (UsageStats.sockets_tracked u)))]) as -> by reflexivity.
  unfold push_metrics. cbn [omap list_omap]. unfold build_metric_gauge. rewrite !number_uint. reflexivity.
Qed.

Lemma host_scope_spec ts g :
  host_scope ts g = mk_scope SCOPE_NAME_HOST_STAT
    [mk_kv "interface_id" (StringValue (str (GroupedInterfaceStats.interface_id g)))]
    (sum_metric ts <$> interface_values (GroupedInterfaceStats.stats g)).
Proof. unfold host_scope. f_equal. apply uint_sums. vm_compute. reflexivity. Qed.

End ReportFacts.

(** ** Properties *)
Import ReportFacts.

(** Metadata as the providers build it. *)
Definition metadata_plain (report : NfmReport.t) : Prop :=
  Forall (λ e, plain e.2) (NfmReport.env_metadata report) ∧
  plain (ServiceMetadata.name (NfmReport.service_metadata report)) ∧
  plain (ServiceMetadata.version (NfmReport.service_metadata report)) ∧
  plain (ServiceMetadata.build_ts (NfmReport.service_metadata report)) ∧
  from_option plain True (K8sMetadata.node_name (NfmReport.k8s_metadata report)) ∧
  from_option plain True (K8sMetadata.cluster_name (NfmReport.k8s_metadata report)).

(** The entries that describe the agent and its host. *)
Definition resource_entries (report : NfmReport.t) : list (string * ReportValue.t) :=
  NfmReport.env_metadata report ++
  [("service.name"%string, ServiceMetadata.name (NfmReport.service_metadata report));
   ("service.version"%string, ServiceMetadata.version (NfmReport.service_metadata report));
   ("agent.build_ts"%string, ServiceMetadata.build_ts (NfmReport.service_metadata report));
   ("report.version"%string, ReportValue.String (NfmReport.report_version report))] ++
  match K8sMetadata.node_name (NfmReport.k8s_metadata report) with
  | Some n => [("k8s_node_name"%string, n)] | None => [] end ++
  match K8sMetadata.cluster_name (NfmReport.k8s_metadata report) with
  | Some n => [("k8s_eks_cluster_name"%string, n)] | None => [] end.

Lemma add_resource_data_plain report :
  metadata_plain report → ∃ rs, add_resource_data report (mk_resource [] []) = Some (mk_resource rs []) ∧
    Forall2 (λ e kv, key kv = e.1 ∧ carries e.2 (value kv)) (resource_entries report) rs.
Proof.
  intros (Henv & Hn & Hv & Hb & Hnode & Hcluster). unfold add_resource_data.
  assert (Forall (λ e, plain e.2) (resource_entries report)) as Hp.
  { unfold resource_entries. rewrite !Forall_app. split_and!; [done|by repeat constructor|..].
    - destruct (K8sMetadata.node_name _); simpl; by repeat constructor.
    - destruct (K8sMetadata.cluster_name _); simpl; by repeat constructor. }
  apply key_values_plain in Hp as (kvs & Hk & Hall). exists kvs. split; [|done].
  match goal with |- context [mapM key_value ?l] => assert (l = resource_entries report) as -> end; [|by rewrite Hk].
  unfold resource_entries. by destruct (K8sMetadata.node_name _), (K8sMetadata.cluster_name _).
Qed.

(** The scope of a flow: its attributes, its scalar statistics and its histograms. *)
Definition flow_scope ip_to_string ts (flow : AggregateResults.t) : ScopeMetrics :=
  mk_scope SCOPE_NAME_NETWORK_STAT (flow_attributes ip_to_string (AggregateResults.flow flow))
    ((scalar_metric ts <$> scalars (AggregateResults.stats flow)) ++
     (histogram_metric ts <$> histograms (AggregateResults.stats flow))).

Lemma network_scopes_spec ip_to_string ts flows :
  Forall (λ a, ports_ok (AggregateResults.flow a)) flows →
  mapM (network_scope ip_to_string ts) flows = Some (flow_scope ip_to_string ts <$> flows).
Proof.
  induction 1 as [|flow flows Hf _ IH]; [done|]. cbn [mapM].
  assert (network_scope ip_to_string ts flow = Some (flow_scope ip_to_string ts flow)) as ->.
  { unfold network_scope, flow_scope. by rewrite flow_key_values, flow_metrics by done. }
  cbn [mbind option_bind]. by rewrite IH.
Qed.

Lemma build_export_total ip_to_string report ts :
  metadata_plain report → is_Some (build_export ip_to_string report ts).
Proof.
  intros (rs & Hrs & _)%add_resource_data_plain. unfold build_export, add_network_stats. rewrite Hrs. cbn [mbind option_bind].
  assert (is_Some (mapM (network_scope ip_to_string ts) (NfmReport.network_stats report))) as [scopes ->]; [|by eexists].
  apply mapM_is_Some. apply Forall_forall. intros flow _. unfold network_scope.
  destruct (key_values_plain _ (flow_values_plain ip_to_string (AggregateResults.flow flow))) as (kvs & Hk & _).
  unfold compose. rewrite Hk. by eexists.
Qed.

(** C24: The export of a report is complete.  It never panics for metadata without histograms, and
    says all there is in the report and nothing else: as attributes of the resource the metadata, each
    under its name with its own value; one scope for each flow in order, whose attributes are its
    addresses, ports and protocol and the names of its pods, and whose metrics are its eighteen
    scalar statistics, each as a point with the value as its sum, and its three histograms; one
    scope with the latest usage of the process, one for each interface with its six statistics, and
    one with the twenty-seven counters and the count of failed reports.  Sums are doubles: they are
    the value itself up to 2^53, and beyond it differ from it by at most one part in 2^53.  Ports are
    16-bit numbers. *)
Theorem export_complete ip_to_string report ts :
  metadata_plain report → Forall (λ a, ports_ok (AggregateResults.flow a)) (NfmReport.network_stats report) →
  ∃ resource,
    build_export ip_to_string report ts = Some (mk_resource resource
      ((flow_scope ip_to_string ts <$> NfmReport.network_stats report) ++
       [mk_scope "process_stats" []
          (from_option (λ u, gauge_metric ts <$> usage_values u) []
             (last (ProcessStats.usage (NfmReport.process_stats report))))] ++
       ((λ g, mk_scope "host_stats"
          [mk_kv "interface_id" (StringValue (str (GroupedInterfaceStats.interface_id g)))]
          (sum_metric ts <$> interface_values (GroupedInterfaceStats.stats g))) <$>
        HostStats.interface_stats (NfmReport.host_stats report)) ++
       [mk_scope "counters" [] (sum_metric ts <$>
          event_values (CountersOverall.event_related (ProcessStats.counters (NfmReport.process_stats report))) ++
          process_values (CountersOverall.process_related (ProcessStats.counters (NfmReport.process_stats report))) ++
          [("publish_report_failed"%string, NfmReport.failed_reports report)])])) ∧
    Forall2 (λ e kv, key kv = e.1 ∧ carries e.2 (value kv)) (resource_entries report) resource ∧
    (∀ n, Z.abs n ≤ 2 ^ 53 → round_f64 n = n) ∧ (∀ n, 2 ^ 53 * Z.abs (round_f64 n - n) ≤ Z.abs n).
Proof.
  intros (rs & Hrs & Hres)%add_resource_data_plain Hports. exists rs.
  split; [|split; [done|split; [apply round_f64_exact|apply round_f64_near]]].
  unfold build_export, add_network_stats. rewrite Hrs. cbn [mbind option_bind].
  rewrite network_scopes_spec by done. cbn [mbind option_bind].
  unfold add_process_stats, add_host_stats, add_counters. rewrite usage_metrics, counter_metrics.
  cbn -[host_scope event_values process_values usage_values map app].
  rewrite (map_ext (host_scope ts) _ (host_scope_spec ts)), !fmap_app.
  by rewrite <- !app_assoc.
Qed.

Definition sample_report : NfmReport.t :=
  NfmReport.set_network_stats
    (NfmReport.new (ServiceMetadata.new "network-flow-monitor" "0.1.3" "2025-01-01") (λ _, None))
    [AggregateResults.mk (FlowProperties.mk TCP (IpAddr.V4 1) (IpAddr.V4 2) 0 443 None)
       (NetworkStats.default <| NetworkStats.bytes_received := 77 |>)].

Lemma export_complete_witness :
  match build_export (λ _, "ip"%string) sample_report 1000 with
  | Some rm => length (scope_metrics rm) = 3%nat
  | None => False
  end.
Proof.
  destruct (export_complete (λ _, "ip"%string) sample_report 1000) as (rs & -> & _).
  - repeat constructor.
  - apply Forall_cons_2; [unfold ports_ok; by_eval|apply Forall_nil_2].
  - reflexivity.
Defined.
