(* ===== verification/Publisher.v ===== *)
(** * Publisher: where the reports go

    Models nfm-controller/src/reports/publisher.rs (the publishers of a configuration) and
    publisher_endpoint.rs (the signed request to the endpoint).  What a publication does to the
    outside is a list of [Effect]s.  The crates behind it are parameters: protobuf encoding and gzip,
    the client and its proxy, URLs, dates, header values, credentials, the signature and the
    exchange over HTTP.  [None] is a panic. *)

From stdpp Require Import base numbers gmap list strings.
From S2P Require Import Prelude Network ReportData NetworkEvent Text Runtimes Metadata HostStats Timer Report.
Open Scope Z_scope.

(** A publisher tells whether it succeeded; [E] is what it does to the outside. *)
Class ReportPublisher (P E : Type) := publish : P → NfmReport.t → option (bool * list E).

(** ** publisher_endpoint.rs *)
Module ReportPublisherOTLP.

Definition NFM_SERVICE : string := "networkflowmonitor".

Inductive ReportCompression :=
| NoCompression
| Gzip.

(** [Display]. *)
Definition to_string (c : ReportCompression) : string :=
  match c with NoCompression => "none" | Gzip => "gzip" end.

Record t (Client : Type) := mk {
  client : Client;
  endpoint : string;
  region : string;
  compression : ReportCompression;
}.
Arguments mk {Client} _ _ _ _.
Arguments client {Client} _.
Arguments endpoint {Client} _.
Arguments region {Client} _.
Arguments compression {Client} _.

(** A [HeaderMap]: its names are kept in lower case. *)
Abbreviation HeaderMap := (gmap string string).

Record Credentials := mk_credentials {
  access_key_id : string;
  secret_access_key : string;
  session_token : option string;
}.

Record Request (Bytes : Type) := mk_request {
  url : string;
  timeout_secs : Z;
  headers : HeaderMap;
  body : Bytes;
}.
Arguments mk_request {Bytes} _ _ _ _.
Arguments url {Bytes} _.
Arguments timeout_secs {Bytes} _.
Arguments headers {Bytes} _.
Arguments body {Bytes} _.

(** The crates. *)
Record crates (Bytes Client : Type) := mk_crates {
  (** reqwest: a proxy that is not a URL is refused, and a client may fail to be built. *)
  Proxy : Type;
  proxy_all : string → option Proxy;
  build_client : option Proxy → option Client;
  (** url: [Err] for a text that is not a URL, [Ok None] for a URL without a host. *)
  url_host : string → Result (option string) unit;
  (** http: whether a text can be the value of a header. *)
  header_value_ok : string → bool;
  (** chrono: "%Y%m%dT%H%M%SZ" of a time in nanoseconds. *)
  format_date : Z → string;
  encode : ResourceMetrics → option Bytes;
  gzip : Bytes → option Bytes;
  (** aws_sign_v4: method, URL, time, headers, region, key, secret, service and body. *)
  sign : string → string → Z → HeaderMap → string → string → string → string → Bytes → string;
  ip_to_string : IpAddr.t → string;
  (** tokio and the AWS SDK while the publisher is built: a runtime, and the provider of credentials
      of the configuration found. *)
  runtime_new : Result unit unit;
  load_defaults : option unit;
}.
Arguments mk_crates {Bytes Client} _ _ _ _ _ _ _ _ _ _ _ _.
Arguments Proxy {Bytes Client} _.
Arguments proxy_all {Bytes Client} _.
Arguments build_client {Bytes Client} _.
Arguments url_host {Bytes Client} _.
Arguments header_value_ok {Bytes Client} _.
Arguments format_date {Bytes Client} _.
Arguments encode {Bytes Client} _.
Arguments gzip {Bytes Client} _.
Arguments sign {Bytes Client} _.
Arguments ip_to_string {Bytes Client} _.
Arguments runtime_new {Bytes Client} _.
Arguments load_defaults {Bytes Client} _.

(** What the outside answers during a publication: the clock, read twice, whether a runtime can be
    created, the provider of credentials, and the status of a response. *)
Record answers (Bytes Client : Type) := mk_answers {
  now : timespec.t;
  now_body : timespec.t;
  runtime : Result unit unit;
  provide_credentials : Result Credentials unit;
  send : Client → Request Bytes → Result Z unit;
}.
Arguments mk_answers {Bytes Client} _ _ _ _ _.
Arguments now {Bytes Client} _.
Arguments now_body {Bytes Client} _.
Arguments runtime {Bytes Client} _.
Arguments provide_credentials {Bytes Client} _.
Arguments send {Bytes Client} _.

Section endpoint.
Context {Bytes Client : Type} (c : crates Bytes Client).
Implicit Types (self : t Client).

Definition new (endpoint region : string) (compression : ReportCompression) (proxy : string) :
    option (t Client) :=
  proxy_instance ← (if bool_decide (proxy = ""%string) then Some None else Some <$> proxy_all c proxy);
  client ← build_client c proxy_instance;
  Some (mk client endpoint region compression).

Definition new_without_proxy (endpoint region : string) (compression : ReportCompression) :
    option (t Client) :=
  new endpoint region compression "".

Definition get_host (url : string) : option string :=
  match url_host c url with
  | Ok host => host
  | Err _ => Some ""%string
  end.

(** [insert] of a value that is parsed and unwrapped. *)
Definition insert_header (name value : string) (headers : HeaderMap) : option HeaderMap :=
  if header_value_ok c value then Some (<[name := value]> headers) else None.

Definition build_headers self (datetime : Z) : option HeaderMap :=
  headers ← insert_header "x-amz-date" (format_date c datetime) ∅;
  host ← get_host (endpoint self);
  headers ← insert_header "host" host headers;
  headers ← insert_header "content-type" "application/x-protobuf" headers;
  match compression self with
  | NoCompression => Some headers
  | Gzip => insert_header "content-encoding" "gzip" headers
  end.

Definition build_report_body self (report : NfmReport.t) (now : timespec.t) : option Bytes :=
  timestamp_ns ← timespec_to_nsec now;
  export ← NfmReportOTLP.build_export (ip_to_string c) report timestamp_ns;
  otel_report ← encode c export;
  match compression self with
  | NoCompression => Some otel_report
  | Gzip => gzip c otel_report
  end.

(** The outcome, and the requests made. *)
Definition publish_report (a : answers Bytes Client) self (report : NfmReport.t) :
    option (bool * list (Request Bytes)) :=
  timestamp_ns ← timespec_to_nsec (now a);
  report_body ← build_report_body self report (now_body a);
  (* Sigv4 signature *)
  let datetime := NfmReportOTLP.as_i64 timestamp_ns in
  headers ← build_headers self datetime;
  _ ← (if is_ok (runtime a) then Some tt else None);
  match provide_credentials a with
  | Err _ => Some (false, [])
  | Ok credentials =>
      headers ← match session_token credentials with
                | Some token => insert_header "x-amz-security-token" token headers
                | None => Some headers
                end;
      let signature := sign c "POST" (endpoint self) datetime headers (region self)
                         (access_key_id credentials) (secret_access_key credentials) NFM_SERVICE report_body in
      headers ← insert_header "authorization" signature headers;
      (* HTTP request *)
      let request := mk_request (endpoint self) 20 headers report_body in
      match send a (client self) request with
      | Err _ => Some (false, [request])
      | Ok status => Some (status =? 200, [request])
      end
  end.

End endpoint.
End ReportPublisherOTLP.

(** ** publisher.rs *)

(** A line of the log, or a request over the network. *)
Inductive Effect (Bytes : Type) :=
| Logged (report : NfmReport.t)
| Sent (request : ReportPublisherOTLP.Request Bytes).
Arguments Logged {Bytes} report.
Arguments Sent {Bytes} request.

(** The publishers there are, behind [Box<dyn ReportPublisher>]. *)
Inductive Publisher (Client : Type) :=
| ReportPublisherLog
| Endpoint (publisher : ReportPublisherOTLP.t Client).
Arguments ReportPublisherLog {Client}.
Arguments Endpoint {Client} publisher.

Definition publish_one {Bytes Client} (c : ReportPublisherOTLP.crates Bytes Client)
    (a : ReportPublisherOTLP.answers Bytes Client) (self : Publisher Client) (report : NfmReport.t) :
    option (bool * list (Effect Bytes)) :=
  match self with
  | ReportPublisherLog => Some (true, [Logged report])
  | Endpoint publisher =>
      '(success, requests) ← ReportPublisherOTLP.publish_report c a publisher report;
      Some (success, map Sent requests)
  end.

Definition publisher_publish {Bytes Client} (c : ReportPublisherOTLP.crates Bytes Client)
    (a : ReportPublisherOTLP.answers Bytes Client) : ReportPublisher (Publisher Client) (Effect Bytes) :=
  publish_one c a.

Module MultiPublisher.

Definition t (P : Type) : Type := list P.

(** The builder: publishers are added at the end. *)
Definition builder {P : Type} : t P := [].
Definition with_publisher {P : Type} (self : t P) (publisher : P) : t P := self ++ [publisher].

(** Every publisher is called, whatever the outcome of the others. *)
Definition publish_all {P E : Type} {publisher : ReportPublisher P E} (self : t P) (report : NfmReport.t) :
    option (bool * list E) :=
  foldM (λ '(success, effects) publisher,
           '(ok, more) ← publish publisher report; Some (success && ok, effects ++ more))
    (true, []) self.

(** The log publisher, then the endpoint's, as configured; publishing without an endpoint or region
    is a panic. *)
Definition from_options {Bytes Client : Type} (c : ReportPublisherOTLP.crates Bytes Client)
    (log_reports publish_reports : bool) (endpoint endpoint_region : string)
    (compression : ReportPublisherOTLP.ReportCompression) (proxy : string) : option (t (Publisher Client)) :=
  let builder := builder in
  let builder := if log_reports then with_publisher builder ReportPublisherLog else builder in
  if publish_reports then
    if negb (bool_decide (endpoint = ""%string)) && negb (bool_decide (endpoint_region = ""%string)) then
      _ ← get_credentials_provider (ReportPublisherOTLP.runtime_new c) (ReportPublisherOTLP.load_defaults c);
      publisher ← ReportPublisherOTLP.new c endpoint endpoint_region compression proxy;
      Some (with_publisher builder (Endpoint publisher))
    else None
  else Some builder.

End MultiPublisher.
