(* ===== verification/PublisherProperties.v ===== *)
(** * PublisherProperties: the guarantees of publication *)

From stdpp Require Import base numbers gmap list strings.
From S2P Require Import Prelude Network ReportData NetworkEvent Text Metadata HostStats Timer TimerProperties.
From S2P Require Import Report ReportProperties Publisher.
Import ReportFacts ReportPublisherOTLP.
Open Scope Z_scope.

(** Printable ASCII. *)
Definition visible (s : string) : bool :=
  forallb (λ a, let n := Z.of_N (Ascii.N_of_ascii a) in (32 <=? n) && (n <=? 126)) (String.list_ascii_of_string s).

(** What is relied on of the crates: printable text can be a header value, dates are printable, so is
    the signature when what the signer copies into it is (the names of the headers, the region, the
    access key and the service; it is not otherwise), and encoding and compressing into memory do
    not fail. *)
Class CratesLaws {Bytes Client : Type} (c : crates Bytes Client) : Prop := {
  visible_header s : visible s = true → header_value_ok c s = true;
  visible_date t : visible (format_date c t) = true;
  visible_signature m u t h r k x s b :
    map_Forall (λ name _, visible name = true) h → visible r = true → visible k = true → visible s = true →
    visible (sign c m u t h r k x s b) = true;
  encode_total m : is_Some (encode c m);
  gzip_total b : is_Some (gzip c b);
}.

(** Publication to every publisher: all are called in order, also after one has failed, and all have
    to succeed. *)
Lemma publish_all_spec {P E : Type} `{ReportPublisher P E} (publishers : list P) report results :
  Forall2 (λ p r, publish p report = Some r) publishers results →
  MultiPublisher.publish_all publishers report = Some (forallb fst results, mjoin (snd <$> results)).
Proof.
  unfold MultiPublisher.publish_all.
  assert (∀ ok effects, Forall2 (λ p r, publish p report = Some r) publishers results →
    foldM (λ '(success, effects) p, '(ok, more) ← publish p report; Some (success && ok, effects ++ more))
      (ok, effects) publishers = Some (ok && forallb fst results, effects ++ mjoin (snd <$> results))) as Hloop.
  { intros ok effects Hall. revert ok effects.
    induction Hall as [|p [ok1 more] ps rs Hp _ IH]; intros ok effects; cbn [foldM].
    - cbn. by rewrite andb_true_r, app_nil_r.
    - rewrite Hp. cbn [mbind option_bind]. rewrite IH. cbn. by rewrite <- andb_assoc, <- app_assoc. }
  intros Hall. by rewrite Hloop.
Qed.

Section endpoint.
Context {Bytes Client : Type} (c : crates Bytes Client) `{!CratesLaws c}.

Lemma insert_header_visible name value headers :
  visible value = true → insert_header c name value headers = Some (<[name := value]> headers).
Proof. intros. unfold insert_header. by rewrite visible_header. Qed.

Lemma timespec_nanos spec :
  timespec.wf spec → timespec_to_nsec spec = Some (timespec.nanos spec) ∧ NfmReportOTLP.as_i64 (timespec.nanos spec) = timespec.nanos spec.
Proof.
  intros Hwf. destruct (clock_arithmetic spec spec Hwf Hwf) as (_ & ? & _). split; [done|].
  unfold timespec.wf in Hwf. unfold NfmReportOTLP.as_i64, timespec.nanos. destruct (Z.ltb_spec (timespec.tv_sec spec * 1000000000 + timespec.tv_nsec spec) (2 ^ 63)); lia.
Qed.

(** The body of a request: the encoded export, compressed when that is asked for. *)
Definition body_of (compression : ReportCompression) report ts (b : Bytes) : Prop :=
  ∃ export encoded, NfmReportOTLP.build_export (ip_to_string c) report ts = Some export ∧
    encode c export = Some encoded ∧
    match compression with NoCompression => b = encoded | Gzip => gzip c encoded = Some b end.

Lemma build_report_body_ok self report spec :
  timespec.wf spec → metadata_plain report →
  ∃ b, build_report_body c self report spec = Some b ∧ body_of (compression self) report (timespec.nanos spec) b.
Proof.
  intros [Hns _]%timespec_nanos Hm. unfold build_report_body, body_of. rewrite Hns. cbn [mbind option_bind].
  destruct (build_export_total (ip_to_string c) report (timespec.nanos spec) Hm) as [export ->]. cbn [mbind option_bind].
  destruct (encode_total export) as [encoded He]. rewrite He. cbn [mbind option_bind].
  destruct (compression self); [eauto 10|]. destruct (gzip_total encoded) as [b Hb]. eauto 10.
Qed.

(** A request for the endpoint that is signed with [cred]: the signature covers all other headers and
    the body, and the headers are those of the configuration. *)
Definition signed (endpoint region host : string) compression cred t (req : Request Bytes) : Prop :=
  let unsigned := delete "authorization"%string (headers req) in
  url req = endpoint ∧ timeout_secs req = 20 ∧
  headers req !! "authorization"%string = Some (sign c "POST" endpoint t unsigned region (access_key_id cred)
    (secret_access_key cred) NFM_SERVICE (body req)) ∧
  unsigned !! "x-amz-date"%string = Some (format_date c t) ∧
  unsigned !! "host"%string = Some host ∧
  unsigned !! "content-type"%string = Some "application/x-protobuf"%string ∧
  unsigned !! "content-encoding"%string = (match compression with NoCompression => None | Gzip => Some "gzip"%string end) ∧
  unsigned !! "x-amz-security-token"%string = session_token cred.

Lemma build_headers_ok self t host :
  url_host c (endpoint self) = Ok (Some host) → visible host = true →
  build_headers c self t = Some
    (match compression self with
     | NoCompression => λ h, h
     | Gzip => insert "content-encoding"%string "gzip"%string
     end (<["content-type"%string := "application/x-protobuf"%string]>
            (<["host"%string := host]> {["x-amz-date"%string := format_date c t]}))).
Proof.
  intros Hh Hv. unfold build_headers, get_host. rewrite Hh.
  rewrite (insert_header_visible _ _ ∅) by apply visible_date. cbn [mbind option_bind].
  rewrite insert_header_visible by done. cbn [mbind option_bind].
  rewrite insert_header_visible by done. cbn [mbind option_bind].
  destruct (compression self); [done|]. by rewrite insert_header_visible.
Qed.

(** Credentials that can go into headers: a printable access key and session token. *)
Definition visible_credentials (cred : Credentials) : Prop :=
  visible (access_key_id cred) = true ∧ ∀ token, session_token cred = Some token → visible token = true.

(** Publication to the endpoint. *)
Lemma publish_endpoint (a : answers Bytes Client) self report host :
  timespec.wf (now a) → timespec.wf (now_body a) → is_ok (runtime a) = true → metadata_plain report →
  url_host c (endpoint self) = Ok (Some host) → visible host = true → visible (region self) = true →
  (∀ cred, provide_credentials a = Ok cred → visible_credentials cred) →
  match provide_credentials a with
  | Err _ => publish_report c a self report = Some (false, [])
  | Ok cred => ∃ req,
      signed (endpoint self) (region self) host (compression self) cred (timespec.nanos (now a)) req ∧
      body_of (compression self) report (timespec.nanos (now_body a)) (body req) ∧
      publish_report c a self report = Some (bool_decide (send a (client self) req = Ok 200), [req])
  end.
Proof.
  intros Hnow Hbody Hrt Hm Hh Hv Hreg Hcreds. unfold publish_report.
  destruct (timespec_nanos _ Hnow) as [-> Hi]. cbn [mbind option_bind]. rewrite Hi.
  destruct (build_report_body_ok self report _ Hbody Hm) as (b & -> & Hb). cbn [mbind option_bind].
  rewrite (build_headers_ok self _ host), Hrt by done. cbn [mbind option_bind].
  destruct (provide_credentials a) as [cred|] eqn:Hcred; [|done]. destruct (Hcreds cred eq_refl) as [Hkey Htok].
  match goal with |- context [match session_token cred with Some token => _ | None => Some ?h end] => set (base := h) end.
  assert (base !! "authorization"%string = None ∧ base !! "x-amz-security-token"%string = None ∧
    base !! "x-amz-date"%string = Some (format_date c (timespec.nanos (now a))) ∧ base !! "host"%string = Some host ∧
    base !! "content-type"%string = Some "application/x-protobuf"%string ∧
    base !! "content-encoding"%string = match compression self with NoCompression => None | Gzip => Some "gzip"%string end)
    as (H1 & H2 & H3 & H4 & H5 & H6) by (unfold base; destruct (compression self); split_and!; by simplify_map_eq).
  assert (map_Forall (λ name _, visible name = true) base) as Hnames
    by (unfold base; destruct (compression self); repeat apply map_Forall_insert_2; try done; by apply map_Forall_singleton).
  clearbody base.
  assert (∃ full, match session_token cred with
    | Some token => insert_header c "x-amz-security-token" token base | None => Some base end = Some full ∧
    full !! "x-amz-security-token"%string = session_token cred ∧
    (∀ k, k ≠ "x-amz-security-token"%string → full !! k = base !! k) ∧
    map_Forall (λ name _, visible name = true) full) as (full & -> & Hf & Hk & Hfull).
  { destruct (session_token cred) as [token|] eqn:Et; [|by exists base].
    rewrite insert_header_visible by (by eapply Htok). eexists. split; [done|]. split_and!; [by simplify_map_eq| |].
    - intros. by rewrite lookup_insert_ne.
    - by apply map_Forall_insert_2. }
  cbn [mbind option_bind]. rewrite insert_header_visible by (by apply visible_signature). cbn [mbind option_bind].
  match goal with |- context [send a (client self) ?r] => exists r end.
  split_and!; [|done|].
  - unfold signed. cbn. rewrite delete_insert_id by (by rewrite Hk). rewrite !Hk by done. split_and!; try done. by simplify_map_eq.
  - destruct (send a (client self) _) as [status|]; cbn.
    + f_equal. f_equal. by destruct (Z.eqb_spec status 200); case_bool_decide; congruence.
    + done.
Qed.

(** C22: a report is published the way it was configured.  With crates that behave as documented,
    a runtime, an endpoint with a host, and a host, region, access key and session token of printable
    characters (the signer copies region and key into a header, and text that is no header value
    makes the publisher panic), no publisher panics: the report is logged iff that is configured, and
    when publishing is configured and there are credentials, exactly one request is made: to the
    endpoint, with a signature by these credentials over all its other headers and its body, the
    body being the export of the report, compressed iff the header says so.  Without credentials
    nothing is sent.  The publication counts as a success iff nothing was to be sent or the endpoint
    answered 200. *)
Theorem report_published (a : answers Bytes Client) log_reports publish_reports endpoint region compression
    proxy publishers report host :
  MultiPublisher.from_options c log_reports publish_reports endpoint region compression proxy = Some publishers →
  timespec.wf (now a) → timespec.wf (now_body a) → is_ok (runtime a) = true → metadata_plain report →
  url_host c endpoint = Ok (Some host) → visible host = true → visible region = true →
  (∀ cred, provide_credentials a = Ok cred → visible_credentials cred) →
  ∃ success sent,
    MultiPublisher.publish_all (publisher := publisher_publish c a) publishers report =
      Some (success, (if log_reports then [Logged report] else []) ++ sent) ∧
    if publish_reports then
      match provide_credentials a with
      | Err _ => success = false ∧ sent = []
      | Ok cred => ∃ client req, sent = [Sent req] ∧
          signed endpoint region host compression cred (timespec.nanos (now a)) req ∧
          body_of compression report (timespec.nanos (now_body a)) (body req) ∧
          success = bool_decide (send a client req = Ok 200)
      end
    else success = true ∧ sent = [].
Proof.
  intros Hopt Hnow Hbody Hrt Hm Hh Hv Hreg Hcreds. unfold MultiPublisher.from_options in Hopt.
  set (base := if log_reports then MultiPublisher.with_publisher MultiPublisher.builder ReportPublisherLog
               else MultiPublisher.builder) in Hopt.
  set (logged := if log_reports then [(true, [Logged report])] else [] : list (bool * list (Effect Bytes))).
  assert (Forall2 (λ p r, publisher_publish c a p report = Some r) base logged) as Hbase
    by (unfold base, logged; destruct log_reports; by repeat constructor).
  assert (forallb fst logged = true ∧ mjoin (snd <$> logged) = if log_reports then [Logged report] else [])
    as [Hok Hlog] by (unfold logged; by destruct log_reports).
  destruct publish_reports.
  2:{ injection Hopt as <-. exists true, []. split; [|done]. rewrite app_nil_r, <- Hlog, <- Hok.
      by apply (publish_all_spec (H := publisher_publish c a)). }
  destruct (_ && _); [|done]. apply bind_Some in Hopt as (? & _ & Hopt). apply bind_Some in Hopt as (p & Hnew & [= <-]).
  unfold new in Hnew. apply bind_Some in Hnew as (? & _ & Hnew). apply bind_Some in Hnew as (cl & _ & [= <-]).
  pose proof (publish_endpoint a (mk cl endpoint region compression) report host Hnow Hbody Hrt Hm Hh Hv Hreg Hcreds) as Hpub.
  assert (∀ ok reqs, publish_report c a (mk cl endpoint region compression) report = Some (ok, reqs) →
    MultiPublisher.publish_all (publisher := publisher_publish c a)
      (MultiPublisher.with_publisher base (Endpoint (mk cl endpoint region compression))) report =
    Some (ok, (if log_reports then [Logged report] else []) ++ map Sent reqs)) as Hall.
  { intros ok reqs Hr. rewrite (publish_all_spec (H := publisher_publish c a) _ report (logged ++ [(ok, map Sent reqs)])).
    - by rewrite forallb_app, Hok, fmap_app, join_app, Hlog; cbn; rewrite andb_true_r, app_nil_r.
    - apply Forall2_app; [done|]. constructor; [|done]. cbn. by rewrite Hr. }
  destruct (provide_credentials a) as [cred|]; cbn in Hpub.
  - destruct Hpub as (req & Hs & Hb & Hp). eexists _, _. split; [by apply Hall|]. by exists cl, req.
  - eexists _, _. split; [by apply Hall|]. done.
Qed.

End endpoint.

Definition endpoint_example : string := "https://networkflowmonitorreports.eu-west-1.api.aws".
Definition publishers_example : list (Publisher unit) :=
  [ReportPublisherLog; Endpoint (mk () endpoint_example "eu-west-1" Gzip)].

(** Crates for an example: bytes are the number of scopes, and nothing fails. *)
Definition crates_example : crates nat unit :=
  mk_crates unit (λ _, Some ()) (λ _, Some ())
    (λ u, if bool_decide (u = endpoint_example)
          then Ok (Some "networkflowmonitorreports.eu-west-1.api.aws"%string) else Err ())
    visible (λ _, "20240618T132021Z"%string) (λ m, Some (length (scope_metrics m))) Some
    (λ _ _ _ _ _ key _ _ _, key) (λ _, "ip"%string) (Ok tt) (Some tt).

#[global] Instance crates_example_laws : CratesLaws crates_example.
Proof.
  by split; cbn.
Qed.

Definition answers_example : answers nat unit :=
  mk_answers (timespec.mk 1718716821 0) (timespec.mk 1718716821 50) (Ok tt) (Ok (mk_credentials "AKID" "SECRET" (Some "TOKEN"%string)))
    (λ _ req, if bool_decide (headers req !! "authorization"%string = Some "AKID"%string) then Ok 200 else Ok 403).

Lemma report_published_witness :
  ∃ req, MultiPublisher.from_options crates_example true true endpoint_example
    "eu-west-1" Gzip "" = Some publishers_example ∧
  MultiPublisher.publish_all (publisher := publisher_publish crates_example answers_example)
    publishers_example
    sample_report = Some (true, [Logged sample_report; Sent req]) ∧ body req = 3%nat.
Proof.
  destruct (report_published crates_example answers_example true true
    endpoint_example "eu-west-1" Gzip ""
    publishers_example
    sample_report "networkflowmonitorreports.eu-west-1.api.aws")
    as (success & sent & Hall & client & req & -> & Hs & Hb & ->).
  - reflexivity.
  - unfold timespec.wf; by_eval.
  - unfold timespec.wf; by_eval.
  - reflexivity.
  - repeat constructor.
  - reflexivity.
  - reflexivity.
  - reflexivity.
  - intros ? [= <-]. split; [reflexivity|]. by intros ? [= <-].
  - exists req. split; [reflexivity|]. rewrite Hall. split.
    + destruct Hs as (_ & _ & Hauth & _). cbn. rewrite Hauth. done.
    + destruct Hb as (m & e & Hm & He & Hg). injection Hg as <-. injection He as <-.
      vm_compute in Hm. by injection Hm as <-.
Defined.
