(* ===== verification/Kubernetes.v ===== *)
(** * Kubernetes: attributing flows to pods

    Models nfm-controller/src/kubernetes/kubernetes_metadata_collector.rs and
    remote_nat_resolver.rs.  The API objects come from a generated crate: they are the records of
    the fields the code reads.  The two watcher tasks share the map of pods under a mutex held for
    a whole event, so that each event is one step on that map and their interleavings are the
    sequences of events.  [None] is a panic. *)

From stdpp Require Import base numbers gmap list strings.
From Stdlib Require Import Ascii.
From S2P Require Import Prelude Network ReportData NetworkEvent Text Runtimes.
Open Scope Z_scope.

(** [IpAddr::from_str], with the octets of an IPv6 address. *)
Definition ipv6_octets (bits : Z) : list Z :=
  (λ i, (bits / 2 ^ (8 * (15 - Z.of_nat i))) mod 256) <$> seq 0 16.
Definition parse_ip (s : chars) : option IpAddr.t :=
  match parse_ipv4 s with
  | Some bits => Some (IpAddr.V4 bits)
  | None => (λ bits, IpAddr.V6 (ipv6_octets bits)) <$> parse_ipv6 s
  end.

(** ** The objects of the API *)

Module ContainerPort.
Record t := mk { container_port : Z; protocol : option string }.
End ContainerPort.

Module Container.
Record t := mk { ports : option (list ContainerPort.t) }.
End Container.

Module Pod.
Record t := mk {
  name : string;
  namespace : option string;
  (** The containers of the specification, and the address of the status. *)
  containers : option (list Container.t);
  pod_ip : option chars;
}.
End Pod.

Module Endpoint.
Record t := mk { addresses : list chars; target_name : option string }.
End Endpoint.

Module EndpointSlice.
Record t := mk {
  namespace : option string;
  labels : option (gmap string string);
  owner_references : list string;
  (** Each port's protocol and number. *)
  ports : option (list (option string * option Z));
  endpoints : list Endpoint.t;
}.
End EndpointSlice.

Inductive Event (A : Type) :=
| Apply (object : A)
| InitApply (object : A)
| Delete (object : A)
| InitEvent.
Arguments Apply {A} object.
Arguments InitApply {A} object.
Arguments Delete {A} object.
Arguments InitEvent {A}.

(** ** [KubernetesMetadataCollector] *)
Module KubernetesMetadataCollector.

Abbreviation PortMap := (gmap Z PodInfo.t).
Abbreviation PodMap := (gmap IpAddr.t (gmap Z PodInfo.t)).

Record t := mk {
  enriched_flows : Z;
  pod_info : PodMap;
}.

#[global] Instance eta_t : Eta t := λ r, mk (enriched_flows r) (pod_info r).

Definition new : t := mk 0 ∅.

Definition get_ip_from_pod (pod : Pod.t) : option IpAddr.t := s ← Pod.pod_ip pod; parse_ip s.

Definition get_pod_name_from_endpoint (endpoint : Endpoint.t) : string :=
  from_option id ""%string (Endpoint.target_name endpoint).

Definition get_tcp_ports_from_endpoint_slice (endpoint_slice : EndpointSlice.t) : list Z :=
  match EndpointSlice.ports endpoint_slice with
  | None => []
  | Some endpoint_ports =>
      omap (λ '(protocol, port),
        if bool_decide (protocol = Some "TCP"%string) then port else None) endpoint_ports
  end.

Definition extract_ports_from_pod_container (container : Container.t) : list Z :=
  match Container.ports container with
  | None => []
  | Some container_ports =>
      omap (λ p, if bool_decide (from_option id ""%string (ContainerPort.protocol p) = "TCP"%string)
                 then Some (ContainerPort.container_port p) else None) container_ports
  end.

(** A pod without ports is given the virtual port 0. *)
Definition get_tcp_ports_from_pod (pod : Pod.t) : list Z :=
  let out :=
    match Pod.containers pod with
    | Some containers => flat_map extract_ports_from_pod_container containers
    | None => []
    end in
  match out with [] => [0] | _ => out end.

(** Removes the given ports of an address, and the address when none is left. *)
Definition purge_pod_ip_ports_from_pod_info (pod_info : PodMap) (pod_ip : IpAddr.t) (ports : list Z) : PodMap :=
  match pod_info !! pod_ip with
  | None => pod_info
  | Some port_map =>
      let port_map : PortMap := foldl (λ m port, delete port m) port_map ports in
      if bool_decide (port_map = ∅) then delete pod_ip pod_info else <[pod_ip := port_map]> pod_info
  end.

(** [entry(pod_ip).or_default().entry(port).or_insert(info)]: does not override. *)
Definition or_insert (pod_info : PodMap) (pod_ip : IpAddr.t) (port : Z) (info : PodInfo.t) : PodMap :=
  let port_map : PortMap := from_option id ∅ (pod_info !! pod_ip) in
  <[pod_ip := match port_map !! port with Some _ => port_map | None => <[port := info]> port_map end]> pod_info.

Definition handle_pod_event (pod_event : Result (Event Pod.t) unit) (pod_info : PodMap) : PodMap :=
  match pod_event with
  | Err _ => pod_info
  | Ok (Apply pod) | Ok (InitApply pod) =>
      let ports := get_tcp_ports_from_pod pod in
      match get_ip_from_pod pod with
      | Some pod_ip =>
          foldl (λ m port, or_insert m pod_ip port (PodInfo.mk (Pod.name pod)
            (from_option id ""%string (Pod.namespace pod)) ""%string)) pod_info ports
      | None => pod_info
      end
  | Ok (Delete pod) =>
      match get_ip_from_pod pod with
      | Some pod_ip => purge_pod_ip_ports_from_pod_info pod_info pod_ip (get_tcp_ports_from_pod pod)
      | None => pod_info
      end
  | Ok InitEvent => pod_info
  end.

(** The service an endpoint slice belongs to: its label, else its owner. *)
Definition get_service_name_from_endpoint_slice (endpoint_slice : EndpointSlice.t) : string :=
  let service_name_from_labels :=
    match EndpointSlice.labels endpoint_slice with
    | Some labels => labels !! "kubernetes.io/service-name"%string
    | None => None
    end in
  match service_name_from_labels with
  | Some service_name => service_name
  | None => match EndpointSlice.owner_references endpoint_slice with o :: _ => o | [] => ""%string end
  end.

(** [entry(pod_ip).or_default().insert(port, info)]: overrides. *)
Definition insert_port (pod_info : PodMap) (pod_ip : IpAddr.t) (port : Z) (info : PodInfo.t) : PodMap :=
  <[pod_ip := <[port := info]> (from_option id ∅ (pod_info !! pod_ip))]> pod_info.

(** The addresses of a slice that parse, each with its endpoint. *)
Definition slice_addresses (slice : EndpointSlice.t) : list (Endpoint.t * IpAddr.t) :=
  flat_map (λ endpoint,
    omap (λ address, (λ ip, (endpoint, ip)) <$> parse_ip address) (Endpoint.addresses endpoint))
    (EndpointSlice.endpoints slice).

(** [unwrap] of a missing namespace panics. *)
Definition handle_endpoint_update (slice : EndpointSlice.t) (pod_info : PodMap) : option PodMap :=
  let ports := get_tcp_ports_from_endpoint_slice slice in
  foldM (λ m '(endpoint, pod_ip),
    foldM (λ m port,
      namespace ← EndpointSlice.namespace slice;
      Some (insert_port m pod_ip port (PodInfo.mk (get_pod_name_from_endpoint endpoint) namespace
        (get_service_name_from_endpoint_slice slice)))) m ports) pod_info (slice_addresses slice).

Definition handle_endpoint_removal (slice : EndpointSlice.t) (pod_info : PodMap) : PodMap :=
  let ports := get_tcp_ports_from_endpoint_slice slice in
  foldl (λ m '(_, pod_ip), purge_pod_ip_ports_from_pod_info m pod_ip ports) pod_info (slice_addresses slice).

Definition handle_endpoint_slice_event (slice_event : Result (Event EndpointSlice.t) unit) (pod_info : PodMap) :
    option PodMap :=
  match slice_event with
  | Err _ => Some pod_info
  | Ok (Apply slice) | Ok (InitApply slice) => handle_endpoint_update slice pod_info
  | Ok (Delete slice) => Some (handle_endpoint_removal slice pod_info)
  | Ok InitEvent => Some pod_info
  end.

(** [Ipv6Addr::to_ipv4_mapped]. *)
Definition to_ipv4_mapped (octets : list Z) : option Z :=
  match octets with
  | [b0; b1; b2; b3; b4; b5; b6; b7; b8; b9; b10; b11; b12; b13; b14; b15] =>
      if bool_decide ([b0; b1; b2; b3; b4; b5; b6; b7; b8; b9; b10; b11] = replicate 10 0 ++ [0xff; 0xff])
      then Some (b12 * 2 ^ 24 + b13 * 2 ^ 16 + b14 * 2 ^ 8 + b15) else None
  | _ => None
  end.

Definition get_pod_info (pod_info : PodMap) (address : IpAddr.t) : option PortMap :=
  match pod_info !! address with
  | Some m => Some m
  | None =>
      match address with
      | IpAddr.V6 ipv6 => ipv4 ← to_ipv4_mapped ipv6; pod_info !! IpAddr.V4 ipv4
      | IpAddr.V4 _ => None
      end
  end.

Section enrich.
(** The order in which the values of a port map are visited. *)
Context (values_order : PortMap → list PodInfo.t).

(** The pod behind an address whose port is unknown: if all its ports are of one pod. *)
Definition unanimous (port_map : PortMap) : option PodInfo.t :=
  match values_order port_map with
  | [] => None
  | first_pod :: rest =>
      if forallb (λ p, bool_decide (PodInfo.name p = PodInfo.name first_pod)) (first_pod :: rest)
      then Some first_pod else None
  end.

Definition enrich_flow (pod_info : PodMap) (agg_flow : AggregateResults.t) : AggregateResults.t * bool :=
  let flow := AggregateResults.flow agg_flow in
  let local_pod_port_map := get_pod_info pod_info (FlowProperties.local_address flow) in
  let remote_pod_port_map := get_pod_info pod_info (FlowProperties.remote_address flow) in
  let '(local_pod_info, remote_pod_info) :=
    if FlowProperties.is_client_flow flow then
      (local_port_map ← local_pod_port_map; unanimous local_port_map,
       remote_port_map ← remote_pod_port_map; remote_port_map !! FlowProperties.remote_port flow)
    else
      (local_port_map ← local_pod_port_map; local_port_map !! FlowProperties.local_port flow,
       remote_port_map ← remote_pod_port_map; unanimous remote_port_map) in
  match local_pod_info, remote_pod_info with
  | None, None => (agg_flow, false)
  | _, _ =>
      (agg_flow <| AggregateResults.flow ::= λ f, f <| FlowProperties.kubernetes_metadata :=
         Some (FlowMetadata.mk local_pod_info remote_pod_info) |> |>, true)
  end.

(** Get given set of flows and enrich them with kubernetes metadata. *)
Definition enrich_flows (self : t) (agg_flows : list AggregateResults.t) : Z * list AggregateResults.t * t :=
  let results := map (enrich_flow (pod_info self)) agg_flows in
  let enriched_this_run := Z.of_nat (length (filter (λ r : AggregateResults.t * bool, r.2 = true) results)) in
  (enriched_this_run, results.*1,
   self <| enriched_flows ::= λ n, wrapping_add u64 n enriched_this_run |>).

End enrich.

Definition get_enriched_flows_count (self : t) : Z := enriched_flows self.

Definition get_ip_to_pod_mapping (self : t) (ip_filter : list IpAddr.t) : gmap IpAddr.t (gset PodInfo.t) :=
  (λ port_map : PortMap, map_to_set (λ _ pod_info, pod_info) port_map) <$>
    filter (λ kv, ip_filter = [] ∨ kv.1 ∈ ip_filter) (pod_info self).

End KubernetesMetadataCollector.

(** ** The watchers

    [setup_watchers] starts a runtime with two tasks, one for pods and one for endpoint slices.  Each
    first connects to the API server and then handles the events of its stream, one at a time, under
    the lock of the shared map, which the main loop takes too when it enriches flows.  A panic of any
    of them ends the process (the build profile aborts). *)
Module Watchers.
Import KubernetesMetadataCollector.

Inductive Task := Connecting | Watching.

Record Runtime := mk_runtime { pod_watcher : Task; endpoint_slice_watcher : Task }.
#[global] Instance eta_runtime : Eta Runtime := λ r, mk_runtime (pod_watcher r) (endpoint_slice_watcher r).

Record t := mk {
  collector : KubernetesMetadataCollector.t;
  refresher_runtime : option Runtime;
}.
#[global] Instance eta_t : Eta t := λ r, mk (collector r) (refresher_runtime r).

Definition new : t := mk KubernetesMetadataCollector.new None.

(** What the set-up finds: whether a runtime can be created, and the provider of cryptography of the
    process, with what other threads do to it meanwhile. *)
Record surroundings := mk_surroundings {
  runtime_created : bool;
  crypto_provider : Crypto.process unit;
  crypto_meanwhile : Crypto.process unit → Crypto.process unit;
}.

(** [None] is the panic when there is no runtime, or two threads install a provider at once. *)
Definition setup_watchers (s : surroundings) (self : t) : option t :=
  match refresher_runtime self with
  | Some _ => (* the watchers are already running, no need to do anything *) Some self
  | None =>
      _ ← (if runtime_created s then Some tt else None);
      _ ← Crypto.ensure_default_crypto_provider_exists tt (crypto_meanwhile s) (crypto_provider s);
      Some (self <| refresher_runtime := Some (mk_runtime Connecting Connecting) |>)
  end.

(** A runtime can be had, and no other thread installs a provider. *)
Definition favourable (s : surroundings) : Prop :=
  runtime_created s = true ∧ crypto_meanwhile s (crypto_provider s) = crypto_provider s.

Lemma setup_favourable s self :
  favourable s →
  setup_watchers s self = Some (if refresher_runtime self is None
    then self <| refresher_runtime := Some (mk_runtime Connecting Connecting) |> else self).
Proof.
  intros [Hr Hm]. unfold setup_watchers. destruct (refresher_runtime self); [done|]. rewrite Hr. cbn [mbind option_bind].
  unfold Crypto.ensure_default_crypto_provider_exists. rewrite Hm. by destruct (crypto_provider s).
Qed.

(** What a stream hands to its handler, which is the body of [for_each]. *)
Inductive watch_event :=
| PodEvent (e : Result (Event Pod.t) unit)
| SliceEvent (e : Result (Event EndpointSlice.t) unit).

Definition for_each (e : watch_event) (pod_info : PodMap) : option PodMap :=
  match e with
  | PodEvent e => Some (handle_pod_event e pod_info)
  | SliceEvent e => handle_endpoint_slice_event e pod_info
  end.

(** The task that handles an event. *)
Definition task_of (e : watch_event) : Runtime → Task :=
  match e with PodEvent _ => pod_watcher | SliceEvent _ => endpoint_slice_watcher end.

(** What happens next: the set-up, a task connecting ([create_watcher_stream]) or handling an event,
    the main loop enriching its flows. *)
Inductive label :=
| Setup (s : surroundings)
| ConnectPods (client : Result unit unit)
| ConnectSlices (client : Result unit unit)
| Deliver (e : watch_event)
| Enrich (values_order : PortMap → list PodInfo.t) (agg_flows : list AggregateResults.t).

(** [Failed to create Kubernetes client] is a panic. *)
Definition create_watcher_stream (client : Result unit unit) (connected : t) : option t :=
  if client is Ok _ then Some connected else None.

Inductive step (self : t) : label → option t → Prop :=
| step_setup s : step self (Setup s) (setup_watchers s self)
| step_connect_pods runtime client :
    refresher_runtime self = Some runtime → pod_watcher runtime = Connecting →
    step self (ConnectPods client)
      (create_watcher_stream client (self <| refresher_runtime := Some (runtime <| pod_watcher := Watching |>) |>))
| step_connect_slices runtime client :
    refresher_runtime self = Some runtime → endpoint_slice_watcher runtime = Connecting →
    step self (ConnectSlices client)
      (create_watcher_stream client
         (self <| refresher_runtime := Some (runtime <| endpoint_slice_watcher := Watching |>) |>))
| step_deliver runtime e :
    refresher_runtime self = Some runtime → task_of e runtime = Watching →
    step self (Deliver e)
      ((λ m, self <| collector ::= λ c, c <| pod_info := m |> |>) <$> for_each e (pod_info (collector self)))
| step_enrich values_order agg_flows :
    step self (Enrich values_order agg_flows)
      (Some (self <| collector := (enrich_flows values_order (collector self) agg_flows).2 |>)).

(** Sequences of steps; a panic is the last. *)
Inductive steps (self : t) : list label → option t → Prop :=
| steps_none : steps self [] (Some self)
| steps_panic l : step self l None → steps self [l] None
| steps_more l ls self' r : step self l (Some self') → steps self' ls r → steps self (l :: ls) r.

Definition delivered (l : label) : option watch_event := if l is Deliver e then Some e else None.

End Watchers.

(** ** [RemoteNatResolver] *)
Module RemoteNatResolver.

Definition CONNTRACK_MAX_TRACK_COUNT : nat := 5000.

Record RemoteNatEntry := mk_entry { remote_ip_actual : IpAddr.t; remote_port_actual : Z }.

Record t := mk {
  remote_nat_map : gmap (IpAddr.t * Z) RemoteNatEntry;
  remote_nat_entries_detected : Z;
  unparsable_conntrack_entries_detected : Z;
}.

#[global] Instance eta_t : Eta t := λ r,
  mk (remote_nat_map r) (remote_nat_entries_detected r) (unparsable_conntrack_entries_detected r).

Definition new : t := mk ∅ 0 0.

Definition insert (self : t) (key : IpAddr.t * Z) (entry : RemoteNatEntry) : t :=
  self <| remote_nat_map ::= <[key := entry]> |>.

Definition get_entry (self : t) (key : IpAddr.t * Z) : option RemoteNatEntry := remote_nat_map self !! key.

Definition get_entry_from_sock_context (self : t) (sock_context : SockContext.t) : option RemoteNatEntry :=
  let local_address :=
    if SockContext.address_family sock_context =? AF_INET then
      Some (IpAddr.V4 (SockContext.local_ipv4 sock_context))
    else if SockContext.address_family sock_context =? AF_INET6 then
      Some (IpAddr.V6 (SockContext.local_ipv6 sock_context))
    else None in
  a ← local_address;
  remote_nat_map self !! (a, SockContext.local_port sock_context).

(** The outcome of a line: the panic of an address that does not parse, or whether it was
    understood. *)
Inductive LineResult :=
| Panic
| Parsed (understood : bool) (self : t).

(** [part.split('=').nth(1)?]. *)
Definition value_of (part : option chars) : option chars := p ← part; split "="%char p !! 1%nat.

Definition starts_with_bracket (part : chars) : bool := match part with "["%char :: _ => true | _ => false end.

Definition parse_and_save_conntrack_line (self : t) (line : chars) : LineResult :=
  let parts := split_whitespace line in
  if (length parts <? 14)%nat then Parsed true self
  else if negb (bool_decide (parts !! 2%nat = Some (chr "tcp"))) then Parsed true self
  else if from_option starts_with_bracket false (parts !! 10%nat) then Parsed true self
  else
    let fields : option (chars * Z * chars * chars * Z) :=
      local_ip ← value_of (parts !! 6%nat);
      local_port ← (p ← value_of (parts !! 8%nat); parse_uint u16 p);
      remote_ip_seen ← value_of (parts !! 7%nat);
      remote_ip_wire ← value_of (parts !! 10%nat);
      remote_port ← (p ← value_of (parts !! 12%nat); parse_uint u16 p);
      Some (local_ip, local_port, remote_ip_seen, remote_ip_wire, remote_port) in
    match fields with
    | None => Parsed false self
    | Some (local_ip, local_port, remote_ip_seen, remote_ip_wire, remote_port) =>
        if bool_decide (remote_ip_seen = remote_ip_wire) then Parsed true self
        else
          let save (l r : option IpAddr.t) :=
            match l, r with
            | Some local_ip, Some remote_ip =>
                Parsed true ((insert self (local_ip, local_port) (mk_entry remote_ip remote_port))
                  <| remote_nat_entries_detected ::= Z.add 1 |>)
            | _, _ => Panic
            end in
          if bool_decide (parts !! 0%nat = Some (chr "ipv4")) then
            save (IpAddr.V4 <$> parse_ipv4 local_ip) (IpAddr.V4 <$> parse_ipv4 remote_ip_wire)
          else if bool_decide (parts !! 0%nat = Some (chr "ipv6")) then
            save ((λ b, IpAddr.V6 (ipv6_octets b)) <$> parse_ipv6 local_ip)
                 ((λ b, IpAddr.V6 (ipv6_octets b)) <$> parse_ipv6 remote_ip_wire)
          else Parsed false self
    end.

(** The lines of the file, up to the limit; a read error ends it. *)
Fixpoint read_lines (file : list (Result chars unit)) (self : t) : option (Result unit unit * t) :=
  match file with
  | [] => Some (Ok tt, self)
  | Err _ :: _ => Some (Err tt, self)
  | Ok line :: file =>
      match parse_and_save_conntrack_line self line with
      | Panic => None
      | Parsed true self => read_lines file self
      | Parsed false self => read_lines file (self <| unparsable_conntrack_entries_detected ::= Z.add 1 |>)
      end
  end.

Definition build_remote_nat_map (file : Result (list (Result chars unit)) unit) (self : t) :
    option (Result unit unit * t) :=
  match file with
  | Err _ => Some (Err tt, self)
  | Ok ls => read_lines (take CONNTRACK_MAX_TRACK_COUNT ls) self
  end.

End RemoteNatResolver.
