(* ===== verification/KubernetesProperties.v ===== *)
(** * KubernetesProperties: the guarantees of pod attribution *)

From stdpp Require Import base numbers gmap list strings.
From Stdlib Require Import Ascii.
From S2P Require Import Prelude Network ReportData NetworkEvent Text Kubernetes.
Import KubernetesMetadataCollector Watchers.

(** ** The shared map of pods *)
Module PodMapFacts.

(** The pod known for an address and a port. *)
Definition pod_at (m : PodMap) (ip : IpAddr.t) (port : Z) : option PodInfo.t := pm ← m !! ip; pm !! port.

Lemma pod_at_insert m ip pm ip' p :
  pod_at (<[ip := pm]> m) ip' p = if decide (ip' = ip) then pm !! p else pod_at m ip' p.
Proof.
  unfold pod_at. destruct (decide (ip' = ip)) as [->|]; [by rewrite lookup_insert_eq|].
  by rewrite lookup_insert_ne.
Qed.

Lemma pod_at_or_insert m ip p info ip' p' :
  pod_at (or_insert m ip p info) ip' p' =
  if decide (ip' = ip ∧ p' = p) then Some (from_option id info (pod_at m ip p)) else pod_at m ip' p'.
Proof.
  unfold or_insert. rewrite pod_at_insert. destruct (decide (ip' = ip)) as [->|];
    [|by rewrite decide_False by tauto].
  unfold pod_at. destruct (m !! ip) as [pm|]; simpl.
  - destruct (decide (p' = p)) as [->|Hne].
    + rewrite decide_True by done. destruct (pm !! p) as [i|] eqn:E; [done|]. by rewrite lookup_insert_eq.
    + rewrite decide_False by tauto. destruct (pm !! p) as [i|] eqn:E; [done|]. by rewrite lookup_insert_ne.
  - rewrite lookup_empty. simpl. destruct (decide (p' = p)) as [->|Hne].
    + rewrite decide_True by done. by rewrite lookup_insert_eq.
    + rewrite decide_False by tauto. by rewrite lookup_insert_ne, lookup_empty.
Qed.

Lemma pod_at_insert_port m ip p info ip' p' :
  pod_at (insert_port m ip p info) ip' p' =
  if decide (ip' = ip ∧ p' = p) then Some info else pod_at m ip' p'.
Proof.
  unfold insert_port. rewrite pod_at_insert. destruct (decide (ip' = ip)) as [->|];
    [|by rewrite decide_False by tauto].
  destruct (decide (p' = p)) as [->|Hne].
  - rewrite decide_True by done. by rewrite lookup_insert_eq.
  - rewrite decide_False by tauto. rewrite lookup_insert_ne by done. unfold pod_at.
    destruct (m !! ip); [done|]. simpl. by rewrite lookup_empty.
Qed.

Lemma delete_ports (pm : PortMap) ports p :
  foldl (λ m port, delete port m) pm ports !! p = if decide (p ∈ ports) then None else pm !! p.
Proof.
  revert pm. induction ports as [|q ports IH]; intros pm; cbn [foldl].
  { by rewrite decide_False by apply not_elem_of_nil. }
  rewrite IH. destruct (decide (p ∈ ports)); [by rewrite decide_True by by right|].
  destruct (decide (q = p)) as [->|Hne].
  - rewrite lookup_delete_eq, decide_True by by left. done.
  - rewrite lookup_delete_ne, decide_False by (rewrite ?elem_of_cons; naive_solver). done.
Qed.

Lemma pod_at_purge m ip ports ip' p' :
  pod_at (purge_pod_ip_ports_from_pod_info m ip ports) ip' p' =
  if decide (ip' = ip ∧ p' ∈ ports) then None else pod_at m ip' p'.
Proof.
  unfold purge_pod_ip_ports_from_pod_info. destruct (m !! ip) as [pm|] eqn:E.
  2:{ destruct (decide _) as [[-> _]|]; [|done]. unfold pod_at. by rewrite E. }
  assert (∀ p, pod_at m ip p = pm !! p) as Hm by (intros p; unfold pod_at; by rewrite E).
  pose proof (λ p, delete_ports pm ports p) as Hd. set (pm' := foldl _ pm ports) in *.
  destruct (decide (ip' = ip)) as [->|Hne].
  - assert (pm' !! p' = if decide (ip = ip ∧ p' ∈ ports) then None else pod_at m ip p') as Hp'.
    { rewrite Hd, Hm. destruct (decide (p' ∈ ports)); [by rewrite decide_True|by rewrite decide_False by tauto]. }
    rewrite <- Hp'. case_bool_decide as He.
    + unfold pod_at. rewrite lookup_delete_eq, He. done.
    + by rewrite pod_at_insert, decide_True.
  - rewrite decide_False by tauto. case_bool_decide.
    + unfold pod_at. by rewrite lookup_delete_ne.
    + by rewrite pod_at_insert, decide_False.
Qed.

(** Addresses without ports are not kept. *)
Definition no_empty (m : PodMap) : Prop := ∀ ip pm, m !! ip = Some pm → pm ≠ ∅.

Lemma or_insert_no_empty m ip p info : no_empty m → no_empty (or_insert m ip p info).
Proof.
  intros Hm ip' pm'. unfold or_insert. rewrite lookup_insert_Some. intros [[<- <-]|[_ H]]; [|by eapply Hm].
  destruct (from_option id ∅ (m !! ip) !! p) eqn:E; [intros Heq; by rewrite Heq, lookup_empty in E|].
  apply insert_non_empty.
Qed.

Lemma insert_port_no_empty m ip p info : no_empty m → no_empty (insert_port m ip p info).
Proof.
  intros Hm ip' pm'. unfold insert_port. rewrite lookup_insert_Some. intros [[<- <-]|[_ H]]; [|by eapply Hm].
  apply insert_non_empty.
Qed.

Lemma purge_no_empty m ip ports : no_empty m → no_empty (purge_pod_ip_ports_from_pod_info m ip ports).
Proof.
  intros Hm ip' pm'. unfold purge_pod_ip_ports_from_pod_info.
  destruct (m !! ip) as [pm|] eqn:E; [|apply Hm]. case_bool_decide as He.
  - rewrite lookup_delete_Some. intros [_ H]. by eapply Hm.
  - rewrite lookup_insert_Some. intros [[<- <-]|[_ H]]; [done|by eapply Hm].
Qed.

(** *** Events *)

(** The event says that [info] is behind the address and port. *)
Definition announces (e : watch_event) (ip : IpAddr.t) (port : Z) (info : PodInfo.t) : Prop :=
  match e with
  | PodEvent (Ok (Apply p)) | PodEvent (Ok (InitApply p)) =>
      get_ip_from_pod p = Some ip ∧ port ∈ get_tcp_ports_from_pod p ∧
      info = PodInfo.mk (Pod.name p) (from_option id ""%string (Pod.namespace p)) ""
  | SliceEvent (Ok (Apply s)) | SliceEvent (Ok (InitApply s)) =>
      ∃ ep ns, (ep, ip) ∈ slice_addresses s ∧ port ∈ get_tcp_ports_from_endpoint_slice s ∧
        EndpointSlice.namespace s = Some ns ∧
        info = PodInfo.mk (get_pod_name_from_endpoint ep) ns (get_service_name_from_endpoint_slice s)
  | _ => False
  end.

Definition map_ok (history : list watch_event) (m : PodMap) : Prop :=
  no_empty m ∧ ∀ ip port info, pod_at m ip port = Some info → ∃ e, e ∈ history ∧ announces e ip port info.

(** The namespace every slice of the API carries. *)
Definition event_named (e : watch_event) : Prop :=
  match e with
  | SliceEvent (Ok (Apply s)) | SliceEvent (Ok (InitApply s)) => is_Some (EndpointSlice.namespace s)
  | _ => True
  end.

Lemma pod_apply_ok history m ip info ports :
  map_ok history m → (∀ port, port ∈ ports → ∃ e, e ∈ history ∧ announces e ip port info) →
  map_ok history (foldl (λ m port, or_insert m ip port info) m ports).
Proof.
  revert m. induction ports as [|port ports IH]; intros m Hok Hann; [done|]. cbn [foldl]. apply IH.
  - destruct Hok as [Hne Hprov]. split; [by apply or_insert_no_empty|].
    intros ip' p' info'. rewrite pod_at_or_insert. destruct (decide _) as [[-> ->]|]; [|apply Hprov].
    destruct (pod_at m ip port) as [i|] eqn:E; simpl; intros [= <-]; [by apply Hprov|]. apply Hann. by left.
  - intros p Hp. apply Hann. by right.
Qed.

Lemma slice_ports_ok history m ip (ns : option string) (info : string → PodInfo.t) ports :
  map_ok history m → is_Some ns →
  (∀ port n, port ∈ ports → ns = Some n → ∃ e, e ∈ history ∧ announces e ip port (info n)) →
  ∃ m', foldM (λ m port, n ← ns; Some (insert_port m ip port (info n))) m ports = Some m' ∧ map_ok history m'.
Proof.
  intros Hok [n ->] Hann. revert m Hok. induction ports as [|port ports IH]; intros m Hok; [by exists m|].
  cbn [foldM mbind option_bind]. apply IH.
  - intros p n' Hp. apply Hann. by right.
  - destruct Hok as [Hne Hprov]. split; [by apply insert_port_no_empty|].
    intros ip' p' info'. rewrite pod_at_insert_port. destruct (decide _) as [[-> ->]|]; [|apply Hprov].
    intros [= <-]. apply Hann; [by left|done].
Qed.

Lemma slice_update_ok history m s e :
  map_ok history m → is_Some (EndpointSlice.namespace s) → e ∈ history →
  (e = SliceEvent (Ok (Apply s)) ∨ e = SliceEvent (Ok (InitApply s))) →
  ∃ m', handle_endpoint_update s m = Some m' ∧ map_ok history m'.
Proof.
  intros Hok Hns He Hcase. unfold handle_endpoint_update.
  assert (∀ l, l ⊆ slice_addresses s → ∀ m, map_ok history m → ∃ m',
    foldM (λ m '(endpoint, pod_ip), foldM (λ m port, namespace ← EndpointSlice.namespace s;
      Some (insert_port m pod_ip port (PodInfo.mk (get_pod_name_from_endpoint endpoint) namespace
        (get_service_name_from_endpoint_slice s)))) m (get_tcp_ports_from_endpoint_slice s)) m l = Some m' ∧
    map_ok history m') as Hloop; [|by apply Hloop].
  induction l as [|[ep ip] l IH]; intros Hsub m0 Hm0; [by exists m0|]. cbn [foldM].
  destruct (slice_ports_ok history m0 ip (EndpointSlice.namespace s)
    (λ n, PodInfo.mk (get_pod_name_from_endpoint ep) n (get_service_name_from_endpoint_slice s))
    (get_tcp_ports_from_endpoint_slice s)) as (m1 & -> & Hm1); [done|done| |].
  - intros port n Hport Hn. exists e. split; [done|].
    assert ((ep, ip) ∈ slice_addresses s) as Hin by (apply Hsub; by left).
    destruct Hcase as [-> | ->]; exists ep, n; done.
  - cbn [mbind option_bind]. apply IH; [|done]. intros x Hx. apply Hsub. by right.
Qed.

Lemma purge_ok history m ip ports :
  map_ok history m → map_ok history (purge_pod_ip_ports_from_pod_info m ip ports).
Proof.
  intros [Hne Hprov]. split; [by apply purge_no_empty|]. intros ip' p' info. rewrite pod_at_purge.
  destruct (decide _); [done|apply Hprov].
Qed.

Lemma map_ok_mono h1 h2 m : h1 ⊆ h2 → map_ok h1 m → map_ok h2 m.
Proof. intros Hs [? Hp]. split; [done|]. intros ip p i Hi. destruct (Hp ip p i Hi) as (e & ? & ?). eauto. Qed.

Lemma for_each_ok history m e :
  map_ok history m → event_named e → ∃ m', for_each e m = Some m' ∧ map_ok (history ++ [e]) m'.
Proof.
  intros Hok Hnamed. assert (map_ok (history ++ [e]) m) as Hok' by (eapply map_ok_mono; [|done]; set_solver).
  assert (e ∈ history ++ [e]) as He by set_solver.
  destruct e as [[[p|p|p|]|]|[[s|s|s|]|]]; cbn [for_each handle_pod_event handle_endpoint_slice_event].
  1,2: eexists; (split; [reflexivity|]); destruct (get_ip_from_pod p) as [ip|] eqn:E; [|done];
    (apply pod_apply_ok; [done|]); intros port Hport; eexists; (split; [exact He|]); by simpl.
  - eexists. split; [reflexivity|]. destruct (get_ip_from_pod p); [by apply purge_ok|done].
  - by eexists.
  - by eexists.
  - apply (slice_update_ok _ _ _ (SliceEvent (Ok (Apply s)))); auto.
  - apply (slice_update_ok _ _ _ (SliceEvent (Ok (InitApply s)))); auto.
  - eexists. split; [reflexivity|]. unfold handle_endpoint_removal. revert Hok'. generalize m.
    induction (slice_addresses s) as [|[ep ip] l IH]; intros m0 Hm0; [done|]. cbn [foldl].
    apply IH. by apply purge_ok.
  - by eexists.
  - by eexists.
Qed.

(** What is needed of the outside: a runtime, clients that connect, slices with their namespace. *)
Definition benign (l : label) : Prop :=
  match l with
  | Setup s => favourable s
  | ConnectPods client | ConnectSlices client => is_ok client = true
  | Deliver e => event_named e
  | Enrich _ _ => True
  end.

Definition pods (self : Watchers.t) : PodMap := pod_info (collector self).

(** Steps other than events leave the pods alone. *)
Lemma benign_step_ok history self l r :
  step self l r → benign l → map_ok history (pods self) →
  ∃ self', r = Some self' ∧ map_ok (history ++ option_list (delivered l)) (pods self').
Proof.
  unfold pods. intros Hs Hb Hok. destruct Hs as [s|rt client|rt client|rt e Hr Ht|order flows]; simpl in *.
  - rewrite app_nil_r, setup_favourable by done. eexists. split; [done|]. by destruct (refresher_runtime self).
  - rewrite app_nil_r. destruct client; [by eexists|done].
  - rewrite app_nil_r. destruct client; [by eexists|done].
  - destruct (for_each_ok history _ e Hok Hb) as (m' & -> & Hm'). by eexists.
  - rewrite app_nil_r. by eexists.
Qed.

Lemma benign_steps_ok history self ls r :
  steps self ls r → Forall benign ls → map_ok history (pods self) →
  ∃ self', r = Some self' ∧ map_ok (history ++ omap delivered ls) (pods self').
Proof.
  intros Hs. revert history. induction Hs as [self|self l Hl|self l ls self' r Hl Hs IH]; intros history Hb Hok.
  - rewrite app_nil_r. by eexists.
  - apply Forall_cons in Hb as [Hb _]. by destruct (benign_step_ok _ _ _ _ Hl Hb Hok) as (? & ? & _).
  - apply Forall_cons in Hb as [Hb1 Hb2].
    destruct (benign_step_ok _ _ _ _ Hl Hb1 Hok) as (? & [= <-] & Hok').
    destruct (IH _ Hb2 Hok') as (self'' & -> & H). exists self''. split; [done|].
    replace (omap delivered (l :: ls)) with (option_list (delivered l) ++ omap delivered ls)
      by (simpl; by destruct (delivered l)). by rewrite app_assoc.
Qed.

Lemma map_ok_empty : map_ok [] ∅.
Proof.
  split; [by intros ? ?; rewrite lookup_empty|]. intros ip p i. unfold pod_at. by rewrite lookup_empty.
Qed.

(** Before the set-up nothing is delivered. *)
Lemma no_runtime_no_events self ls r :
  steps self ls r → refresher_runtime self = None → (∀ s, Setup s ∉ ls) → omap delivered ls = [].
Proof.
  induction 1 as [self|self l Hl|self l ls self' r Hl Hs IH]; intros Hn Hno; [done|..].
  - inversion Hl as [ok| | |rt e Hr|]; try done; congruence.
  - assert (delivered l = None ∧ refresher_runtime self' = None) as [Hd Hn'].
    { inversion Hl as [ok Hok|? ? Hr|? ? Hr|rt e Hr|]; subst; try congruence; [|done].
      exfalso. apply (Hno ok). left. }
    simpl. rewrite Hd. apply IH; [done|]. intros ok Hin. apply (Hno ok). by right.
Qed.

End PodMapFacts.

(** ** Enrichment *)
Module EnrichFacts.

(** [info] is attributed to an address: by its port when it is known, otherwise because all ports of
    the address are of pods of that name. *)
Definition attributed (m : PodMap) (address : IpAddr.t) (port : option Z) (info : PodInfo.t) : Prop :=
  ∃ pm p, get_pod_info m address = Some pm ∧ pm !! p = Some info ∧
    match port with
    | Some q => p = q
    | None => ∀ q i, pm !! q = Some i → PodInfo.name i = PodInfo.name info
    end.

Section enrich.
Context (order : PortMap → list PodInfo.t) (Horder : ∀ m : PortMap, order m ≡ₚ (map_to_list m).*2).

Lemma unanimous_spec pm info :
  unanimous order pm = Some info →
  (∃ p, pm !! p = Some info) ∧ ∀ q i, pm !! q = Some i → PodInfo.name i = PodInfo.name info.
Proof.
  unfold unanimous. pose proof (Horder pm) as Hp. destruct (order pm) as [|first rest] eqn:E; [done|].
  destruct (forallb _ _) eqn:Hf; [|done]. intros [= <-]. rewrite forallb_forall in Hf. split.
  - assert (first ∈ (map_to_list pm).*2) as Hin by (rewrite <- Hp; by left).
    apply list_elem_of_fmap in Hin as ([p i] & -> & Hin%elem_of_map_to_list). by exists p.
  - intros q i Hq. assert (i ∈ first :: rest) as Hin.
    { rewrite Hp. apply list_elem_of_fmap. exists (q, i). split; [done|]. by apply elem_of_map_to_list. }
    apply list_elem_of_In, Hf in Hin. by apply bool_decide_eq_true in Hin.
Qed.

(** The ports a flow leaves known. *)
Definition local_known (f : FlowProperties.t) : option Z :=
  if FlowProperties.is_client_flow f then None else Some (FlowProperties.local_port f).
Definition remote_known (f : FlowProperties.t) : option Z :=
  if FlowProperties.is_client_flow f then Some (FlowProperties.remote_port f) else None.

Definition enriched_as (m : PodMap) (a a' : AggregateResults.t) (changed : bool) : Prop :=
  let f := AggregateResults.flow a in
  if changed then
    ∃ md, a' = a <| AggregateResults.flow := f <| FlowProperties.kubernetes_metadata := Some md |> |> ∧
      (is_Some (FlowMetadata.local md) ∨ is_Some (FlowMetadata.remote md)) ∧
      (∀ i, FlowMetadata.local md = Some i → attributed m (FlowProperties.local_address f) (local_known f) i) ∧
      (∀ i, FlowMetadata.remote md = Some i → attributed m (FlowProperties.remote_address f) (remote_known f) i)
  else a' = a.

Lemma enrich_flow_spec m a :
  enriched_as m a (enrich_flow order m a).1 (enrich_flow order m a).2.
Proof.
  unfold enrich_flow, enriched_as.
  assert (∀ addr info, (pm ← get_pod_info m addr; unanimous order pm) = Some info → attributed m addr None info) as Hun.
  { intros addr info (pm & Hpm & Hu)%bind_Some. apply unanimous_spec in Hu as [[p Hp] Hall]. by exists pm, p. }
  assert (∀ addr q info, (pm ← get_pod_info m addr; pm !! q) = Some info → attributed m addr (Some q) info) as Hq.
  { intros addr q info (pm & Hpm & Hl)%bind_Some. by exists pm, q. }
  unfold local_known, remote_known.
  destruct (FlowProperties.is_client_flow (AggregateResults.flow a)).
  - destruct (get_pod_info m (FlowProperties.local_address _) ≫= _) as [l|] eqn:El,
      (get_pod_info m (FlowProperties.remote_address _) ≫= _) as [r|] eqn:Er; simpl; try done;
      (eexists; split_and!; [reflexivity|simpl; eauto|..]; simpl; intros ? [= <-]; eauto).
  - destruct (get_pod_info m (FlowProperties.local_address _) ≫= _) as [l|] eqn:El,
      (get_pod_info m (FlowProperties.remote_address _) ≫= _) as [r|] eqn:Er; simpl; try done;
      (eexists; split_and!; [reflexivity|simpl; eauto|..]; simpl; intros ? [= <-]; eauto).
Qed.

End enrich.
End EnrichFacts.

(** ** Properties *)
Import PodMapFacts EnrichFacts.

(** C14: The map of pods under all interleavings.  Whatever the two watchers receive and however they
    and the main loop take turns: as long as the runtime starts, the clients connect and slices carry
    their namespace, nothing panics, no address is kept without ports, and every pod recorded for an
    address and port was announced for it by one of the events delivered; without a set-up the map
    is empty, and right after a pod's deletion none of its ports is known any more. *)
Theorem pod_map_reachable ls r :
  steps Watchers.new ls r → Forall benign ls →
  ∃ self, r = Some self ∧ no_empty (pods self) ∧
    (∀ ip port info, pod_at (pods self) ip port = Some info →
       ∃ e, Deliver e ∈ ls ∧ announces e ip port info) ∧
    ((∀ s, Setup s ∉ ls) → pods self = ∅) ∧
    (∀ p ip port self', get_ip_from_pod p = Some ip → port ∈ get_tcp_ports_from_pod p →
       step self (Deliver (PodEvent (Ok (Delete p)))) (Some self') → pod_at (pods self') ip port = None).
Proof.
  intros Hs Hb. destruct (benign_steps_ok [] _ _ _ Hs Hb map_ok_empty) as (self & -> & Hne & Hprov).
  exists self. assert (∀ e, e ∈ omap delivered ls → Deliver e ∈ ls) as Hdel.
  { intros e (l & Hl & Hd)%list_elem_of_omap. by destruct l; simplify_eq/=. }
  split_and!; [done..| | |].
  - intros ip port info Hi. destruct (Hprov ip port info Hi) as (e & He & Ha). eauto.
  - intros Hno. apply map_empty. intros ip. destruct (pods self !! ip) as [pm|] eqn:E; [exfalso|done].
    destruct (map_choose pm) as (port & info & Hi); [by eapply Hne|].
    destruct (Hprov ip port info) as (e & He & _); [unfold pod_at; by rewrite E|].
    simpl in He. rewrite (no_runtime_no_events _ _ _ Hs eq_refl Hno) in He. set_solver.
  - intros p ip port self' Hip Hport Hstep. inversion Hstep; subst. unfold pods. simpl.
    rewrite Hip, pod_at_purge. by rewrite decide_True.
Qed.

Definition web_pod : Pod.t :=
  Pod.mk "web-0" (Some "shop"%string) (Some [Container.mk (Some [ContainerPort.mk 8080 (Some "TCP"%string)])])
    (Some (chr "10.0.0.7")).
Definition web_slice : EndpointSlice.t :=
  EndpointSlice.mk (Some "shop"%string) (Some {["kubernetes.io/service-name"%string := "web"%string]}) []
    (Some [(Some "TCP"%string, Some 8080)]) [Endpoint.mk [chr "10.0.0.7"] (Some "web-0"%string)].
(** A process that has no provider of cryptography yet. *)
Definition calm : surroundings := mk_surroundings true None (λ s, s).
(** The slice watcher connects and delivers before the pod watcher does; the set-up is repeated. *)
Definition web_steps : list label :=
  [Setup calm; ConnectSlices (Ok tt); Deliver (SliceEvent (Ok (Apply web_slice))); Setup calm;
   ConnectPods (Ok tt); Deliver (PodEvent (Ok (InitApply web_pod))); Deliver (PodEvent (Err tt))].
Definition web_map : PodMap := {[IpAddr.V4 0x0A000007 := {[8080 := PodInfo.mk "web-0" "shop" "web"]}]}.

Lemma steps_to self l r self' ls r' : step self l r → r = Some self' → steps self' ls r' → steps self (l :: ls) r'.
Proof. intros H ->. by apply steps_more. Qed.

Lemma web_steps_run :
  steps Watchers.new web_steps
    (Some (Watchers.mk (KubernetesMetadataCollector.mk 0 web_map) (Some (mk_runtime Watching Watching)))).
Proof.
  repeat (eapply steps_to; [econstructor; vm_compute; reflexivity|vm_compute; reflexivity|]). apply steps_none.
Qed.

Lemma pod_map_reachable_witness :
  ∃ self, steps Watchers.new web_steps (Some self) ∧ no_empty (pods self) ∧
    pod_at (pods self) (IpAddr.V4 0x0A000007) 8080 = Some (PodInfo.mk "web-0" "shop" "web").
Proof.
  destruct (pod_map_reachable web_steps _ web_steps_run) as (self & [= <-] & Hne & _).
  - repeat constructor. eexists. reflexivity.
  - eexists. split; [exact web_steps_run|]. split; [exact Hne|reflexivity].
Defined.

(** C23: Enrichment attributes flows soundly.  Only the Kubernetes metadata of a flow changes; a pod
    is attributed to a side with a known port only if the map has it for that address (possibly
    wrapped in IPv6) and port, and to a side whose port was elided only if all ports of the address
    belong to pods of one name; the count returned and added to the total is the number of flows
    enriched, and the map of pods is untouched. *)
Theorem enrichment_sound order (self : KubernetesMetadataCollector.t) flows :
  (∀ m : PortMap, order m ≡ₚ (map_to_list m).*2) →
  let '(n, flows', self') := enrich_flows order self flows in
  ∃ changed, Forall3 (λ a a' c, enriched_as (pod_info self) a a' c) flows flows' changed ∧
    n = Z.of_nat (length (filter (λ c, c = true) changed)) ∧
    pod_info self' = pod_info self ∧
    get_enriched_flows_count self' = wrapping_add u64 (get_enriched_flows_count self) n.
Proof.
  intros Horder. unfold enrich_flows.
  exists ((enrich_flow order (pod_info self) <$> flows).*2). split_and!; [|..].
  - induction flows as [|a flows IH]; [constructor|]. constructor; [|exact IH]. by apply enrich_flow_spec.
  - induction flows as [|a flows IH]; [done|]. rewrite !fmap_cons. cbn [map]. rewrite !filter_cons.
    destruct (enrich_flow order (pod_info self) a) as [a' []]; simpl; [|exact IH].
    apply Nat2Z.inj in IH. f_equal. by apply (f_equal S).
  - done.
  - done.
Qed.

Definition web_flow : AggregateResults.t :=
  AggregateResults.mk (FlowProperties.mk TCP (IpAddr.V4 1) (IpAddr.V4 0x0A000007) 0 8080 None) NetworkStats.default.
Definition web_collector : KubernetesMetadataCollector.t :=
  KubernetesMetadataCollector.mk 0 {[IpAddr.V4 0x0A000007 := {[8080 := PodInfo.mk "web-0" "shop" "web"]}]}.

Lemma enrichment_sound_witness :
  let '(n, flows', _) := enrich_flows (λ m, (map_to_list m).*2) web_collector [web_flow] in
  n = 1 ∧ length flows' = 1%nat.
Proof.
  pose proof (enrichment_sound (λ m, (map_to_list m).*2) web_collector [web_flow] (λ m, reflexivity _)) as H.
  destruct (enrich_flows (λ m, (map_to_list m).*2) web_collector [web_flow]) as [[n flows'] self'] eqn:E.
  destruct H as (changed & H3 & _). split; [|by apply Forall3_length_lm in H3].
  assert (n = (enrich_flows (λ m, (map_to_list m).*2) web_collector [web_flow]).1.1) as -> by (by rewrite E).
  vm_compute. reflexivity.
Defined.

(** An updated slice only ever adds: an endpoint that has left the slice stays attributed to it. *)
Lemma slice_update_keeps_stale s m m' ip port :
  handle_endpoint_update s m = Some m' → is_Some (pod_at m ip port) → is_Some (pod_at m' ip port).
Proof.
  unfold handle_endpoint_update. intros H Hm. revert H.
  apply (foldM_inv (λ m, is_Some (pod_at m ip port))); [|done].
  intros m1 [ep ip1] m2 _ H1. apply (foldM_inv (λ m, is_Some (pod_at m ip port))); [|done].
  intros m3 p m4 _ H3 (ns & _ & [= <-])%bind_Some. rewrite pod_at_insert_port. by destruct (decide _).
Qed.
