(* ===== verification/RemoteNatProperties.v ===== *)
(** * RemoteNatProperties: reading back the kernel's connection table

    The kernel prints a tracked connection as words separated by blanks: the network protocol, the
    transport protocol, a timeout and a state, the original direction, its zone if it has one, its
    packets and bytes if they are counted, and the reply direction with what follows it.
    [parse_and_save_conntrack_line] takes words by position: it inverts the lines without zone and
    counts, and the theorem says what becomes of the others. *)

From stdpp Require Import base numbers gmap list strings.
From Stdlib Require Import Ascii.
From S2P Require Import Prelude Network Text Kubernetes.
Import RemoteNatResolver.
Open Scope Z_scope.

(** ** Words *)
Module WordFacts.

(** A word has no blank in it and is not empty. *)
Definition word (w : chars) : Prop := w ≠ [] ∧ Forall (λ c, is_whitespace c = false) w.

(** Words after blanks: any number of them before the first word, at least one before the others. *)
Definition blank_separated (words : list (nat * chars)) : chars :=
  flat_map (λ '(n, w), replicate (S n) " "%char ++ w) words.
Definition spaced (words : list (nat * chars)) : chars :=
  match words with
  | [] => []
  | (n, w) :: words => replicate n " "%char ++ w ++ blank_separated words
  end.

Lemma split_on_word p w l :
  Forall (λ c, p c = false) w →
  split_on p (w ++ l) = match split_on p l with f :: fs => (w ++ f) :: fs | [] => [] end.
Proof.
  induction 1 as [|c w Hc HF IH]; cbn [app]; [by destruct (split_on p l) eqn:E; [destruct l; cbn in E; repeat case_match|]|].
  cbn [split_on]. rewrite Hc, IH. destruct (split_on p l) eqn:E; [|done].
  destruct l; cbn in E; repeat case_match; done.
Qed.

Lemma split_on_blanks n l :
  split_on is_whitespace (replicate n " "%char ++ l) = replicate n [] ++ split_on is_whitespace l.
Proof. induction n as [|n IH]; [done|]. cbn [replicate app split_on]. by rewrite IH. Qed.

Lemma filter_empty_fields n (l : list chars) :
  filter (λ f, f ≠ []) (replicate n [] ++ l) = filter (λ f, f ≠ []) l.
Proof. induction n as [|n IH]; [done|]. cbn [replicate app]. by rewrite filter_cons_False by tauto. Qed.

Lemma split_separated words :
  Forall (λ nw, word nw.2) words →
  ∃ fields, split_on is_whitespace (blank_separated words) = [] :: fields ∧ filter (λ f, f ≠ []) fields = words.*2.
Proof.
  induction 1 as [|[n w] words [Hne Hw] HF (fields & Hs & Hf)]; [by exists []|]. cbn in Hne, Hw.
  exists (replicate n [] ++ w :: fields). unfold blank_separated in *. cbn [flat_map]. rewrite <- (assoc_L (++)).
  rewrite split_on_blanks, split_on_word, Hs, app_nil_r by done. split; [done|].
  rewrite filter_empty_fields, filter_cons_True by done. by rewrite Hf.
Qed.

(** The words of a line are read back. *)
Lemma split_whitespace_spaced words : Forall (λ nw, word nw.2) words → split_whitespace (spaced words) = words.*2.
Proof.
  intros [|[n w] rest [Hne Hw] (fields & Hs & Hf)%split_separated]; [done|]. cbn in Hne, Hw.
  unfold split_whitespace, spaced. rewrite split_on_blanks, split_on_word, Hs, app_nil_r by done.
  rewrite filter_empty_fields, filter_cons_True by done. by rewrite Hf.
Qed.

Lemma zip_words (gaps : list nat) words : Forall word words → Forall (λ nw, word nw.2) (zip gaps words).
Proof.
  intros Hw. revert gaps. induction Hw as [|w words Hw HF IH]; intros [|n gaps]; cbn; try done.
  by apply Forall_cons_2.
Qed.

(** *** The characters of numbers and addresses *)
Definition plain (c : ascii) : Prop := is_whitespace c = false ∧ c ≠ "="%char.

Lemma show_digits_forall (P : ascii → Prop) fuel n :
  Forall (λ d, P (digit_char d)) (seqZ 0 10) → Forall P (show_digits fuel n).
Proof.
  intros Hd. rewrite Forall_forall in Hd.
  revert n. induction fuel as [|fuel IH]; intros n; cbn [show_digits]; [done|].
  apply Forall_app. split; [by destruct (n <? 10)|]. apply Forall_singleton.
  apply Hd, elem_of_seqZ. pose proof (Z.mod_pos_bound n 10). lia.
Qed.

Lemma show_digits_plain fuel n : Forall plain (show_digits fuel n).
Proof. apply show_digits_forall. unfold plain. apply (bool_decide_unpack _). by vm_compute. Qed.

Lemma show_ipv4_plain b : Forall plain (show_ipv4 b).
Proof.
  assert (plain "."%char) as Hdot by (unfold plain; by vm_compute).
  unfold show_ipv4, show_uint. repeat (apply Forall_app; split; [apply show_digits_plain|apply Forall_cons_2; [done|]]).
  apply show_digits_plain.
Qed.

(** [key=value]. *)
Definition pair_word (key : string) (value : chars) : chars := chr key ++ "="%char :: value.

Lemma pair_word_word key value : Forall plain (chr key) → Forall plain value → word (pair_word key value).
Proof.
  intros Hk Hv. unfold pair_word. split; [by destruct (chr key)|].
  apply Forall_app. split; [by eapply Forall_impl; [exact Hk|intros ? []]|].
  apply Forall_cons_2; [by vm_compute|]. by eapply Forall_impl; [exact Hv|intros ? []].
Qed.

Lemma value_of_pair key value :
  Forall plain (chr key) → Forall plain value → value_of (Some (pair_word key value)) = Some value.
Proof.
  intros Hk Hv. unfold value_of, pair_word, split. cbn [mbind option_bind].
  assert (∀ l, Forall plain l → Forall (λ c, bool_decide (c = "="%char) = false) l) as Hp.
  { intros l Hl. eapply Forall_impl; [exact Hl|]. intros c [_ Hc]. by apply bool_decide_eq_false_2. }
  rewrite split_on_word by auto. cbn [split_on]. rewrite bool_decide_eq_true_2 by done.
  rewrite <- (app_nil_r value), split_on_word by auto. cbn. by rewrite !app_nil_r.
Qed.

(** *** What does not parse *)

(** An address is not a number, for its dots. *)
Lemma parse_digits_dot w acc l : "."%char ∈ l → parse_digits w 10 acc l = None.
Proof.
  revert acc. induction l as [|c l IH]; intros acc; [by intros ?%elem_of_nil|].
  intros [<-|Hin]%elem_of_cons; cbn [parse_digits]; [done|].
  destruct (digit 10 c); [|done]. cbn [mbind option_bind]. destruct (_ <=? _); [by apply IH|done].
Qed.

Lemma parse_uint_ipv4 w b : parse_uint w (show_ipv4 b) = None.
Proof.
  unfold parse_uint, show_ipv4. pose proof (show_uint_nonempty (b / 2 ^ 24)) as Hne.
  destruct (show_uint (b / 2 ^ 24)) as [|c l]; [done|]. cbn [app].
  destruct (decide (c = "+"%char)) as [->|Hc].
  - destruct l; cbn [app]; apply parse_digits_dot; rewrite ?elem_of_cons, ?elem_of_app, ?elem_of_cons; tauto.
  - assert (∀ l', match c :: l' with "+"%char :: l'' => l'' | _ => c :: l' end = c :: l') as Heq
      by (intros l'; destruct c as [[] [] [] [] [] [] [] []]; done).
    rewrite Heq. apply parse_digits_dot. rewrite elem_of_cons, elem_of_app, elem_of_cons. tauto.
Qed.

(** A number that fits is the same number in a wider type. *)
Lemma parse_digits_widen w w' radix acc l n :
  0 ≤ w ≤ w' → parse_digits w radix acc l = Some n → parse_digits w' radix acc l = Some n.
Proof.
  intros Hw. revert acc. induction l as [|c l IH]; intros acc; cbn [parse_digits]; [done|].
  destruct (digit radix c) as [d|]; [|done]. cbn [mbind option_bind].
  assert (umax w ≤ umax w') by (unfold umax; pose proof (Z.pow_le_mono_r 2 w w'); lia).
  destruct (Z.leb_spec (acc * radix + d) (umax w)); [|done]. rewrite (proj2 (Z.leb_le _ _)) by lia. apply IH.
Qed.

Lemma parse_uint_large w n : 0 < w ≤ 64 → 2 ^ w ≤ n → in_range u64 n → parse_uint w (show_uint n) = None.
Proof.
  intros Hw Hge Hn. destruct (parse_uint w (show_uint n)) as [m|] eqn:E; [|done]. exfalso.
  assert (in_range w m) as Hm by (apply parse_uint_range in E; [done|lia]).
  assert (parse_uint u64 (show_uint n) = Some m) as E'.
  { unfold parse_uint in *. destruct (match show_uint n with "+"%char :: l' => l' | _ => show_uint n end); [done|].
    apply (parse_digits_widen w); [lia|done]. }
  rewrite parse_show_uint in E' by (done || lia). injection E' as <-. unfold in_range in Hm. lia.
Qed.

(** A number is not an address, for want of dots. *)
Lemma read_digits_rest radix max max_digits count acc l count' acc' rest :
  read_digits radix max max_digits count acc l = Some (count', acc', rest) → rest ⊆ l.
Proof.
  revert count acc. induction l as [|c l IH]; intros count acc; cbn [read_digits]; [by intros [= _ _ <-]|].
  destruct (digit radix c); [|by intros [= _ _ <-]]. destruct (_ <? _); [done|]. destruct (_ <=? _)%nat; [done|].
  intros H%IH. set_solver.
Qed.

Lemma read_number_rest radix max max_digits allow_zero_prefix l g rest :
  read_number radix max max_digits allow_zero_prefix l = Some (g, rest) → rest ⊆ l.
Proof.
  unfold read_number. intros ([[n g'] rest'] & E & H)%bind_Some. apply read_digits_rest in E.
  case_bool_decide; [done|]. destruct (_ && _); [done|]. by injection H as _ <-.
Qed.

Lemma read_separator_missing {A} sep i (p : Parser A) l : i ≠ 0%nat → sep ∉ l → read_separator sep i p l = None.
Proof.
  intros Hi Hl. unfold read_separator. rewrite bool_decide_eq_false_2 by done. destruct l as [|c l]; [done|].
  cbn. rewrite bool_decide_eq_false_2; [done|]. intros ->. apply Hl. by left.
Qed.

Lemma parse_ipv4_dotless l : "."%char ∉ l → parse_ipv4 l = None.
Proof.
  intros Hl. unfold parse_ipv4. destruct (15 <? _)%nat; [done|].
  assert (read_ipv4_addr l = None) as ->; [|done]. unfold read_ipv4_addr. cbn [read_ipv4_groups].
  change (read_separator "."%char 0 (read_number 10 255 3 false) l) with (read_number 10 255 3 false l).
  destruct (read_number 10 255 3 false l) as [[g rest]|] eqn:E; [|done]. apply read_number_rest in E.
  cbn [mbind option_bind]. rewrite read_separator_missing; [done|done|]. intros Hin. by apply Hl, E.
Qed.

Lemma parse_ipv4_uint n : parse_ipv4 (show_uint n) = None.
Proof.
  apply parse_ipv4_dotless. intros Hin.
  assert (Forall (λ c, c ≠ "."%char) (show_uint n)) as HF
    by (apply show_digits_forall, (bool_decide_unpack _); by vm_compute).
  rewrite Forall_forall in HF. by apply (HF _ Hin).
Qed.

End WordFacts.

(** ** A tracked connection *)
Module ConntrackLine.
Import WordFacts.

Record t := mk {
  timeout : chars;
  state : chars;
  src : Z;
  dst : Z;
  sport : Z;
  dport : Z;
  (** The zone of the original direction, where one is assigned to that direction alone. *)
  zone_orig : option Z;
  (** The packets and bytes of the original direction, where connections are accounted. *)
  acct : option (Z * Z);
  (** The reply direction; a connection without replies has none. *)
  reply : option (Z * Z * Z * Z);
  (** What follows, such as [packets=7 bytes=3046 [ASSURED] mark=0 use=1]. *)
  flags : list chars;
}.

Definition tuple (s d sp dp : Z) : list chars :=
  [pair_word "src" (show_ipv4 s); pair_word "dst" (show_ipv4 d);
   pair_word "sport" (show_uint sp); pair_word "dport" (show_uint dp)].

Definition extras (e : t) : list chars :=
  match zone_orig e with Some zone => [pair_word "zone-orig" (show_uint zone)] | None => [] end ++
  match acct e with
  | Some (packets, bytes) => [pair_word "packets" (show_uint packets); pair_word "bytes" (show_uint bytes)]
  | None => []
  end.

Definition words (e : t) : list chars :=
  [chr "ipv4"; chr "2"; chr "tcp"; chr "6"; timeout e; state e] ++
  tuple (src e) (dst e) (sport e) (dport e) ++ extras e ++
  match reply e with
  | Some (s, d, sp, dp) => tuple s d sp dp ++ flags e
  | None => chr "[UNREPLIED]" :: tuple (dst e) (src e) (dport e) (sport e) ++ flags e
  end.

Definition wf (e : t) : Prop :=
  word (timeout e) ∧ word (state e) ∧ Forall word (flags e) ∧
  in_range u32 (src e) ∧ in_range u32 (dst e) ∧ in_range u16 (sport e) ∧
  from_option (in_range u16) True (zone_orig e) ∧ from_option (λ '(_, bytes), in_range u64 bytes) True (acct e) ∧
  match reply e with Some (s, d, sp, dp) => in_range u32 s ∧ in_range u16 sp | None => True end.

Lemma tuple_words s d sp dp : Forall word (tuple s d sp dp).
Proof.
  unfold tuple. repeat apply Forall_cons_2; try apply Forall_nil_2; apply pair_word_word;
    try apply show_ipv4_plain; try apply show_digits_plain; unfold plain; apply (bool_decide_unpack _); by vm_compute.
Qed.

Lemma extras_words e : Forall word (extras e).
Proof.
  unfold extras. apply Forall_app. split; [destruct (zone_orig e) as [zone|]|destruct (acct e) as [[packets bytes]|]];
    repeat apply Forall_cons_2; try apply Forall_nil_2; apply pair_word_word;
    try apply show_digits_plain; unfold plain; apply (bool_decide_unpack _); by vm_compute.
Qed.

Lemma words_ok e : wf e → Forall word (words e).
Proof.
  intros (? & ? & ? & _). unfold words.
  assert (Forall word [chr "ipv4"; chr "2"; chr "tcp"; chr "6"] ∧ word (chr "[UNREPLIED]")) as [Hh Hu]
    by (unfold word; apply (bool_decide_unpack _); by vm_compute).
  rewrite !Forall_cons, Forall_nil in Hh. destruct_and!. apply Forall_app. split; [repeat apply Forall_cons_2; done|].
  apply Forall_app. split; [apply tuple_words|]. apply Forall_app. split; [apply extras_words|].
  destruct (reply e) as [[[[s d] sp] dp]|].
  - apply Forall_app. split; [apply tuple_words|done].
  - apply Forall_cons_2; [done|]. apply Forall_app. split; [apply tuple_words|done].
Qed.

End ConntrackLine.

(** ** Properties *)
Import WordFacts ConntrackLine.

(** A word by position, up to the reply direction. *)
Ltac words_at := cbn -[pair_word chr bool_decide value_of parse_uint parse_ipv4].

(** Without zone and counts: the reply direction is where it is looked for. *)
Lemma plain_line self e :
  wf e → extras e = [] →
  ∀ line, split_whitespace line = words e →
  parse_and_save_conntrack_line self line =
  match reply e with
  | Some (s, _, sp, _) =>
      if bool_decide (dst e = s) then Parsed true self
      else Parsed true ((insert self (IpAddr.V4 (src e), sport e) (mk_entry (IpAddr.V4 s) sp))
                          <| remote_nat_entries_detected ::= Z.add 1 |>)
  | None => Parsed true self
  end.
Proof.
  intros Hwf Hx line Hline. unfold parse_and_save_conntrack_line. rewrite Hline.
  destruct Hwf as (_ & _ & _ & Hsrc & Hdst & Hsport & _ & _ & Hreply). unfold words, tuple. rewrite Hx.
  destruct (reply e) as [[[[s d] sp] dp]|].
  2:{ cbn -[pair_word chr bool_decide]. by rewrite bool_decide_eq_true_2. }
  destruct Hreply as [Hs Hsp].
  assert (Forall plain (chr "src") ∧ Forall plain (chr "dst") ∧ Forall plain (chr "sport")) as (? & ? & ?)
    by (unfold plain; apply (bool_decide_unpack _); by vm_compute).
  words_at. rewrite bool_decide_eq_true_2 by done. words_at.
  change (starts_with_bracket (pair_word "src" (show_ipv4 s))) with false. cbv iota.
  rewrite !value_of_pair by (done || apply show_ipv4_plain || apply show_digits_plain).
  cbn [mbind option_bind]. rewrite !parse_show_uint by (done || lia). cbn [mbind option_bind].
  rewrite !parse_show_ipv4 by done. rewrite (bool_decide_ext (show_ipv4 (dst e) = show_ipv4 s) (dst e = s)).
  - destruct (bool_decide (dst e = s)); [done|]. by rewrite bool_decide_eq_true_2.
  - split; [|congruence]. intros E. apply parse_show_ipv4 in Hdst, Hs. congruence.
Qed.

(** With a zone or counts every word after the original direction moves: what is taken for the port
    of the replies is whatever stands at position twelve. *)
Lemma shifted_line self e x y rest :
  wf e → (3 ≤ length rest)%nat → starts_with_bracket x = false →
  ∀ line, split_whitespace line =
    [chr "ipv4"; chr "2"; chr "tcp"; chr "6"; timeout e; state e] ++
    tuple (src e) (dst e) (sport e) (dport e) ++ x :: y :: rest →
  value_of (Some x) ≠ None →
  (p ← value_of (rest !! 0%nat); parse_uint u16 p) = None →
  parse_and_save_conntrack_line self line = Parsed false self.
Proof.
  intros Hwf Hlen Hx line Hline Hvx Hport. unfold parse_and_save_conntrack_line. rewrite Hline.
  destruct Hwf as (_ & _ & _ & Hsrc & Hdst & Hsport & _). unfold tuple.
  destruct rest as [|z rest]; [simpl in Hlen; lia|].
  assert (Forall plain (chr "src") ∧ Forall plain (chr "dst") ∧ Forall plain (chr "sport")) as (? & ? & ?)
    by (unfold plain; apply (bool_decide_unpack _); by vm_compute).
  destruct rest as [|z1 [|z2 rest]]; try (simpl in Hlen; lia).
  words_at. rewrite bool_decide_eq_true_2 by done. words_at. rewrite Hx. cbv iota.
  rewrite !value_of_pair by (done || apply show_ipv4_plain || apply show_digits_plain).
  cbn [mbind option_bind]. rewrite !parse_show_uint by (done || lia). cbn [mbind option_bind].
  destruct (value_of (Some x)); [|done]. cbn [mbind option_bind]. cbn [lookup list_lookup] in Hport. by rewrite Hport.
Qed.

(** With both, a small count of bytes passes for a port, and the zone for an address that does not
    parse. *)
Lemma zone_acct_line self e zone packets bytes rest :
  wf e → in_range u16 bytes → (1 ≤ length rest)%nat →
  ∀ line, split_whitespace line =
    [chr "ipv4"; chr "2"; chr "tcp"; chr "6"; timeout e; state e] ++
    tuple (src e) (dst e) (sport e) (dport e) ++
    pair_word "zone-orig" (show_uint zone) :: pair_word "packets" (show_uint packets) ::
    pair_word "bytes" (show_uint bytes) :: rest →
  parse_and_save_conntrack_line self line = Panic.
Proof.
  intros Hwf Hb Hlen line Hline. unfold parse_and_save_conntrack_line. rewrite Hline.
  destruct Hwf as (_ & _ & _ & Hsrc & Hdst & Hsport & _). unfold tuple. destruct rest as [|r rest]; [simpl in Hlen; lia|].
  assert (Forall plain (chr "src") ∧ Forall plain (chr "dst") ∧ Forall plain (chr "sport") ∧
    Forall plain (chr "zone-orig") ∧ Forall plain (chr "bytes")) as (? & ? & ? & ? & ?)
    by (unfold plain; apply (bool_decide_unpack _); by vm_compute).
  words_at. rewrite bool_decide_eq_true_2 by done. words_at.
  change (starts_with_bracket (pair_word "zone-orig" (show_uint zone))) with false. cbv iota.
  rewrite !value_of_pair by (done || apply show_ipv4_plain || apply show_digits_plain).
  cbn [mbind option_bind]. rewrite !parse_show_uint by (done || lia). cbn [mbind option_bind].
  rewrite bool_decide_eq_false_2.
  - rewrite bool_decide_eq_true_2 by done. rewrite parse_show_ipv4, parse_ipv4_uint by done. done.
  - intros E. apply parse_show_ipv4 in Hdst. rewrite E, parse_ipv4_uint in Hdst. done.
Qed.


(** The line of the comment on [parse_and_save_conntrack_line]. *)
Definition entry_example : ConntrackLine.t :=
  ConntrackLine.mk (chr "118") (chr "SYN_SENT") 0xAC136B76 0x02020202 33424 80 None None
    (Some (0xC0A81710, 0xAC136B76, 80, 33424)) [chr "mark=0"; chr "use=1"].


(** The same connection with accounting, as the kernel aligns it, and in a zone of its own. *)
Example conntrack_line_accounted :
  parse_and_save_conntrack_line RemoteNatResolver.new (chr "ipv4     2 tcp      6 118 SYN_SENT src=172.19.107.118 dst=2.2.2.2 sport=33424 dport=80 packets=3 bytes=180 src=192.168.23.16 dst=172.19.107.118 sport=80 dport=33424 packets=2 bytes=112 mark=0 use=1") =
    Parsed false RemoteNatResolver.new ∧
  parse_and_save_conntrack_line RemoteNatResolver.new (chr "ipv4     2 tcp      6 118 SYN_SENT src=172.19.107.118 dst=2.2.2.2 sport=33424 dport=80 zone-orig=1 packets=3 bytes=180 src=192.168.23.16 dst=172.19.107.118 sport=80 dport=33424 packets=2 bytes=112 mark=0 use=1") =
    Panic.
Proof. split; vm_compute; reflexivity. Qed.
