(* ===== verification/HostInspection.v ===== *)
(** * HostInspection: what the agent asks the host

    Models nfm-controller/src/utils/command_runner.rs, host.rs (whether an interface is virtual,
    behind a cache), memory_inspector.rs and the core count of cpu.rs.  Running a process, reading
    /proc and the existence of a path are arguments.  The lru crate is outside: a cache is a type
    with the operations of [LruCache] and its documented laws, of which [RecencyList] is an
    instance.  An [f64] quotient is a rational unless the divisor is zero. *)

From stdpp Require Import base numbers gmap list strings.
From Stdlib Require Import Ascii QArith_base.
From S2P Require Import Prelude Text.
Open Scope Z_scope.

(** ** command_runner.rs *)

(** [std::process::Output], with the lossy conversion of its streams to text. *)
Module Output.
Record t := mk { success : bool; stdout : chars; stderr : chars }.
End Output.

(** Running a command, with the state of the runner; [None] is a panic. *)
Class CommandRunner (C : Type) := {
  run_command : C → chars → list chars → option (Result Output.t unit * C);
}.

(** The operating system's answers to commands: they depend on what was run before. *)
Module RealCommandRunner.
Definition t : Type := list (chars * list chars).
Definition real_runner (output : t → chars → list chars → Result Output.t unit) : CommandRunner t :=
  {| run_command self cmd args := Some (output self cmd args, self ++ [(cmd, args)]) |}.
End RealCommandRunner.

(** [join] of a slice of strings. *)
Fixpoint join (sep : chars) (parts : list chars) : chars :=
  match parts with
  | [] => []
  | [a] => a
  | a :: parts => a ++ sep ++ join sep parts
  end.

(** The runner of the unit tests: each expected command is answered once. *)
Module FakeCommandRunner.

Definition t : Type := gmap chars (Result Output.t unit).

Definition new : t := ∅.

Definition full_command (cmd : chars) (args : list chars) : chars := join (chr " ") (cmd :: args).

Definition add_expectation (self : t) (cmd : chars) (args : list chars) (result : Result Output.t unit) : t :=
  <[full_command cmd args := result]> self.

(** [remove(..).unwrap()]: an unexpected command panics. *)
Definition run (self : t) (cmd : chars) (args : list chars) : option (Result Output.t unit * t) :=
  result ← self !! full_command cmd args;
  Some (result, delete (full_command cmd args) self).

#[global] Instance fake_runner : CommandRunner t := {| run_command := run |}.

Definition default : t := ∅.

(** An expectation is met once: the same command again panics. *)
Lemma expectation_once self cmd args result :
  ∃ self', run_command (add_expectation self cmd args result) cmd args = Some (result, self') ∧
    run_command self' cmd args = None ∧
    ∀ cmd' args', full_command cmd' args' ≠ full_command cmd args →
      self' !! full_command cmd' args' = self !! full_command cmd' args'.
Proof.
  unfold run_command, fake_runner, run, add_expectation, t in *. rewrite lookup_insert_eq. eexists. split; [reflexivity|].
  rewrite lookup_delete_eq. split; [done|]. intros. by rewrite lookup_delete_ne, lookup_insert_ne.
Qed.

End FakeCommandRunner.

(** ** host.rs *)

Class LruCache (L : Type) := {
  lru_new : positive → L;
  (** [get] makes the entry the most recent one. *)
  lru_get : L → chars → option bool * L;
  lru_put : L → chars → bool → L;
  (** The entries held. *)
  lru_entries : L → gmap chars bool;
}.

Class LruCacheLaws (L : Type) `{LruCache L} := {
  lru_new_empty capacity : lru_entries (lru_new capacity) = ∅;
  lru_get_value l k : (lru_get l k).1 = lru_entries l !! k;
  lru_get_entries l k : lru_entries (lru_get l k).2 = lru_entries l;
  lru_put_value l k v : lru_entries (lru_put l k v) !! k = Some v;
  (** Another entry may be dropped, never changed or added. *)
  lru_put_other l k v k' v' :
    k' ≠ k → lru_entries (lru_put l k v) !! k' = Some v' → lru_entries l !! k' = Some v';
}.

(** Whether an interface is virtual, with the state of the checker. *)
Class InterfaceVirtualChecker (C : Type) := {
  is_virtual : C → chars → Result bool unit * C;
}.

Module CachedInterfaceVirtualChecker.
Section checker.
Context {L : Type} `{LruCache L}.
(** [Path::exists] at the time of a call. *)
Context (path_exists : chars → bool).

Record t := mk { cache : L }.

Definition with_capacity (capacity : Z) : t :=
  mk (lru_new (match capacity with Z.pos p => p | _ => 100%positive end)).
Definition new : t := with_capacity 100.

(** Physical interfaces have /sys/class/net/<interface>/device symlink. *)
Definition check_virtual_iface (iface_name : chars) : Result bool unit :=
  let device_path := chr "/sys/class/net/" ++ iface_name ++ chr "/device" in
  Ok (negb (path_exists device_path)).

Definition is_virtual_cached (self : t) (iface_name : chars) : Result bool unit * t :=
  match lru_get (cache self) iface_name with
  | (Some is_virtual, cache) => (Ok is_virtual, mk cache)
  | (None, cache) =>
      match check_virtual_iface iface_name with
      | Err e => (Err e, mk cache)
      | Ok is_virtual => (Ok is_virtual, mk (lru_put cache iface_name is_virtual))
      end
  end.

(** The checker over a file system that does not change during a pass. *)
Definition checker : InterfaceVirtualChecker t := {| is_virtual := is_virtual_cached |}.

End checker.
Arguments t : clear implicits.
End CachedInterfaceVirtualChecker.

(** A cache as the list of its entries, the most recent first. *)
Module RecencyList.

Record t := mk { capacity : positive; entries : list (chars * bool) }.

Definition remove (k : chars) (l : list (chars * bool)) : list (chars * bool) := filter (λ kv, kv.1 ≠ k) l.

Definition get (self : t) (k : chars) : option bool * t :=
  match (list_to_map (entries self) : gmap chars bool) !! k with
  | Some v => (Some v, mk (capacity self) ((k, v) :: remove k (entries self)))
  | None => (None, self)
  end.

Definition put (self : t) (k : chars) (v : bool) : t :=
  mk (capacity self) (take (Pos.to_nat (capacity self)) ((k, v) :: remove k (entries self))).

#[global] Instance lru : LruCache t := {
  lru_new capacity := mk capacity [];
  lru_get := get;
  lru_put := put;
  lru_entries self := list_to_map (entries self);
}.

Lemma recency_remove_lookup k l k' :
  (list_to_map (remove k l) : gmap chars bool) !! k' = if decide (k' = k) then None else (list_to_map l : gmap chars bool) !! k'.
Proof.
  unfold remove. induction l as [|[k0 v0] l IH]; simpl; [case_decide; apply lookup_empty|].
  destruct (decide (k0 = k)) as [->|Hne].
  - rewrite filter_cons_False by (simpl; tauto). rewrite IH. case_decide; [done|].
    by rewrite lookup_insert_ne.
  - rewrite filter_cons_True by done. simpl. destruct (decide (k' = k0)) as [->|].
    + rewrite !lookup_insert_eq. by case_decide.
    + by rewrite !lookup_insert_ne, IH by done.
Qed.

Lemma take_lookup n (l : list (chars * bool)) k v :
  (list_to_map (take n l) : gmap chars bool) !! k = Some v → (list_to_map l : gmap chars bool) !! k = Some v.
Proof.
  revert n. induction l as [|[k0 v0] l IH]; intros [|n]; simpl; try done.
  destruct (decide (k = k0)) as [->|]; [by rewrite !lookup_insert_eq|].
  rewrite !lookup_insert_ne by done. apply IH.
Qed.

#[global] Instance laws : LruCacheLaws t.
Proof.
  constructor; simpl; unfold get, put.
  - done.
  - intros l k. by destruct (list_to_map (entries l) !! k).
  - intros l k. destruct (list_to_map (entries l) !! k) eqn:E; [|done]. simpl.
    apply map_eq. intros k'. destruct (decide (k' = k)) as [->|].
    + by rewrite lookup_insert_eq.
    + rewrite lookup_insert_ne, recency_remove_lookup by done. by case_decide.
  - intros l k v. simpl. destruct (Pos.to_nat (capacity l)) eqn:E; [lia|]. simpl. apply lookup_insert_eq.
  - intros l k v k' v' Hne Hl. apply take_lookup in Hl. simpl in Hl.
    rewrite lookup_insert_ne, recency_remove_lookup in Hl by done. by case_decide.
Qed.

End RecencyList.

(** ** memory_inspector.rs *)

Inductive Float := Finite (q : Q) | Infinity | NaN.

(** The quotient of two unsigned integers taken as [f64]s. *)
Definition f64_div (a b : Z) : Float :=
  if b =? 0 then if a =? 0 then NaN else Infinity else Finite (Qdiv (inject_Z a) (inject_Z b)).

Definition BYTES_PER_KB : Z := 1024.

Module ProcessMemoryInspector.

Record t := mk { pid : Z; total_kb : Z }.

(** [mem_total] is what [Meminfo::current] reports. *)
Definition new (mem_total : Result Z unit) (process_id : Z) : t :=
  mk process_id (match mem_total with Ok mem_total => mem_total / BYTES_PER_KB | Err _ => 0 end).

(** [process] is the process found under the identifier, with the resident pages of its [stat]. *)
Definition usage (process : option (Result Z unit)) (page_size : Z) (self : t) : option (Z * Float) :=
  match process with
  | Some stat =>
      used_kb ← (match stat with
                 | Ok rss => bytes ← checked_mul u64 rss page_size; Some (bytes / BYTES_PER_KB)
                 | Err _ => Some 0
                 end);
      Some (used_kb, f64_div used_kb (total_kb self))
  | None => Some (0, Finite 0)
  end.

End ProcessMemoryInspector.

(** ** The core count of cpu.rs *)

Definition get_core_count_from_cpuinfo (cpuinfo : Result chars unit) : Z :=
  let core_count := 1 in
  match cpuinfo with
  | Ok contents =>
      let core_count_cpuinfo :=
        Z.of_nat (length (filter (λ line, starts_with (chr "processor") line = true) (lines contents))) in
      if core_count <? core_count_cpuinfo then core_count_cpuinfo else core_count
  | Err _ => core_count
  end.

(** The first answer is kept for the life of the process. *)
Definition get_total_cpu_core_count (cpu_num : Result Z unit) (cpuinfo : Result chars unit) : Z :=
  match cpu_num with
  | Ok num_logical_cores => num_logical_cores
  | Err _ => get_core_count_from_cpuinfo cpuinfo
  end.
