(* ===== verification/NetNamespaces.v ===== *)
(** * NetNamespaces: network namespaces and their TCP statistics

    Models three files of nfm-controller/src/open_metrics/providers/interface_metrics_provider:
    types.rs, namespace_manager.rs (which namespaces exist, their addresses, and which interface
    leads to which) and netns_stats.rs (the TCP connections opened in a namespace).  Commands, the
    file system and the regular-expression engine are outside: [run] answers a command line,
    [fs_exists] and [read_to_string] a path, and [captures] gives the groups of the leftmost match
    of a pattern.  The theorems hold for all of them. *)

From stdpp Require Import base numbers gmap list strings.
From Stdlib Require Import Ascii.
From S2P Require Import Prelude Network Text HostInspection Kubernetes.
Open Scope Z_scope.

(** ** types.rs *)

Definition get_link_netnsid_regex : string := "link-netnsid\s+(\d+)".
Definition get_ipv4_regex : string := "inet\s+(\S+)/".
Definition get_ipv6_regex : string := "inet6\s+(\S+)/".

Inductive InterfaceMetricsError :=
| CommandExecution (command : chars)
| NetworkDataParsing (details : chars)
| NamespaceOperation (details : chars).

(** [fmt::Display]. *)
Definition error_to_string (e : InterfaceMetricsError) : chars :=
  match e with
  | CommandExecution command => chr "Failed to execute command: " ++ command
  | NetworkDataParsing details => chr "Failed to parse network data: " ++ details
  | NamespaceOperation details => chr "Namespace operation failed: " ++ details
  end.

(** [ProcessId] and [NamespaceId] wrap a [u32]; they are kept as the number. *)
Definition ProcessId : Type := Z.
Definition NamespaceId : Type := Z.

Module NamespaceInfo.

Record t := mk {
  pid : ProcessId;
  ns_file : option chars;
  ip_addresses : list IpAddr.t;
}.

#[global] Instance eq_dec : EqDecision t.
Proof. solve_decision. Defined.

End NamespaceInfo.

Module HostInterface.

Record t := mk {
  name : chars;
  is_virtual : bool;
}.

#[global] Instance eq_dec : EqDecision t.
Proof. solve_decision. Defined.

#[global] Instance countable : Countable t.
Proof. refine (inj_countable' (λ i, (name i, is_virtual i)) (λ '(a, b), mk a b) _). by intros []. Defined.

Definition new (name : chars) (is_virtual : bool) : t := mk name is_virtual.

End HostInterface.

(** ** namespace_manager.rs *)
Module NetworkNamespaceManager.

(** The groups of a match, the whole match first. *)
Definition Captures : Type := list (option chars).
Definition get (captures : Captures) (i : nat) : option chars := default None (captures !! i).

Section manager.
Context (run : chars → list chars → Result Output.t unit).
Context (fs_exists : chars → Result bool unit).
Context (captures : string → chars → option Captures).
(** [u32::to_string]. *)
Context (u32_to_string : Z → chars).

(** Extracts and validates the address of a line. *)
Definition extract_ip_from_line (line : chars) (regex : string) : option IpAddr.t :=
  groups ← captures regex line;
  text ← get groups 1;
  ip ← parse_ip text;
  if negb (IpAddr.is_loopback ip) && negb (IpAddr.is_link_local ip) then Some ip else None.

(** Parse IP addresses from 'ip a' command output. *)
Definition parse_ip_addresses (ip_output : chars) : list IpAddr.t :=
  omap (λ line,
    match extract_ip_from_line line get_ipv4_regex with
    | Some ip_addr => Some ip_addr
    | None => extract_ip_from_line line get_ipv6_regex
    end) (lines ip_output).

Definition execute_nsenter_and_parse_ips (args : list chars) (context : chars) :
    Result (list IpAddr.t) InterfaceMetricsError :=
  match run (chr "nsenter") args with
  | Err _ => Err (CommandExecution (chr "nsenter " ++ join (chr " ") args))
  | Ok output =>
      if negb (Output.success output) then
        Err (NamespaceOperation (chr "Failed to get IP addresses for " ++ context ++ chr ": " ++
                                 Output.stderr output))
      else Ok (parse_ip_addresses (Output.stdout output))
  end.

Definition get_ip_addresses_from_ns_file (ns_path : chars) : Result (list IpAddr.t) InterfaceMetricsError :=
  execute_nsenter_and_parse_ips [chr "--net"; ns_path; chr "ip"; chr "a"] (chr "namespace file " ++ ns_path).

(** The fallback never fails: an error is an empty list. *)
Definition get_ip_addresses_for_pid (pid : ProcessId) : Result (list IpAddr.t) InterfaceMetricsError :=
  match execute_nsenter_and_parse_ips [chr "-t"; u32_to_string pid; chr "-n"; chr "ip"; chr "a"]
          (chr "PID " ++ u32_to_string pid) with
  | Ok addresses => Ok addresses
  | Err _ => Ok []
  end.

Definition get_ip_addresses_for_namespace (pid : ProcessId) (ns_file : option chars) :
    Result (list IpAddr.t) InterfaceMetricsError :=
  match ns_file with
  | Some ns_path =>
      match get_ip_addresses_from_ns_file ns_path with
      | Ok addresses => Ok addresses
      | Err _ => get_ip_addresses_for_pid pid
      end
  | None => get_ip_addresses_for_pid pid
  end.

(** Parse a single line from lsns output. *)
Definition parse_namespace_line (line : chars) :
    Result (option (NamespaceId * NamespaceInfo.t)) InterfaceMetricsError :=
  match split_whitespace line with
  | f0 :: f1 :: f2 :: f3 :: f4 :: f5 :: rest =>
      (* Skip unassigned namespaces *)
      if bool_decide (f5 = chr "unassigned") then Ok None
      else
        match parse_uint u32 f3 with
        | None => Err (NetworkDataParsing (chr "Invalid PID: " ++ f3))
        | Some pid =>
            match parse_uint u32 f5 with
            | None => Err (NetworkDataParsing (chr "Invalid namespace ID: " ++ f5))
            | Some netns_id =>
                let ns_file :=
                  match rest with
                  | f6 :: _ =>
                      if negb (bool_decide (f6 = [])) then
                        match fs_exists f6 with Ok true => Some f6 | _ => None end
                      else None
                  | [] => None
                  end in
                match get_ip_addresses_for_namespace pid ns_file with
                | Ok ip_addresses => Ok (Some (netns_id, NamespaceInfo.mk pid ns_file ip_addresses))
                | Err e => Err e
                end
            end
        end
  | _ => Ok None
  end.

(** Get fresh namespace information from system; lines that do not parse are left out. *)
Definition get_namespace_info : Result (gmap NamespaceId NamespaceInfo.t) InterfaceMetricsError :=
  match run (chr "lsns") [chr "-t"; chr "net"; chr "--noheadings"] with
  | Err _ => Err (CommandExecution (chr "lsns -t net --noheadings"))
  | Ok output =>
      if negb (Output.success output) then Ok ∅
      else
        Ok (foldl (λ namespace_info line,
          match parse_namespace_line line with
          | Ok (Some (id, info)) => <[id := info]> namespace_info
          | _ => namespace_info
          end) ∅ (lines (Output.stdout output)))
  end.

(** The interface a line defines, if it is a definition line such as ["15: veth123@if14: <FLAGS>"]
    or ["2: eth0: <FLAGS>"]. *)
Definition interface_of_line (line : chars) : option chars :=
  match split_whitespace line with
  | first_token :: rest =>
      if ends_with_char ":"%char first_token &&
         bool_decide (is_Some (parse_uint u32 (take (length first_token - 1) first_token))) then
        match rest with
        | iface_match :: _ =>
            let iface_name :=
              if contains_char "@"%char iface_match then default [] (head (split "@"%char iface_match))
              else trim_end_matches ":"%char iface_match in
            if negb (bool_decide (iface_name = [])) then Some iface_name else None
        | [] => None
        end
      else None
  | [] => None
  end.

(** One line of [ip link show]: the interface it belongs to, and the mapping. *)
Definition parse_link_line (st : option chars * gmap chars NamespaceId) (line : chars) :
    option chars * gmap chars NamespaceId :=
  let '(current_iface, interface_ns_map) := st in
  let current_iface :=
    match interface_of_line line with Some iface => Some iface | None => current_iface end in
  (* Look for namespace ID in any line (interface header or details) *)
  let interface_ns_map :=
    match captures get_link_netnsid_regex line with
    | Some groups =>
        match current_iface, get groups 1 with
        | Some iface, Some netnsid_match =>
            (* Only insert if we haven't already processed this interface *)
            match interface_ns_map !! iface with
            | Some _ => interface_ns_map
            | None =>
                match parse_uint u32 netnsid_match with
                | Some netnsid => <[iface := netnsid]> interface_ns_map
                | None => interface_ns_map
                end
            end
        | _, _ => interface_ns_map
        end
    | None => interface_ns_map
    end in
  (current_iface, interface_ns_map).

(** Returns a map from interface names to their namespace IDs. *)
Definition parse_all_interface_links : Result (gmap chars NamespaceId) InterfaceMetricsError :=
  match run (chr "ip") [chr "link"; chr "show"] with
  | Err _ => Err (CommandExecution (chr "ip link show"))
  | Ok output =>
      if negb (Output.success output) then Ok ∅
      else Ok (foldl parse_link_line (None, ∅) (lines (Output.stdout output))).2
  end.

End manager.
End NetworkNamespaceManager.

(** ** netns_stats.rs *)
Module NetNsInterfaceMetricValues.

Record t := mk {
  ingress_flow_count : Z;
  egress_flow_count : Z;
}.

#[global] Instance eta_t : Eta t := λ r, mk (ingress_flow_count r) (egress_flow_count r).

#[global] Instance eq_dec : EqDecision t.
Proof. solve_decision. Defined.

Definition default : t := mk 0 0.
Definition new (ingress_flows egress_flows : Z) : t := mk ingress_flows egress_flows.

Definition calculate_delta (self previous : t) : t := {|
  ingress_flow_count := saturating_sub (ingress_flow_count self) (ingress_flow_count previous);
  egress_flow_count := saturating_sub (egress_flow_count self) (egress_flow_count previous)
|}.

End NetNsInterfaceMetricValues.

Module NetNsStats.
Import NetNsInterfaceMetricValues.

(** Parse numeric value from nstat output line. *)
Definition parse_nstat_value (line : chars) : Z :=
  match split_whitespace line with
  | _ :: field1 :: _ => from_option id 0 (parse_uint u64 field1)
  | _ => 0
  end.

(** The columns of the section, up to the first at which both values are known; [opens] are the
    active and the passive ones. *)
Fixpoint scan_tcp_columns (columns : list (chars * chars)) (opens : Z * Z) : Z * Z :=
  match columns with
  | [] => opens
  | (header, value) :: columns =>
      let '(tcp_active_opens, tcp_passive_opens) := opens in
      let '(tcp_active_opens, tcp_passive_opens) :=
        if bool_decide (header = chr "ActiveOpens") then
          (from_option id 0 (parse_uint u64 value), tcp_passive_opens)
        else if bool_decide (header = chr "PassiveOpens") then
          (tcp_active_opens, from_option id 0 (parse_uint u64 value))
        else (tcp_active_opens, tcp_passive_opens) in
      (* Early termination optimization *)
      if (0 <? tcp_active_opens) && (0 <? tcp_passive_opens) then (tcp_active_opens, tcp_passive_opens)
      else scan_tcp_columns columns (tcp_active_opens, tcp_passive_opens)
  end.

(** Parse TCP section from /proc/net/snmp. *)
Definition parse_tcp_section (header_line values_line : chars) : Result t unit :=
  let headers := split_whitespace header_line in
  let values := split_whitespace values_line in
  if negb (bool_decide (length headers = length values)) then Err tt
  else
    let '(tcp_active_opens, tcp_passive_opens) := scan_tcp_columns (zip headers values) (0, 0) in
    Ok (new tcp_passive_opens tcp_active_opens).

(** Parse /proc/$pid/net/snmp format: the first line of a Tcp section that has a successor. *)
Fixpoint parse_proc_lines (content : list chars) : t :=
  match content with
  | line :: (values_line :: _) as rest =>
      if starts_with (chr "Tcp:") line then
        match parse_tcp_section line values_line with
        | Ok stats => new (ingress_flow_count stats) (egress_flow_count stats)
        | Err _ => new 0 0
        end
      else parse_proc_lines rest
  | _ => new 0 0
  end.
Definition parse_proc_netstat (content : chars) : t := parse_proc_lines (lines content).

(** The lines of nstat, up to the first at which both values are known. *)
Fixpoint scan_nstat_lines (ls : list chars) (opens : Z * Z) : Z * Z :=
  match ls with
  | [] => opens
  | line :: ls =>
      let '(tcp_active_opens, tcp_passive_opens) := opens in
      let '(tcp_active_opens, tcp_passive_opens) :=
        if starts_with (chr "TcpActiveOpens") line then (parse_nstat_value line, tcp_passive_opens)
        else if starts_with (chr "TcpPassiveOpens") line then (tcp_active_opens, parse_nstat_value line)
        else (tcp_active_opens, tcp_passive_opens) in
      (* Early termination optimization *)
      if (0 <? tcp_active_opens) && (0 <? tcp_passive_opens) then (tcp_active_opens, tcp_passive_opens)
      else scan_nstat_lines ls (tcp_active_opens, tcp_passive_opens)
  end.

(** Parse nstat output for TCP connection statistics. *)
Definition parse_nstat_output (output : chars) : t :=
  let '(tcp_active_opens, tcp_passive_opens) := scan_nstat_lines (lines output) (0, 0) in
  new tcp_passive_opens tcp_active_opens.

Section stats.
Context (run : chars → list chars → Result Output.t unit).
Context (read_to_string : chars → Result chars unit).
Context (u32_to_string : Z → chars).

Definition execute_nsenter (args : list chars) : Result t unit :=
  match run (chr "nsenter") args with
  | Err _ => Err tt
  | Ok output =>
      if negb (Output.success output) then Err tt
      else Ok (parse_nstat_output (Output.stdout output))
  end.

(** Try to read /proc/$pid/net/snmp directly for optimization. *)
Definition try_read_proc_netstat (pid : ProcessId) : Result t unit :=
  match read_to_string (chr "/proc/" ++ u32_to_string pid ++ chr "/net/snmp") with
  | Ok content => Ok (parse_proc_netstat content)
  | Err _ => Err tt
  end.

(** Get TCP flow statistics for a namespace. *)
Definition get_namespace_flow_stats (ns_info : NamespaceInfo.t) : Result t unit :=
  match NamespaceInfo.ns_file ns_info with
  | Some ns_file => execute_nsenter [chr "--net"; ns_file; chr "nstat"; chr "-a"]
  | None => try_read_proc_netstat (NamespaceInfo.pid ns_info)
  end.

End stats.
End NetNsStats.
