(* ===== verification/NetNamespacesProperties.v ===== *)
(** * NetNamespacesProperties: what the parsers of namespace commands find

    [ip link show], [/proc/$pid/net/snmp] and [nstat] against reference definitions. *)

From stdpp Require Import base numbers gmap list strings.
From Stdlib Require Import Ascii.
From S2P Require Import Prelude Network Text HostInspection NetNamespaces.
Open Scope Z_scope.

(** ** Which interface leads to which namespace *)
Module LinkFacts.
Import NetworkNamespaceManager.

Section links.
Context (captures : string → chars → option Captures).

(** The interface each line belongs to: that of the last definition line so far. *)
Fixpoint owners (current : option chars) (ls : list chars) : list (option chars * chars) :=
  match ls with
  | [] => []
  | line :: ls =>
      let current := match interface_of_line line with Some i => Some i | None => current end in
      (current, line) :: owners current ls
  end.

(** The namespace identifier a line shows. *)
Definition netnsid_of_line (line : chars) : option NamespaceId :=
  groups ← captures get_link_netnsid_regex line;
  text ← get groups 1;
  parse_uint u32 text.

(** The identifiers shown on the lines of an interface, in order. *)
Definition ids_of (iface : chars) (l : list (option chars * chars)) : list NamespaceId :=
  omap (λ '(owner, line), if bool_decide (owner = Some iface) then netnsid_of_line line else None) l.

Lemma parse_link_line_lookup current m line iface :
  let '(current', m') := parse_link_line captures (current, m) line in
  current' = (match interface_of_line line with Some i => Some i | None => current end) ∧
  m' !! iface = match m !! iface with
                | Some n => Some n
                | None => if bool_decide (current' = Some iface) then netnsid_of_line line else None
                end.
Proof.
  unfold parse_link_line, netnsid_of_line. cbv zeta.
  set (c := match interface_of_line line with Some i => Some i | None => current end). split; [done|].
  destruct (captures get_link_netnsid_regex line) as [groups|]; cbn.
  2:{ destruct (m !! iface); [done|by case_bool_decide]. }
  destruct (get groups 1) as [text|]; cbn.
  2:{ destruct c, (m !! iface); try done; by case_bool_decide. }
  destruct c as [i|]; [|by destruct (m !! iface)].
  destruct (decide (i = iface)) as [->|Hne].
  - rewrite bool_decide_eq_true_2 by done.
    destruct (m !! iface) eqn:E; [done|]. destruct (parse_uint u32 text); [|done]. by simplify_map_eq.
  - rewrite bool_decide_eq_false_2 by congruence.
    destruct (m !! i), (parse_uint u32 text); by simplify_map_eq; destruct (m !! iface).
Qed.

Lemma parse_links_lookup ls current m iface :
  (foldl (parse_link_line captures) (current, m) ls).2 !! iface =
  match m !! iface with Some n => Some n | None => head (ids_of iface (owners current ls)) end.
Proof.
  revert current m. induction ls as [|line ls IH]; intros; cbn -[parse_link_line interface_of_line ids_of];
    [by destruct (m !! iface)|].
  pose proof (parse_link_line_lookup current m line iface) as Hl.
  destruct (parse_link_line captures (current, m) line) as [c' m'] eqn:E. destruct Hl as [-> Hm'].
  rewrite IH, Hm'. destruct (m !! iface); [done|]. cbn -[interface_of_line].
  case_bool_decide; [|done]. by destruct (netnsid_of_line line).
Qed.

End links.
End LinkFacts.

(** ** The connections opened in a namespace *)
Module OpensFacts.
Import NetNsStats NetNsInterfaceMetricValues.

Section scan.
Context {A : Type} (classify : A → option (bool * Z)).

(** Both parsers: active opens are marked [true], passive ones [false]. *)
Fixpoint scan_opens (l : list A) (opens : Z * Z) : Z * Z :=
  match l with
  | [] => opens
  | x :: l =>
      let '(a, p) :=
        match classify x with
        | Some (true, v) => (v, opens.2)
        | Some (false, v) => (opens.1, v)
        | None => opens
        end in
      if (0 <? a) && (0 <? p) then (a, p) else scan_opens l (a, p)
  end.

(** The values of one kind. *)
Definition values_of (kind : bool) (l : list A) : list Z :=
  omap (λ x, match classify x with
             | Some (k, v) => if Bool.eqb k kind then Some v else None
             | None => None
             end) l.

Lemma values_of_cons kind x l :
  values_of kind (x :: l) =
  match classify x with
  | Some (k, v) => if Bool.eqb k kind then v :: values_of kind l else values_of kind l
  | None => values_of kind l
  end.
Proof. unfold values_of. simpl. by destruct (classify x) as [[[] v]|], kind. Qed.

(** Stopping early does not change the result when each kind occurs at most once. *)
Lemma scan_opens_exact l a p :
  (∀ x k v, classify x = Some (k, v) → 0 ≤ v) →
  (a ≠ 0 → values_of true l = []) → (p ≠ 0 → values_of false l = []) →
  (length (values_of true l) ≤ 1)%nat → (length (values_of false l) ≤ 1)%nat →
  0 ≤ a → 0 ≤ p →
  scan_opens l (a, p) =
  (from_option id a (head (values_of true l)), from_option id p (head (values_of false l))).
Proof.
  intros Hv. revert a p. induction l as [|x l IH]; intros a p Ha Hp La Lp Ha0 Hp0; [done|].
  cbn [scan_opens]. rewrite !values_of_cons in *.
  destruct (classify x) as [[[] v]|] eqn:E; cbn in Ha, Hp, La, Lp |- *.
  - assert (values_of true l = []) as Ht by (apply nil_length_inv; lia).
    assert (a = 0) as -> by (destruct (decide (a = 0)) as [|n]; [done|by specialize (Ha n)]).
    apply Hv in E. destruct ((0 <? v) && (0 <? p)) eqn:Ev.
    + by rewrite (Hp ltac:(lia)).
    + rewrite IH; rewrite ?Ht; try done; simpl; lia.
  - assert (values_of false l = []) as Hf by (apply nil_length_inv; lia).
    assert (p = 0) as -> by (destruct (decide (p = 0)) as [|n]; [done|by specialize (Hp n)]).
    apply Hv in E. destruct ((0 <? a) && (0 <? v)) eqn:Ev.
    + by rewrite (Ha ltac:(lia)).
    + rewrite IH; rewrite ?Hf; try done; simpl; lia.
  - destruct ((0 <? a) && (0 <? p)) eqn:Ev; [by rewrite (Ha ltac:(lia)), (Hp ltac:(lia))|by apply IH].
Qed.

End scan.

(** What a column of /proc/net/snmp, and a line of nstat, contribute. *)
Definition column_opens (c : chars * chars) : option (bool * Z) :=
  if bool_decide (c.1 = chr "ActiveOpens") then Some (true, from_option id 0 (parse_uint u64 c.2))
  else if bool_decide (c.1 = chr "PassiveOpens") then Some (false, from_option id 0 (parse_uint u64 c.2))
  else None.

Definition line_opens (line : chars) : option (bool * Z) :=
  if starts_with (chr "TcpActiveOpens") line then Some (true, parse_nstat_value line)
  else if starts_with (chr "TcpPassiveOpens") line then Some (false, parse_nstat_value line)
  else None.

Lemma scan_tcp_columns_opens l opens : scan_tcp_columns l opens = scan_opens column_opens l opens.
Proof.
  revert opens. induction l as [|[h v] l IH]; intros [a p]; [done|]. simpl. unfold column_opens. simpl.
  repeat case_bool_decide; simpl; by rewrite ?IH.
Qed.

Lemma scan_nstat_lines_opens l opens : scan_nstat_lines l opens = scan_opens line_opens l opens.
Proof.
  revert opens. induction l as [|line l IH]; intros [a p]; [done|].
  cbn [scan_nstat_lines scan_opens]. unfold line_opens.
  destruct (starts_with (chr "TcpActiveOpens") line); [|destruct (starts_with (chr "TcpPassiveOpens") line)];
    cbn [fst snd]; by rewrite ?IH.
Qed.

(** The number of the first column with a name, zero without one or when it is not a number. *)
Definition column (name : chars) (columns : list (chars * chars)) : Z :=
  from_option id 0 (value ← (list_to_map columns : gmap chars chars) !! name; parse_uint u64 value).

Definition opens_name (kind : bool) : chars := if kind then chr "ActiveOpens" else chr "PassiveOpens".

Lemma column_opens_kind kind h v :
  match column_opens (h, v) with
  | Some (k, n) => if Bool.eqb k kind then Some n else None
  | None => None
  end = if bool_decide (h = opens_name kind) then Some (from_option id 0 (parse_uint u64 v)) else None.
Proof. unfold column_opens. destruct kind; simpl; repeat case_bool_decide; simplify_eq; done. Qed.

Lemma values_of_column_cons kind h v columns :
  values_of column_opens kind ((h, v) :: columns) =
  (if bool_decide (h = opens_name kind) then [from_option id 0 (parse_uint u64 v)] else []) ++
  values_of column_opens kind columns.
Proof.
  unfold values_of at 1. cbn [omap list_omap]. rewrite column_opens_kind. by case_bool_decide.
Qed.

Lemma values_of_column_nil kind columns :
  opens_name kind ∉ columns.*1 → values_of column_opens kind columns = [].
Proof.
  induction columns as [|[h v] columns IH]; [done|]. rewrite values_of_column_cons. cbn. intros Hin.
  rewrite bool_decide_eq_false_2, IH by set_solver. done.
Qed.

(** In a table without repeated headers a kind has the value of its column. *)
Lemma values_of_column kind columns :
  NoDup columns.*1 →
  (length (values_of column_opens kind columns) ≤ 1)%nat ∧
  from_option id 0 (head (values_of column_opens kind columns)) = column (opens_name kind) columns.
Proof.
  unfold column. induction columns as [|[h v] columns IH]; [by cbn; split; [lia|]|]. cbn [fmap list_fmap fst].
  intros [Hnot Hnd]%NoDup_cons. destruct (IH Hnd) as [Hlen Hval]. rewrite values_of_column_cons.
  cbn [list_to_map foldr]. case_bool_decide as E; subst.
  - rewrite values_of_column_nil by done. rewrite lookup_insert_eq. simpl. split; [lia|]. by destruct (parse_uint u64 v).
  - by rewrite lookup_insert_ne.
Qed.

Lemma column_opens_nonneg x k v : column_opens x = Some (k, v) → 0 ≤ v.
Proof.
  unfold column_opens. intros. repeat case_bool_decide; simplify_eq;
    destruct (parse_uint u64 x.2) eqn:E; simpl; try lia; by apply parse_uint_range in E as [].
Qed.

Lemma line_opens_nonneg x k v : line_opens x = Some (k, v) → 0 ≤ v.
Proof.
  unfold line_opens, parse_nstat_value. intros. repeat case_match; simplify_eq; try lia;
    destruct (parse_uint u64 _) eqn:E; simpl; try lia; by apply parse_uint_range in E as [].
Qed.

End OpensFacts.

(** ** The parsers of command output *)
Module ParserProperties.
Import NetworkNamespaceManager NetNsStats LinkFacts OpensFacts.

(** [parse_all_interface_links] maps each interface to the first namespace identifier shown on
    one of its lines, where a line belongs to the interface of the last definition line up to and
    including itself; nothing else is mapped.  A command that reports failure gives the empty map,
    and only one that cannot be run is an error. *)
Theorem interface_links_first run captures :
  match run (chr "ip") [chr "link"; chr "show"] with
  | Err _ => parse_all_interface_links run captures = Err (CommandExecution (chr "ip link show"))
  | Ok output => ∃ m, parse_all_interface_links run captures = Ok m ∧
      ∀ iface, m !! iface =
        if Output.success output
        then head (ids_of captures iface (owners None (lines (Output.stdout output))))
        else None
  end.
Proof.
  unfold parse_all_interface_links. destruct (run _ _) as [output|]; [|done].
  destruct (Output.success output); simpl; eexists; (split; [done|]); intros iface; [|apply lookup_empty].
  by rewrite parse_links_lookup, lookup_empty.
Qed.

(** The connections opened in a namespace are those of the two columns, whatever the order of
    the columns or lines and in spite of the early exit.  From /proc, headers and values that do
    not pair up are an error; otherwise the counts are the values of the columns [PassiveOpens] and
    [ActiveOpens], zero where a column is missing or not a number.  From nstat, the counts are
    those of the first line with each name. *)
Theorem tcp_opens_exact header_line values_line output :
  (parse_tcp_section header_line values_line = Err tt ↔
     length (split_whitespace header_line) ≠ length (split_whitespace values_line)) ∧
  (length (split_whitespace header_line) = length (split_whitespace values_line) →
   NoDup (split_whitespace header_line) →
   let columns := zip (split_whitespace header_line) (split_whitespace values_line) in
   parse_tcp_section header_line values_line =
     Ok (NetNsInterfaceMetricValues.new (column (chr "PassiveOpens") columns) (column (chr "ActiveOpens") columns))) ∧
  ((length (values_of line_opens true (lines output)) ≤ 1)%nat →
   (length (values_of line_opens false (lines output)) ≤ 1)%nat →
   parse_nstat_output output =
     NetNsInterfaceMetricValues.new (from_option id 0 (head (values_of line_opens false (lines output))))
       (from_option id 0 (head (values_of line_opens true (lines output))))).
Proof.
  unfold parse_tcp_section, parse_nstat_output. split; [|split].
  - case_bool_decide; cbn [negb]; [|done]. by destruct (scan_tcp_columns _ _).
  - intros Hlen Hnd. rewrite bool_decide_eq_true_2 by done. cbn [negb]. set (columns := zip _ _).
    assert (NoDup columns.*1) as Hnd' by (unfold columns; by rewrite fst_zip by lia).
    destruct (values_of_column true columns Hnd') as [? Ha], (values_of_column false columns Hnd') as [? Hp].
    rewrite scan_tcp_columns_opens, scan_opens_exact by (apply column_opens_nonneg || done).
    by rewrite Ha, Hp.
  - intros. by rewrite scan_nstat_lines_opens, scan_opens_exact by (apply line_opens_nonneg || done).
Qed.

Lemma tcp_opens_exact_witness :
  parse_tcp_section (chr "Tcp: RtoMin ActiveOpens PassiveOpens") (chr "Tcp: 200 7 9") =
    Ok (NetNsInterfaceMetricValues.new 9 7) ∧
  parse_nstat_output (chr "TcpActiveOpens 7 0.0") = NetNsInterfaceMetricValues.new 0 7.
Proof.
  destruct (tcp_opens_exact (chr "Tcp: RtoMin ActiveOpens PassiveOpens") (chr "Tcp: 200 7 9")
    (chr "TcpActiveOpens 7 0.0")) as (_ & H1 & H2). split.
  - apply H1; [by vm_compute|]. apply (bool_decide_unpack _). by vm_compute.
  - apply H2; vm_compute; lia.
Defined.

End ParserProperties.
