(* ===== verification/OpenMetrics.v ===== *)
(** * OpenMetrics: the metrics of interfaces and of the system

    Models the providers of nfm-controller/src/open_metrics: discovery.rs (which interfaces are
    reported, and whose pod is behind one), interface_metrics_provider.rs (the deltas of their
    traffic and of the connections opened behind them), system_metrics_provider.rs (the allowances
    exceeded on each network interface) and provider.rs.  The prometheus crate is outside: a vector
    of gauges is a type with the operations of the class [GaugeVec] and its documented laws, and
    [MapGauge] an instance of them; a registry likewise.  [None] is a panic. *)

From stdpp Require Import base numbers gmap list strings.
From Stdlib Require Import Ascii.
From S2P Require Import Prelude Network ReportData Text Metadata HostStats Report HostInspection Kubernetes.
From S2P Require Import NetNamespaces.
Import RuntimeEnvironmentMetadataProvider.
Open Scope Z_scope.

(** ** Gauges and registries *)

Class GaugeVec (G : Type) := {
  (** [IntGaugeVec::new(Opts::new(name, help), labels)]; an invalid or repeated name is an error. *)
  gauge_new : string → string → list string → option G;
  (** [with_label_values(values).set(n)]; panics when the values do not match the labels. *)
  gauge_set : G → list string → Z → option G;
  (** What a scrape shows for the given label values. *)
  gauge_value : G → list string → option Z;
  gauge_labels : G → list string;
  gauge_name : G → string;
}.

(** What makes a descriptor acceptable. *)
Definition is_letter (c : ascii) : bool :=
  ((97 <=? code c) && (code c <=? 122)) || ((65 <=? code c) && (code c <=? 90)) || (code c =? 95).
Definition is_name (s : string) : bool :=
  match chr s with
  | c :: l => is_letter c && forallb (λ c, is_letter c || ((48 <=? code c) && (code c <=? 57))) l
  | [] => false
  end.
Definition is_descriptor (name help : string) (labels : list string) : bool :=
  is_name name && negb (bool_decide (help = ""%string)) && forallb is_name labels && bool_decide (NoDup labels).

Class GaugeVecLaws (G : Type) `{GaugeVec G} := {
  gauge_new_ok name help labels : is_descriptor name help labels = true → ∃ g,
    gauge_new name help labels = Some g ∧ gauge_labels g = labels ∧ gauge_name g = name ∧
    ∀ values, gauge_value g values = None;
  gauge_set_ok g values n : length values = length (gauge_labels g) → ∃ g',
    gauge_set g values n = Some g' ∧ gauge_labels g' = gauge_labels g ∧ gauge_name g' = gauge_name g ∧
    gauge_value g' values = Some n ∧
    ∀ values', values' ≠ values → gauge_value g' values' = gauge_value g values';
}.

Class Registry (R : Type) := {
  registry_new : R;
  (** [register] of a collector by the name of its descriptor. *)
  register : R → string → option R;
  registered : R → list string;
}.

Class RegistryLaws (R : Type) `{Registry R} := {
  registry_new_empty : registered registry_new = [];
  register_ok r name : name ∉ registered r → ∃ r',
    register r name = Some r' ∧ registered r' = registered r ++ [name];
}.

(** A registry that is the list of its names. *)
Module ListRegistry.

Record t := mk { names : list string }.

#[global] Instance registry : Registry t := {
  registry_new := mk [];
  register self name := if bool_decide (name ∈ names self) then None else Some (mk (names self ++ [name]));
  registered := names;
}.

#[global] Instance laws : RegistryLaws t.
Proof.
  constructor; [done|]. intros r name ?. simpl.
  rewrite bool_decide_eq_false_2 by done. by eexists.
Qed.

End ListRegistry.

(** Gauges as a finite map. *)
Module MapGauge.

Record t := mk { name : string; labels : list string; values : gmap (list string) Z }.

#[global] Instance gauges : GaugeVec t := {
  gauge_new name help labels := if is_descriptor name help labels then Some (mk name labels ∅) else None;
  gauge_set g vals n :=
    if bool_decide (length vals = length (labels g)) then Some (mk (name g) (labels g) (<[vals := n]> (values g)))
    else None;
  gauge_value g vals := values g !! vals;
  gauge_labels := labels;
  gauge_name := name;
}.

#[global] Instance laws : GaugeVecLaws t.
Proof.
  constructor.
  - intros n h l E. simpl. rewrite E. eexists. by split_and!.
  - intros g vals n E. simpl. rewrite bool_decide_eq_true_2 by done. eexists.
    split_and!; [done..|apply lookup_insert_eq|]. intros. by apply lookup_insert_ne.
Qed.

End MapGauge.

(** ** providers/mod.rs *)

(** [T::get_labels] is given as a list. *)
Definition build_gauge_metric {G : Type} `{GaugeVec G} (labels : list string) (metric_name description : string) :
    option G :=
  gauge_new metric_name description labels.

(** ** discovery.rs *)
Module HostInterfaceMetricValues.

Record t := mk {
  ingress_pkt_count : Z;
  ingress_bytes_count : Z;
  egress_pkt_count : Z;
  egress_bytes_count : Z;
}.

#[global] Instance eta_t : Eta t := λ r,
  mk (ingress_pkt_count r) (ingress_bytes_count r) (egress_pkt_count r) (egress_bytes_count r).

Definition default : t := mk 0 0 0 0.

Definition new (recv_packets recv_bytes sent_packets sent_bytes : Z) : t := {|
  ingress_pkt_count := recv_packets;
  ingress_bytes_count := recv_bytes;
  egress_pkt_count := sent_packets;
  egress_bytes_count := sent_bytes
|}.

(** Swap TX/RX for veth interfaces (pod is on the other end). *)
Definition swap_tx_rx (self : t) : t := {|
  ingress_pkt_count := egress_pkt_count self;
  ingress_bytes_count := egress_bytes_count self;
  egress_pkt_count := ingress_pkt_count self;
  egress_bytes_count := ingress_bytes_count self
|}.

Definition calculate_delta (self previous : t) : t := {|
  ingress_pkt_count := saturating_sub (ingress_pkt_count self) (ingress_pkt_count previous);
  ingress_bytes_count := saturating_sub (ingress_bytes_count self) (ingress_bytes_count previous);
  egress_pkt_count := saturating_sub (egress_pkt_count self) (egress_pkt_count previous);
  egress_bytes_count := saturating_sub (egress_bytes_count self) (egress_bytes_count previous)
|}.

End HostInterfaceMetricValues.

(** procfs's counters of a device, as far as they are read. *)
Module DeviceStatus.
Record t := mk { recv_bytes : Z; recv_packets : Z; sent_bytes : Z; sent_packets : Z }.
End DeviceStatus.

(** The two flags of an interface that are read. *)
Module InterfaceFlags.
Record t := mk { LOOPBACK : bool; UP : bool }.
End InterfaceFlags.

(** Check if interface should be included in metrics. *)
Definition should_include_interface (interface : HostInterface.t) (flags : gmap chars InterfaceFlags.t) : bool :=
  match flags !! HostInterface.name interface with
  | None => false
  | Some interface_flags =>
      if InterfaceFlags.LOOPBACK interface_flags then false
      else if negb (InterfaceFlags.UP interface_flags) then false
      (* Only report Pod Network metrics (virtual interfaces) *)
      else HostInterface.is_virtual interface
  end.

(** [getifaddrs] lists an interface once per address; the last entry decides. *)
Definition get_interface_flags (getifaddrs : Result (list (chars * InterfaceFlags.t)) unit) :
    Result (gmap chars InterfaceFlags.t) unit :=
  match getifaddrs with
  | Ok ifaddrs => Ok (foldl (λ m '(name, flags), <[name := flags]> m) ∅ ifaddrs)
  | Err e => Err e
  end.

(** The addresses of one interface; an entry may have none. *)
Definition get_interface_ips (filter_get : chars → Result (list (option IpAddr.t)) unit) (iface_name : chars) :
    Result (list IpAddr.t) unit :=
  match filter_get iface_name with
  | Ok interfaces =>
      Ok (omap (λ address,
        ip_addr ← address;
        if negb (IpAddr.is_loopback ip_addr) && negb (IpAddr.is_link_local ip_addr) then Some ip_addr else None)
        interfaces)
  | Err e => Err e
  end.

Module InterfaceDiscoveryImpl.
Section discovery.
Context {C : Type} `{InterfaceVirtualChecker C}.

Record t := mk { virtual_checker : C }.

(** One entry of the loop; an interface that cannot be checked is skipped. *)
Definition visit (interface_flags : gmap chars InterfaceFlags.t)
    (st : t * gmap HostInterface.t DeviceStatus.t) (entry : chars * DeviceStatus.t) :
    t * gmap HostInterface.t DeviceStatus.t :=
  let '(self, filtered_interfaces) := st in
  let '(name, status) := entry in
  match is_virtual (virtual_checker self) name with
  | (Err _, checker) => (mk checker, filtered_interfaces)
  | (Ok is_virtual, checker) =>
      let interface := HostInterface.new name is_virtual in
      (mk checker,
       if should_include_interface interface interface_flags then <[interface := status]> filtered_interfaces
       else filtered_interfaces)
  end.

(** Get interface statistics with filtering for virtual interfaces; [dev_status] lists the devices
    in the order they are visited. *)
Definition get_virtual_interface_stats (dev_status : Result (list (chars * DeviceStatus.t)) unit)
    (getifaddrs : Result (list (chars * InterfaceFlags.t)) unit) (self : t) :
    Result (gmap HostInterface.t DeviceStatus.t) unit * t :=
  match dev_status with
  | Err e => (Err e, self)
  | Ok interfaces =>
      match get_interface_flags getifaddrs with
      | Err e => (Err e, self)
      | Ok interface_flags =>
          let '(self, filtered_interfaces) := foldl (visit interface_flags) (self, ∅) interfaces in
          (Ok filtered_interfaces, self)
      end
  end.

End discovery.
Arguments t : clear implicits.
End InterfaceDiscoveryImpl.

(** The pods of each address, as [get_ip_to_pod_mapping] gives them. *)
Abbreviation IpToPodMapping := (gmap IpAddr.t (gset PodInfo.t)).
Abbreviation NamespaceMapping := (gmap NamespaceId NamespaceInfo.t).

Section pods.
(** The order in which a set of pods is visited. *)
Context (pods_order : gset PodInfo.t → list PodInfo.t).
(** [InterfaceFilter::get] for an interface. *)
Context (filter_get : chars → Result (list (option IpAddr.t)) unit).

(** The first address with a pod decides. *)
Fixpoint first_pod (ip_addresses : list IpAddr.t) (pod_info_mapping : IpToPodMapping) : string * string :=
  match ip_addresses with
  | [] => (""%string, ""%string)
  | ip_addr :: ip_addresses =>
      match pod_info_mapping !! ip_addr with
      | Some pod_info =>
          match pods_order pod_info with
          | pod :: _ => (PodInfo.name pod, PodInfo.namespace pod)
          | [] => first_pod ip_addresses pod_info_mapping
          end
      | None => first_pod ip_addresses pod_info_mapping
      end
  end.

Definition get_pod_info_from_netns (ns_info : option NamespaceInfo.t) (pod_info_mapping : IpToPodMapping) :
    string * string :=
  match ns_info with
  | Some ns_info => first_pod (NamespaceInfo.ip_addresses ns_info) pod_info_mapping
  | None => (""%string, ""%string)
  end.

Definition get_pod_info_from_real_iface (iface_name : chars) (pod_info_mapping : IpToPodMapping) :
    string * string :=
  match get_interface_ips filter_get iface_name with
  | Ok ip_addresses => first_pod ip_addresses pod_info_mapping
  | Err _ => (""%string, ""%string)
  end.

Definition get_pod_info_from_iface (interface_name : chars) (namespace_info : NamespaceMapping)
    (pod_mappings : IpToPodMapping) (namespace_id : option NamespaceId) : string * string :=
  match namespace_id with
  | Some ns_id => get_pod_info_from_netns (namespace_info !! ns_id) pod_mappings
  | None => get_pod_info_from_real_iface interface_name pod_mappings
  end.

End pods.

(** ** interface_metrics_provider.rs *)
Module InterfaceMetricKey.

Record t := mk {
  instance : string;
  iface : chars;
  pod : string;
  pod_namespace : string;
  node : string;
}.

#[global] Instance eq_dec : EqDecision t.
Proof. solve_decision. Defined.

#[global] Instance countable : Countable t.
Proof.
  refine (inj_countable' (λ k, (instance k, iface k, pod k, pod_namespace k, node k))
    (λ '(a, b, c, d, e), mk a b c d e) _). by intros [].
Defined.

Definition label_values (self : t) (compute_platform : ComputePlatform) (node_name instance_id : string) :
    list string :=
  match compute_platform with
  | Ec2Plain => [instance_id; str (iface self)]
  | Ec2K8sEks | Ec2K8sVanilla => [instance_id; str (iface self); pod self; pod_namespace self; node_name]
  end.

Definition is_valid (self : t) (compute_platform : ComputePlatform) : bool :=
  match compute_platform with
  | Ec2Plain => negb (bool_decide (instance self = ""%string))
  | Ec2K8sEks | Ec2K8sVanilla => negb (bool_decide (pod self = ""%string))
  end.

Definition get_labels (compute_platform : ComputePlatform) : list string :=
  match compute_platform with
  | Ec2Plain => ["instance_id"; "iface"]
  | Ec2K8sEks | Ec2K8sVanilla => ["instance_id"; "iface"; "pod"; "namespace"; "node"]
  end%string.

End InterfaceMetricKey.

Module InterfaceMetricValues.

Record t := mk {
  host : HostInterfaceMetricValues.t;
  netns : NetNsInterfaceMetricValues.t;
}.

#[global] Instance eta_t : Eta t := λ r, mk (host r) (netns r).

Definition default : t := mk HostInterfaceMetricValues.default NetNsInterfaceMetricValues.default.

Definition calculate_delta (self previous : t) : t :=
  mk (HostInterfaceMetricValues.calculate_delta (host self) (host previous))
     (NetNsInterfaceMetricValues.calculate_delta (netns self) (netns previous)).

End InterfaceMetricValues.

(** The name of the node, ["unknown"] outside Kubernetes. *)
Definition node_name_from (env_var : string → option string) : string :=
  match K8sMetadata.node_name (K8sMetadata.default env_var) with
  | Some (ReportValue.String node_name) => node_name
  | _ => "unknown"
  end.

Module InterfaceMetricsProvider.
Section provider.
Context {C : Type} `{InterfaceVirtualChecker C} {G : Type} `{GaugeVec G}.

Record t := mk {
  compute_platform : ComputePlatform;
  instance_id : string;
  node_name : string;
  iface_discovery : InterfaceDiscoveryImpl.t C;
  (** Whether a collector is shared with the agent. *)
  k8s_metadata : bool;
  ingress_pkt_count : G;
  ingress_bytes_count : G;
  egress_pkt_count : G;
  egress_bytes_count : G;
  ingress_flow_count : G;
  egress_flow_count : G;
  current_metrics : gmap InterfaceMetricKey.t InterfaceMetricValues.t;
}.

#[global] Instance eta_t : Eta t := λ r,
  mk (compute_platform r) (instance_id r) (node_name r) (iface_discovery r) (k8s_metadata r)
    (ingress_pkt_count r) (ingress_bytes_count r) (egress_pkt_count r) (egress_bytes_count r)
    (ingress_flow_count r) (egress_flow_count r) (current_metrics r).

(** What the host answers during one update. *)
Record host := mk_host {
  run : chars → list chars → Result Output.t unit;
  fs_exists : chars → Result bool unit;
  read_to_string : chars → Result chars unit;
  captures : string → chars → option NetworkNamespaceManager.Captures;
  u32_to_string : Z → chars;
  dev_status : Result (list (chars * DeviceStatus.t)) unit;
  getifaddrs : Result (list (chars * InterfaceFlags.t)) unit;
  filter_get : chars → Result (list (option IpAddr.t)) unit;
  (** The shared collector as the watchers have left it. *)
  collector : KubernetesMetadataCollector.t;
  pods_order : gset PodInfo.t → list PodInfo.t;
  stats_order : gmap HostInterface.t DeviceStatus.t → list (HostInterface.t * DeviceStatus.t);
  metrics_order : gmap InterfaceMetricKey.t InterfaceMetricValues.t →
    list (InterfaceMetricKey.t * InterfaceMetricValues.t);
}.

Definition get_ip_pod_info_mapping (h : host) (self : t) : option IpToPodMapping :=
  if k8s_metadata self then Some (KubernetesMetadataCollector.get_ip_to_pod_mapping (collector h) []) else None.

Definition environment_info (h : host) (self : t) : option NamespaceMapping * option IpToPodMapping :=
  match compute_platform self with
  | Ec2Plain => (None, None)
  | Ec2K8sEks | Ec2K8sVanilla =>
      let ns_info :=
        match NetworkNamespaceManager.get_namespace_info (run h) (fs_exists h) (captures h) (u32_to_string h) with
        | Ok ns_info => ns_info
        | Err _ => ∅
        end in
      (Some ns_info, get_ip_pod_info_mapping h self)
  end.

Definition build_metric_key (h : host) (self : t) (iface_name : chars) (ns_to_pid : option NamespaceMapping)
    (pod_info_map : option IpToPodMapping) (netns : option NamespaceId) : InterfaceMetricKey.t :=
  let '(pod, pod_namespace) :=
    match compute_platform self with
    | Ec2Plain => (""%string, ""%string)
    | Ec2K8sEks | Ec2K8sVanilla =>
        match ns_to_pid, pod_info_map with
        | Some ns_info, Some pod_map =>
            get_pod_info_from_iface (pods_order h) (filter_get h) iface_name ns_info pod_map netns
        | _, _ => (""%string, ""%string)
        end
    end in
  InterfaceMetricKey.mk (instance_id self) iface_name pod pod_namespace (node_name self).

(** The key and the totals of one interface, unless it is skipped. *)
Definition measure (h : host) (self : t) (ns_to_pid : option NamespaceMapping)
    (pod_info : option IpToPodMapping) (interface_ns_map : gmap chars NamespaceId)
    (entry : HostInterface.t * DeviceStatus.t) : option (InterfaceMetricKey.t * InterfaceMetricValues.t) :=
  let '(iface, device_status) := entry in
  let netns := if HostInterface.is_virtual iface then interface_ns_map !! HostInterface.name iface else None in
  let key := build_metric_key h self (HostInterface.name iface) ns_to_pid pod_info netns in
  if negb (InterfaceMetricKey.is_valid key (compute_platform self)) then None
  else
    let host_metrics := HostInterfaceMetricValues.new (DeviceStatus.recv_packets device_status)
      (DeviceStatus.recv_bytes device_status) (DeviceStatus.sent_packets device_status)
      (DeviceStatus.sent_bytes device_status) in
    if HostInterface.is_virtual iface then
      (* The pod is on the other end of the link. *)
      let host_metrics := HostInterfaceMetricValues.swap_tx_rx host_metrics in
      match (ns ← netns; map ← ns_to_pid; (map : NamespaceMapping) !! ns) with
      | None => None
      | Some ns_info =>
          let netns_metrics :=
            match NetNsStats.get_namespace_flow_stats (run h) (read_to_string h) (u32_to_string h) ns_info with
            | Ok m => m
            | Err _ => NetNsInterfaceMetricValues.default
            end in
          Some (key, InterfaceMetricValues.mk host_metrics netns_metrics)
      end
    else Some (key, InterfaceMetricValues.mk host_metrics NetNsInterfaceMetricValues.default).

(** One interface of the loop: its totals are kept, and their difference to the previous ones is
    reported. *)
Definition account (h : host) (self : t) (ns_to_pid : option NamespaceMapping)
    (pod_info : option IpToPodMapping) (interface_ns_map : gmap chars NamespaceId)
    (st : gmap InterfaceMetricKey.t InterfaceMetricValues.t * gmap InterfaceMetricKey.t InterfaceMetricValues.t)
    (entry : HostInterface.t * DeviceStatus.t) :
    gmap InterfaceMetricKey.t InterfaceMetricValues.t * gmap InterfaceMetricKey.t InterfaceMetricValues.t :=
  let '(new_current_metrics, result) := st in
  match measure h self ns_to_pid pod_info interface_ns_map entry with
  | None => (new_current_metrics, result)
  | Some (key, iface_metrics) =>
      let delta_metric := InterfaceMetricValues.calculate_delta iface_metrics
        (from_option id InterfaceMetricValues.default (current_metrics self !! key)) in
      (<[key := iface_metrics]> new_current_metrics, <[key := delta_metric]> result)
  end.

(** Get current interface metrics: the deltas to the previous call, whose totals are kept. *)
Definition get_metrics (h : host) (self : t) : gmap InterfaceMetricKey.t InterfaceMetricValues.t * t :=
  let '(ns_to_pid, pod_info) := environment_info h self in
  let interface_ns_map :=
    match compute_platform self with
    | Ec2Plain => ∅
    | Ec2K8sEks | Ec2K8sVanilla =>
        match NetworkNamespaceManager.parse_all_interface_links (run h) (captures h) with
        | Ok m => m
        | Err _ => ∅
        end
    end in
  let '(interface_stats, discovery) :=
    InterfaceDiscoveryImpl.get_virtual_interface_stats (dev_status h) (getifaddrs h) (iface_discovery self) in
  let interface_stats := match interface_stats with Ok m => m | Err _ => ∅ end in
  let '(new_current_metrics, result) :=
    foldl (account h self ns_to_pid pod_info interface_ns_map) (∅, ∅) (stats_order h interface_stats) in
  (result, self <| iface_discovery := discovery |> <| current_metrics := new_current_metrics |>).

(** The six gauges of an interface. *)
Definition set_gauges (self : t) (label_values : list string) (value : InterfaceMetricValues.t) : option t :=
  let host := InterfaceMetricValues.host value in
  let netns := InterfaceMetricValues.netns value in
  let set g n := gauge_set g label_values (NfmReportOTLP.as_i64 n) in
  g1 ← set (ingress_bytes_count self) (HostInterfaceMetricValues.ingress_bytes_count host);
  g2 ← set (ingress_pkt_count self) (HostInterfaceMetricValues.ingress_pkt_count host);
  g3 ← set (egress_bytes_count self) (HostInterfaceMetricValues.egress_bytes_count host);
  g4 ← set (egress_pkt_count self) (HostInterfaceMetricValues.egress_pkt_count host);
  g5 ← set (ingress_flow_count self) (NetNsInterfaceMetricValues.ingress_flow_count netns);
  g6 ← set (egress_flow_count self) (NetNsInterfaceMetricValues.egress_flow_count netns);
  Some (self <| ingress_bytes_count := g1 |> <| ingress_pkt_count := g2 |> <| egress_bytes_count := g3 |>
             <| egress_pkt_count := g4 |> <| ingress_flow_count := g5 |> <| egress_flow_count := g6 |>).

Definition update_metrics (h : host) (self : t) : option t :=
  let '(metrics, self) := get_metrics h self in
  foldM (λ self '(key, value),
    set_gauges self (InterfaceMetricKey.label_values key (compute_platform self) (node_name self) (instance_id self))
      value) self (metrics_order h metrics).

(** The gauges, and a first reading as the baseline of the deltas. *)
Definition new (h : host) (env_var : string → option string) (imds_get : chars → Result chars unit)
    (discovery : InterfaceDiscoveryImpl.t C) (platform : ComputePlatform)
    (k8s : bool) : option t :=
  let build := build_gauge_metric (InterfaceMetricKey.get_labels platform) in
  g1 ← build "ingress_packets"%string "Ingress packet count"%string;
  g2 ← build "ingress_bytes"%string "Ingress bytes count"%string;
  g3 ← build "egress_packets"%string "Egress packet count"%string;
  g4 ← build "egress_bytes"%string "Egress bytes count"%string;
  g5 ← build "ingress_flow"%string "Ingress TCP flow count"%string;
  g6 ← build "egress_flow"%string "Egress TCP flow count"%string;
  let provider := {|
    compute_platform := platform;
    instance_id := str (EniMetadataProvider.retrieve_instance_id imds_get);
    node_name := node_name_from env_var;
    iface_discovery := discovery;
    k8s_metadata := k8s;
    ingress_pkt_count := g1;
    ingress_bytes_count := g2;
    egress_pkt_count := g3;
    egress_bytes_count := g4;
    ingress_flow_count := g5;
    egress_flow_count := g6;
    current_metrics := ∅
  |} in
  Some (get_metrics h provider).2.

(** The gauges in the order they are registered. *)
Definition gauges (self : t) : list G :=
  [ingress_bytes_count self; ingress_pkt_count self; egress_bytes_count self; egress_pkt_count self;
   ingress_flow_count self; egress_flow_count self].

Definition register_to {R : Type} `{Registry R} (self : t) (registry : R) : option R :=
  foldM register registry (gauge_name <$> gauges self).

End provider.
Arguments t : clear implicits.
End InterfaceMetricsProvider.

(** ** system_metrics_provider.rs *)
Module SystemMetric.

(** The key, the identifier of the interface, and its values. *)
Record t := mk {
  eni : chars;
  bw_in_allowance_exceeded : Z;
  bw_out_allowance_exceeded : Z;
  pps_allowance_exceeded : Z;
  conntrack_allowance_exceeded : Z;
  linklocal_allowance_exceeded : Z;
}.

Definition label_values (self : t) (compute_platform : ComputePlatform) (node_name instance_id : string) :
    list string :=
  match compute_platform with
  | Ec2Plain => [instance_id; str (eni self)]
  | Ec2K8sEks | Ec2K8sVanilla => [instance_id; str (eni self); node_name]
  end.

Definition get_labels (compute_platform : ComputePlatform) : list string :=
  match compute_platform with
  | Ec2Plain => ["instance_id"; "eni"]
  | Ec2K8sEks | Ec2K8sVanilla => ["instance_id"; "eni"; "node"]
  end%string.

End SystemMetric.

Module SystemMetricsProvider.
Section provider.
Context {G : Type} `{GaugeVec G}.

Record t := mk {
  compute_platform : ComputePlatform;
  eni_metadata_provider : EniMetadataProvider.t;
  host_stats_provider : HostStatsProviderImpl.Table;
  node_name : string;
  bw_in_allowance_exceeded : G;
  bw_out_allowance_exceeded : G;
  pps_allowance_exceeded : G;
  conntrack_allowance_exceeded : G;
  linklocal_allowance_exceeded : G;
}.

#[global] Instance eta_t : Eta t := λ r,
  mk (compute_platform r) (eni_metadata_provider r) (host_stats_provider r) (node_name r)
    (bw_in_allowance_exceeded r) (bw_out_allowance_exceeded r) (pps_allowance_exceeded r)
    (conntrack_allowance_exceeded r) (linklocal_allowance_exceeded r).

Definition new (env_var : string → option string) (imds_get : chars → Result chars unit)
    (platform : ComputePlatform) : option t :=
  let build := build_gauge_metric (SystemMetric.get_labels platform) in
  g1 ← build "bw_in_allowance_exceeded" "The number of packets queued or dropped because the inbound aggregate bandwidth exceeded the maximum for the instance.";
  g2 ← build "bw_out_allowance_exceeded" "The number of packets queued or dropped because the outbound aggregate bandwidth exceeded the maximum for the instance.";
  g3 ← build "pps_allowance_exceeded" "The number of packets queued or dropped because the bidirectional PPS exceeded the maximum for the instance.";
  g4 ← build "conntrack_allowance_exceeded" "The number of packets dropped because connection tracking exceeded the maximum for the instance and new connections could not be established. This can result in packet loss for traffic to or from the instance.";
  g5 ← build "linklocal_allowance_exceeded" "The number of packets dropped because the PPS of the traffic to local proxy services exceeded the maximum for the network interface.";
  Some {|
    compute_platform := platform;
    eni_metadata_provider := EniMetadataProvider.new imds_get;
    host_stats_provider := HostStatsProviderImpl.new;
    node_name := node_name_from env_var;
    bw_in_allowance_exceeded := g1;
    bw_out_allowance_exceeded := g2;
    pps_allowance_exceeded := g3;
    conntrack_allowance_exceeded := g4;
    linklocal_allowance_exceeded := g5
  |}.

(** What the host answers during one update. *)
Record host := mk_host {
  ip_link : Result chars unit;
  is_virtual : chars → Result bool unit;
  ethtool : chars → Result chars unit;
  stats_order : HostStatsProviderImpl.Table → list (NetworkDevice.t * NetworkInterfaceStats.t);
}.

Definition get_metrics (h : host) (self : t) : option (list SystemMetric.t * t) :=
  let devices := HostStatsProviderImpl.set_network_devices (ethtool h) (host_stats_provider self)
    (EniMetadataProvider.get_network_devices (ip_link h) (is_virtual h) (eni_metadata_provider self)) in
  '(host_stats, devices) ← HostStatsProviderImpl.get_stats (ethtool h) (stats_order h) devices;
  let metrics := map (λ host_stat,
    let stats := GroupedInterfaceStats.stats host_stat in
    SystemMetric.mk (GroupedInterfaceStats.interface_id host_stat)
      (NetworkInterfaceStats.bw_in_allowance_exceeded stats)
      (NetworkInterfaceStats.bw_out_allowance_exceeded stats)
      (NetworkInterfaceStats.pps_allowance_exceeded stats)
      (NetworkInterfaceStats.conntrack_allowance_exceeded stats)
      (NetworkInterfaceStats.linklocal_allowance_exceeded stats)) (HostStats.interface_stats host_stats) in
  Some (metrics, self <| host_stats_provider := devices |>).

(** The five gauges of a network interface. *)
Definition set_gauges (self : t) (label_values : list string) (m : SystemMetric.t) : option t :=
  let set g n := gauge_set g label_values (NfmReportOTLP.as_i64 n) in
  g1 ← set (bw_in_allowance_exceeded self) (SystemMetric.bw_in_allowance_exceeded m);
  g2 ← set (bw_out_allowance_exceeded self) (SystemMetric.bw_out_allowance_exceeded m);
  g3 ← set (pps_allowance_exceeded self) (SystemMetric.pps_allowance_exceeded m);
  g4 ← set (conntrack_allowance_exceeded self) (SystemMetric.conntrack_allowance_exceeded m);
  g5 ← set (linklocal_allowance_exceeded self) (SystemMetric.linklocal_allowance_exceeded m);
  Some (self <| bw_in_allowance_exceeded := g1 |> <| bw_out_allowance_exceeded := g2 |>
             <| pps_allowance_exceeded := g3 |> <| conntrack_allowance_exceeded := g4 |>
             <| linklocal_allowance_exceeded := g5 |>).

(** The name of the node is passed for the instance identifier as well. *)
Definition update_metrics (h : host) (self : t) : option t :=
  '(metrics, self) ← get_metrics h self;
  foldM (λ self metric,
    set_gauges self
      (SystemMetric.label_values metric (compute_platform self) (node_name self) (node_name self)) metric)
    self metrics.

Definition gauges (self : t) : list G :=
  [bw_in_allowance_exceeded self; bw_out_allowance_exceeded self; pps_allowance_exceeded self;
   conntrack_allowance_exceeded self; linklocal_allowance_exceeded self].

Definition register_to {R : Type} `{Registry R} (self : t) (registry : R) : option R :=
  foldM register registry (gauge_name <$> gauges self).

End provider.
Arguments t : clear implicits.
End SystemMetricsProvider.
