(* ===== verification/MetricsServer.v ===== *)
(** * MetricsServer: serving the metrics

    Models nfm-controller/src/open_metrics/server.rs, provider.rs and the start of the server in
    lib.rs.  The providers update their gauges when "/metrics" is requested, and the registry, which
    shares the gauges, encodes them.  HTTP, threads and the cancellation token are outside: a
    connection is the list of the paths requested on it and whether it ended by itself, the accept
    loop is driven by what [select] yields, and the thread of a server is a number that is live
    until it ends.  [None] is a panic. *)

From stdpp Require Import base numbers gmap list strings relations.
From Stdlib Require Import Ascii.
From S2P Require Import Prelude Network ReportData Text Metadata HostStats HostInspection Kubernetes NetNamespaces.
From S2P Require Import OpenMetrics.
Import RuntimeEnvironmentMetadataProvider.
Open Scope Z_scope.

(** ** Requests *)
Module Metrics.
Section metrics.
Context {C : Type} `{InterfaceVirtualChecker C} {G : Type} `{GaugeVec G} {R : Type} `{Registry R}.
(** The text encoding of the gauges a registry gathers. *)
Context (encode : R → list G → string).

(** [MetricProviders]: the two providers, in the order they are updated. *)
Record providers := mk_providers {
  system : SystemMetricsProvider.t G;
  interface : InterfaceMetricsProvider.t C G;
}.

(** What the host answers during one request. *)
Record host := mk_host {
  system_host : SystemMetricsProvider.host;
  interface_host : InterfaceMetricsProvider.host;
}.

Definition get_open_metric_providers (h : host) (env_var : string → option string)
    (imds_get : chars → Result chars unit) (discovery : InterfaceDiscoveryImpl.t C)
    (compute_platform : ComputePlatform) (k8s_collector : bool) : option providers :=
  s ← SystemMetricsProvider.new env_var imds_get compute_platform;
  i ← InterfaceMetricsProvider.new (interface_host h) env_var imds_get discovery compute_platform k8s_collector;
  Some (mk_providers s i).

(** Initialize the metrics registry and providers. *)
Definition initialize_metrics_registry (h : host) (env_var : string → option string)
    (imds_get : chars → Result chars unit) (discovery : InterfaceDiscoveryImpl.t C) (k8s_collector : bool) :
    option (R * providers) :=
  let compute_platform := get_compute_platform env_var in
  ps ← get_open_metric_providers h env_var imds_get discovery compute_platform k8s_collector;
  registry ← SystemMetricsProvider.register_to (system ps) registry_new;
  registry ← InterfaceMetricsProvider.register_to (interface ps) registry;
  Some (registry, ps).

(** The gauges the registry shares with the providers. *)
Definition shared_gauges (ps : providers) : list G :=
  SystemMetricsProvider.gauges (system ps) ++ InterfaceMetricsProvider.gauges (interface ps).

Definition generate_metrics_text (h : host) (registry : R) (ps : providers) : option (string * providers) :=
  s ← SystemMetricsProvider.update_metrics (system_host h) (system ps);
  i ← InterfaceMetricsProvider.update_metrics (interface_host h) (interface ps);
  let ps := mk_providers s i in
  Some (encode registry (shared_gauges ps), ps).

Inductive StatusCode := OK | NOT_FOUND.

Record Response := mk_response { status : StatusCode; content_type : string; body : string }.

Definition root_body : string :=
  "Network Flow Monitor Agent Metrics Server" +:+ String LF (String LF ("Available endpoints:" +:+
    String LF ("- /metrics - Prometheus metrics" +:+ String LF EmptyString))).

(** Handle HTTP request and return appropriate response. *)
Definition handle_request (h : host) (path : string) (registry : R) (ps : providers) :
    option (Response * providers) :=
  if bool_decide (path = "/metrics"%string) then
    '(text, ps) ← generate_metrics_text h registry ps;
    Some (mk_response OK "text/plain" text, ps)
  else if bool_decide (path = "/"%string) then Some (mk_response OK "text/plain" root_body, ps)
  else Some (mk_response NOT_FOUND "text/plain" "Not Found", ps).

(** The requests of a connection, up to its end or its cancellation. *)
Fixpoint handle_connection (requests : list (host * string)) (registry : R) (ps : providers) :
    option (list Response * providers) :=
  match requests with
  | [] => Some ([], ps)
  | (h, path) :: requests =>
      '(response, ps) ← handle_request h path registry ps;
      '(responses, ps) ← handle_connection requests registry ps;
      Some (response :: responses, ps)
  end.

(** What [select] yields in the accept loop. *)
Inductive accepted :=
| Connection (requests : list (host * string))
| AcceptError
| Cancelled.

(** Accept and process connections, one at a time, until cancellation; the events left over have
    not been looked at. *)
Fixpoint accept_connections (events : list accepted) (registry : R) (ps : providers) :
    option (list Response * providers * list accepted) :=
  match events with
  | [] => Some ([], ps, [])
  | Cancelled :: events => Some ([], ps, events)
  | AcceptError :: events => accept_connections events registry ps
  | Connection requests :: events =>
      '(responses, ps) ← handle_connection requests registry ps;
      '(more, ps, events) ← accept_connections events registry ps;
      Some (responses ++ more, ps, events)
  end.

(** Run the HTTP server; without its port it ends at once. *)
Definition run_server (bound : bool) (h : host) (env_var : string → option string)
    (imds_get : chars → Result chars unit) (discovery : InterfaceDiscoveryImpl.t C) (k8s_collector : bool)
    (events : list accepted) : option (Result (list Response) unit) :=
  if bound then
    '(registry, ps) ← initialize_metrics_registry h env_var imds_get discovery k8s_collector;
    '(responses, _, _) ← accept_connections events registry ps;
    Some (Ok responses)
  else Some (Err tt).

End metrics.
End Metrics.

(** ** The server object *)
Module OpenMetricsServerConfig.

(** The socket address, and whether a collector is given. *)
Record t := mk { addr : IpAddr.t * Z; k8s_metadata : bool }.

Definition default : t := mk (IpAddr.V4 0x7f000001, 80) false.

(** An address that does not parse panics. *)
Definition from (addr : chars) (port : Z) (k8s_metadata : bool) : option t :=
  ip ← parse_ip addr; Some (mk (ip, port) k8s_metadata).

End OpenMetricsServerConfig.

Module OpenMetricsServer.

Inductive Error := AlreadyExists | NotFound.

(** A thread and the cancellation token it watches, by number. *)
Record Thread := mk_thread { thread_id : nat; token : nat }.

Record t := mk {
  handle : option Thread;
  cancel_token : nat;
  config : OpenMetricsServerConfig.t;
}.

#[global] Instance eta_t : Eta t := λ r, mk (handle r) (cancel_token r) (config r).

(** The threads that run, the tokens that were cancelled, and the numbers not used yet. *)
Record world := mk_world {
  live : gmap nat nat;
  cancelled : gset nat;
  next_thread : nat;
  next_token : nat;
}.

#[global] Instance eta_world : Eta world := λ r, mk_world (live r) (cancelled r) (next_thread r) (next_token r).

Definition with_config (w : world) (config : OpenMetricsServerConfig.t) : t * world :=
  (mk None (next_token w) config, w <| next_token ::= S |>).

Definition start (self : t) (w : world) : Result unit Error * t * world :=
  match handle self with
  | Some _ => (Err AlreadyExists, self, w)
  | None =>
      let thread := mk_thread (next_thread w) (cancel_token self) in
      (Ok tt, self <| handle := Some thread |>,
       w <| live ::= <[thread_id thread := token thread]> |> <| next_thread ::= S |>)
  end.

(** [join] waits for the end of the thread, which comes when its token is cancelled; [None] is a
    wait that never ends. *)
Definition join_thread (h : Thread) (w : world) : option world :=
  if bool_decide (live w !! thread_id h = None) then Some w
  else if bool_decide (token h ∈ cancelled w) then Some (w <| live ::= delete (thread_id h) |>)
  else None.

Definition stop (self : t) (w : world) : option (Result unit Error * t * world) :=
  match handle self with
  | None => Some (Err NotFound, self, w)
  | Some h =>
      let self := self <| handle := None |> in
      let w := w <| cancelled ::= λ c, {[cancel_token self]} ∪ c |> in
      w ← join_thread h w;
      (* Reset the cancellation token for potential restart *)
      Some (Ok tt, self <| cancel_token := next_token w |>, w <| next_token ::= S |>)
  end.

Definition is_running (self : t) (w : world) : bool :=
  match handle self with
  | Some h => bool_decide (is_Some (live w !! thread_id h))
  | None => false
  end.

Definition drop (self : t) (w : world) : option world :=
  if is_running self w then '(_, _, w) ← stop self w; Some w else Some w.

(** What can happen to a server: calls, and the end of its thread, as when the port is taken. *)
Inductive step : t * world → t * world → Prop :=
| step_start s w r s' w' : start s w = (r, s', w') → step (s, w) (s', w')
| step_stop s w r s' w' : stop s w = Some (r, s', w') → step (s, w) (s', w')
| step_thread_ends s w id : step (s, w) (s, w <| live ::= delete id |>).

End OpenMetricsServer.

(** [start_open_metrics_server] of lib.rs: a server that cannot start panics. *)
Definition start_open_metrics_server (open_metrics : bool) (open_metrics_address : chars)
    (open_metrics_port : Z) (k8s_collector : bool) (w : OpenMetricsServer.world) :
    option (option OpenMetricsServer.t * OpenMetricsServer.world) :=
  if open_metrics then
    config ← OpenMetricsServerConfig.from open_metrics_address open_metrics_port k8s_collector;
    let '(server, w) := OpenMetricsServer.with_config w config in
    match OpenMetricsServer.start server w with
    | (Ok _, server, w) => Some (Some server, w)
    | (Err _, _, _) => None
    end
  else Some (None, w).
