(* ===== verification/OpenMetricsFacts.v ===== *)
(** * OpenMetricsFacts: lemmas on the providers and the server of metrics

    The deltas of interfaces, the interfaces that are eligible, what an update does to the gauges,
    requests, the cache of virtual interfaces, and the invariant of the server object. *)

From stdpp Require Import base numbers gmap list strings relations.
From Stdlib Require Import Ascii Sorted.
From S2P Require Import Prelude Network ReportData Text Metadata HostStats HostStatsProperties Report.
From S2P Require Import HostInspection Kubernetes NetNamespaces OpenMetrics MetricsServer.
Import RuntimeEnvironmentMetadataProvider.
Open Scope Z_scope.

(** ** The deltas of interfaces *)
Module DeltaFacts.
Import InterfaceMetricsProvider.

(** The six counters of an interface. *)
Definition counters : list (InterfaceMetricValues.t → Z) :=
  [λ v, HostInterfaceMetricValues.ingress_pkt_count (InterfaceMetricValues.host v);
   λ v, HostInterfaceMetricValues.ingress_bytes_count (InterfaceMetricValues.host v);
   λ v, HostInterfaceMetricValues.egress_pkt_count (InterfaceMetricValues.host v);
   λ v, HostInterfaceMetricValues.egress_bytes_count (InterfaceMetricValues.host v);
   λ v, NetNsInterfaceMetricValues.ingress_flow_count (InterfaceMetricValues.netns v);
   λ v, NetNsInterfaceMetricValues.egress_flow_count (InterfaceMetricValues.netns v)].

Lemma counter_delta f v w :
  f ∈ counters → f (InterfaceMetricValues.calculate_delta v w) = saturating_sub (f v) (f w).
Proof. unfold counters. rewrite !elem_of_cons, elem_of_nil. naive_solver. Qed.

Lemma last_nonempty {A} (a : A) l d d' : List.last (a :: l) d = List.last (a :: l) d'.
Proof. revert a. induction l as [|b l IH]; intros a; [done|]. exact (IH b). Qed.

Section deltas.
Context {C : Type} `{InterfaceVirtualChecker C} {G : Type} `{GaugeVec G}.
Implicit Types (self : t C G) (h : host).

(** What a round reports is the difference of the totals it keeps to those kept before. *)
Lemma get_metrics_delta h self k :
  (get_metrics h self).1 !! k =
  (λ v, InterfaceMetricValues.calculate_delta v
     (from_option id InterfaceMetricValues.default (current_metrics self !! k))) <$>
  current_metrics (get_metrics h self).2 !! k.
Proof.
  unfold get_metrics. destruct (environment_info h self) as [ns pods]. cbv zeta.
  destruct (InterfaceDiscoveryImpl.get_virtual_interface_stats _ _ _) as [stats discovery].
  set (ns_map := match compute_platform self with Ec2Plain => ∅ | _ => _ end). clearbody ns_map.
  set (entries := stats_order h _). clearbody entries.
  set (delta k v := InterfaceMetricValues.calculate_delta v
    (from_option id InterfaceMetricValues.default (current_metrics self !! k))).
  assert (∀ p, (∀ k, p.2 !! k = delta k <$> p.1 !! k) →
    ∀ k, (foldl (account h self ns pods ns_map) p entries).2 !! k =
         delta k <$> (foldl (account h self ns pods ns_map) p entries).1 !! k) as Hfold.
  { induction entries as [|entry entries IH]; intros [n r] Hr; [done|]. cbn [foldl]. apply IH. cbn in *.
    destruct (measure h self ns pods ns_map entry) as [[key v]|]; [|done].
    intros k'. destruct (decide (k' = key)) as [->|]; by simplify_map_eq. }
  specialize (Hfold (∅, ∅)). destruct (foldl _ _ _) as [n r]. apply Hfold. intros. cbn. by rewrite !lookup_empty.
Qed.

(** Several rounds: what each reports, and the totals each keeps. *)
Fixpoint rounds (hs : list host) self :
    list (gmap InterfaceMetricKey.t InterfaceMetricValues.t * gmap InterfaceMetricKey.t InterfaceMetricValues.t) :=
  match hs with
  | [] => []
  | h :: hs => let '(reported, self) := get_metrics h self in (reported, current_metrics self) :: rounds hs self
  end.

(** The sum of a counter over what the rounds report for a key. *)
Definition reported_sum (f : InterfaceMetricValues.t → Z) (k : InterfaceMetricKey.t) (hs : list host) self : Z :=
  Zsum ((λ r, from_option f 0 (r.1 !! k)) <$> rounds hs self).

Lemma rounds_telescope f k hs self v0 vs :
  f ∈ counters → current_metrics self !! k = Some v0 →
  (λ r, r.2 !! k) <$> rounds hs self = Some <$> vs →
  Sorted Z.le (f <$> v0 :: vs) →
  reported_sum f k hs self = f (List.last vs v0) - f v0.
Proof.
  intros Hf. unfold reported_sum. revert self v0 vs.
  induction hs as [|h hs IH]; intros self v0 vs Hcur Hvs Hs.
  { destruct vs; [simpl; lia|done]. }
  cbn [rounds] in *. pose proof (get_metrics_delta h self k) as Hd.
  destruct (get_metrics h self) as [reported self'] eqn:E. cbn in Hd, Hvs |- *.
  destruct vs as [|v vs]; [done|]. injection Hvs as Hv Hvs. rewrite Hv, Hcur in Hd. cbn in Hd. rewrite Hd.
  cbn [from_option id]. rewrite counter_delta by done. cbn in Hs.
  assert (f v0 ≤ f v) by (by inversion Hs as [|??? Hh]; inversion Hh).
  pose proof (IH self' v vs Hv Hvs ltac:(by inversion Hs)) as Htl. unfold Zsum, saturating_sub in *. cbn in Htl |- *.
  rewrite Htl. destruct vs as [|w vs]; [cbn; lia|]. rewrite (last_nonempty w vs v0 v). lia.
Qed.

End deltas.
End DeltaFacts.

(** ** Which interfaces are reported *)
Module DiscoveryFacts.
Import InterfaceDiscoveryImpl.

Section discovery.
Context {C : Type} `{InterfaceVirtualChecker C}.

(** A listed device that is virtual, up and not the loopback. *)
Definition eligible (devices : list (chars * DeviceStatus.t)) (flags : gmap chars InterfaceFlags.t)
    (i : HostInterface.t) : Prop :=
  HostInterface.is_virtual i = true ∧ HostInterface.name i ∈ devices.*1 ∧
  ∃ f, flags !! HostInterface.name i = Some f ∧ InterfaceFlags.UP f = true ∧ InterfaceFlags.LOOPBACK f = false.

Lemma should_include_spec i flags :
  should_include_interface i flags = true →
  HostInterface.is_virtual i = true ∧
  ∃ f, flags !! HostInterface.name i = Some f ∧ InterfaceFlags.UP f = true ∧ InterfaceFlags.LOOPBACK f = false.
Proof.
  unfold should_include_interface. destruct (flags !! _) as [f|] eqn:E; [|done].
  destruct (InterfaceFlags.LOOPBACK f) eqn:?, (InterfaceFlags.UP f) eqn:?; naive_solver.
Qed.

Lemma visit_eligible devices flags entries self m :
  (∀ e, e ∈ entries → e.1 ∈ devices.*1) →
  map_Forall (λ i _, eligible devices flags i) m →
  map_Forall (λ i _, eligible devices flags i) (foldl (visit flags) (self, m) entries).2.
Proof.
  revert self m. induction entries as [|[name status] entries IH]; intros self m Hin Hm; [done|].
  cbn [foldl]. unfold visit at 2. destruct (is_virtual (virtual_checker self) name) as [[v|] checker];
    [|apply IH; set_solver].
  destruct (should_include_interface _ _) eqn:E; [|apply IH; set_solver].
  apply IH; [set_solver|]. apply map_Forall_insert_2; [|done].
  apply should_include_spec in E as [? ?]. split_and!; [done| |done]. apply (Hin (name, status)). set_solver.
Qed.

Lemma stats_eligible devs addrs self m :
  (get_virtual_interface_stats devs addrs self).1 = Ok m →
  ∃ devices flags, devs = Ok devices ∧ get_interface_flags addrs = Ok flags ∧
    map_Forall (λ i _, eligible devices flags i) m.
Proof.
  unfold get_virtual_interface_stats. destruct devs as [devices|]; [|done].
  destruct (get_interface_flags addrs) as [flags|] eqn:Ef; [|done].
  pose proof (visit_eligible devices flags devices self ∅) as Hv.
  destruct (foldl _ _ _) as [self' m']. cbn. intros [= <-]. exists devices, flags. split_and!; [done..|].
  apply Hv; [|apply map_Forall_empty]. intros e ?. by apply list_elem_of_fmap_2.
Qed.

End discovery.
End DiscoveryFacts.

(** ** Setting the gauges *)
Module GaugeFacts.

Lemma find_app {A} (f : A → bool) l1 l2 :
  List.find f (l1 ++ l2) = match List.find f l1 with Some x => Some x | None => List.find f l2 end.
Proof. induction l1 as [|x l1 IH]; [done|]. cbn. by destruct (f x). Qed.

Lemma find_ext {A} (f g : A → bool) l : (∀ x, f x = g x) → List.find f l = List.find g l.
Proof. intros Hfg. induction l as [|x l IH]; [done|]. cbn. by rewrite Hfg, IH. Qed.

Section gauges.
Context {G : Type} `{GaugeVecLaws G}.

(** A gauge vector whose value at [values] was set to [n]. *)
Definition updated (values : list string) (n : Z) (g g' : G) : Prop :=
  gauge_labels g' = gauge_labels g ∧ gauge_name g' = gauge_name g ∧ gauge_value g' values = Some n ∧
  ∀ values', values' ≠ values → gauge_value g' values' = gauge_value g values'.

Definition labelled (labels : list string) (gs : list G) : Prop := Forall (λ g, gauge_labels g = labels) gs.

Lemma gauge_set_updated labels g values n :
  gauge_labels g = labels → length values = length labels → ∃ g', gauge_set g values n = Some g' ∧ updated values n g g'.
Proof.
  intros <- Hlen. destruct (gauge_set_ok g values n Hlen) as (g' & ? & ? & ? & ? & ?). exists g'. done.
Qed.

Lemma updated_labelled labels values ns gs gs' :
  Forall3 (updated values) ns gs gs' → labelled labels gs → labelled labels gs'.
Proof.
  intros HF. unfold labelled. induction HF as [|n g g' ns gs gs' Hu HF IH]; [done|].
  rewrite !Forall_cons. intros [<- ?]. split; [by destruct Hu|by apply IH].
Qed.

Lemma updated_names values ns gs gs' : Forall3 (updated values) ns gs gs' → gauge_name <$> gs' = gauge_name <$> gs.
Proof. induction 1 as [|n g g' ns gs gs' Hu HF IH]; [done|]. cbn. rewrite IH. by destruct Hu as (_ & -> & _). Qed.

Lemma updated_values_at values ns gs gs' :
  Forall3 (updated values) ns gs gs' → (λ g, gauge_value g values) <$> gs' = Some <$> ns.
Proof. induction 1 as [|n g g' ns gs gs' Hu HF IH]; [done|]. cbn. rewrite IH. by destruct Hu as (_ & _ & -> & _). Qed.

Lemma updated_values_other values values' ns gs gs' :
  Forall3 (updated values) ns gs gs' → values ≠ values' →
  (λ g, gauge_value g values') <$> gs' = (λ g, gauge_value g values') <$> gs.
Proof.
  intros HF Hne. induction HF as [|n g g' ns gs gs' Hu HF IH]; [done|]. cbn. rewrite IH.
  destruct Hu as (_ & _ & _ & ->); done.
Qed.

(** What one metric of the system sets. *)
Definition system_values (m : SystemMetric.t) : list Z := NfmReportOTLP.as_i64 <$>
  [SystemMetric.bw_in_allowance_exceeded m; SystemMetric.bw_out_allowance_exceeded m;
   SystemMetric.pps_allowance_exceeded m; SystemMetric.conntrack_allowance_exceeded m;
   SystemMetric.linklocal_allowance_exceeded m].

Lemma system_set_gauges labels (self : SystemMetricsProvider.t G) values m :
  labelled labels (SystemMetricsProvider.gauges self) → length values = length labels →
  ∃ self', SystemMetricsProvider.set_gauges self values m = Some self' ∧
    SystemMetricsProvider.compute_platform self' = SystemMetricsProvider.compute_platform self ∧
    SystemMetricsProvider.node_name self' = SystemMetricsProvider.node_name self ∧
    Forall3 (updated values) (system_values m) (SystemMetricsProvider.gauges self) (SystemMetricsProvider.gauges self').
Proof.
  unfold labelled, SystemMetricsProvider.gauges. rewrite !Forall_cons, Forall_nil. intros Hl Hlen. destruct_and!.
  unfold SystemMetricsProvider.set_gauges, system_values.
  repeat (edestruct gauge_set_updated as (? & -> & ?); [eassumption|exact Hlen|]; cbn [mbind option_bind]).
  eexists. split_and!; [done..|]. cbn. repeat (apply Forall3_cons; [done|]). apply Forall3_nil.
Qed.

(** What the values of one interface set. *)
Definition interface_values (v : InterfaceMetricValues.t) : list Z := NfmReportOTLP.as_i64 <$>
  [HostInterfaceMetricValues.ingress_bytes_count (InterfaceMetricValues.host v);
   HostInterfaceMetricValues.ingress_pkt_count (InterfaceMetricValues.host v);
   HostInterfaceMetricValues.egress_bytes_count (InterfaceMetricValues.host v);
   HostInterfaceMetricValues.egress_pkt_count (InterfaceMetricValues.host v);
   NetNsInterfaceMetricValues.ingress_flow_count (InterfaceMetricValues.netns v);
   NetNsInterfaceMetricValues.egress_flow_count (InterfaceMetricValues.netns v)].

Lemma interface_set_gauges {C} `{InterfaceVirtualChecker C} labels (self : InterfaceMetricsProvider.t C G) values v :
  labelled labels (InterfaceMetricsProvider.gauges self) → length values = length labels →
  ∃ self', InterfaceMetricsProvider.set_gauges self values v = Some self' ∧
    InterfaceMetricsProvider.compute_platform self' = InterfaceMetricsProvider.compute_platform self ∧
    InterfaceMetricsProvider.node_name self' = InterfaceMetricsProvider.node_name self ∧
    InterfaceMetricsProvider.instance_id self' = InterfaceMetricsProvider.instance_id self ∧
    Forall3 (updated values) (interface_values v) (InterfaceMetricsProvider.gauges self)
      (InterfaceMetricsProvider.gauges self').
Proof.
  unfold labelled, InterfaceMetricsProvider.gauges. rewrite !Forall_cons, Forall_nil. intros Hl Hlen. destruct_and!.
  unfold InterfaceMetricsProvider.set_gauges, interface_values.
  repeat (edestruct gauge_set_updated as (? & -> & ?); [eassumption|exact Hlen|]; cbn [mbind option_bind]).
  eexists. split_and!; [done..|]. cbn. repeat (apply Forall3_cons; [done|]). apply Forall3_nil.
Qed.

End gauges.
End GaugeFacts.

(** ** Updating the gauges *)
Module UpdateFacts.
Import GaugeFacts.

Section updates.
Context {G : Type} `{GaugeVecLaws G}.

Section system.
Import SystemMetricsProvider.

Definition system_labels (self : t G) (m : SystemMetric.t) : list string :=
  SystemMetric.label_values m (compute_platform self) (node_name self) (node_name self).

Definition system_wf (self : t G) : Prop :=
  labelled (SystemMetric.get_labels (compute_platform self)) (gauges self).

(** Setting the gauges of several metrics. *)
Lemma system_set_all (self : t G) metrics :
  system_wf self →
  ∃ self', foldM (λ self metric, set_gauges self (system_labels self metric) metric) self metrics = Some self' ∧
    system_wf self' ∧ gauge_name <$> gauges self' = gauge_name <$> gauges self ∧
    ∀ values, (λ g, gauge_value g values) <$> gauges self' =
      match List.find (λ m, bool_decide (system_labels self m = values)) (rev metrics) with
      | Some m => Some <$> system_values m
      | None => (λ g, gauge_value g values) <$> gauges self
      end.
Proof.
  revert self. induction metrics as [|m metrics IH]; intros self Hwf; [by exists self|]. cbn [foldM].
  assert (length (system_labels self m) = length (SystemMetric.get_labels (compute_platform self))) as Hlen
    by (unfold system_labels; by destruct (compute_platform self)).
  destruct (system_set_gauges _ self _ m Hwf Hlen) as (self1 & -> & Hp & Hn & HF). cbn [mbind option_bind].
  assert (system_wf self1) as Hwf1 by (unfold system_wf; rewrite Hp; by eapply updated_labelled).
  destruct (IH self1 Hwf1) as (self' & Hfold & ? & Hnames & Hval). exists self'. split_and!; [done..| |].
  { rewrite Hnames. by eapply updated_names. }
  intros values. rewrite Hval. cbn [rev]. rewrite find_app.
  assert (∀ m, system_labels self1 m = system_labels self m) as Hsl by (intros; unfold system_labels; by rewrite Hp, Hn).
  rewrite (find_ext _ (λ m, bool_decide (system_labels self m = values))) by (intros; by rewrite Hsl). destruct (List.find _ (rev metrics)); [done|].
  cbn [List.find]. case_bool_decide as E.
  - subst values. by eapply updated_values_at.
  - by eapply updated_values_other.
Qed.

Lemma system_update (h : host) (self : t G) :
  system_wf self →
  ∃ metrics self1 self', get_metrics h self = Some (metrics, self1) ∧ update_metrics h self = Some self' ∧
    system_wf self' ∧ gauge_name <$> gauges self' = gauge_name <$> gauges self ∧
    ∀ values, (λ g, gauge_value g values) <$> gauges self' =
      match List.find (λ m, bool_decide (system_labels self m = values)) (rev metrics) with
      | Some m => Some <$> system_values m
      | None => (λ g, gauge_value g values) <$> gauges self
      end.
Proof.
  intros Hwf. unfold update_metrics. destruct (get_metrics h self) as [[metrics self1]|] eqn:E.
  2:{ unfold get_metrics in E. by destruct (HostStatsFacts.get_stats_spec (ethtool h) (stats_order h)
        (HostStatsProviderImpl.set_network_devices (ethtool h) (host_stats_provider self)
          (EniMetadataProvider.get_network_devices (ip_link h) (is_virtual h) (eni_metadata_provider self))))
        as (d & Hd & _); rewrite Hd in E. }
  assert (compute_platform self1 = compute_platform self ∧ node_name self1 = node_name self ∧ gauges self1 = gauges self)
    as (Hp & Hn & Hg).
  { unfold get_metrics in E. destruct (HostStatsProviderImpl.get_stats _ _ _) as [[? ?]|]; [|done]. by injection E as <- <-. }
  destruct (system_set_all self1 metrics) as (self' & Hfold & ? & Hnames & Hval);
    [unfold system_wf; by rewrite Hp, Hg|].
  exists metrics, self1, self'. rewrite <- Hg. split_and!; [done..|].
  intros values. rewrite Hval. unfold system_labels. by rewrite Hp, Hn.
Qed.

End system.

Section interface.
Import InterfaceMetricsProvider.
Context {C : Type} `{InterfaceVirtualChecker C}.

Definition interface_wf (self : t C G) : Prop :=
  labelled (InterfaceMetricKey.get_labels (compute_platform self)) (gauges self).

Lemma interface_update (h : host) (self : t C G) :
  interface_wf self →
  ∃ self', update_metrics h self = Some self' ∧ interface_wf self' ∧
    gauge_name <$> gauges self' = gauge_name <$> gauges self.
Proof.
  intros Hwf. unfold update_metrics. destruct (get_metrics h self) as [metrics self1] eqn:E.
  assert (compute_platform self1 = compute_platform self ∧ gauges self1 = gauges self) as (Hp & Hg).
  { unfold get_metrics in E. destruct (environment_info h self). cbv zeta in E.
    destruct (InterfaceDiscoveryImpl.get_virtual_interface_stats _ _ _), (foldl _ _ _). by injection E as <- <-. }
  rewrite <- Hg. assert (interface_wf self1) as Hwf1 by (unfold interface_wf; by rewrite Hp, Hg).
  clear E Hp Hg Hwf. generalize dependent self1.
  induction (metrics_order h metrics) as [|[key v] l IH]; intros self1 Hwf; [by exists self1|]. cbn [foldM].
  destruct (interface_set_gauges _ self1 (InterfaceMetricKey.label_values key (compute_platform self1)
    (node_name self1) (instance_id self1)) v Hwf) as (self2 & -> & Hp & Hn & Hi & HF); [by destruct (compute_platform self1)|].
  cbn [mbind option_bind]. destruct (IH self2) as (self' & ? & ? & Hnames).
  { unfold interface_wf. rewrite Hp. by eapply updated_labelled. }
  exists self'. split_and!; [done..|]. rewrite Hnames. by eapply updated_names.
Qed.

End interface.
End updates.
End UpdateFacts.

(** ** The server *)
Module ServerFacts.
Import GaugeFacts UpdateFacts Metrics.

Section server.
Context {C : Type} `{InterfaceVirtualChecker C} {G : Type} `{GaugeVecLaws G} {R : Type} `{RegistryLaws R}.
Context (encode : R → list G → string).

Definition providers_wf (ps : @providers C G) : Prop := system_wf (system ps) ∧ interface_wf (interface ps).

Lemma build_labelled labels name help :
  is_descriptor name help labels = true →
  ∃ g : G, build_gauge_metric labels name help = Some g ∧ gauge_labels g = labels ∧ gauge_name g = name.
Proof. intros (g & ? & ? & ? & _)%gauge_new_ok. by exists g. Qed.

Ltac build_gauges platform :=
  repeat (match goal with |- context [build_gauge_metric ?l ?n ?h] =>
    let g := fresh "g" in
    destruct (build_labelled l n h) as (g & -> & ? & ?); [by destruct platform; vm_compute|]
  end; cbn [mbind option_bind]).

Lemma system_new env_var imds_get platform :
  ∃ self : SystemMetricsProvider.t G, SystemMetricsProvider.new env_var imds_get platform = Some self ∧ system_wf self ∧
    gauge_name <$> SystemMetricsProvider.gauges self =
      ["bw_in_allowance_exceeded"; "bw_out_allowance_exceeded"; "pps_allowance_exceeded";
       "conntrack_allowance_exceeded"; "linklocal_allowance_exceeded"]%string.
Proof.
  unfold SystemMetricsProvider.new. build_gauges platform. eexists. split; [done|]. split.
  - unfold system_wf, labelled, SystemMetricsProvider.gauges. cbn. rewrite !Forall_cons, Forall_nil. done.
  - cbn. congruence.
Qed.

Lemma interface_new h env_var imds_get discovery platform k8s :
  ∃ self : InterfaceMetricsProvider.t C G,
    InterfaceMetricsProvider.new h env_var imds_get discovery platform k8s = Some self ∧ interface_wf self ∧
    gauge_name <$> InterfaceMetricsProvider.gauges self =
      ["ingress_bytes"; "ingress_packets"; "egress_bytes"; "egress_packets"; "ingress_flow"; "egress_flow"]%string.
Proof.
  unfold InterfaceMetricsProvider.new. build_gauges platform. eexists. split; [done|].
  unfold InterfaceMetricsProvider.get_metrics.
  destruct (InterfaceMetricsProvider.environment_info _ _). cbv zeta.
  destruct (InterfaceDiscoveryImpl.get_virtual_interface_stats _ _ _), (foldl _ _ _). split.
  - unfold interface_wf, labelled, InterfaceMetricsProvider.gauges. cbn. rewrite !Forall_cons, Forall_nil. done.
  - cbn. congruence.
Qed.

(** Registering new names succeeds. *)
Lemma register_all (r : R) names :
  NoDup (registered r ++ names) →
  ∃ r', foldM register r names = Some r' ∧ registered r' = registered r ++ names.
Proof.
  revert r. induction names as [|name names IH]; intros r Hnd; [exists r; by rewrite app_nil_r|]. cbn [foldM].
  destruct (register_ok r name) as (r1 & -> & Hr1).
  { apply NoDup_app in Hnd as (_ & Hd & _). intros Hin. apply (Hd _ Hin). by left. }
  cbn [mbind option_bind]. destruct (IH r1) as (r' & ? & Hr').
  { by rewrite Hr1, <- (assoc_L (++)). }
  exists r'. split; [done|]. by rewrite Hr', Hr1, <- (assoc_L (++)).
Qed.

Lemma initialize_ok h env_var imds_get discovery k8s :
  ∃ (r : R) ps, initialize_metrics_registry h env_var imds_get discovery k8s = Some (r, ps) ∧ providers_wf ps ∧
    registered r = gauge_name <$> shared_gauges ps.
Proof.
  unfold initialize_metrics_registry, get_open_metric_providers. cbv zeta.
  destruct (system_new env_var imds_get (get_compute_platform env_var)) as (s & -> & ? & Hs). cbn [mbind option_bind].
  destruct (interface_new (interface_host h) env_var imds_get discovery (get_compute_platform env_var) k8s)
    as (i & -> & ? & Hi). cbn [mbind option_bind system interface].
  unfold SystemMetricsProvider.register_to, InterfaceMetricsProvider.register_to, shared_gauges.
  destruct (register_all registry_new (gauge_name <$> SystemMetricsProvider.gauges s)) as (r1 & -> & Hr1).
  { rewrite registry_new_empty, Hs. apply (bool_decide_unpack _). by vm_compute. }
  cbn [mbind option_bind].
  destruct (register_all r1 (gauge_name <$> InterfaceMetricsProvider.gauges i)) as (r2 & -> & Hr2).
  { rewrite Hr1, registry_new_empty, Hs, Hi. apply (bool_decide_unpack _). by vm_compute. }
  exists r2, (mk_providers s i). split_and!; [done..|]. cbn [system interface].
  by rewrite Hr2, Hr1, registry_new_empty, fmap_app.
Qed.

(** The status a path is answered with. *)
Definition status_of (path : string) : StatusCode :=
  if bool_decide (path = "/metrics"%string ∨ path = "/"%string) then OK else NOT_FOUND.

Lemma handle_request_ok h path (r : R) ps :
  providers_wf ps →
  ∃ response ps', handle_request encode h path r ps = Some (response, ps') ∧ providers_wf ps' ∧
    status response = status_of path ∧ gauge_name <$> shared_gauges ps' = gauge_name <$> shared_gauges ps.
Proof.
  intros [Hs Hi]. unfold handle_request, status_of. case_bool_decide as E1.
  - unfold generate_metrics_text.
    destruct (system_update (system_host h) (system ps) Hs) as (_ & _ & s & _ & -> & ? & Hsn & _). cbn [mbind option_bind].
    destruct (interface_update (interface_host h) (interface ps) Hi) as (i & -> & ? & Hin). cbn [mbind option_bind].
    eexists _, _. split_and!; [done..| |]; [by rewrite bool_decide_eq_true_2 by tauto|].
    unfold shared_gauges. cbn [system interface]. by rewrite !fmap_app, Hsn, Hin.
  - case_bool_decide; eexists _, _; (split_and!; [done..| |done]).
    + by rewrite bool_decide_eq_true_2 by tauto.
    + by rewrite bool_decide_eq_false_2 by tauto.
Qed.

Lemma handle_connection_ok requests (r : R) ps :
  providers_wf ps →
  ∃ responses ps', handle_connection encode requests r ps = Some (responses, ps') ∧ providers_wf ps' ∧
    status <$> responses = status_of ∘ snd <$> requests.
Proof.
  revert ps. induction requests as [|[h path] requests IH]; intros ps Hwf; [by exists [], ps|]. cbn [handle_connection].
  destruct (handle_request_ok h path r ps Hwf) as (response & ps1 & -> & Hwf1 & Hst & _). cbn [mbind option_bind].
  destruct (IH ps1 Hwf1) as (responses & ps2 & -> & ? & Hsts). cbn [mbind option_bind].
  eexists _, _. split_and!; [done..|]. cbn. by rewrite Hst, Hsts.
Qed.

(** The requests of the connections accepted before the cancellation. *)
Fixpoint served (events : list (@accepted)) : list (host * string) :=
  match events with
  | [] | Cancelled :: _ => []
  | AcceptError :: events => served events
  | Connection requests :: events => requests ++ served events
  end.

Lemma accept_connections_ok events (r : R) ps :
  providers_wf ps →
  ∃ responses ps' rest, accept_connections encode events r ps = Some (responses, ps', rest) ∧
    status <$> responses = status_of ∘ snd <$> served events.
Proof.
  revert ps. induction events as [|[requests| |] events IH]; intros ps Hwf; cbn [accept_connections served].
  - by exists [], ps, [].
  - destruct (handle_connection_ok requests r ps Hwf) as (responses & ps1 & -> & Hwf1 & Hst). cbn [mbind option_bind].
    destruct (IH ps1 Hwf1) as (more & ps2 & rest & -> & Hmore). cbn [mbind option_bind].
    eexists _, _, _. split; [done|]. by rewrite !fmap_app, Hst, Hmore.
  - by apply IH.
  - by exists [], ps, events.
Qed.

End server.
End ServerFacts.

(** ** The cache of virtual interfaces *)
Module CheckerFacts.
Import CachedInterfaceVirtualChecker.

Section checker.
Context {L : Type} `{LruCacheLaws L}.

(** A sequence of questions, each with the file system at its time. *)
Fixpoint ask (self : t L) (questions : list ((chars → bool) * chars)) : list (Result bool unit) :=
  match questions with
  | [] => []
  | (path_exists, iface) :: questions =>
      let '(answer, self) := is_virtual_cached path_exists self iface in answer :: ask self questions
  end.

(** The answers remembered come from questions asked before. *)
Definition remembers (self : t L) (asked : list ((chars → bool) * chars)) : Prop :=
  ∀ iface v, lru_entries (cache self) !! iface = Some v →
    ∃ fs, (fs, iface) ∈ asked ∧ check_virtual_iface fs iface = Ok v.

Lemma remembers_step self asked fs iface :
  remembers self asked →
  let '(answer, self') := is_virtual_cached fs self iface in
  remembers self' (asked ++ [(fs, iface)]) ∧
  ∃ fs', (fs', iface) ∈ asked ++ [(fs, iface)] ∧ answer = check_virtual_iface fs' iface.
Proof.
  intros Hr. unfold is_virtual_cached. pose proof (lru_get_value (cache self) iface) as Hv.
  pose proof (lru_get_entries (cache self) iface) as He.
  destruct (lru_get (cache self) iface) as [[v|] c]; cbn in Hv, He |- *.
  - split.
    + intros i v' Hi. cbn in Hi. rewrite He in Hi. destruct (Hr _ _ Hi) as (fs' & ? & ?). exists fs'. set_solver.
    + destruct (Hr iface v (eq_sym Hv)) as (fs' & ? & ?). exists fs'. split; [set_solver|done].
  - split.
    + intros i v' Hi. cbn in Hi. destruct (decide (i = iface)) as [->|Hne].
      * rewrite lru_put_value in Hi. injection Hi as <-. exists fs. split; [set_solver|done].
      * apply lru_put_other in Hi; [|done]. rewrite He in Hi. destruct (Hr _ _ Hi) as (fs' & ? & ?). exists fs'. set_solver.
    + exists fs. split; [set_solver|done].
Qed.

Lemma ask_sound self asked questions i fs iface :
  remembers self asked → questions !! i = Some (fs, iface) →
  ∃ fs', (fs', iface) ∈ asked ++ take (S i) questions ∧
    ask self questions !! i = Some (check_virtual_iface fs' iface).
Proof.
  revert self asked i. induction questions as [|[fs0 iface0] questions IH]; intros self asked i Hr Hi; [done|].
  cbn [ask]. pose proof (remembers_step self asked fs0 iface0 Hr) as Hstep.
  destruct (is_virtual_cached fs0 self iface0) as [answer self']. destruct Hstep as [Hr' (fs' & Hin & ->)].
  destruct i as [|i]; cbn in Hi |- *.
  - injection Hi as -> ->. exists fs'. split; [|done]. by rewrite take_0.
  - destruct (IH self' _ i Hr' Hi) as (fs'' & Hin' & Hans). exists fs''. split; [|exact Hans].
    by rewrite <- (assoc_L (++)) in Hin'.
Qed.

End checker.
End CheckerFacts.

(** ** The life of the server *)
Module LifecycleFacts.
Import OpenMetricsServer.

(** A world before any server: nothing runs, and only tokens that exist were cancelled. *)
Definition fresh (w : world) : Prop := live w = ∅ ∧ ∀ k, k ∈ cancelled w → (k < next_token w)%nat.

(** The only thread that can run is the one of the handle, and it watches the current token, which
    was not cancelled. *)
Definition server_inv (p : t * world) : Prop :=
  let '(s, w) := p in
  (∀ id k, live w !! id = Some k → ∃ th, handle s = Some th ∧ thread_id th = id) ∧
  (∀ th, handle s = Some th → token th = cancel_token s) ∧
  (∀ k, k ∈ cancelled w → (k < next_token w)%nat) ∧
  cancel_token s ∉ cancelled w ∧ (cancel_token s < next_token w)%nat.

Lemma with_config_inv w config : fresh w → server_inv (with_config w config).
Proof.
  intros [Hl Hc]. unfold with_config. cbn. rewrite Hl. split_and!.
  - intros id k. by rewrite lookup_empty.
  - done.
  - intros k Hk%Hc. lia.
  - intros Hk%Hc. lia.
  - lia.
Qed.

(** Stopping never waits for ever, and leaves no thread. *)
Lemma stop_ok s w :
  server_inv (s, w) →
  ∃ r s' w', stop s w = Some (r, s', w') ∧ server_inv (s', w') ∧ live w' = ∅ ∧ handle s' = None ∧
    r = (if handle s then Ok tt else Err NotFound).
Proof.
  intros (Hlive & Htok & Hc & Hcur & Hlt). unfold stop, join_thread.
  assert (∀ m : gmap nat nat, (∀ id k, m !! id = Some k → False) → m = ∅) as Hempty.
  { intros m Hm. apply map_empty. intros id. destruct (m !! id) eqn:E; [by apply Hm in E|done]. }
  destruct (handle s) as [h|] eqn:Eh.
  2:{ eexists _, _, _. split; [done|]. split; [by split_and!; [rewrite Eh|..]; rewrite ?Eh|]. split; [|done].
      apply Hempty. intros id k Hid. by destruct (Hlive id k Hid) as (? & ? & ?). }
  assert (token h = cancel_token s) as Ht by (by apply Htok).
  assert (∀ m : gmap nat nat, m = live w → delete (thread_id h) m = ∅) as Hdel.
  { intros m ->. apply Hempty. intros id k [Hne Hid]%lookup_delete_Some.
    destruct (Hlive id k Hid) as (? & [= <-] & ?). done. }
  cbn. case_bool_decide as El; cbn.
  - eexists _, _, _. split; [done|]. cbn. split_and!; try done.
    + intros id k Hid. destruct (Hlive id k Hid) as (? & [= <-] & <-). congruence.
    + intros k [->%elem_of_singleton|Hk%Hc]%elem_of_union; lia.
    + intros [Hk%elem_of_singleton|Hk%Hc]%elem_of_union; lia.
    + lia.
    + rewrite <- (delete_id (live w) (thread_id h)) by done. by apply Hdel.
  - rewrite bool_decide_eq_true_2 by (rewrite Ht; set_solver). cbn. eexists _, _, _. split; [done|]. cbn.
    rewrite Hdel by done. split_and!; try done.
    + intros k [->%elem_of_singleton|Hk%Hc]%elem_of_union; lia.
    + intros [Hk%elem_of_singleton|Hk%Hc]%elem_of_union; lia.
    + lia.
Qed.

Lemma start_inv s w r s' w' : server_inv (s, w) → start s w = (r, s', w') → server_inv (s', w').
Proof.
  intros (Hlive & Htok & Hc & Hcur & Hlt). unfold start.
  destruct (handle s) as [h|] eqn:Eh; intros [= <- <- <-]; cbn.
  - rewrite Eh. by split_and!.
  - split_and!; try done.
    + intros id k. destruct (decide (id = next_thread w)) as [->|Hne]; [by eauto|].
      rewrite lookup_insert_ne by done. intros Hid. by destruct (Hlive id k Hid) as (? & ? & ?).
    + by intros th [= <-].
Qed.

Lemma step_inv p q : step p q → server_inv p → server_inv q.
Proof.
  destruct 1 as [s w r s' w' Hs|s w r s' w' Hs|s w id]; intros Hinv.
  - by eapply start_inv.
  - destruct (stop_ok s w Hinv) as (? & ? & ? & Hs' & ? & _). congruence.
  - destruct Hinv as (Hlive & ? & ? & ? & ?). split_and!; try done.
    intros id' k. cbn. rewrite lookup_delete_Some. intros [_ Hid]. by eapply Hlive.
Qed.

Lemma steps_inv p q : rtc step p q → server_inv p → server_inv q.
Proof. induction 1; [done|]. intros. by eauto using step_inv. Qed.

End LifecycleFacts.
