(* ===== verification/OpenMetricsProperties.v ===== *)
(** * OpenMetricsProperties: the guarantees of the metrics of interfaces and of the system

    Which interfaces are reported and with which deltas, the labels of the system metrics, the cache
    of virtual interfaces, and the server: it never panics, and it owns at most one thread. *)

From stdpp Require Import base numbers gmap list strings relations.
From Stdlib Require Import Ascii Sorted.
From S2P Require Import Prelude Network ReportData Text Metadata HostStats HostStatsProperties Report.
From S2P Require Import HostInspection Kubernetes NetNamespaces OpenMetrics MetricsServer OpenMetricsFacts.
Import RuntimeEnvironmentMetadataProvider.
Open Scope Z_scope.

(** ** Properties of the interface metrics *)
Module InterfaceProperties.
Import InterfaceMetricsProvider DeltaFacts DiscoveryFacts.

Section properties.
Context {C : Type} `{InterfaceVirtualChecker C} {G : Type} `{GaugeVec G}.
Implicit Types (self : t C G) (h : host).

(** The keys a round reports are those of the interfaces it measures. *)
Lemma reported_measured h self k :
  is_Some ((get_metrics h self).1 !! k) →
  ∃ entry v,
    entry ∈ stats_order h
      match (InterfaceDiscoveryImpl.get_virtual_interface_stats (dev_status h) (getifaddrs h) (iface_discovery self)).1
      with Ok m => m | Err _ => ∅ end ∧
    measure h self (environment_info h self).1 (environment_info h self).2
      match compute_platform self with
      | Ec2Plain => ∅
      | Ec2K8sEks | Ec2K8sVanilla =>
          match NetworkNamespaceManager.parse_all_interface_links (run h) (captures h) with Ok m => m | Err _ => ∅ end
      end entry = Some (k, v).
Proof.
  unfold get_metrics. destruct (environment_info h self) as [ns pods]. cbv zeta.
  destruct (InterfaceDiscoveryImpl.get_virtual_interface_stats _ _ _) as [stats discovery]. cbn [fst snd].
  set (ns_map := match compute_platform self with Ec2Plain => ∅ | _ => _ end). clearbody ns_map.
  set (entries := stats_order h _). clearbody entries.
  set (step := account h self ns pods ns_map).
  assert (∀ p, is_Some ((foldl step p entries).2 !! k) → is_Some (p.2 !! k) ∨
    ∃ entry v, entry ∈ entries ∧ measure h self ns pods ns_map entry = Some (k, v)) as Hfold.
  { induction entries as [|entry entries IH]; intros p Hp; [by left|]. cbn [foldl] in Hp.
    apply IH in Hp as [Hp|(e & v & ? & ?)]; [|right; exists e, v; split; [by right|done]].
    subst step. destruct p as [n r]. cbn in Hp. destruct (measure h self ns pods ns_map entry) as [[key v]|] eqn:E; [|by left].
    cbn in Hp. destruct (decide (k = key)) as [->|]; [right; exists entry, v; split; [by left|done]|].
    rewrite lookup_insert_ne in Hp by done. by left. }
  specialize (Hfold (∅, ∅)). destruct (foldl step _ _) as [n r]. intros Hk.
  destruct (Hfold Hk) as [[? He]|Hm]; [cbn in He; by rewrite lookup_empty in He|done].
Qed.

Lemma build_metric_key_fields h self name ns_to_pid pods netns :
  ∃ pod ns, build_metric_key h self name ns_to_pid pods netns =
    InterfaceMetricKey.mk (instance_id self) name pod ns (node_name self).
Proof. unfold build_metric_key. destruct (match compute_platform self with Ec2Plain => _ | _ => _ end). eauto. Qed.

(** C32: the provider reports only the interfaces of pods: a reported key belongs to a device that is
    virtual, up and not the loopback, that leads to a known network namespace, and that has a pod.
    On an instance outside Kubernetes the provider therefore reports nothing at all, because it looks
    up no namespaces there; this contradicts the documentation of the module, which names EC2 among
    the platforms it supports, and the branches that [is_valid] and the labels have for EC2. *)
Theorem only_pod_interfaces_reported h self k :
  (∀ m, stats_order h m ≡ₚ map_to_list m) →
  is_Some ((get_metrics h self).1 !! k) →
  compute_platform self ≠ Ec2Plain ∧
  InterfaceMetricKey.instance k = instance_id self ∧ InterfaceMetricKey.node k = node_name self ∧
  InterfaceMetricKey.pod k ≠ ""%string ∧
  ∃ devices flags links id infos,
    dev_status h = Ok devices ∧ get_interface_flags (getifaddrs h) = Ok flags ∧
    eligible devices flags (HostInterface.mk (InterfaceMetricKey.iface k) true) ∧
    NetworkNamespaceManager.parse_all_interface_links (run h) (captures h) = Ok links ∧
    links !! InterfaceMetricKey.iface k = Some id ∧
    NetworkNamespaceManager.get_namespace_info (run h) (fs_exists h) (captures h) (u32_to_string h) = Ok infos ∧
    is_Some (infos !! id).
Proof.
  intros Horder ([i status] & v & Hin & Hm)%reported_measured. rewrite Horder in Hin.
  destruct (InterfaceDiscoveryImpl.get_virtual_interface_stats _ _ _).1 as [m|] eqn:Es.
  2:{ by rewrite map_to_list_empty, elem_of_nil in Hin. }
  apply stats_eligible in Es as (devices & flags & Hd & Hf & He).
  apply elem_of_map_to_list, He in Hin as Hi. destruct Hi as (Hvirt & ? & ?). destruct i as [name virt]. cbn in *. subst virt.
  unfold measure, environment_info in Hm. cbn in Hm.
  destruct (build_metric_key_fields h self name (environment_info h self).1 (environment_info h self).2
    (match compute_platform self with
     | Ec2Plain => ∅
     | _ => match NetworkNamespaceManager.parse_all_interface_links (run h) (captures h) with Ok m => m | Err _ => ∅ end
     end !! name)) as (pod & ns & Hk). unfold environment_info in Hk. rewrite Hk in Hm. clear Hk.
  destruct (InterfaceMetricKey.is_valid _ _) eqn:Ev; [|done]. cbn in Hm.
  destruct (compute_platform self) eqn:Ep; [done|..]; cbn in Hm, Ev.
  all: destruct (NetworkNamespaceManager.parse_all_interface_links _ _) as [links|] eqn:El; [|by rewrite lookup_empty in Hm].
  all: destruct (links !! name) as [id|] eqn:Eid; [cbn in Hm|done].
  all: destruct (NetworkNamespaceManager.get_namespace_info _ _ _ _) as [infos|] eqn:Ei; [|by rewrite lookup_empty in Hm].
  all: destruct (infos !! id) as [info|] eqn:Einfo; [|done].
  all: injection Hm as <- <-; cbn; case_bool_decide; [done|].
  all: split_and!; [done..|exists devices, flags, links, id, infos; split_and!; try done; by exists info].
Qed.

(** C33: over any number of rounds the values reported for an interface add up to the growth of its
    counters, when every round sees the interface and the counters never fall.  An interface that
    the previous round did not see is reported with its whole totals. *)
Theorem iface_deltas_conserved f k self :
  f ∈ counters →
  (∀ hs v0 vs,
     current_metrics self !! k = Some v0 →
     (λ r, r.2 !! k) <$> rounds hs self = Some <$> vs →
     Sorted Z.le (f <$> v0 :: vs) →
     reported_sum f k hs self = f (List.last vs v0) - f v0) ∧
  (∀ h v,
     current_metrics self !! k = None →
     current_metrics (get_metrics h self).2 !! k = Some v → 0 ≤ f v →
     f <$> (get_metrics h self).1 !! k = Some (f v)).
Proof.
  intros Hf. split; [intros; by apply rounds_telescope|]. intros h v Hnone Hkept ?.
  rewrite get_metrics_delta, Hkept, Hnone. cbn. rewrite counter_delta by done. f_equal.
  assert (f InterfaceMetricValues.default = 0) as ->; [|unfold saturating_sub; lia].
  clear -Hf. unfold counters in Hf. rewrite !elem_of_cons, elem_of_nil in Hf. naive_solver.
Qed.

End properties.
End InterfaceProperties.

(** ** Properties of the providers and of the server *)
Module ServerProperties.
Import GaugeFacts UpdateFacts ServerFacts CheckerFacts LifecycleFacts.

(** An update of the system metrics succeeds and sets, for each network interface, the five
    gauges of its last metric, under labels whose instance identifier is the name of the node; no
    other value changes.  In particular no gauge is ever set under the identifier of the instance,
    unless that is also the name of the node. *)
Theorem system_instance_label_is_node {G : Type} `{GaugeVecLaws G} h (self : SystemMetricsProvider.t G) :
  system_wf self →
  ∃ metrics self1 self', SystemMetricsProvider.get_metrics h self = Some (metrics, self1) ∧
    SystemMetricsProvider.update_metrics h self = Some self' ∧
    (∀ values, (λ g, gauge_value g values) <$> SystemMetricsProvider.gauges self' =
      match List.find (λ m, bool_decide (system_labels self m = values)) (rev metrics) with
      | Some m => Some <$> system_values m
      | None => (λ g, gauge_value g values) <$> SystemMetricsProvider.gauges self
      end) ∧
    (∀ values, head values ≠ Some (SystemMetricsProvider.node_name self) →
      (λ g, gauge_value g values) <$> SystemMetricsProvider.gauges self' =
      (λ g, gauge_value g values) <$> SystemMetricsProvider.gauges self).
Proof.
  intros Hwf. destruct (system_update h self Hwf) as (metrics & self1 & self' & ? & ? & _ & _ & Hval).
  exists metrics, self1, self'. split_and!; [done..|]. intros values Hhead. rewrite Hval.
  destruct (List.find _ _) as [m|] eqn:E; [|done]. apply List.find_some in E as [_ E%bool_decide_eq_true_1].
  exfalso. apply Hhead. rewrite <- E. unfold system_labels. by destruct (SystemMetricsProvider.compute_platform self).
Qed.

(** A provider outside Kubernetes whose instance is known, and one network interface. *)
Definition imds (path : chars) : Result chars unit := Ok (chr "i-0123").
Definition no_env (name : string) : option string := None.

Definition system_example : option (SystemMetricsProvider.t MapGauge.t) := SystemMetricsProvider.new no_env imds Ec2Plain.
Definition system_host_example : SystemMetricsProvider.host :=
  SystemMetricsProvider.mk_host (Err tt) (λ _, Ok false) (λ _, Err tt) map_to_list.

Lemma system_instance_label_is_node_witness :
  match system_example with
  | Some self => ∃ self', SystemMetricsProvider.update_metrics system_host_example self = Some self' ∧
      (λ g, gauge_value g ["i-0123"; "eni-1"]%string) <$> SystemMetricsProvider.gauges self' =
      (λ g, gauge_value g ["i-0123"; "eni-1"]%string) <$> SystemMetricsProvider.gauges self
  | None => False
  end.
Proof.
  unfold system_example. destruct (system_new no_env imds Ec2Plain) as (self & E & Hwf & _).
  assert (SystemMetricsProvider.node_name self = "unknown"%string) as Hn
    by (vm_compute in E; by injection E as <-).
  rewrite E. destruct (system_instance_label_is_node system_host_example self Hwf) as (_ & _ & self' & _ & ? & _ & Hv).
  exists self'. split; [done|]. apply Hv. by rewrite Hn.
Defined.

(** C34: the server never panics.  With its port it builds and registers its eleven gauges, answers
    every request of the connections accepted before it is cancelled, in order, with 200 for
    "/metrics" and "/" and with 404 otherwise; without its port it ends with an error. *)
Theorem metrics_server_never_panics {C : Type} `{InterfaceVirtualChecker C} {G : Type} `{GaugeVecLaws G}
    {R : Type} `{RegistryLaws R} (encode : R → list G → string) bound h env_var imds_get
    (discovery : InterfaceDiscoveryImpl.t C) k8s events :
  match Metrics.run_server encode bound h env_var imds_get discovery k8s events with
  | Some (Ok responses) => bound = true ∧ Metrics.status <$> responses = status_of ∘ snd <$> served events
  | Some (Err _) => bound = false
  | None => False
  end.
Proof.
  unfold Metrics.run_server. destruct bound; [|done].
  destruct (initialize_ok h env_var imds_get discovery k8s) as (r & ps & -> & Hwf & _). cbn [mbind option_bind].
  destruct (accept_connections_ok encode events r ps Hwf) as (responses & ps' & rest & -> & Hst). done.
Qed.

(** A checker that takes every interface for a virtual one. *)
#[local] Instance all_virtual : InterfaceVirtualChecker unit := {| is_virtual _ _ := (Ok true, tt) |}.

Definition interface_host_example : InterfaceMetricsProvider.host := {|
  InterfaceMetricsProvider.run _ _ := Err tt;
  InterfaceMetricsProvider.fs_exists _ := Ok false;
  InterfaceMetricsProvider.read_to_string _ := Err tt;
  InterfaceMetricsProvider.captures _ _ := None;
  InterfaceMetricsProvider.u32_to_string _ := [];
  InterfaceMetricsProvider.dev_status := Ok [];
  InterfaceMetricsProvider.getifaddrs := Ok [];
  InterfaceMetricsProvider.filter_get _ := Err tt;
  InterfaceMetricsProvider.collector := KubernetesMetadataCollector.new;
  InterfaceMetricsProvider.pods_order := elements;
  InterfaceMetricsProvider.stats_order := map_to_list;
  InterfaceMetricsProvider.metrics_order := map_to_list
|}.
Definition host_example : Metrics.host := Metrics.mk_host system_host_example interface_host_example.

Lemma metrics_server_never_panics_witness :
  ∃ responses, Metrics.run_server (C := unit) (G := MapGauge.t) (R := ListRegistry.t)
      (λ r _, foldr (λ a b, a +:+ b) ""%string (registered r)) true host_example no_env imds (InterfaceDiscoveryImpl.mk tt) false
      [Metrics.Connection [(host_example, "/metrics"); (host_example, "/nope")]; Metrics.Cancelled;
       Metrics.Connection [(host_example, "/")]]%string = Some (Ok responses) ∧
    Metrics.status <$> responses = [Metrics.OK; Metrics.NOT_FOUND].
Proof.
  pose proof (metrics_server_never_panics (C := unit) (G := MapGauge.t) (R := ListRegistry.t)
    (λ r _, foldr (λ a b, a +:+ b) ""%string (registered r)) true host_example no_env imds (InterfaceDiscoveryImpl.mk tt) false
    [Metrics.Connection [(host_example, "/metrics"); (host_example, "/nope")]; Metrics.Cancelled;
     Metrics.Connection [(host_example, "/")]]%string) as Hs.
  destruct (Metrics.run_server _ _ _ _ _ _ _ _) as [[responses|]|]; [|done..].
  exists responses. split; [done|]. by destruct Hs as [_ ->].
Defined.

(** Whatever is called and whenever its thread ends by itself, a server has at most one thread,
    that of its handle; starting fails exactly while there is a handle, even when the thread has
    ended; stopping never waits for ever and leaves no thread, and the server can then be started
    again with a token that is not cancelled. *)
Theorem server_owns_one_thread config w0 s w :
  fresh w0 → rtc OpenMetricsServer.step (OpenMetricsServer.with_config w0 config) (s, w) →
  (size (OpenMetricsServer.live w) ≤ 1)%nat ∧
  ((OpenMetricsServer.start s w).1.1 = Err OpenMetricsServer.AlreadyExists ↔ is_Some (OpenMetricsServer.handle s)) ∧
  ∃ r s' w', OpenMetricsServer.stop s w = Some (r, s', w') ∧
    r = (if OpenMetricsServer.handle s then Ok tt else Err OpenMetricsServer.NotFound) ∧
    OpenMetricsServer.live w' = ∅ ∧ OpenMetricsServer.cancel_token s' ∉ OpenMetricsServer.cancelled w' ∧
    (OpenMetricsServer.start s' w').1.1 = Ok tt.
Proof.
  intros Hf Hsteps. assert (server_inv (s, w)) as Hinv by (by eapply steps_inv, with_config_inv). split; [|split].
  - destruct Hinv as (Hlive & _). rewrite <- size_dom.
    transitivity (size (match OpenMetricsServer.handle s with Some h => {[OpenMetricsServer.thread_id h]} | None => ∅ end : gset nat)).
    + apply subseteq_size. intros id [k Hid]%elem_of_dom. destruct (Hlive id k Hid) as (th & -> & <-). set_solver.
    + destruct (OpenMetricsServer.handle s); [by rewrite size_singleton|rewrite size_empty; lia].
  - unfold OpenMetricsServer.start. destruct (OpenMetricsServer.handle s); cbn; [by split; eauto|]. split; [done|by intros []].
  - destruct (stop_ok s w Hinv) as (r & s' & w' & ? & (_ & _ & _ & ? & _) & ? & Hh & ?).
    exists r, s', w'. split_and!; [done..|]. unfold OpenMetricsServer.start. by rewrite Hh.
Qed.

Definition world0 : OpenMetricsServer.world := OpenMetricsServer.mk_world ∅ ∅ 0 0.

Lemma server_owns_one_thread_witness :
  let '(s0, w0) := OpenMetricsServer.with_config world0 OpenMetricsServerConfig.default in
  let '(_, s1, w1) := OpenMetricsServer.start s0 w0 in
  OpenMetricsServer.live w1 = {[0%nat := 0%nat]} ∧
  ∃ r s' w', OpenMetricsServer.stop s1 w1 = Some (r, s', w') ∧ OpenMetricsServer.live w' = ∅.
Proof.
  cbn. split; [done|].
  edestruct (server_owns_one_thread OpenMetricsServerConfig.default world0) as (_ & _ & r & s' & w' & Hs & _ & Hl & _).
  - split; [done|]. intros k. cbn. set_solver.
  - eapply rtc_once, (OpenMetricsServer.step_start _ _ (Ok tt)). reflexivity.
  - exists r, s', w'. split; [exact Hs|done].
Defined.

(** The cache in front of the file system never makes up an answer: every question is answered
    as the file system would have answered that question then or at an earlier question about the
    same interface.  The answer is never an error. *)
Theorem virtual_checker_sound {L : Type} `{LruCacheLaws L} capacity questions i fs iface :
  questions !! i = Some (fs, iface) →
  ∃ fs' b, (fs', iface) ∈ take (S i) questions ∧
    CachedInterfaceVirtualChecker.check_virtual_iface fs' iface = Ok b ∧
    ask (CachedInterfaceVirtualChecker.with_capacity (L := L) capacity) questions !! i = Some (Ok b).
Proof.
  set (self := CachedInterfaceVirtualChecker.with_capacity (L := L) capacity). intros Hi.
  assert (remembers self []) as Hr by (intros k v; cbn; by rewrite lru_new_empty, lookup_empty).
  destruct (ask_sound self [] questions i fs iface Hr Hi) as (fs' & Hin & Ha).
  eexists fs', _. split; [exact Hin|]. split; [reflexivity|exact Ha].
Qed.

Lemma virtual_checker_sound_witness :
  let questions := [(λ _, true, chr "eth0"); (λ _, false, chr "eth0")] in
  ask (CachedInterfaceVirtualChecker.with_capacity (L := RecencyList.t) 1) questions = [Ok false; Ok false] ∧
  ∃ fs' b, (fs', chr "eth0") ∈ take 2 questions ∧
    CachedInterfaceVirtualChecker.check_virtual_iface fs' (chr "eth0") = Ok b ∧
    ask (CachedInterfaceVirtualChecker.with_capacity (L := RecencyList.t) 1) questions !! 1%nat = Some (Ok b).
Proof.
  split; [by vm_compute|]. by apply (virtual_checker_sound 1 _ 1%nat (λ _, false) (chr "eth0")).
Defined.

End ServerProperties.

(** ** Examples: the interface of a pod *)
Module PodExample.
Import InterfaceMetricsProvider DeltaFacts InterfaceProperties ServerProperties.

Definition pod_ip : IpAddr.t := IpAddr.V4 0x0A000005.
Definition pod_collector : KubernetesMetadataCollector.t :=
  KubernetesMetadataCollector.mk 0 {[pod_ip := {[8080 := PodInfo.mk "web-1" "shop" ""]}]}.

(** A node with one veth, whose other end is in the namespace of a pod. *)
Definition pod_run (cmd : chars) (args : list chars) : Result Output.t unit :=
  let ok s := Ok (Output.mk true (chr s) []) in
  if bool_decide (cmd = chr "ip") then ok "15: veth1@if2: <UP> link-netnsid 1"%string
  else if bool_decide (cmd = chr "lsns") then ok "4026 net 2 77 root 1"%string
  else ok "inet 10.0.0.5/24 scope global eth0"%string.
Definition pod_captures (regex : string) (line : chars) : option NetworkNamespaceManager.Captures :=
  if bool_decide (regex = get_link_netnsid_regex) && starts_with (chr "15:") line then Some [None; Some (chr "1")]
  else if bool_decide (regex = get_ipv4_regex) && starts_with (chr "inet ") line then Some [None; Some (chr "10.0.0.5")]
  else None.

Definition pod_host (bytes : Z) : host := {|
  run := pod_run;
  fs_exists _ := Ok false;
  read_to_string _ := Err tt;
  captures := pod_captures;
  u32_to_string _ := chr "77";
  dev_status := Ok [(chr "veth1", DeviceStatus.mk 10 1 bytes 2)];
  getifaddrs := Ok [(chr "veth1", InterfaceFlags.mk false true)];
  filter_get _ := Err tt;
  collector := pod_collector;
  pods_order := elements;
  stats_order := map_to_list;
  metrics_order := map_to_list
|}.

Definition pod_gauge : MapGauge.t := MapGauge.mk "" [] ∅.
Definition pod_provider : t unit MapGauge.t :=
  let start := mk Ec2K8sEks "i-0123" "node-1" (InterfaceDiscoveryImpl.mk tt) true
    pod_gauge pod_gauge pod_gauge pod_gauge pod_gauge pod_gauge ∅ in
  (get_metrics (H := all_virtual) (pod_host 100) start).2.
Definition pod_key : InterfaceMetricKey.t := InterfaceMetricKey.mk "i-0123" (chr "veth1") "web-1" "shop" "node-1".
Definition pod_totals (bytes : Z) : InterfaceMetricValues.t :=
  InterfaceMetricValues.mk (HostInterfaceMetricValues.mk 2 bytes 1 10) NetNsInterfaceMetricValues.default.

Lemma only_pod_interfaces_reported_witness :
  InterfaceMetricKey.pod pod_key ≠ ""%string ∧
  ∃ devices, dev_status (pod_host 150) = Ok devices ∧ chr "veth1" ∈ devices.*1.
Proof.
  destruct (only_pod_interfaces_reported (H := all_virtual) (pod_host 150) pod_provider pod_key) as (_ & _ & _ & Hp & Hd).
  - intros m. done.
  - vm_compute. by eexists.
  - split; [exact Hp|]. destruct Hd as (devices & _ & _ & _ & _ & Hdev & _ & (_ & ? & _) & _). by exists devices.
Defined.

Lemma iface_deltas_conserved_witness :
  reported_sum (H := all_virtual)
    (λ v, HostInterfaceMetricValues.ingress_bytes_count (InterfaceMetricValues.host v)) pod_key
    [pod_host 150; pod_host 180] pod_provider = 80.
Proof.
  refine (proj1 (iface_deltas_conserved (H := all_virtual)
    (λ v, HostInterfaceMetricValues.ingress_bytes_count (InterfaceMetricValues.host v)) pod_key pod_provider _)
    [pod_host 150; pod_host 180] (pod_totals 100) [pod_totals 150; pod_totals 180] _ _ _).
  - unfold counters. set_solver.
  - by vm_compute.
  - by vm_compute.
  - repeat constructor; vm_compute; done.
Defined.

End PodExample.
