(* ===== verification/ReportVerifier.v ===== *)
(** * ReportVerifier: the tool that checks what the agent reported

    Models verifiers/report-verifier: main.rs (reading the reports from the agent's log and merging
    them), report_ext.rs (the merges), verifiers/generic_report_verifier.rs and its utilities (the
    checks), and the [Deserialize] derived for the flows of a report, which is the inverse of what
    the agent's log publisher writes.  Reading JSON text and the other parts of a report is serde's:
    [from_str] and [report_of] are arguments.  The addition of two counters panics on overflow; an
    [f64] is the rational it denotes, or infinite.  [None] is a panic. *)

From stdpp Require Import base numbers gmap list strings.
From Stdlib Require Import Ascii QArith_base Qminmax Qabs Qpower.
From S2P Require Import Prelude Network ReportData NetworkEvent Text Metadata HostStats Report HostInspection.
From S2P Require Import Kubernetes.
Import RuntimeEnvironmentMetadataProvider.
Open Scope Z_scope.

(** ** The derived [Deserialize]

    A struct is read from an object: each field by its name, other members being ignored; a missing
    member is an error unless the field is optional. *)
Module Deserialize.

Fixpoint member (key : string) (fields : list (string * json)) : option json :=
  match fields with
  | [] => None
  | (k, v) :: fields => if String.eqb k key then Some v else member key fields
  end.

(** An unsigned integer of [w] bits. *)
Definition uint (w : Z) (v : json) : option Z :=
  match v with
  | JNumber (PosInt n) => if (0 <=? n) && (n <=? umax w) then Some n else None
  | _ => None
  end.

Definition field (w : Z) (key : string) (fields : list (string * json)) : option Z :=
  v ← member key fields; uint w v.

Definition MetricHistogram_of (v : json) : option MetricHistogram.t :=
  match v with
  | JObject fields =>
      count ← field u32 "count" fields;
      min ← field u32 "min" fields;
      max ← field u32 "max" fields;
      sum ← field u64 "sum" fields;
      Some (MetricHistogram.mk count min max sum)
  | _ => None
  end.

Definition histogram (key : string) (fields : list (string * json)) : option MetricHistogram.t :=
  v ← member key fields; MetricHistogram_of v.

Definition NetworkStats_of (v : json) : option NetworkStats.t :=
  match v with
  | JObject fields =>
      sockets_connecting ← field u32 "sockets_connecting" fields;
      sockets_established ← field u32 "sockets_established" fields;
      sockets_closing ← field u32 "sockets_closing" fields;
      sockets_closed ← field u32 "sockets_closed" fields;
      sockets_completed ← field u32 "sockets_completed" fields;
      severed_connect ← field u32 "severed_connect" fields;
      severed_establish ← field u32 "severed_establish" fields;
      connect_attempts ← field u32 "connect_attempts" fields;
      bytes_received ← field u64 "bytes_received" fields;
      bytes_delivered ← field u64 "bytes_delivered" fields;
      segments_received ← field u64 "segments_received" fields;
      segments_delivered ← field u64 "segments_delivered" fields;
      retrans_syn ← field u32 "retrans_syn" fields;
      retrans_est ← field u32 "retrans_est" fields;
      retrans_close ← field u32 "retrans_close" fields;
      rtos_syn ← field u32 "rtos_syn" fields;
      rtos_est ← field u32 "rtos_est" fields;
      rtos_close ← field u32 "rtos_close" fields;
      connect_us ← histogram "connect_us" fields;
      rtt_us ← histogram "rtt_us" fields;
      rtt_smoothed_us ← histogram "rtt_smoothed_us" fields;
      Some (NetworkStats.mk sockets_connecting sockets_established sockets_closing sockets_closed sockets_completed
        severed_connect severed_establish connect_attempts bytes_received bytes_delivered segments_received
        segments_delivered retrans_syn retrans_est retrans_close rtos_syn rtos_est rtos_close connect_us rtt_us
        rtt_smoothed_us)
  | _ => None
  end.

(** A unit variant is its name. *)
Definition InetProtocol_of (v : json) : option InetProtocol :=
  match v with
  | JString s =>
      if String.eqb s "ANY" then Some ANY
      else if String.eqb s "TCP" then Some TCP
      else if String.eqb s "UDP" then Some UDP
      else None
  | _ => None
  end.

Definition IpAddr_of (v : json) : option IpAddr.t :=
  match v with JString s => parse_ip (chr s) | _ => None end.

(** The metadata is an optional field that is never written, so that it is read as absent; what a
    present one would be is [FlowMetadata_of]'s. *)
Definition FlowProperties_of (FlowMetadata_of : json → option FlowMetadata.t) (v : json) : option FlowProperties.t :=
  match v with
  | JObject fields =>
      protocol ← (v ← member "protocol" fields; InetProtocol_of v);
      local_address ← (v ← member "local_address" fields; IpAddr_of v);
      remote_address ← (v ← member "remote_address" fields; IpAddr_of v);
      local_port ← field u16 "local_port" fields;
      remote_port ← field u16 "remote_port" fields;
      kubernetes_metadata ←
        match member "kubernetes_metadata" fields with
        | None | Some JNull => Some None
        | Some v => m ← FlowMetadata_of v; Some (Some m)
        end;
      Some (FlowProperties.mk protocol local_address remote_address local_port remote_port kubernetes_metadata)
  | _ => None
  end.

Definition AggregateResults_of (FlowMetadata_of : json → option FlowMetadata.t) (v : json) :
    option AggregateResults.t :=
  match v with
  | JObject fields =>
      flow ← (v ← member "flow" fields; FlowProperties_of FlowMetadata_of v);
      stats ← (v ← member "stats" fields; NetworkStats_of v);
      Some (AggregateResults.mk flow stats)
  | _ => None
  end.

(** The derived [Serialize], which the log publisher uses. *)
Definition AggregateResults_to (ip_to_string : IpAddr.t → string) (self : AggregateResults.t) : json :=
  JObject (to_object
    [("flow", JObject (to_object (FlowProperties.serialize ip_to_string (AggregateResults.flow self))));
     ("stats", JObject (to_object (NetworkStats.serialize (AggregateResults.stats self))))])%string.

End Deserialize.

(** ** report_ext.rs *)
Module MetricHistogramExt.
Import MetricHistogram.

Definition merge_from (self other : t) : option t :=
  c ← checked_add u32 (count self) (count other);
  s ← checked_add u64 (sum self) (sum other);
  Some (mk c (min_non_zero (min self) (min other)) (Z.max (max self) (max other)) s).

End MetricHistogramExt.

Module NetworkStatsExt.
Import NetworkStats.

(** The retransmissions and timeouts of [other] are left out. *)
Definition merge_from (self other : t) : option t :=
  a1 ← checked_add u64 (bytes_delivered self) (bytes_delivered other);
  a2 ← checked_add u64 (bytes_received self) (bytes_received other);
  a3 ← checked_add u64 (segments_delivered self) (segments_delivered other);
  a4 ← checked_add u64 (segments_received self) (segments_received other);
  a5 ← checked_add u32 (connect_attempts self) (connect_attempts other);
  a6 ← checked_add u32 (sockets_completed self) (sockets_completed other);
  a7 ← checked_add u32 (severed_connect self) (severed_connect other);
  a8 ← checked_add u32 (severed_establish self) (severed_establish other);
  a9 ← checked_add u32 (sockets_connecting self) (sockets_connecting other);
  a10 ← checked_add u32 (sockets_established self) (sockets_established other);
  a11 ← checked_add u32 (sockets_closing self) (sockets_closing other);
  a12 ← checked_add u32 (sockets_closed self) (sockets_closed other);
  h1 ← MetricHistogramExt.merge_from (connect_us self) (connect_us other);
  h2 ← MetricHistogramExt.merge_from (rtt_smoothed_us self) (rtt_smoothed_us other);
  h3 ← MetricHistogramExt.merge_from (rtt_us self) (rtt_us other);
  Some (self
    <| bytes_delivered := a1 |> <| bytes_received := a2 |> <| segments_delivered := a3 |>
    <| segments_received := a4 |> <| connect_attempts := a5 |> <| sockets_completed := a6 |>
    <| severed_connect := a7 |> <| severed_establish := a8 |> <| sockets_connecting := a9 |>
    <| sockets_established := a10 |> <| sockets_closing := a11 |> <| sockets_closed := a12 |>
    <| connect_us := h1 |> <| rtt_smoothed_us := h2 |> <| rtt_us := h3 |>).

End NetworkStatsExt.

Module ProcessCountersExt.
Import ProcessCounters.

Definition merge_from (self other : t) : option t :=
  a1 ← checked_add u64 (remote_nat_reversal_errors self) (remote_nat_reversal_errors other);
  a2 ← checked_add u64 (restarts self) (restarts other);
  a3 ← checked_add u64 (socket_agg_above_limit self) (socket_agg_above_limit other);
  a4 ← checked_add u64 (socket_agg_completed self) (socket_agg_completed other);
  a5 ← checked_add u64 (socket_agg_missing_props self) (socket_agg_missing_props other);
  a6 ← checked_add u64 (socket_deltas_above_limit self) (socket_deltas_above_limit other);
  a7 ← checked_add u64 (socket_deltas_completed self) (socket_deltas_completed other);
  a8 ← checked_add u64 (socket_deltas_missing_props self) (socket_deltas_missing_props other);
  a9 ← checked_add u64 (socket_eviction_completed self) (socket_eviction_completed other);
  a10 ← checked_add u64 (socket_eviction_failed self) (socket_eviction_failed other);
  a11 ← checked_add u64 (sockets_added self) (sockets_added other);
  a12 ← checked_add u64 (sockets_natd self) (sockets_natd other);
  a13 ← checked_add u64 (sockets_stale self) (sockets_stale other);
  Some (self
    <| remote_nat_reversal_errors := a1 |> <| restarts := a2 |> <| socket_agg_above_limit := a3 |>
    <| socket_agg_completed := a4 |> <| socket_agg_missing_props := a5 |> <| socket_deltas_above_limit := a6 |>
    <| socket_deltas_completed := a7 |> <| socket_deltas_missing_props := a8 |>
    <| socket_eviction_completed := a9 |> <| socket_eviction_failed := a10 |> <| sockets_added := a11 |>
    <| sockets_natd := a12 |> <| sockets_stale := a13 |>).

End ProcessCountersExt.

Module UsageStatsExt.
Import UsageStats.

(** The memory of the eBPF maps is kept as it is. *)
Definition merge_from (self other : t) : option t :=
  n ← checked_add u64 (sockets_tracked self) (sockets_tracked other);
  Some (self
    <| cpu_util := Qmax (cpu_util self) (cpu_util other) |>
    <| mem_used_ratio := Qmax (mem_used_ratio self) (mem_used_ratio other) |>
    <| mem_used_kb := Z.max (mem_used_kb self) (mem_used_kb other) |>
    <| sockets_tracked := n |>).

End UsageStatsExt.

(** ** testbed.rs, ip_port.rs and report_verifier.rs *)

Inductive TestFabric := Plain | EC2 | K8s.

#[global] Instance TestFabric_eq_dec : EqDecision TestFabric.
Proof. solve_decision. Defined.

Module IpPort.
Record t := mk { ip_address : IpAddr.t; port : Z }.
End IpPort.

Module ReportVerifierConfig.

Record t := mk {
  test_fabric : TestFabric;
  expected_connection_count : Z;
  expected_minimum_latency : Z;
  expected_loss_percent : Z;
  local_ip_port_under_test : IpPort.t;
  remote_ip_port_under_test : IpPort.t;
}.

End ReportVerifierConfig.

(** ** utils/tolerance.rs *)

(** An infinite percentage tolerates everything, except that zero times infinity is not a number. *)
Definition within_abs_percent_tolerance (actual expected : Z) (percent : Float) : bool :=
  match percent with
  | Finite q => Qle_bool (Qabs (inject_Z actual - inject_Z expected)) (inject_Z expected * (q / 100))
  | Infinity => negb (expected =? 0)
  | NaN => false
  end.

(** ** generic_report_verifier.rs *)
Module GenericReportVerifier.
Import ReportVerifierConfig.

(** [check!] clears the result and goes on, so that the result is that of all checks. *)
Definition checks (l : list bool) : bool := forallb id l.

Section verifier.
Context (PKG_VERSION : string).
Context (config : ReportVerifierConfig.t).

Definition verify_host_stats (host_stats : HostStats.t) : bool :=
  match test_fabric config with
  | Plain => bool_decide (length (HostStats.interface_stats host_stats) = 0%nat)
  | EC2 => bool_decide (0 < length (HostStats.interface_stats host_stats))%nat
  | K8s => bool_decide (0 < length (HostStats.interface_stats host_stats))%nat
  end.

Definition is_none {A} (o : option A) : bool := match o with None => true | Some _ => false end.

Definition verify_k8s_metadata (k8s_metadata : K8sMetadata.t) : bool :=
  match test_fabric config with
  | Plain => is_none (K8sMetadata.cluster_name k8s_metadata) && is_none (K8sMetadata.node_name k8s_metadata)
  | EC2 => is_none (K8sMetadata.cluster_name k8s_metadata) && is_none (K8sMetadata.node_name k8s_metadata)
  | K8s => negb (is_none (K8sMetadata.node_name k8s_metadata))
  end.

(** Equality with a string value. *)
Definition is_string (v : ReportValue.t) (s : string) : bool :=
  match v with ReportValue.String s' => String.eqb s' s | _ => false end.

Definition verify_service_metadata (service_metadata : ServiceMetadata.t) : bool :=
  is_string (ServiceMetadata.name service_metadata) PROJECT_NAME &&
  is_string (ServiceMetadata.version service_metadata) PKG_VERSION.

(** [unwrap] of the compute platform. *)
Definition verify_env_metadata (env_metadata : EnvMetadata.t) : option bool :=
  observed_compute_platform ← EnvMetadata.get env_metadata "compute_platform";
  Some (EnvMetadata.contains_key env_metadata "instance-id" &&
        EnvMetadata.contains_key env_metadata "instance-type" &&
        match test_fabric config with
        | Plain => is_string observed_compute_platform (platform_to_string Ec2Plain)
        | EC2 => is_string observed_compute_platform (platform_to_string Ec2Plain)
        | K8s => is_string observed_compute_platform (platform_to_string Ec2K8sVanilla) ||
                 is_string observed_compute_platform (platform_to_string Ec2K8sEks)
        end).

Definition Qlt_bool (a b : Q) : bool := negb (Qle_bool b a).

Definition verify_usage_stats (u : UsageStats.t) : bool := checks
  [Qlt_bool 0 (UsageStats.cpu_util u) && Qlt_bool (UsageStats.cpu_util u) 2;
   (0 <? UsageStats.mem_used_kb u) && (UsageStats.mem_used_kb u <? 30000);
   Qlt_bool 0 (UsageStats.mem_used_ratio u) && Qlt_bool (UsageStats.mem_used_ratio u) 2;
   (0 <? UsageStats.ebpf_allocated_mem_kb u) && (UsageStats.ebpf_allocated_mem_kb u <? 10000);
   0 <? UsageStats.sockets_tracked u].

Definition verify_event_counters (c : EventCounters.t) : bool :=
  let n := expected_connection_count config in
  checks
  [n <=? EventCounters.active_connect_events c;
   n <=? EventCounters.active_established_events c;
   n <=? EventCounters.rtt_events c;
   n <=? EventCounters.state_change_events c;
   n <=? EventCounters.passive_established_events c;
   0 <? EventCounters.socket_events c;
   EventCounters.map_insertion_errors c =? 0;
   EventCounters.other_errors c =? 0;
   EventCounters.set_flags_errors c =? 0;
   EventCounters.sockets_invalid c =? 0].

Definition verify_process_counters (c : ProcessCounters.t) : bool := checks
  [expected_connection_count config <=? ProcessCounters.sockets_added c;
   ProcessCounters.remote_nat_reversal_errors c =? 0;
   ProcessCounters.restarts c =? 0;
   0 <? ProcessCounters.socket_agg_completed c;
   0 <? ProcessCounters.socket_deltas_completed c;
   ProcessCounters.socket_deltas_above_limit c =? 0;
   if bool_decide (test_fabric config = K8s) then 0 <? ProcessCounters.sockets_natd c
   else ProcessCounters.sockets_natd c =? 0;
   ProcessCounters.socket_eviction_failed c =? 0].

Definition verify_counters (c : CountersOverall.t) : bool :=
  verify_event_counters (CountersOverall.event_related c) && verify_process_counters (CountersOverall.process_related c).

(** [usage[0]]. *)
Definition verify_process_stats (process_stats : ProcessStats.t) : option bool :=
  usage ← head (ProcessStats.usage process_stats);
  Some (verify_usage_stats usage && verify_counters (ProcessStats.counters process_stats)).

(** With a given loss percentage, how many extra requests must be done per 100 requests to make it
    across; the [u8] difference panics above 100. *)
Definition get_tolerance : option Float :=
  success ← checked_sub 100 (expected_loss_percent config);
  let packet_success_chance := Qdiv (inject_Z success) 100 in
  let connection_success_rate := Qpower packet_success_chance 6 in
  Some (if Qeq_bool connection_success_rate 0 then Infinity
        else Finite ((1 / connection_success_rate - 1) * 100)).

Definition within_tolerance (observed : Z) : option bool :=
  tolerance ← get_tolerance;
  Some (within_abs_percent_tolerance observed (expected_connection_count config) tolerance).

(** The checks shared by both sides of a connection. *)
Definition verify_flow_stats_common (s : NetworkStats.t) : option bool :=
  let latency := expected_minimum_latency config in
  c1 ← within_tolerance (MetricHistogram.count (NetworkStats.rtt_smoothed_us s));
  c2 ← within_tolerance (MetricHistogram.count (NetworkStats.rtt_us s));
  c3 ← within_tolerance (NetworkStats.sockets_completed s);
  Some (checks
    [c1;
     c2;
     0 <? NetworkStats.bytes_delivered s;
     0 <? NetworkStats.bytes_received s;
     latency <=? MetricHistogram.min (NetworkStats.rtt_smoothed_us s);
     latency <=? MetricHistogram.max (NetworkStats.rtt_smoothed_us s);
     latency <=? MetricHistogram.sum (NetworkStats.rtt_smoothed_us s);
     latency <=? MetricHistogram.min (NetworkStats.rtt_us s);
     latency <=? MetricHistogram.max (NetworkStats.rtt_us s);
     latency <=? MetricHistogram.sum (NetworkStats.rtt_us s);
     c3]).

Definition verify_local_client_flow_stats (s : NetworkStats.t) : option bool :=
  let latency := expected_minimum_latency config in
  c1 ← within_tolerance (NetworkStats.segments_delivered s);
  c2 ← within_tolerance (NetworkStats.connect_attempts s);
  c3 ← within_tolerance (MetricHistogram.count (NetworkStats.connect_us s));
  let result := checks
    [c1;
     c2;
     c3;
     latency <=? MetricHistogram.min (NetworkStats.connect_us s);
     latency <=? MetricHistogram.max (NetworkStats.connect_us s);
     latency <=? MetricHistogram.sum (NetworkStats.connect_us s)] in
  if result then verify_flow_stats_common s else Some false.

Definition verify_remote_server_flow_stats (s : NetworkStats.t) : option bool :=
  c1 ← within_tolerance (NetworkStats.segments_received s);
  let result := checks
    [c1;
     NetworkStats.connect_attempts s =? 0;
     MetricHistogram.count (NetworkStats.connect_us s) =? 0;
     MetricHistogram.min (NetworkStats.connect_us s) =? 0;
     MetricHistogram.max (NetworkStats.connect_us s) =? 0;
     MetricHistogram.sum (NetworkStats.connect_us s) =? 0] in
  if result then verify_flow_stats_common s else Some false.

(** The addresses are those under test. *)
Definition between (flow : FlowProperties.t) : bool :=
  bool_decide (FlowProperties.local_address flow = IpPort.ip_address (local_ip_port_under_test config)) &&
  bool_decide (FlowProperties.remote_address flow = IpPort.ip_address (remote_ip_port_under_test config)).
Definition is_client_under_test (flow : FlowProperties.t) : bool :=
  between flow && (FlowProperties.remote_port flow =? IpPort.port (remote_ip_port_under_test config)).
Definition is_server_under_test (flow : FlowProperties.t) : bool :=
  between flow && (FlowProperties.local_port flow =? IpPort.port (local_ip_port_under_test config)).

(** One flow: whether the client's and the server's side were verified. *)
Definition verify_flow (st : bool * bool) (network_stat : AggregateResults.t) : option (bool * bool) :=
  let '(local_verified, remote_verified) := st in
  let flow := AggregateResults.flow network_stat in
  let stats := AggregateResults.stats network_stat in
  local_verified ←
    (if is_client_under_test flow then
       if negb local_verified then verify_local_client_flow_stats stats else Some local_verified
     else Some local_verified);
  remote_verified ←
    (if is_server_under_test flow then
       if negb remote_verified then verify_remote_server_flow_stats stats else Some remote_verified
     else Some remote_verified);
  Some (local_verified, remote_verified).

Definition verify_network_flow_stats (aggregate_results : list AggregateResults.t) : option bool :=
  '(local_verified, remote_verified) ← foldM verify_flow (false, false) aggregate_results;
  Some (local_verified && remote_verified).

(** [&&] that evaluates its right side only when needed. *)
Definition and_then (a : option bool) (b : option bool) : option bool :=
  a ← a; if (a : bool) then b else Some false.

(** Verify contents of a report and return true if it was successful. *)
Definition verify (report : NfmReport.t) : option bool :=
  and_then (verify_network_flow_stats (NfmReport.network_stats report))
  (and_then (verify_env_metadata (NfmReport.env_metadata report))
  (and_then (Some (verify_service_metadata (NfmReport.service_metadata report)))
  (and_then (verify_process_stats (NfmReport.process_stats report))
  (Some (verify_host_stats (NfmReport.host_stats report) &&
         verify_k8s_metadata (NfmReport.k8s_metadata report) &&
         (NfmReport.failed_reports report =? 0) &&
         String.eqb (NfmReport.report_version report) REPORT_VERSION))))).

End verifier.
End GenericReportVerifier.

(** ** main.rs *)
Module Main.

Section reports.
(** The order in which the values of a hash map are collected. *)
Context (values_order : gmap FlowProperties.t AggregateResults.t → list AggregateResults.t).

(** A flow of the second report: merged into that of the first, or added. *)
Definition merge_flow (flow_map : gmap FlowProperties.t AggregateResults.t) (aggregate : AggregateResults.t) :
    option (gmap FlowProperties.t AggregateResults.t) :=
  match flow_map !! AggregateResults.flow aggregate with
  | Some existing =>
      stats ← NetworkStatsExt.merge_from (AggregateResults.stats existing) (AggregateResults.stats aggregate);
      Some (<[AggregateResults.flow aggregate := existing <| AggregateResults.stats := stats |>]> flow_map)
  | None => Some (<[AggregateResults.flow aggregate := aggregate]> flow_map)
  end.

Definition merge_network_stats (stats1 stats2 : list AggregateResults.t) :
    option (gmap FlowProperties.t AggregateResults.t) :=
  let flow_map := foldl (λ m a, <[AggregateResults.flow a := a]> m) ∅ stats1 in
  foldM merge_flow flow_map stats2.

Definition merge_reports (report1 report2 : NfmReport.t) : option NfmReport.t :=
  let ps1 := NfmReport.process_stats report1 in
  let ps2 := NfmReport.process_stats report2 in
  u1 ← head (ProcessStats.usage ps1);
  u2 ← head (ProcessStats.usage ps2);
  u ← UsageStatsExt.merge_from u1 u2;
  let events := EventCounters.add_from (CountersOverall.event_related (ProcessStats.counters ps1))
    (CountersOverall.event_related (ProcessStats.counters ps2)) in
  processes ← ProcessCountersExt.merge_from (CountersOverall.process_related (ProcessStats.counters ps1))
    (CountersOverall.process_related (ProcessStats.counters ps2));
  flow_map ← merge_network_stats (NfmReport.network_stats report1) (NfmReport.network_stats report2);
  let process_stats := ProcessStats.mk (CountersOverall.mk events processes) (u :: tail (ProcessStats.usage ps1)) in
  Some (report1 <| NfmReport.process_stats := process_stats |> <| NfmReport.network_stats := values_order flow_map |>).

(** Reading a line as JSON, and a report from JSON. *)
Context (from_str : chars → option json).
Context (report_of : json → option NfmReport.t).

(** [json[key]]: null when there is no such member. *)
Definition json_get (v : json) (key : string) : json :=
  match v with JObject fields => from_option id JNull (Deserialize.member key fields) | _ => JNull end.

(** One line of the log. *)
Definition read_line (merged_report : option NfmReport.t) (line : Result chars unit) :
    option (option NfmReport.t) :=
  match line with
  | Err _ => Some merged_report
  | Ok line =>
      match from_str line with
      | None => Some merged_report
      | Some json =>
          match json_get json "message" with
          | JString message =>
              if String.eqb message "Publishing report" then
                report ← report_of (json_get json "report");
                match merged_report with
                | None => Some (Some report)
                | Some merged_report => m ← merge_reports merged_report report; Some (Some m)
                end
              else Some merged_report
          | _ => Some merged_report
          end
      end
  end.

(** Check the agent log and collect all the reports. *)
Definition read_and_merge_all_reports (file : list (Result chars unit)) : option (option NfmReport.t) :=
  foldM read_line None file.

(** The polling loop: what each second finds in the log, until the deadline; true when a merged
    report was verified. *)
Fixpoint poll (verify : NfmReport.t → option bool) (logs : list (list (Result chars unit))) : option bool :=
  match logs with
  | [] => Some false
  | file :: logs =>
      merged_report ← read_and_merge_all_reports file;
      match merged_report with
      | Some report =>
          ok ← verify report;
          if (ok : bool) then Some true else poll verify logs
      | None => poll verify logs
      end
  end.

End reports.

(** [str::contains]. *)
Fixpoint contains (pat l : chars) : bool :=
  starts_with pat l || match l with [] => false | _ :: l => contains pat l end.

(** [infer_test_fabric]: what curl printed, if it ran, and the environment. *)
Definition infer_test_fabric (curl : Result chars unit) (env_var : string → option string) : TestFabric :=
  let in_cluster := if env_var "KUBERNETES_SERVICE_HOST"%string then K8s else Plain in
  match curl with
  | Ok stdout => if contains (chr "instanceType") stdout then EC2 else in_cluster
  | Err _ => in_cluster
  end.

(** The command line. *)
Module Args.
Record t := mk {
  publish_secs : Z;
  log_file : chars;
  expected_connection_count : Z;
  expected_minimum_latency : Z;
  expected_loss_percent : Z;
  local_ip_under_test : chars;
  local_port_under_test : Z;
  remote_ip_under_test : chars;
  remote_port_under_test : Z;
}.

(** With the defaults of the optional arguments. *)
Definition with_defaults (publish_secs : Z) (log_file : chars) (expected_connection_count : Z) : t :=
  mk publish_secs log_file expected_connection_count 0 0 (chr "127.0.0.1") 8080 (chr "127.0.0.1") 8080.
End Args.

(** How the program ends: with success, or with an error. *)
Inductive Verdict :=
| Verified
| Unopened
| Failed (latest : option NfmReport.t).

Section main.
Context (values_order : gmap FlowProperties.t AggregateResults.t → list AggregateResults.t).
Context (from_str : chars → option json) (report_of : json → option NfmReport.t) (PKG_VERSION : string).

(** The loop of [main]: each turn is the time elapsed at its test, and what the log then holds. *)
Fixpoint verify_loop (verify : NfmReport.t → option bool) (timeout : Z)
    (turns : list (Z * list (Result chars unit))) (merged_report : option NfmReport.t) : option Verdict :=
  match turns with
  | [] => Some (Failed merged_report)
  | (elapsed_secs, file) :: turns =>
      if elapsed_secs <? timeout then
        merged_report ← read_and_merge_all_reports values_order from_str report_of file;
        ok ← (match merged_report with Some report => verify report | None => Some false end);
        if (ok : bool) then Some Verified else verify_loop verify timeout turns merged_report
      else Some (Failed merged_report)
  end.

(** The configuration of the command line; an address that cannot be read panics. *)
Definition config_of (args : Args.t) (test_fabric : TestFabric) : option ReportVerifierConfig.t :=
  local_ip ← parse_ip (Args.local_ip_under_test args);
  remote_ip ← parse_ip (Args.remote_ip_under_test args);
  Some {|
    ReportVerifierConfig.test_fabric := test_fabric;
    ReportVerifierConfig.expected_connection_count := Args.expected_connection_count args;
    ReportVerifierConfig.expected_minimum_latency := Args.expected_minimum_latency args;
    ReportVerifierConfig.expected_loss_percent := Args.expected_loss_percent args;
    ReportVerifierConfig.local_ip_port_under_test := IpPort.mk local_ip (Args.local_port_under_test args);
    ReportVerifierConfig.remote_ip_port_under_test := IpPort.mk remote_ip (Args.remote_port_under_test args)
  |}.

(** It might take up to publication period of time for a report to appear, but adding 10 more seconds
    to accommodate for initialization delays.  [opened] tells whether the log file can be opened. *)
Definition main (args : Args.t) (curl : Result chars unit) (env_var : string → option string) (opened : bool)
    (turns : list (Z * list (Result chars unit))) : option Verdict :=
  let test_fabric := infer_test_fabric curl env_var in
  test_config ← config_of args test_fabric;
  timeout ← checked_add u64 (Args.publish_secs args) 10;
  if opened then verify_loop (GenericReportVerifier.verify PKG_VERSION test_config) timeout turns None
  else Some Unopened.

(** The turns before the deadline. *)
Fixpoint before_deadline (timeout : Z) (turns : list (Z * list (Result chars unit))) : list (list (Result chars unit)) :=
  match turns with
  | [] => []
  | (elapsed, file) :: turns => if elapsed <? timeout then file :: before_deadline timeout turns else []
  end.

(** The loop succeeds as soon as, before the deadline, the merged reports of the log are accepted. *)
Lemma verify_loop_poll verify timeout turns latest :
  (λ v, if v is Verified then true else false) <$> verify_loop verify timeout turns latest =
    poll values_order from_str report_of verify (before_deadline timeout turns).
Proof.
  revert latest. induction turns as [|[elapsed file] turns IH]; intros latest; cbn [verify_loop before_deadline].
  { done. }
  destruct (elapsed <? timeout); [|done]. cbn [poll].
  destruct (read_and_merge_all_reports _ _ _ file) as [merged|]; [|done]. cbn [mbind option_bind].
  destruct merged as [report|]; [|apply IH]. destruct (verify report) as [[]|]; [done|apply IH|done].
Qed.

End main.

End Main.
