(* ===== verification/ReportVerifierProperties.v ===== *)
(** * ReportVerifierProperties: what a verified report means

    The round trip of a flow through the agent's log, the merge of several reports, and what the
    verifier's checks establish. *)

From stdpp Require Import base numbers gmap list strings.
From Stdlib Require Import Ascii QArith_base Qminmax Qabs Qpower.
From S2P Require Import Prelude Network ReportData NetworkEvent Text Metadata HostStats Report HostInspection.
From S2P Require Import NetworkEventFacts Kubernetes ReportVerifier.
Open Scope Z_scope.

(** ** Merging *)
Module MergeFacts.
Import NetworkStats Main.

(** The counters that are added up, and those that are left out. *)
Definition added : list (NetworkStats.t → Z) :=
  [sockets_connecting; sockets_established; sockets_closing; sockets_closed; sockets_completed; severed_connect;
   severed_establish; connect_attempts; bytes_received; bytes_delivered; segments_received; segments_delivered;
   λ s, MetricHistogram.count (connect_us s); λ s, MetricHistogram.sum (connect_us s);
   λ s, MetricHistogram.count (rtt_us s); λ s, MetricHistogram.sum (rtt_us s);
   λ s, MetricHistogram.count (rtt_smoothed_us s); λ s, MetricHistogram.sum (rtt_smoothed_us s)].
Definition left_out : list (NetworkStats.t → Z) :=
  [retrans_syn; retrans_est; retrans_close; rtos_syn; rtos_est; rtos_close].

Ltac bind_inv :=
  repeat match goal with
  | H : mbind _ ?x = Some _ |- _ => apply bind_Some in H as (? & ? & H)
  | H : Some _ = Some _ |- _ => injection H as <-
  end.

Lemma histogram_merge_spec a b c :
  MetricHistogramExt.merge_from a b = Some c →
  MetricHistogram.count c = MetricHistogram.count a + MetricHistogram.count b ∧
  MetricHistogram.sum c = MetricHistogram.sum a + MetricHistogram.sum b.
Proof.
  unfold MetricHistogramExt.merge_from. intros H. bind_inv. cbn.
  repeat match goal with H : checked_add _ _ _ = Some _ |- _ => apply checked_add_Some in H end. lia.
Qed.

Lemma merge_from_spec a b c :
  NetworkStatsExt.merge_from a b = Some c →
  Forall (λ f, f c = f a + f b) added ∧ Forall (λ f, f c = f a) left_out.
Proof.
  unfold NetworkStatsExt.merge_from. intros H. bind_inv.
  repeat match goal with
  | H : checked_add _ _ _ = Some _ |- _ => apply checked_add_Some in H as [-> _]
  | H : MetricHistogramExt.merge_from _ _ = Some _ |- _ => apply histogram_merge_spec in H as [? ?]
  end.
  unfold added, left_out. rewrite !Forall_cons, !Forall_nil. cbn. done.
Qed.

(** What a list of flows says about a flow. *)
Definition flow_stats (l : list AggregateResults.t) : gmap FlowProperties.t NetworkStats.t :=
  list_to_map ((λ a, (AggregateResults.flow a, AggregateResults.stats a)) <$> l).

Definition flows (l : list AggregateResults.t) : list FlowProperties.t := AggregateResults.flow <$> l.

(** Entries are kept under their own flow. *)
Definition keyed (m : gmap FlowProperties.t AggregateResults.t) : Prop :=
  map_Forall (λ k a, AggregateResults.flow a = k) m.

Lemma flow_stats_cons a l k :
  flow_stats (a :: l) !! k =
  if decide (k = AggregateResults.flow a) then Some (AggregateResults.stats a) else flow_stats l !! k.
Proof.
  unfold flow_stats. cbn. case_decide; subst; [by rewrite lookup_insert_eq|by rewrite lookup_insert_ne].
Qed.

Lemma flow_stats_None l k : k ∉ flows l → flow_stats l !! k = None.
Proof.
  induction l as [|a l IH]; [done|]. intros Hk. unfold flows in Hk. cbn in Hk. rewrite flow_stats_cons.
  rewrite decide_False by set_solver. apply IH. set_solver.
Qed.

Lemma keyed_insert m a : keyed m → keyed (<[AggregateResults.flow a := a]> m).
Proof. intros Hm. by apply map_Forall_insert_2. Qed.

(** The flows of the first report, collected. *)
Lemma collect_lookup l m k :
  keyed m → NoDup (flows l) →
  keyed (foldl (λ m a, <[AggregateResults.flow a := a]> m) m l) ∧
  AggregateResults.stats <$> foldl (λ m a, <[AggregateResults.flow a := a]> m) m l !! k =
  match flow_stats l !! k with Some s => Some s | None => AggregateResults.stats <$> m !! k end.
Proof.
  revert m. induction l as [|a l IH]; intros m Hm Hnd; [done|]. unfold flows in Hnd. cbn in Hnd.
  apply NoDup_cons in Hnd as [Hnot Hnd]. destruct (IH (<[AggregateResults.flow a := a]> m)) as [? Hl];
    [by apply keyed_insert|done|]. cbn [foldl]. split; [done|]. rewrite Hl, flow_stats_cons. case_decide; subst.
  - rewrite flow_stats_None by done. by rewrite lookup_insert_eq.
  - by rewrite lookup_insert_ne by done.
Qed.

(** How the statistics of a flow in two reports become those of the merged one. *)
Definition merged_stats (a b c : option NetworkStats.t) : Prop :=
  match a, b with
  | Some a, Some b => ∃ s, NetworkStatsExt.merge_from a b = Some s ∧ c = Some s
  | Some a, None => c = Some a
  | None, b => c = b
  end.

Lemma merge_flows_lookup l m m' k :
  keyed m → NoDup (flows l) → foldM merge_flow m l = Some m' →
  keyed m' ∧ merged_stats (AggregateResults.stats <$> m !! k) (flow_stats l !! k) (AggregateResults.stats <$> m' !! k).
Proof.
  revert m. induction l as [|a l IH]; intros m Hm Hnd; cbn [foldM].
  { intros [= <-]. split; [done|]. unfold merged_stats. cbn. by destruct (m !! k). }
  unfold flows in Hnd. cbn in Hnd. apply NoDup_cons in Hnd as [Hnot Hnd].
  intros (m1 & Hm1 & Hfold)%bind_Some.
  assert (keyed m1 ∧ (∀ k', k' ≠ AggregateResults.flow a → m1 !! k' = m !! k') ∧
    merged_stats (AggregateResults.stats <$> m !! AggregateResults.flow a) (Some (AggregateResults.stats a))
      (AggregateResults.stats <$> m1 !! AggregateResults.flow a)) as (Hk1 & Hother & Hhere).
  { unfold merge_flow in Hm1. destruct (m !! AggregateResults.flow a) as [e|] eqn:E.
    - apply bind_Some in Hm1 as (s & Hs & [= <-]). split_and!.
      + apply map_Forall_insert_2; [|done]. cbn. by apply Hm in E.
      + intros. by rewrite lookup_insert_ne.
      + cbn. exists s. by rewrite lookup_insert_eq.
    - injection Hm1 as <-. split_and!; [by apply keyed_insert| |cbn; by rewrite lookup_insert_eq].
      intros. by rewrite lookup_insert_ne. }
  destruct (IH m1 Hk1 Hnd Hfold) as [? Hl]. split; [done|]. rewrite flow_stats_cons. case_decide as Ek; subst.
  - rewrite flow_stats_None in Hl by done. unfold merged_stats in *.
    destruct (AggregateResults.stats <$> m !! AggregateResults.flow a).
    + destruct Hhere as (s & ? & Hs). rewrite Hs in Hl. by exists s.
    + by rewrite Hhere in Hl.
  - by rewrite Hother in Hl by done.
Qed.

(** The flows of a merged report. *)
Lemma merge_network_stats_lookup l1 l2 m k :
  NoDup (flows l1) → NoDup (flows l2) → merge_network_stats l1 l2 = Some m →
  keyed m ∧ merged_stats (flow_stats l1 !! k) (flow_stats l2 !! k) (AggregateResults.stats <$> m !! k).
Proof.
  intros H1 H2. unfold merge_network_stats. intros Hm.
  destruct (collect_lookup l1 ∅ k) as [Hk1 Hc]; [apply map_Forall_empty|done|].
  destruct (merge_flows_lookup l2 _ m k Hk1 H2 Hm) as [? Hl]. split; [done|].
  rewrite Hc, lookup_empty in Hl. by destruct (flow_stats l1 !! k).
Qed.

Lemma keyed_pairs (l : list (FlowProperties.t * AggregateResults.t)) :
  Forall (λ ka, AggregateResults.flow ka.2 = ka.1) l →
  (λ ka, (AggregateResults.flow ka.2, AggregateResults.stats ka.2)) <$> l = prod_map id AggregateResults.stats <$> l.
Proof. induction 1 as [|[k a] l Hk HF IH]; [done|]. cbn in *. by rewrite Hk, IH. Qed.

Section order.
Context (values_order : gmap FlowProperties.t AggregateResults.t → list AggregateResults.t).
Context (values_order_perm : ∀ m, values_order m ≡ₚ (map_to_list m).*2).

Lemma values_flows m : keyed m → flows (values_order m) ≡ₚ (map_to_list m).*1.
Proof.
  intros Hm. unfold flows. rewrite values_order_perm, <- list_fmap_compose.
  assert (Forall (λ ka : FlowProperties.t * AggregateResults.t, AggregateResults.flow ka.2 = ka.1) (map_to_list m)) as HF.
  { apply Forall_forall. intros [k a] Hin%elem_of_map_to_list. by apply Hm in Hin. }
  revert HF. generalize (map_to_list m) as l. induction l as [|[k a] l IH]; [done|].
  rewrite Forall_cons. cbn. intros [-> ?]. by rewrite IH.
Qed.

Lemma values_nodup m : keyed m → NoDup (flows (values_order m)).
Proof. intros Hm. rewrite values_flows by done. apply NoDup_fst_map_to_list. Qed.

Lemma values_stats m k : keyed m → flow_stats (values_order m) !! k = AggregateResults.stats <$> m !! k.
Proof.
  intros Hm. unfold flow_stats.
  rewrite (list_to_map_proper _ (prod_map id AggregateResults.stats <$> map_to_list m)).
  - by rewrite list_to_map_fmap, list_to_map_to_list, lookup_fmap.
  - rewrite <- list_fmap_compose. apply (values_nodup m Hm).
  - rewrite values_order_perm, <- list_fmap_compose. unfold compose. rewrite keyed_pairs; [done|].
    apply Forall_forall. intros [k' a] Hin%elem_of_map_to_list. by apply Hm in Hin.
Qed.

Definition report_stats (k : FlowProperties.t) (r : NfmReport.t) : option NetworkStats.t :=
  flow_stats (NfmReport.network_stats r) !! k.

(** No flow occurs twice in a report. *)
Definition distinct_flows (r : NfmReport.t) : Prop := NoDup (flows (NfmReport.network_stats r)).

Lemma merge_reports_flows r1 r2 r k :
  distinct_flows r1 → distinct_flows r2 → merge_reports values_order r1 r2 = Some r →
  distinct_flows r ∧ merged_stats (report_stats k r1) (report_stats k r2) (report_stats k r).
Proof.
  intros H1 H2 Hm. unfold merge_reports in Hm. cbv zeta in Hm. bind_inv.
  match goal with H : merge_network_stats _ _ = Some ?m |- _ =>
    pose proof (λ k, merge_network_stats_lookup _ _ m k H1 H2 H) as Hl end.
  destruct (Hl k) as [Hk Hk']. unfold distinct_flows, report_stats. cbn [NfmReport.network_stats]. split; [by apply values_nodup|].
  by rewrite (values_stats _ k Hk).
Qed.

(** The value of a counter in several reports. *)
Definition total_of (f : NetworkStats.t → Z) (k : FlowProperties.t) (r : NfmReport.t) : Z :=
  from_option f 0 (report_stats k r).

Lemma merged_totals f k r0 rs r :
  Forall distinct_flows (r0 :: rs) → foldM (merge_reports values_order) r0 rs = Some r →
  (f ∈ added → total_of f k r = Zsum (total_of f k <$> r0 :: rs)) ∧
  (f ∈ left_out → total_of f k r = from_option f 0 (head (omap (report_stats k) (r0 :: rs)))).
Proof.
  revert r0. induction rs as [|r1 rs IH]; intros r0 Hd; cbn [foldM].
  { intros [= <-]. unfold Zsum, total_of. cbn. split; [lia|]. by destruct (report_stats k r0). }
  apply Forall_cons in Hd as [Hd0 [Hd1 Hds]%Forall_cons]. intros (r01 & Hm & Hfold)%bind_Some.
  destruct (merge_reports_flows r0 r1 r01 k Hd0 Hd1 Hm) as [Hd01 Hs].
  destruct (IH r01 (Forall_cons_2 _ _ _ Hd01 Hds) Hfold) as [Ha Hl]. unfold Zsum, total_of, merged_stats in *. cbn in *.
  split; intros Hf.
  - rewrite Ha by done. destruct (report_stats k r0) as [a|], (report_stats k r1) as [b|]; cbn.
    + destruct Hs as (s & [Hadd _]%merge_from_spec & ->). rewrite Forall_forall in Hadd. cbn. rewrite (Hadd f Hf). lia.
    + rewrite Hs. cbn. lia.
    + rewrite Hs. cbn. lia.
    + rewrite Hs. cbn. lia.
  - rewrite Hl by done. destruct (report_stats k r0) as [a|], (report_stats k r1) as [b|]; cbn.
    + destruct Hs as (s & [_ Hout]%merge_from_spec & ->). rewrite Forall_forall in Hout. cbn. apply (Hout f Hf).
    + by rewrite Hs.
    + by rewrite Hs.
    + by rewrite Hs.
Qed.

End order.
End MergeFacts.

(** ** The tolerance *)
Module ToleranceFacts.
Import ReportVerifierConfig GenericReportVerifier.

Lemma within_exact actual expected q :
  (q == 0)%Q → within_abs_percent_tolerance actual expected (Finite q) = (actual =? expected).
Proof.
  intros Hq. unfold within_abs_percent_tolerance. apply eq_true_iff_eq. rewrite Qle_bool_iff, Z.eqb_eq.
  assert (inject_Z expected * (q / 100) == 0)%Q as Hz by (rewrite Hq; unfold Qdiv; ring).
  rewrite Hz. split.
  - intros Hle%Qabs_Qle_condition. destruct Hle as [H1 H2]. unfold Qle, Qminus, Qplus, Qopp, inject_Z in *. cbn in *. lia.
  - intros ->. unfold Qminus. rewrite Qplus_opp_r. done.
Qed.

(** Without expected loss a count is accepted when it is the expected one. *)
Lemma within_tolerance_exact config observed :
  expected_loss_percent config = 0 →
  within_tolerance config observed = Some (observed =? expected_connection_count config).
Proof.
  intros Hl. unfold within_tolerance, get_tolerance. rewrite Hl. cbn [checked_sub Z.leb Z.compare Z.sub mbind option_bind].
  replace (Qeq_bool _ 0) with false by (by vm_compute). rewrite within_exact; [done|]. by vm_compute.
Qed.

Lemma get_tolerance_panics config :
  get_tolerance config = None ↔ 100 < expected_loss_percent config.
Proof.
  unfold get_tolerance, checked_sub. destruct (Z.leb_spec (expected_loss_percent config) 100); cbn.
  - split; [done|lia].
  - split; [lia|done].
Qed.

(** A side that was verified was verified on one of the flows. *)
Lemma verify_flows_sound config l st st' :
  foldM (verify_flow config) st l = Some st' →
  (st'.1 = true → st.1 = true ∨ ∃ a, a ∈ l ∧ is_client_under_test config (AggregateResults.flow a) = true ∧
     verify_local_client_flow_stats config (AggregateResults.stats a) = Some true) ∧
  (st'.2 = true → st.2 = true ∨ ∃ a, a ∈ l ∧ is_server_under_test config (AggregateResults.flow a) = true ∧
     verify_remote_server_flow_stats config (AggregateResults.stats a) = Some true).
Proof.
  revert st. induction l as [|a l IH]; intros [x y]; cbn [foldM]; [intros [= <-]; auto|].
  intros ([x1 y1] & Hv & Hfold)%bind_Some. destruct (IH _ Hfold) as [IH1 IH2]. cbn in IH1, IH2 |- *.
  unfold verify_flow in Hv. apply bind_Some in Hv as (x2 & Hx & Hv). apply bind_Some in Hv as (y2 & Hy & [= <- <-]).
  split; intros Ht.
  - destruct (IH1 Ht) as [->|(b & ? & ?)]; [|right; exists b; split; [by right|done]].
    destruct (is_client_under_test config (AggregateResults.flow a)) eqn:?; [|left; congruence].
    destruct x; cbn in Hx; [by left|]. right. exists a. split; [by left|done].
  - destruct (IH2 Ht) as [->|(b & ? & ?)]; [|right; exists b; split; [by right|done]].
    destruct (is_server_under_test config (AggregateResults.flow a)) eqn:?; [|left; congruence].
    destruct y; cbn in Hy; [by left|]. right. exists a. split; [by left|done].
Qed.

(** Above 100 percent a flow under test ends the verifier. *)
Lemma verify_flows_panic config l st :
  get_tolerance config = None →
  (∃ a, a ∈ l ∧ is_client_under_test config (AggregateResults.flow a) = true ∧ st.1 = false) →
  foldM (verify_flow config) st l = None.
Proof.
  intros Ht. revert st. induction l as [|b l IH]; intros [x y] (a & Hin & Hc & Hx); cbn in Hx; subst x.
  { by apply elem_of_nil in Hin. }
  assert (∀ s, verify_local_client_flow_stats config s = None) as Hl
    by (intros s; unfold verify_local_client_flow_stats, within_tolerance; by rewrite Ht).
  cbn [foldM]. destruct (verify_flow config (false, y) b) as [[x1 y1]|] eqn:Ev; [cbn [mbind option_bind]|done].
  unfold verify_flow in Ev. destruct (is_client_under_test config (AggregateResults.flow b)) eqn:Eb.
  { cbn [negb] in Ev. by rewrite Hl in Ev. }
  apply IH. exists a. cbn [mbind option_bind] in Ev. apply bind_Some in Ev as (y' & _ & [= <- <-]). split_and!; [|done..].
  apply elem_of_cons in Hin as [->|]; [congruence|done].
Qed.

Lemma checks_spec l : checks l = true ↔ Forall (λ b, b = true) l.
Proof. unfold checks. rewrite List.forallb_forall, Forall_forall. by setoid_rewrite list_elem_of_In. Qed.

End ToleranceFacts.

(** ** Through the log and back *)
Module JsonFacts.
Import Deserialize StatsTypes.

Lemma uint_ok w n : in_range w n → uint w (json_uint n) = Some n.
Proof. unfold in_range, uint, json_uint, umax. intros Hn. destruct (Z.leb_spec 0 n), (Z.leb_spec n (2 ^ w - 1)); [done|lia..]. Qed.

Lemma member_insert key k v fields :
  member key (object_insert k v fields) = if String.eqb k key then Some v else member key fields.
Proof.
  induction fields as [|[k' v'] fields IH]; [done|]. cbn.
  destruct (String.eqb_spec k k') as [->|Hne]; cbn; [by destruct (String.eqb_spec k' key)|].
  destruct (String.ltb k k'); cbn; [done|]. rewrite IH.
  destruct (String.eqb_spec k' key), (String.eqb_spec k key); congruence.
Qed.

(** Members are found whatever their order. *)
Lemma member_to_object key fields : member key (to_object fields) = member key (rev fields).
Proof.
  induction fields as [|[k v] fields IH] using rev_ind; [done|]. unfold to_object in *.
  rewrite foldl_app, rev_app_distr. cbn. by rewrite member_insert, IH.
Qed.

(** Reading a field that was written. *)
Lemma field_ok w key fields n :
  member key (rev fields) = Some (json_uint n) → in_range w n → field w key (to_object fields) = Some n.
Proof. intros Hm Hn. unfold field. rewrite member_to_object, Hm. cbn [mbind option_bind]. by apply uint_ok. Qed.

Ltac read_fields :=
  repeat (erewrite field_ok by (first [reflexivity | assumption]); cbn [mbind option_bind]).

Lemma histogram_roundtrip h : histogram_wf h → MetricHistogram_of (json_histogram h) = Some h.
Proof.
  intros (? & ? & ? & ?). unfold json_histogram, MetricHistogram_of. read_fields. by destruct h.
Qed.

Lemma histogram_ok key fields h :
  member key (rev fields) = Some (json_histogram h) → histogram_wf h → histogram key (to_object fields) = Some h.
Proof. intros Hm Hh. unfold histogram. rewrite member_to_object, Hm. cbn [mbind option_bind]. by apply histogram_roundtrip. Qed.

Lemma stats_roundtrip s : stats_wf s → NetworkStats_of (JObject (to_object (NetworkStats.serialize s))) = Some s.
Proof.
  unfold stats_wf. rewrite !Forall_cons, !Forall_nil. intros Hw. destruct_and!. unfold NetworkStats_of.
  read_fields. repeat (erewrite histogram_ok by (first [reflexivity | eassumption]); cbn [mbind option_bind]).
  by destruct s.
Qed.

Definition without_metadata (f : FlowProperties.t) : FlowProperties.t := f <| FlowProperties.kubernetes_metadata := None |>.

Lemma flow_roundtrip ip_to_string of_metadata f :
  parse_ip (chr (ip_to_string (FlowProperties.local_address f))) = Some (FlowProperties.local_address f) →
  parse_ip (chr (ip_to_string (FlowProperties.remote_address f))) = Some (FlowProperties.remote_address f) →
  in_range u16 (FlowProperties.local_port f) → in_range u16 (FlowProperties.remote_port f) →
  FlowProperties_of of_metadata (JObject (to_object (FlowProperties.serialize ip_to_string f))) = Some (without_metadata f).
Proof.
  intros Hl Hr ??. unfold FlowProperties_of. read_fields. rewrite !member_to_object.
  cbn -[in_range parse_ip]. rewrite Hl, Hr. cbn -[in_range]. read_fields. destruct f as [[] ? ? ? ? ?]; done.
Qed.

End JsonFacts.

(** ** Properties *)
Module VerifierProperties.
Import StatsTypes MergeFacts ToleranceFacts JsonFacts ReportVerifierConfig.

(** C27: a flow that the agent writes to its log is read back by the verifier with the same addresses,
    ports and protocol and with every statistic unchanged, for values of the widths the types have;
    only the Kubernetes metadata, which is not written, is lost. *)
Theorem aggregate_json_roundtrip ip_to_string of_metadata a :
  let f := AggregateResults.flow a in
  (∀ ip, ip ∈ [FlowProperties.local_address f; FlowProperties.remote_address f] →
     parse_ip (chr (ip_to_string ip)) = Some ip) →
  in_range u16 (FlowProperties.local_port f) → in_range u16 (FlowProperties.remote_port f) →
  stats_wf (AggregateResults.stats a) →
  Deserialize.AggregateResults_of of_metadata (Deserialize.AggregateResults_to ip_to_string a) =
    Some (AggregateResults.mk (without_metadata f) (AggregateResults.stats a)).
Proof.
  intros f Hip Hl Hr Hs. unfold Deserialize.AggregateResults_of, Deserialize.AggregateResults_to.
  rewrite !member_to_object. cbn [rev app Deserialize.member String.eqb Ascii.eqb Bool.eqb mbind option_bind].
  rewrite flow_roundtrip by (try done; apply Hip; set_solver). cbn [mbind option_bind].
  by rewrite stats_roundtrip.
Qed.

Definition show_ip (ip : IpAddr.t) : string := match ip with IpAddr.V4 bits => str (show_ipv4 bits) | IpAddr.V6 _ => "" end.
Definition flow_example : FlowProperties.t :=
  FlowProperties.mk TCP (IpAddr.V4 0x0A000105) (IpAddr.V4 0xC0A80001) 0 443 (Some (FlowMetadata.mk None None)).
Definition aggregate_example : AggregateResults.t := AggregateResults.mk flow_example
  (NetworkStats.default <| NetworkStats.bytes_received := 2 ^ 40 |> <| NetworkStats.retrans_est := 3 |>).

Lemma aggregate_json_roundtrip_witness :
  Deserialize.AggregateResults_of (λ _, None) (Deserialize.AggregateResults_to show_ip aggregate_example) =
    Some (AggregateResults.mk (without_metadata flow_example) (AggregateResults.stats aggregate_example)).
Proof.
  refine (aggregate_json_roundtrip show_ip (λ _, None) aggregate_example _ _ _ _).
  - intros ip Hin. cbn in Hin. apply elem_of_cons in Hin as [->|Hin%list_elem_of_singleton]; [|subst ip].
    + by vm_compute.
    + by vm_compute.
  - by_eval.
  - by_eval.
  - unfold stats_wf, histogram_wf. rewrite !Forall_cons, !Forall_nil. split_and!; by_eval.
Defined.

(** C29: merging the reports of a log adds up, for every flow, the eighteen counters that
    [merge_from] adds: the merged value is the sum over all reports, whichever of them have the
    flow.  The six counters of retransmissions and timeouts are not added: they stay those of the
    first report that has the flow. *)
Theorem merged_report_totals values_order f k r0 rs r :
  (∀ m, values_order m ≡ₚ (map_to_list m).*2) →
  Forall distinct_flows (r0 :: rs) → foldM (Main.merge_reports values_order) r0 rs = Some r →
  (f ∈ added → total_of f k r = Zsum (total_of f k <$> r0 :: rs)) ∧
  (f ∈ left_out → total_of f k r = from_option f 0 (head (omap (report_stats k) (r0 :: rs)))).
Proof. intros. by apply (merged_totals values_order). Qed.

Definition usage_example : UsageStats.t := UsageStats.mk (1 # 2) 100 (1 # 2) 1 1.
Definition report_example (s : NetworkStats.t) : NfmReport.t :=
  (NfmReport.new (ServiceMetadata.new "" "" "") (λ _, None))
    <| NfmReport.network_stats := [AggregateResults.mk (without_metadata flow_example) s] |>
    <| NfmReport.process_stats := ProcessStats.mk CountersOverall.default [usage_example] |>.

Lemma merged_report_totals_witness :
  ∃ r, foldM (Main.merge_reports (λ m, (map_to_list m).*2))
      (report_example (NetworkStats.default <| NetworkStats.bytes_received := 5 |> <| NetworkStats.retrans_est := 1 |>))
      [report_example (NetworkStats.default <| NetworkStats.bytes_received := 7 |> <| NetworkStats.retrans_est := 4 |>)] = Some r ∧
    total_of NetworkStats.bytes_received (without_metadata flow_example) r = 12 ∧
    total_of NetworkStats.retrans_est (without_metadata flow_example) r = 1.
Proof.
  destruct (foldM _ _ _) as [r|] eqn:E; [|by vm_compute in E]. exists r. split; [done|].
  assert (Forall distinct_flows
    [report_example (NetworkStats.default <| NetworkStats.bytes_received := 5 |> <| NetworkStats.retrans_est := 1 |>);
     report_example (NetworkStats.default <| NetworkStats.bytes_received := 7 |> <| NetworkStats.retrans_est := 4 |>)]) as Hd
    by (repeat constructor; set_solver).
  split.
  - refine (proj1 (merged_report_totals (λ m, (map_to_list m).*2) NetworkStats.bytes_received
      (without_metadata flow_example) _ _ r _ Hd E) _); [done|]. unfold added. set_solver.
  - refine (proj2 (merged_report_totals (λ m, (map_to_list m).*2) NetworkStats.retrans_est
      (without_metadata flow_example) _ _ r _ Hd E) _); [done|]. unfold left_out. set_solver.
Defined.

(** What the checks of both sides establish when no loss is expected. *)
Definition exact_common (config : ReportVerifierConfig.t) (s : NetworkStats.t) : Prop :=
  let n := expected_connection_count config in
  MetricHistogram.count (NetworkStats.rtt_us s) = n ∧ MetricHistogram.count (NetworkStats.rtt_smoothed_us s) = n ∧
  NetworkStats.sockets_completed s = n ∧
  0 < NetworkStats.bytes_delivered s ∧ 0 < NetworkStats.bytes_received s ∧
  expected_minimum_latency config ≤ MetricHistogram.min (NetworkStats.rtt_us s) ∧
  expected_minimum_latency config ≤ MetricHistogram.min (NetworkStats.rtt_smoothed_us s).

Lemma common_exact config s :
  expected_loss_percent config = 0 →
  GenericReportVerifier.verify_flow_stats_common config s = Some true → exact_common config s.
Proof.
  intros Hl. unfold GenericReportVerifier.verify_flow_stats_common. rewrite !within_tolerance_exact by done.
  cbn [mbind option_bind]. intros Hc%(inj Some)%checks_spec. rewrite !Forall_cons, Forall_nil in Hc.
  unfold exact_common. lia.
Qed.

(** C30: a verified report proves the traffic that was generated.  When no loss is expected and the
    verifier accepts a report, there are a client flow and a server flow between the two ends under
    test, and both show exactly the expected number of completed connections and round-trip
    samples, no faster than the minimum latency; the client made exactly that many attempts, and
    the server none; and the agent met no error of its maps or flags and no failed report. *)
Theorem verified_report_is_exact version config report :
  expected_loss_percent config = 0 →
  GenericReportVerifier.verify version config report = Some true →
  let n := expected_connection_count config in
  ∃ client server,
    client ∈ NfmReport.network_stats report ∧ server ∈ NfmReport.network_stats report ∧
    GenericReportVerifier.is_client_under_test config (AggregateResults.flow client) = true ∧
    GenericReportVerifier.is_server_under_test config (AggregateResults.flow server) = true ∧
    (let s := AggregateResults.stats client in
     exact_common config s ∧ NetworkStats.segments_delivered s = n ∧ NetworkStats.connect_attempts s = n ∧
     MetricHistogram.count (NetworkStats.connect_us s) = n) ∧
    (let s := AggregateResults.stats server in
     exact_common config s ∧ NetworkStats.segments_received s = n ∧ NetworkStats.connect_attempts s = 0 ∧
     NetworkStats.connect_us s = MetricHistogram.default) ∧
    (let c := CountersOverall.event_related (ProcessStats.counters (NfmReport.process_stats report)) in
     EventCounters.map_insertion_errors c = 0 ∧ EventCounters.set_flags_errors c = 0 ∧ EventCounters.sockets_invalid c = 0) ∧
    NfmReport.failed_reports report = 0.
Proof.
  intros Hl Hv n. unfold GenericReportVerifier.verify, GenericReportVerifier.and_then in Hv.
  apply bind_Some in Hv as ([] & Hflows & Hv); [|done]. apply bind_Some in Hv as ([] & _ & Hv); [|done].
  apply bind_Some in Hv as ([] & _ & Hv); [|done]. apply bind_Some in Hv as ([] & Hps & Hrest); [|done]. injection Hrest as Hrest.
  apply bind_Some in Hflows as ([x y] & Hfold & [= Hxy]).
  apply verify_flows_sound in Hfold as [H1 H2]. cbn in H1, H2. apply andb_true_iff in Hxy as [-> ->].
  destruct (H1 eq_refl) as [|(client & Hc & Hcf & Hcv)]; [done|].
  destruct (H2 eq_refl) as [|(server & Hs & Hsf & Hsv)]; [done|].
  exists client, server. split_and!; [done..| | | |].
  - unfold GenericReportVerifier.verify_local_client_flow_stats in Hcv. rewrite !within_tolerance_exact in Hcv by done.
    cbn [mbind option_bind] in Hcv. destruct (GenericReportVerifier.checks _) eqn:E; [|done].
    apply checks_spec in E. rewrite !Forall_cons, Forall_nil in E. split; [by apply common_exact|]. unfold n. lia.
  - unfold GenericReportVerifier.verify_remote_server_flow_stats in Hsv. rewrite !within_tolerance_exact in Hsv by done.
    cbn [mbind option_bind] in Hsv. destruct (GenericReportVerifier.checks _) eqn:E; [|done].
    apply checks_spec in E. rewrite !Forall_cons, Forall_nil in E. split; [by apply common_exact|].
    split_and!; [unfold n; lia..|]. destruct (NetworkStats.connect_us _). unfold MetricHistogram.default. cbn in E. f_equal; lia.
  - unfold GenericReportVerifier.verify_process_stats in Hps. apply bind_Some in Hps as (u & _ & Hps%(inj Some)).
    apply andb_true_iff in Hps as [_ Hps]. unfold GenericReportVerifier.verify_counters in Hps.
    apply andb_true_iff in Hps as [Hps%checks_spec _]. rewrite !Forall_cons, Forall_nil in Hps. destruct_and!. split_and!; by apply Z.eqb_eq.
  - apply andb_true_iff in Hrest as [[_ Hrest]%andb_true_iff _]. by apply Z.eqb_eq.
Qed.

(** Where the verifier ends with a panic.  Two reports cannot be merged when one has no usage
    data, as when the agent runs with usage data off, and a report without it is not verified
    either; an expected loss above 100 percent panics on the first client flow under test; and an
    expected loss of 100 percent accepts every count of an expected connection. *)
Theorem verifier_panics version config report1 report2 values_order :
  (ProcessStats.usage (NfmReport.process_stats report1) = [] ∨ ProcessStats.usage (NfmReport.process_stats report2) = [] →
   Main.merge_reports values_order report1 report2 = None) ∧
  (ProcessStats.usage (NfmReport.process_stats report1) = [] →
   GenericReportVerifier.verify version config report1 ≠ Some true) ∧
  (100 < expected_loss_percent config →
   Exists (λ a, GenericReportVerifier.is_client_under_test config (AggregateResults.flow a) = true)
     (NfmReport.network_stats report1) →
   GenericReportVerifier.verify version config report1 = None) ∧
  (expected_loss_percent config = 100 → expected_connection_count config ≠ 0 →
   ∀ observed, GenericReportVerifier.within_tolerance config observed = Some true).
Proof.
  split_and!.
  - unfold Main.merge_reports. cbv zeta. intros [->| ->]; [done|]. by destruct (ProcessStats.usage _).
  - intros Hu Hv. unfold GenericReportVerifier.verify, GenericReportVerifier.and_then in Hv.
    do 3 (apply bind_Some in Hv as ([] & _ & Hv); [|done]). unfold GenericReportVerifier.verify_process_stats in Hv.
    by rewrite Hu in Hv.
  - intros Hl (a & Hin & Ha)%Exists_exists. unfold GenericReportVerifier.verify, GenericReportVerifier.and_then,
      GenericReportVerifier.verify_network_flow_stats.
    rewrite verify_flows_panic; [done|by apply get_tolerance_panics|by exists a].
  - intros Hl Hn observed. unfold GenericReportVerifier.within_tolerance, GenericReportVerifier.get_tolerance. rewrite Hl. cbn.
    f_equal. apply negb_true_iff, Z.eqb_neq. done.
Qed.

(** A run with three connections from a client to a server on the same host. *)
Definition localhost : IpAddr.t := IpAddr.V4 0x7F000001.
Definition config_example (loss : Z) : ReportVerifierConfig.t :=
  ReportVerifierConfig.mk Plain 3 10 loss (IpPort.mk localhost 8080) (IpPort.mk localhost 8080).
Definition three_samples : MetricHistogram.t := MetricHistogram.mk 3 10 12 33.
Definition client_stats : NetworkStats.t := NetworkStats.mk 0 0 0 0 3 0 0 3 100 200 3 3 0 0 0 0 0 0
  three_samples three_samples three_samples.
Definition server_stats : NetworkStats.t := NetworkStats.mk 0 0 0 0 3 0 0 0 200 100 3 3 0 0 0 0 0 0
  MetricHistogram.default three_samples three_samples.
Definition counters_example : CountersOverall.t := CountersOverall.mk
  (EventCounters.mk 3 3 3 9 9 0 0 0 27 0 0 0 0 0) (ProcessCounters.mk 0 6 0 0 6 0 0 6 0 0 6 0 0).
Definition accepted_report : NfmReport.t :=
  (NfmReport.new (ServiceMetadata.new PROJECT_NAME "1.0" "") (λ _, None))
    <| NfmReport.network_stats :=
         [AggregateResults.mk (FlowProperties.mk TCP localhost localhost 0 8080 None) client_stats;
          AggregateResults.mk (FlowProperties.mk TCP localhost localhost 8080 0 None) server_stats] |>
    <| NfmReport.process_stats := ProcessStats.mk counters_example [usage_example] |>
    <| NfmReport.env_metadata :=
         [("instance-id", ReportValue.String ""); ("instance-type", ReportValue.String "");
          ("compute_platform", ReportValue.String
             (RuntimeEnvironmentMetadataProvider.platform_to_string RuntimeEnvironmentMetadataProvider.Ec2Plain))]%string |>.

Lemma verified_report_is_exact_witness :
  ∃ client, client ∈ NfmReport.network_stats accepted_report ∧
    NetworkStats.connect_attempts (AggregateResults.stats client) = 3.
Proof.
  destruct (verified_report_is_exact "1.0" (config_example 0) accepted_report)
    as (client & _ & Hin & _ & _ & _ & (_ & _ & Hn & _) & _).
  - reflexivity.
  - vm_compute. reflexivity.
  - by exists client.
Defined.

Lemma verifier_panics_witness :
  Main.merge_reports (λ m, (map_to_list m).*2) accepted_report
    (accepted_report <| NfmReport.process_stats := ProcessStats.default |>) = None ∧
  GenericReportVerifier.verify "1.0" (config_example 101) accepted_report = None ∧
  GenericReportVerifier.within_tolerance (config_example 100) 12345 = Some true.
Proof.
  split_and!.
  - apply (verifier_panics "1.0" (config_example 0)). by right.
  - apply (verifier_panics "1.0" (config_example 101) accepted_report accepted_report (λ m, (map_to_list m).*2));
      [done|]. left. reflexivity.
  - by apply (verifier_panics "1.0" (config_example 100) accepted_report accepted_report (λ m, (map_to_list m).*2)).
Defined.

End VerifierProperties.
