(* ===== verification/LoadGenerator.v ===== *)
(** * LoadGenerator: the traffic that the agent is tested with

    Models load-generator: tcp-tester-common/src/lib.rs (the configuration of a flow and the keys of
    its maps), tcp-tester-bpf/src/main.rs (the eBPF programs that condition the packets of a flow),
    and tcp-tester: the set-up, connection, exchange and pacing of the client, the echo server and the
    tasks of main.  What namespaces, sockets and aya answer is an argument.  A packet is its bytes; a load beyond its end fails.  The clock and
    the random numbers of the kernel are arguments.  Arithmetic in the eBPF program wraps around. *)

From stdpp Require Import base numbers gmap list strings.
From Stdlib Require Import Ascii.
From S2P Require Import Prelude Network BpfMaps Text.
Open Scope Z_scope.

(** ** tcp-tester-common *)

Inductive Direction := INGRESS | EGRESS.

#[global] Instance Direction_eq_dec : EqDecision Direction.
Proof. solve_decision. Defined.

Module SocketKey.

Record t := mk {
  cookie : Z;
  direction : Direction;
  _pad : list Z;
}.

#[global] Instance eq_dec : EqDecision t.
Proof. solve_decision. Defined.

#[global] Instance countable : Countable t.
Proof.
  refine (inj_countable' (λ k, (cookie k, match direction k with INGRESS => true | EGRESS => false end, _pad k))
    (λ '(a, b, c), mk a (if b then INGRESS else EGRESS) c) _). by intros [? [] ?].
Defined.

Definition new (cookie : Z) (direction : Direction) : t := mk cookie direction (replicate 7 0).

Definition reverse (self : t) : t :=
  mk (cookie self) (if bool_decide (direction self = INGRESS) then EGRESS else INGRESS) (replicate 7 0).

End SocketKey.

Module FlowKey.

Record t := mk {
  sip : Z;
  dip : Z;
  sport : Z;
  dport : Z;
}.

#[global] Instance eq_dec : EqDecision t.
Proof. solve_decision. Defined.

#[global] Instance countable : Countable t.
Proof.
  refine (inj_countable' (λ k, (sip k, dip k, sport k, dport k)) (λ '(a, b, c, d), mk a b c d) _). by intros [].
Defined.

Definition reverse (self : t) : t := mk (dip self) (sip self) (dport self) (sport self).

End FlowKey.

Module DelayConditioner.
Record t := mk { count : Z; offset : Z; jitter : Z }.
End DelayConditioner.

Module ClassifyConditioner.
Record t := mk { classid : Z }.
End ClassifyConditioner.

Module DropPacketConditioner.
Record t := mk { count : Z; range : Z }.
#[global] Instance eta_t : Eta t := λ r, mk (count r) (range r).
End DropPacketConditioner.

Module Selector.
Record t := mk { data_offset_min : Z; data_offset_max : Z; flags : Z }.
End Selector.

Inductive Conditioner :=
| Delay (d : DelayConditioner.t)
| DropPacket (d : DropPacketConditioner.t)
| Classify (c : ClassifyConditioner.t).

Module FlowConfig.
Record t := mk { selector : Selector.t; conditioner : Conditioner }.
#[global] Instance eta_t : Eta t := λ r, mk (selector r) (conditioner r).
End FlowConfig.

(** ** tcp-tester-bpf *)

Module FlowState.
Record t := mk { start_seq : Z; config : FlowConfig.t }.
#[global] Instance eta_t : Eta t := λ r, mk (start_seq r) (config r).
End FlowState.

(** The two maps. *)
Module TesterMaps.

Record t := mk {
  FLOW_CONFIG : SharedHashMap.t FlowKey.t FlowState.t;
  SOCKET_CONFIG : SharedHashMap.t SocketKey.t FlowConfig.t;
}.

#[global] Instance eta_t : Eta t := λ r, mk (FLOW_CONFIG r) (SOCKET_CONFIG r).

Definition new : t := mk (SharedHashMap.with_max_entries 1024) (SharedHashMap.with_max_entries 1024).

End TesterMaps.

Module TcpState.

Inductive t :=
| TCP_ESTABLISHED
| TCP_SYN_SENT
| TCP_SYN_RECV
| TCP_FIN_WAIT1
| TCP_FIN_WAIT2
| TCP_TIME_WAIT
| TCP_CLOSE
| TCP_CLOSE_WAIT
| TCP_LAST_ACK
| TCP_LISTEN
| TCP_CLOSING
| TCP_NEW_SYN_RECV.

#[global] Instance eq_dec : EqDecision t.
Proof. solve_decision. Defined.

(** The discriminants. *)
Definition discriminant (s : t) : Z :=
  match s with
  | TCP_ESTABLISHED => 1
  | TCP_SYN_SENT => 2
  | TCP_SYN_RECV => 3
  | TCP_FIN_WAIT1 => 4
  | TCP_FIN_WAIT2 => 5
  | TCP_TIME_WAIT => 6
  | TCP_CLOSE => 7
  | TCP_CLOSE_WAIT => 8
  | TCP_LAST_ACK => 9
  | TCP_LISTEN => 10
  | TCP_CLOSING => 11
  | TCP_NEW_SYN_RECV => 12
  end.

Definition from (val : Z) : option t :=
  match val with
  | 1 => Some TCP_ESTABLISHED
  | 2 => Some TCP_SYN_SENT
  | 3 => Some TCP_SYN_RECV
  | 4 => Some TCP_FIN_WAIT1
  | 5 => Some TCP_FIN_WAIT2
  | 6 => Some TCP_TIME_WAIT
  | 7 => Some TCP_CLOSE
  | 8 => Some TCP_CLOSE_WAIT
  | 9 => Some TCP_LAST_ACK
  | 10 => Some TCP_LISTEN
  | 11 => Some TCP_CLOSING
  | 12 => Some TCP_NEW_SYN_RECV
  | _ => None
  end.

Definition state_str (self : t) : string :=
  match self with
  | TCP_ESTABLISHED => "TCP_ESTABLISHED"
  | TCP_SYN_SENT => "TCP_SYN_SENT"
  | TCP_SYN_RECV => "TCP_SYN_RECV"
  | TCP_FIN_WAIT1 => "TCP_FIN_WAIT1"
  | TCP_FIN_WAIT2 => "TCP_FIN_WAIT2"
  | TCP_TIME_WAIT => "TCP_TIME_WAIT"
  | TCP_CLOSE => "TCP_CLOSE"
  | TCP_CLOSE_WAIT => "TCP_CLOSE_WAIT"
  | TCP_LAST_ACK => "TCP_LAST_ACK"
  | TCP_LISTEN => "TCP_LISTEN"
  | TCP_CLOSING => "TCP_CLOSING"
  | TCP_NEW_SYN_RECV => "TCP_NEW_SYN_RECV"
  end.

(** [copy_from_slice!]: the bytes at [size], if they fit. *)
Definition copy_from_slice (buf : list Z) (size : nat) (value : list Z) : option (list Z * nat) :=
  if bool_decide (size + length value <= length buf)%nat then
    Some (take size buf ++ value ++ drop (size + length value) buf, (size + length value)%nat)
  else None.

(** [tag] is the number of [Argument::Str] in aya-log-common; the length is in the byte order of the
    (little-endian) machine. *)
Definition write (tag : Z) (self : t) (buf : list Z) : option (list Z * nat) :=
  let text := code <$> chr (state_str self) in
  let len := Z.of_nat (length text) in
  let wire_len := if len <=? umax u16 then Some [len mod 256; len / 256] else None in
  wire_len ← wire_len;
  '(buf, size) ← copy_from_slice buf 0 [tag];
  '(buf, size) ← copy_from_slice buf size wire_len;
  '(buf, size) ← copy_from_slice buf size text;
  if bool_decide (size = 0%nat) then None else Some (buf, size).

End TcpState.

(** *** The socket program *)
Module SockOpsProgram.
Import TesterMaps.

Definition get_socket_config (m : t) (key : SocketKey.t) : option FlowConfig.t :=
  SharedHashMap.get (SOCKET_CONFIG m) key.

Definition get_socket_key (ctx : SockOpsContext.t) (direction : Direction) : SocketKey.t :=
  SocketKey.new (SockOpsContext.cookie ctx) direction.

Definition get_flow_key (ctx : SockOpsContext.t) : FlowKey.t := {|
  FlowKey.sip := SockContext.from_be32 (SockOpsContext.local_ip4 ctx);
  FlowKey.dip := SockContext.from_be32 (SockOpsContext.remote_ip4 ctx);
  FlowKey.sport := SockOpsContext.local_port ctx;
  FlowKey.dport := SockContext.from_be32 (SockOpsContext.remote_port ctx)
|}.

(** The configuration of one direction moves from the socket to the flow; a full map loses it. *)
Definition move_config (m : t) (socket_key : SocketKey.t) (flow_key : FlowKey.t) : t :=
  match get_socket_config m socket_key with
  | Some config =>
      let state := FlowState.mk 0 config in
      m <| FLOW_CONFIG ::= λ f, (SharedHashMap.insert f flow_key state 0).2 |>
        <| SOCKET_CONFIG ::= λ s, (SharedHashMap.remove s socket_key).2 |>
  | None => m
  end.

(** [None] is an unknown state. *)
Definition handle_sockops (m : t) (ctx : SockOpsContext.t) : option Z * t :=
  if SockOpsContext.op ctx =? BPF_SOCK_OPS_TCP_CONNECT_CB then
    let ingress_socket_key := get_socket_key ctx INGRESS in
    let egress_socket_key := SocketKey.reverse ingress_socket_key in
    let egress_key := get_flow_key ctx in
    let ingress_key := FlowKey.reverse egress_key in
    let m := move_config m egress_socket_key egress_key in
    let m := move_config m ingress_socket_key ingress_key in
    (Some 0, m)
  else if SockOpsContext.op ctx =? BPF_SOCK_OPS_STATE_CB then
    match TcpState.from (nth 0 (SockOpsContext.args ctx) 0) with
    | None => (None, m)
    | Some old_state =>
        match TcpState.from (nth 1 (SockOpsContext.args ctx) 0) with
        | None => (None, m)
        | Some new_state =>
            if bool_decide (new_state = TcpState.TCP_CLOSE) then
              let egress_key := get_flow_key ctx in
              let ingress_key := FlowKey.reverse egress_key in
              let m := m <| FLOW_CONFIG ::= λ f, (SharedHashMap.remove f ingress_key).2 |> in
              let m := m <| FLOW_CONFIG ::= λ f, (SharedHashMap.remove f egress_key).2 |> in
              (Some 0, m)
            else (Some 0, m)
        end
    end
  else (Some 0, m).

Definition tcp_tester_sockops (m : t) (ctx : SockOpsContext.t) : Z * t :=
  let '(val, m) := handle_sockops m ctx in (from_option id 0 val, m).

End SockOpsProgram.

(** *** The packet program *)
Module TcProgram.
Import TesterMaps.

Definition TC_ACT_OK : Z := 0.
Definition TC_ACT_SHOT : Z := 2.
Definition TC_ACT_PIPE : Z := 3.

Definition EthHdr_LEN : nat := 14.
Definition Ipv4Hdr_LEN : nat := 20.
Definition TcpHdr_LEN : nat := 20.

(** [ctx.load] of a header. *)
Definition load (packet : list Z) (offset len : nat) : option (list Z) :=
  if bool_decide (offset + len <= length packet)%nat then Some (take len (drop offset packet)) else None.

(** [from_be] of the bytes at an offset of a header. *)
Definition be (header : list Z) (offset len : nat) : Z :=
  foldl (λ acc b, acc * 256 + b) 0 (take len (drop offset header)).

(** What the program writes to the packet's metadata. *)
Inductive mark :=
| tc_classid (classid : Z)
| tstamp (ns : Z).

(** The conditioner's action on a packet, its new state, and the mark. *)
Definition condition (ktime prandom : Z) (conditioner : Conditioner) : Z * Conditioner * option mark :=
  match conditioner with
  | Classify classify => (TC_ACT_PIPE, conditioner, Some (tc_classid (ClassifyConditioner.classid classify)))
  | DropPacket drop =>
      if 0 <? DropPacketConditioner.count drop then
        (TC_ACT_SHOT,
         DropPacket (drop <| DropPacketConditioner.count := wrapping_sub u32 (DropPacketConditioner.count drop) 1 |>), None)
      else (TC_ACT_PIPE, conditioner, None)
  | Delay delay =>
      let jitter := wrap u64 ((prandom mod 1000) * DelayConditioner.jitter delay) / 1000 in
      let ts := wrapping_add u64 (wrapping_add u64 ktime (DelayConditioner.offset delay)) jitter in
      (TC_ACT_PIPE, conditioner, Some (tstamp ts))
  end.

(** The flow of a packet and its sequence number: [Err] when a header is cut off, [Ok None] when it
    is not TCP over IPv4. *)
Definition parse_packet (packet : list Z) : Result (option (FlowKey.t * Z)) unit :=
  match load packet 0 EthHdr_LEN with
  | None => Err tt
  | Some ethhdr =>
      if negb (be ethhdr 12 2 =? 0x0800) then Ok None
      else
        match load packet EthHdr_LEN Ipv4Hdr_LEN with
        | None => Err tt
        | Some ipv4hdr =>
            let sip := be ipv4hdr 12 4 in
            let dip := be ipv4hdr 16 4 in
            if negb (be ipv4hdr 9 1 =? 6) then Ok None
            else
              match load packet (EthHdr_LEN + Ipv4Hdr_LEN) TcpHdr_LEN with
              | None => Err tt
              | Some tcphdr =>
                  Ok (Some (FlowKey.mk sip dip (be tcphdr 0 2) (be tcphdr 2 2), be tcphdr 4 4))
              end
        end
  end.

Definition get_config (m : t) (key : FlowKey.t) : option FlowKey.t :=
  SharedHashMap.get_ptr_mut (FLOW_CONFIG m) key.

(** Store the first sequence number we see so we can reference an offset from that. *)
Definition note_sequence (tcp_seq : Z) (state : FlowState.t) : FlowState.t :=
  if FlowState.start_seq state =? 0 then state <| FlowState.start_seq := tcp_seq |> else state.

Definition try_tc_egress (ktime prandom : Z) (m : t) (packet : list Z) : Result (Z * option mark) unit * t :=
  match parse_packet packet with
  | Err e => (Err e, m)
  | Ok None => (Ok (TC_ACT_PIPE, None), m)
  | Ok (Some (key, tcp_seq)) =>
      match get_config m key with
      | Some ptr =>
          let m := m <| FLOW_CONFIG ::= λ f, SharedHashMap.write f ptr (note_sequence tcp_seq) |> in
          match SharedHashMap.get (FLOW_CONFIG m) ptr with
          | Some state =>
              let '(action, conditioner, mark) :=
                condition ktime prandom (FlowConfig.conditioner (FlowState.config state)) in
              (Ok (action, mark),
               m <| FLOW_CONFIG ::= λ f, SharedHashMap.write f ptr (λ s,
                      s <| FlowState.config ::= λ c, c <| FlowConfig.conditioner := conditioner |> |>) |>)
          | None => (Ok (TC_ACT_PIPE, None), m)
          end
      | None => (Ok (TC_ACT_PIPE, None), m)
      end
  end.

(** The action, and the mark, of a packet. *)
Definition tcp_tester_tc_egress (ktime prandom : Z) (m : t) (packet : list Z) : Z * option mark * t :=
  match try_tc_egress ktime prandom m packet with
  | (Ok (ret, mark), m) => (ret, mark, m)
  | (Err _, m) => (TC_ACT_SHOT, None, m)
  end.

End TcProgram.

(** ** tcp-tester *)
Inductive ClientSocketError :=
| SocketError (errno : Z)
| IoError
| NsError.

(** os/mod.rs: [getsockopt] of the cookie returns -1 with an error, or has written the value. *)
Definition SoCookie_get (ret val errno : Z) : Result Z Z := if ret =? -1 then Err errno else Ok val.

(** ebpf_loader.rs: an object that cannot be loaded is an error, a logger that cannot be set up is a
    panic. *)
Definition load_ebpf_program {Ebpf : Type} (load : Result Ebpf string) (logger_init : Result unit string) :
    option (Result Ebpf string) :=
  match load with
  | Ok ebpf_program => match logger_init with Err _ => None | Ok _ => Some (Ok ebpf_program) end
  | Err error => Some (Err error)
  end.

Module Client.

(** [ClientSocketBuilder::connect] up to the connection: the configurations of both directions;
    [None] is the panic of a full map. *)
Definition configure_socket (m : TesterMaps.t) (cookie : Result Z Z) (egress_config ingress_config : FlowConfig.t) :
    option (Result unit ClientSocketError * TesterMaps.t) :=
  match cookie with
  | Err errno => Some (Err (SocketError errno), m)
  | Ok cookie =>
      match SharedHashMap.insert (TesterMaps.SOCKET_CONFIG m) (SocketKey.new cookie INGRESS) ingress_config 0 with
      | (Err _, _) => None
      | (Ok _, s) =>
          match SharedHashMap.insert s (SocketKey.new cookie EGRESS) egress_config 0 with
          | (Err _, _) => None
          | (Ok _, s) => Some (Ok tt, m <| TesterMaps.SOCKET_CONFIG := s |>)
          end
      end
  end.

(** The microseconds between two connections; [None] is the panic of a rate of zero, or of a timer
    with an empty period. *)
Definition micros_per_txn (rate : Z) : option Z :=
  if rate =? 0 then None
  else let micros := 1000000 / rate in if micros =? 0 then None else Some micros.

(** A connection: writing, which the client unwraps ([None] is an error), and reading an exact
    number of bytes. *)
Class Stream (S : Type) := {
  write_all : S → list Z → option S;
  read_exact : S → nat → Result (list Z) unit * S;
}.

Definition BUFFER_LEN : nat := 2048.

(** [fill_bytes] of the beginning of the buffer. *)
Definition fill_bytes (bytes data : list Z) : list Z := bytes ++ drop (length bytes) data.

(** [send_random_data] for the bytes it draws: one packet per element, with the responses it reads.
    The whole buffer is written, whatever the length drawn. *)
Fixpoint send_packets {S : Type} `{Stream S} (draws : list (list Z)) (data : list Z) (s : S) :
    option (list (Result (list Z) unit) * S) :=
  match draws with
  | [] => Some ([], s)
  | bytes :: draws =>
      let data := fill_bytes bytes data in
      s ← write_all s data;
      let '(response, s) := read_exact s (length bytes) in
      '(responses, s) ← send_packets draws data s;
      Some (response :: responses, s)
  end.

Definition send_random_data {S : Type} `{Stream S} (draws : list (list Z)) (s : S) :
    option (list (Result (list Z) unit) * S) :=
  send_packets draws (replicate BUFFER_LEN 0) s.

(** *** Connecting *)

(** What the namespaces and sockets answer.  Entering the namespace and every call of the socket can
    fail; the socket itself must be there.  [so_cookie] is what [SoCookie_get] returns. *)
Record sockets (S : Type) := mk_sockets {
  netns_get : string → bool;
  netns_run : bool;
  new_v4 : bool;
  try_clone_to_owned : bool;
  so_cookie : Result Z Z;
  set_reuseaddr : bool;
  set_reuseport : bool;
  connect_to : Z → option S;
  shutdown : S → bool;
}.
Arguments mk_sockets {S} _ _ _ _ _ _ _ _ _.
Arguments netns_get {S} _ _.
Arguments netns_run {S} _.
Arguments new_v4 {S} _.
Arguments try_clone_to_owned {S} _.
Arguments so_cookie {S} _.
Arguments set_reuseaddr {S} _.
Arguments set_reuseport {S} _.
Arguments connect_to {S} _ _.
Arguments shutdown {S} _ _.

Section client.
Context {S : Type} (net : sockets S).

(** [socket.connect(addr).await?], to a port of the server. *)
Definition connected (port : Z) : Result S ClientSocketError :=
  match connect_to net port with Some stream => Ok stream | None => Err IoError end.

Definition connect_sans_tc (port : Z) : option (Result S ClientSocketError) :=
  if negb (netns_run net) then Some (Err NsError)
  else if negb (new_v4 net) then None
  else if negb (set_reuseaddr net) then Some (Err IoError)
  else if negb (set_reuseport net) then Some (Err IoError)
  else Some (connected port).

(** [ClientSocketBuilder::connect], on the map of the loaded program. *)
Definition connect (m : TesterMaps.t) (port : Z) (egress_config ingress_config : FlowConfig.t) :
    option (Result S ClientSocketError * TesterMaps.t) :=
  if negb (netns_run net) then Some (Err NsError, m)
  else if negb (new_v4 net) then None
  else if negb (try_clone_to_owned net) then Some (Err IoError, m)
  else
    '(configured, m) ← configure_socket m (so_cookie net) egress_config ingress_config;
    match configured with
    | Err error => Some (Err error, m)
    | Ok _ => Some (connected port, m)
    end.

(** *** Loading the programs *)

Inductive AttachMode := Single | AllowMultiple.

(** A link from 5.7.0 on. *)
Definition get_attach_mode (major minor : Z) : AttachMode :=
  if (5 <? major) || ((major =? 5) && (7 <=? minor)) then Single else AllowMultiple.

(** The calls of [setup_ebpf] in order; [LoadEbpf] is [load_ebpf_program].  Those that add a queueing discipline may fail, the others are
    unwrapped. *)
Inductive SetupCall :=
| LoadEbpf
| GetNs (name : string)
| QdiscAddClsact (iface : string)
| LoadProgram (name : string)
| AttachTc (iface : string) (egress : bool)
| AttachCgroup (path : string) (mode : AttachMode).

Definition CLIENT_NAMESPACE : string := "nfm-perf-test-client".
Definition TCP_TESTER_NAMESPACE : string := "nfm-perf-test-tcp-tester".

Definition setup_calls (cgroup_path : string) (mode : AttachMode) : list SetupCall :=
  [LoadEbpf; GetNs TCP_TESTER_NAMESPACE; QdiscAddClsact "i2"; QdiscAddClsact "i3";
   LoadProgram "tcp_tester_tc_egress"; AttachTc "i2" true; AttachTc "i3" false;
   LoadProgram "tcp_tester_sockops"; AttachCgroup cgroup_path mode].

Definition unwrapped (c : SetupCall) : bool := if c is QdiscAddClsact _ then false else true.

(** The maps of the program loaded; [None] is the panic of a call that fails. *)
Definition setup_ebpf (call_ok : SetupCall → bool) (version : Z * Z) (cgroup_path : string) : option TesterMaps.t :=
  let calls := setup_calls cgroup_path (get_attach_mode version.1 version.2) in
  if forallb (λ c, negb (unwrapped c) || call_ok c) calls then Some TesterMaps.new else None.

(** *** A client *)

Context `{Stream S}.
Context (call_ok : SetupCall → bool) (version : Z * Z) (read_config : string → option FlowConfig.t).

Inductive Action :=
| Attached (cgroup_path : string)
| Connected
| Detached
| DataSent (responses : list (Result (list Z) unit))
| ShutDown
| ConnectFailed (error : ClientSocketError).

(** The connection, shaped or not.  The loaded programs belong to the block that connects, at the end
    of which they are detached. *)
Definition client_stream (port : Z) (enable_traffic_shaping : bool) (cgroup_path config_file_path : string) :
    option (Result S ClientSocketError * list Action) :=
  if enable_traffic_shaping then
    m ← setup_ebpf call_ok version cgroup_path;
    config ← read_config config_file_path;
    '(stream_result, _) ← connect m port config config;
    let outcome := match stream_result with Ok _ => [Connected] | Err _ => [] end in
    Some (stream_result, [Attached cgroup_path] ++ outcome ++ [Detached])
  else
    stream_result ← connect_sans_tc port;
    Some (stream_result, match stream_result with Ok _ => [Connected] | Err _ => [] end).

Definition run_client (draws : list (list Z)) (port : Z) (enable_traffic_shaping send_data : bool)
    (cgroup_path config_file_path : string) : option (list Action) :=
  _ ← (if netns_get net CLIENT_NAMESPACE then Some tt else None);
  '(stream_result, actions) ← client_stream port enable_traffic_shaping cgroup_path config_file_path;
  match stream_result with
  | Ok stream =>
      '(sent, stream) ← (if send_data then
                           '(responses, stream) ← send_random_data draws stream;
                           Some ([DataSent responses], stream)
                         else Some ([], stream));
      if shutdown net stream then Some (actions ++ sent ++ [ShutDown]) else None
  | Err error => Some (actions ++ [ConnectFailed error])
  end.

End client.

(** One turn of the loop of [start_client_at_rate]: a client is spawned; the number spawned is logged
    and starts again when it reaches the rate.  [None] is the overflow of the counter. *)
Definition spawn_turn (rate num_spawned : Z) : option (option Z * Z) :=
  num_spawned ← checked_add u32 num_spawned 1;
  Some (if num_spawned =? rate then (Some num_spawned, 0) else (None, num_spawned)).

(** The pause between clients, and what the first turns log. *)
Fixpoint spawn_turns (turns : nat) (rate num_spawned : Z) : option (list Z * Z) :=
  match turns with
  | O => Some ([], num_spawned)
  | Datatypes.S turns =>
      '(logged, num_spawned) ← spawn_turn rate num_spawned;
      '(rest, num_spawned) ← spawn_turns turns rate num_spawned;
      Some (option_list logged ++ rest, num_spawned)
  end.

Definition start_client_at_rate (turns : nat) (rate : Z) : option (Z * list Z) :=
  duration ← micros_per_txn rate;
  '(logged, _) ← spawn_turns turns rate 0;
  Some (duration, logged).

End Client.

Module Server.

(** [handle_client] of server.rs: what is read is written back until the connection is closed, which
    is a read of nothing, or fails.  [write_ok] tells which writes succeed. *)
Fixpoint handle_client (write_ok : list Z → bool) (reads : list (Result (list Z) unit)) : list Z :=
  match reads with
  | [] => []
  | Ok [] :: _ => []
  | Ok chunk :: reads => if write_ok chunk then chunk ++ handle_client write_ok reads else []
  | Err _ :: _ => []
  end.

(** [server]: the calls before its loop, all unwrapped; then every connection accepted is served by
    [handle_client].  [None] is a panic, which a failing [accept] is too. *)
Inductive ServerCall :=
| GetNamespace (name : string)
| NewSocketInNamespace
| Bind (port : Z)
| SetReuseaddr
| Listen (backlog : Z).

Definition SERVER_NAMESPACE : string := "nfm-perf-test-server".

Definition server (call_ok : ServerCall → bool) (port : Z)
    (accepted : list (option ((list Z → bool) * list (Result (list Z) unit)))) : option (list (list Z)) :=
  if forallb call_ok [GetNamespace SERVER_NAMESPACE; NewSocketInNamespace; Bind port; SetReuseaddr; Listen 1024]
  then mapM (fmap (λ '(write_ok, reads), handle_client write_ok reads)) accepted else None.

End Server.

Module TesterMain.

(** The ports of the servers, which wrap around. *)
Definition server_ports (servers starting_port : Z) : list Z :=
  (λ i, wrapping_add u16 starting_port (Z.of_nat i)) <$> seq 0 (Z.to_nat servers).

Inductive OnOff := On | Off.
Definition is_on (o : OnOff) : bool := if o is On then true else false.
Definition display (o : OnOff) : string := match o with On => "on" | Off => "off" end.

(** The command line with its defaults. *)
Record Params := mk_params {
  servers : Z;
  connection_rate : Z;
  response_delay_ms : Z;
  starting_port : Z;
  traffic_shaping : OnOff;
  send_data : OnOff;
  cgroup_path : string;
  config_file_path : string;
}.

Definition default_params : Params :=
  mk_params 1 1 0 8080 Off Off "/mnt/cgroup2" "tcp-tester/src/config/packet_loss.json".

(** What [main] spawns, in order: for every server its task and one client. *)
Inductive Task :=
| ServerTask (port response_delay_ms : Z)
| ClientTask (rate port : Z) (enable_traffic_shaping send_data : bool) (cgroup_path config_file_path : string).

Definition clients_per_server : nat := 1.

Definition main (params : Params) : list Task :=
  port ← server_ports (servers params) (starting_port params);
  ServerTask port (response_delay_ms params) ::
    replicate clients_per_server
      (ClientTask (connection_rate params) port (is_on (traffic_shaping params)) (is_on (send_data params))
         (cgroup_path params) (config_file_path params)).

End TesterMain.
