(* ===== verification/LoadGeneratorProperties.v ===== *)
(** * LoadGeneratorProperties: what the conditioned traffic looks like

    Exactly the configured packets of a flow are dropped, and the configuration of a connection
    lives from its start to its end; the client of the tester lags behind the echo it waits for. *)

From stdpp Require Import base numbers gmap list strings.
From Stdlib Require Import Ascii.
From S2P Require Import Prelude Network BpfMaps Text LoadGenerator.
Open Scope Z_scope.

Module TesterFacts.
Import TesterMaps TcProgram SockOpsProgram.

(** The state of a flow. *)
Definition flow_state (m : TesterMaps.t) (k : FlowKey.t) : option FlowState.t := SharedHashMap.data (FLOW_CONFIG m) !! k.

(** The flow of a packet. *)
Definition flow_of (packet : list Z) : option FlowKey.t :=
  match parse_packet packet with Ok (Some (k, _)) => Some k | _ => None end.

(** The packets that pass, with the action on each. *)
Fixpoint run_packets (m : TesterMaps.t) (packets : list (Z * Z * list Z)) : list (list Z * Z) * TesterMaps.t :=
  match packets with
  | [] => ([], m)
  | (ktime, prandom, packet) :: packets =>
      let '(action, _, m) := tcp_tester_tc_egress ktime prandom m packet in
      let '(actions, m) := run_packets m packets in
      ((packet, action) :: actions, m)
  end.

(** The actions on the packets of one flow. *)
Definition actions_of (k : FlowKey.t) (l : list (list Z * Z)) : list Z :=
  omap (λ '(packet, action), if bool_decide (flow_of packet = Some k) then Some action else None) l.

(** How many packets of a flow are still to be dropped. *)
Definition to_drop (m : TesterMaps.t) (k : FlowKey.t) : option Z :=
  s ← flow_state m k;
  match FlowConfig.conditioner (FlowState.config s) with
  | DropPacket d => Some (DropPacketConditioner.count d)
  | _ => None
  end.

(** One packet: its own flow's state changes, and no other. *)
Lemma packet_step ktime prandom m packet k c :
  to_drop m k = Some c → in_range u32 c →
  let '(action, _, m') := tcp_tester_tc_egress ktime prandom m packet in
  if bool_decide (flow_of packet = Some k) then
    action = (if 0 <? c then TC_ACT_SHOT else TC_ACT_PIPE) ∧ to_drop m' k = Some (if 0 <? c then c - 1 else c)
  else to_drop m' k = Some c.
Proof.
  intros Hc Hr. unfold tcp_tester_tc_egress, try_tc_egress, flow_of.
  destruct (parse_packet packet) as [[[key tcp_seq]|]|]; cbn; [|done..].
  unfold to_drop, flow_state in *. apply bind_Some in Hc as (s & Hs & Hc).
  unfold get_config, SharedHashMap.get_ptr_mut, SharedHashMap.get.
  destruct (SharedHashMap.data (FLOW_CONFIG m) !! key) as [s0|] eqn:E; cbn.
  2:{ rewrite bool_decide_eq_false_2 by congruence. by rewrite Hs. }
  rewrite lookup_alter_eq, E. cbn.
  assert (FlowState.config (note_sequence tcp_seq s0) = FlowState.config s0) as Hn
    by (unfold note_sequence; by destruct (_ =? _)).
  rewrite Hn. case_bool_decide as Ek.
  - simplify_eq. destruct (FlowConfig.conditioner (FlowState.config s)) as [|d|]; [done| |done]. injection Hc as <-.
    cbn. destruct (Z.ltb_spec 0 (DropPacketConditioner.count d)); cbn; rewrite !lookup_alter_eq, Hs; cbn; split; try done.
    f_equal. apply wrapping_sub_exact; [lia|done].
  - assert (key ≠ k) by congruence. destruct (condition _ _ _) as [[action cond] mk]. cbn.
    by rewrite !lookup_alter_ne, Hs by done.
Qed.

Lemma run_packets_drop m packets k c :
  to_drop m k = Some c → in_range u32 c →
  let '(actions, m') := run_packets m packets in
  let n := length (actions_of k actions) in
  actions_of k actions =
    replicate (Z.to_nat c `min` n) TC_ACT_SHOT ++ replicate (n - Z.to_nat c) TC_ACT_PIPE ∧
  to_drop m' k = Some (Z.max 0 (c - Z.of_nat n)).
Proof.
  revert m c. induction packets as [|[[ktime prandom] packet] packets IH]; intros m c Hc Hr; cbn [run_packets].
  { unfold in_range in Hr. cbn. rewrite Nat.min_0_r. split; [done|]. rewrite Hc. f_equal. lia. }
  pose proof (packet_step ktime prandom m packet k c Hc Hr) as Hstep.
  destruct (tcp_tester_tc_egress ktime prandom m packet) as [[action mk] m1].
  unfold in_range in Hr.
  case_bool_decide as Ek.
  - destruct Hstep as [-> Hc1].
    specialize (IH m1 _ Hc1). destruct (run_packets m1 packets) as [actions m'].
    destruct IH as [Ha Hd]; [unfold in_range; destruct (Z.ltb_spec 0 c); lia|].
    unfold actions_of in *. cbn. rewrite bool_decide_eq_true_2 by done. cbn. rewrite Hd.
    set (n := length _) in *. rewrite Ha. destruct (Z.ltb_spec 0 c).
    + replace (Z.to_nat c `min` S n)%nat with (S (Z.to_nat (c - 1) `min` n)) by lia.
      replace (S n - Z.to_nat c)%nat with (n - Z.to_nat (c - 1))%nat by lia. split; [done|f_equal; lia].
    + replace c with 0 by lia. cbn. rewrite Nat.sub_0_r. split; [done|f_equal; lia].
  - specialize (IH m1 _ Hstep). destruct (run_packets m1 packets) as [actions m'].
    destruct IH as [Ha Hd]; [done|]. unfold actions_of in *. cbn. rewrite bool_decide_eq_false_2 by done. by split.
Qed.

(** The configuration of a socket in one direction. *)
Definition socket_config (m : TesterMaps.t) (k : SocketKey.t) : option FlowConfig.t :=
  SharedHashMap.data (SOCKET_CONFIG m) !! k.

Lemma move_config_spec m sk fk :
  let m' := move_config m sk fk in
  socket_config m' sk = None ∧
  (∀ sk', sk' ≠ sk → socket_config m' sk' = socket_config m sk') ∧
  (∀ fk', fk' ≠ fk → flow_state m' fk' = flow_state m fk') ∧
  match socket_config m sk with
  | Some config =>
      (is_Some (flow_state m fk) ∨ SharedHashMap.has_room (FLOW_CONFIG m) = true →
       flow_state m' fk = Some (FlowState.mk 0 config)) ∧
      (flow_state m fk = None → SharedHashMap.has_room (FLOW_CONFIG m) = false → flow_state m' fk = None)
  | None => m' = m
  end.
Proof.
  cbv zeta. unfold move_config, get_socket_config, SharedHashMap.get, socket_config, flow_state.
  destruct (SharedHashMap.data (SOCKET_CONFIG m) !! sk) as [config|] eqn:E; [|done]. cbn.
  unfold SharedHashMap.remove, SharedHashMap.insert, SharedHashMap.has_room. rewrite E. cbn.
  split; [apply lookup_delete_eq|]. split; [intros; by rewrite lookup_delete_ne|].
  change (Z.land 0 BPF_EXIST) with 0. change (Z.land 0 BPF_NOEXIST) with 0. cbn.
  destruct (SharedHashMap.data (FLOW_CONFIG m) !! fk) as [s|] eqn:Ef.
  - rewrite bool_decide_eq_true_2 by eauto. cbn. split; [intros; by rewrite lookup_insert_ne|].
    split; [by rewrite lookup_insert_eq|done].
  - rewrite bool_decide_eq_false_2 by (by intros []). cbn.
    destruct (SharedHashMap.capacity (FLOW_CONFIG m) <=? _); cbn.
    + split; [done|]. split; [|done]. intros [[]|]; done.
    + split; [intros; by rewrite lookup_insert_ne|]. split; [by rewrite lookup_insert_eq|done].
Qed.

Lemma reverse_ne k : SocketKey.reverse (SocketKey.new k INGRESS) = SocketKey.new k EGRESS.
Proof. done. Qed.

Lemma config_remove_lookup {K V} `{Countable K} (f : SharedHashMap.t K V) k k' :
  SharedHashMap.data (SharedHashMap.remove f k).2 !! k' =
  if decide (k' = k) then None else SharedHashMap.data f !! k'.
Proof.
  unfold SharedHashMap.remove. destruct (SharedHashMap.data f !! k) eqn:E; cbn; case_decide; subst;
    by rewrite ?lookup_delete_eq, ?lookup_delete_ne by done.
Qed.

End TesterFacts.

(** ** Properties *)
Module TesterProperties.
Import TesterMaps TcProgram SockOpsProgram TesterFacts.

(** C36: a flow that is to lose [c] packets loses exactly its first [c]: whatever packets of other
    flows, other protocols or damaged ones come in between, the first [c] packets of the flow are
    dropped and all later ones pass, and the state records how many are still to be dropped. *)
Theorem drops_first_packets m packets k c :
  to_drop m k = Some c → in_range u32 c →
  let '(actions, m') := run_packets m packets in
  let n := length (actions_of k actions) in
  actions_of k actions =
    replicate (Z.to_nat c `min` n) TC_ACT_SHOT ++ replicate (n - Z.to_nat c) TC_ACT_PIPE ∧
  to_drop m' k = Some (Z.max 0 (c - Z.of_nat n)).
Proof. apply run_packets_drop. Qed.

(** A TCP packet from 10.0.0.1:5000 to 2.2.2.2:8080, and one that is not IPv4. *)
Definition eth_header (ether_type : list Z) : list Z := replicate 12 0 ++ ether_type.
Definition tcp_packet : list Z :=
  eth_header [0x08; 0x00] ++ [0x45; 0; 0; 40; 0; 0; 0; 0; 64; 6; 0; 0; 10; 0; 0; 1; 2; 2; 2; 2] ++
  [0x13; 0x88; 0x1f; 0x90; 0; 0; 0; 9] ++ replicate 12 0.
Definition tester_key : FlowKey.t := FlowKey.mk 0x0A000001 0x02020202 5000 8080.
Definition drop_config (count : Z) : FlowConfig.t :=
  FlowConfig.mk (Selector.mk 0 0 0) (DropPacket (DropPacketConditioner.mk count 0)).
Definition dropping (count : Z) : TesterMaps.t :=
  TesterMaps.new <| FLOW_CONFIG ::= λ f, (SharedHashMap.insert f tester_key (FlowState.mk 0 (drop_config count)) 0).2 |>.

Lemma drops_first_packets_witness :
  let packets := [(0, 0, tcp_packet); (0, 0, eth_header [0x86; 0xdd]); (0, 0, tcp_packet); (0, 0, [1; 2]); (0, 0, tcp_packet)] in
  actions_of tester_key (run_packets (dropping 2) packets).1 = [TC_ACT_SHOT; TC_ACT_SHOT; TC_ACT_PIPE] ∧
  to_drop (run_packets (dropping 2) packets).2 tester_key = Some 0.
Proof.
  cbv zeta. pose proof (drops_first_packets (dropping 2)
    [(0, 0, tcp_packet); (0, 0, eth_header [0x86; 0xdd]); (0, 0, tcp_packet); (0, 0, [1; 2]); (0, 0, tcp_packet)]
    tester_key 2 ltac:(by vm_compute) ltac:(by_eval)) as Hd.
  destruct (run_packets _ _) as [actions m'] eqn:E. destruct Hd as [Ha Hm]. cbn [fst snd].
  assert (length (actions_of tester_key actions) = 3%nat) as Hn
    by (vm_compute in E; injection E as <- _; by vm_compute).
  rewrite Ha, Hm, Hn. done.
Defined.

(** The configuration of a connection lives as long as the connection.  When it starts, the
    configurations set for its socket move to the flows of the two directions, provided the map has
    room, and are gone from the socket either way; when it ends, neither direction has one.  No
    other socket or flow is affected, and the maps never outgrow their capacity. *)
Theorem flow_config_lifecycle m ctx :
  let ingress := SocketKey.new (SockOpsContext.cookie ctx) INGRESS in
  let egress := SocketKey.new (SockOpsContext.cookie ctx) EGRESS in
  let out := get_flow_key ctx in
  let back := FlowKey.reverse out in
  let m' := (handle_sockops m ctx).2 in
  (SockOpsContext.op ctx = BPF_SOCK_OPS_TCP_CONNECT_CB →
    socket_config m' ingress = None ∧ socket_config m' egress = None ∧
    (∀ k, k ≠ ingress → k ≠ egress → socket_config m' k = socket_config m k) ∧
    (∀ k, k ≠ out → k ≠ back → flow_state m' k = flow_state m k) ∧
    (∀ config, out ≠ back → socket_config m egress = Some config →
       is_Some (flow_state m out) ∨ SharedHashMap.has_room (FLOW_CONFIG m) = true →
       flow_state m' out = Some (FlowState.mk 0 config))) ∧
  (SockOpsContext.op ctx = BPF_SOCK_OPS_STATE_CB →
    is_Some (TcpState.from (nth 0 (SockOpsContext.args ctx) 0)) →
    TcpState.from (nth 1 (SockOpsContext.args ctx) 0) = Some TcpState.TCP_CLOSE →
    flow_state m' out = None ∧ flow_state m' back = None ∧ SOCKET_CONFIG m' = SOCKET_CONFIG m ∧
    ∀ k, k ≠ out → k ≠ back → flow_state m' k = flow_state m k) ∧
  (SharedHashMap.bounded (FLOW_CONFIG m) → SharedHashMap.bounded (SOCKET_CONFIG m) →
    SharedHashMap.bounded (FLOW_CONFIG m') ∧ SharedHashMap.bounded (SOCKET_CONFIG m')).
Proof.
  cbv zeta. split; [|split].
  - intros Hop. unfold handle_sockops. rewrite Hop. cbn [Z.eqb Pos.eqb snd fst].
    change (get_socket_key ctx INGRESS) with (SocketKey.new (SockOpsContext.cookie ctx) INGRESS). rewrite reverse_ne.
    set (ingress := SocketKey.new _ INGRESS). set (egress := SocketKey.new _ EGRESS).
    set (out := get_flow_key ctx). set (back := FlowKey.reverse out).
    assert (ingress ≠ egress) as Hne by done.
    destruct (move_config_spec m egress out) as (E1 & E2 & E3 & E4). set (m1 := move_config m egress out) in *.
    destruct (move_config_spec m1 ingress back) as (I1 & I2 & I3 & I4). split_and!; [done|..].
    + rewrite I2 by done. done.
    + intros k ??. by rewrite I2, E2.
    + intros k ??. by rewrite I3, E3.
    + intros config ? Hc Hroom. rewrite I3 by done. rewrite Hc in E4. by apply E4.
  - intros Hop [old Hold] Hnew. unfold handle_sockops. rewrite Hop, Hold, Hnew. cbn. rewrite bool_decide_eq_true_2 by done. cbn.
    unfold flow_state. cbn. split_and!; [..|done|].
    + rewrite !config_remove_lookup. by rewrite decide_True.
    + rewrite !config_remove_lookup. case_decide; [done|]. by rewrite decide_True.
    + intros k ??. rewrite !config_remove_lookup. by rewrite !decide_False.
  - intros Hf Hs. assert (∀ m sk fk, SharedHashMap.bounded (FLOW_CONFIG m) → SharedHashMap.bounded (SOCKET_CONFIG m) →
      SharedHashMap.bounded (FLOW_CONFIG (move_config m sk fk)) ∧
      SharedHashMap.bounded (SOCKET_CONFIG (move_config m sk fk))) as Hmove.
    { intros m0 sk fk ??. unfold move_config. destruct (get_socket_config m0 sk); [|done]. cbn.
      split; [by apply SharedHashMap.insert_bounded|by apply SharedHashMap.remove_bounded]. }
    unfold handle_sockops. repeat case_match; cbn; try done.
    + apply Hmove; by apply Hmove.
    + split; [|done]. by apply SharedHashMap.remove_bounded, SharedHashMap.remove_bounded.
Qed.

Definition connect_ctx : SockOpsContext.t :=
  SockOpsContext.default <| SockOpsContext.op := BPF_SOCK_OPS_TCP_CONNECT_CB |> <| SockOpsContext.cookie := 7 |>
    <| SockOpsContext.local_ip4 := 0x0100000A |> <| SockOpsContext.remote_ip4 := 0x02020202 |>
    <| SockOpsContext.local_port := 5000 |> <| SockOpsContext.remote_port := 0x901f0000 |>.
Definition configured : TesterMaps.t :=
  TesterMaps.new <| SOCKET_CONFIG ::= λ s, (SharedHashMap.insert s (SocketKey.new 7 EGRESS) (drop_config 2) 0).2 |>.

Lemma flow_config_lifecycle_witness :
  flow_state (handle_sockops configured connect_ctx).2 tester_key = Some (FlowState.mk 0 (drop_config 2)) ∧
  socket_config (handle_sockops configured connect_ctx).2 (SocketKey.new 7 EGRESS) = None.
Proof.
  destruct (flow_config_lifecycle configured connect_ctx) as [H _].
  destruct (H ltac:(reflexivity)) as (_ & He & _ & _ & Hc). split; [|exact He].
  apply (Hc (drop_config 2)); [by vm_compute|by vm_compute|right; by vm_compute].
Defined.

End TesterProperties.

(** ** The echo *)
Module EchoProperties.
Import Client.

(** The server sends back exactly what it read before the connection ended. *)
Lemma echo_exact chunks rest :
  Forall (λ c, c ≠ []) chunks →
  Server.handle_client (λ _, true) (map Ok chunks ++ Ok [] :: rest) = mjoin chunks.
Proof. induction 1 as [|[] chunks ? _ IH]; [done|done|]. cbn. by rewrite IH. Qed.

(** A connection to the echo server, by the bytes that were sent back and not read yet.  A read of
    more bytes than these does not end. *)
Record Echo := mk_echo { unread : list Z }.

#[global] Instance echo_stream : Stream Echo := {
  write_all self bytes := Some (mk_echo (unread self ++ bytes));
  read_exact self n :=
    if (n <=? length (unread self))%nat then (Ok (take n (unread self)), mk_echo (drop n (unread self)))
    else (Err tt, self);
}.

(** The buffers written. *)
Fixpoint written (draws : list (list Z)) (data : list Z) : list (list Z) :=
  match draws with
  | [] => []
  | bytes :: draws => let data := fill_bytes bytes data in data :: written draws data
  end.

Lemma fill_bytes_length bytes data : (length bytes ≤ length data)%nat → length (fill_bytes bytes data) = length data.
Proof. intros. unfold fill_bytes. rewrite length_app, length_drop. lia. Qed.

(** The client lags behind the echo.  Every packet gets a response, the responses are a prefix of
    all that was written, and each packet leaves the rest of its buffer unread: from the second
    packet on, the response is not the echo of that packet. *)
Theorem client_lags draws data s :
  Forall (λ bytes, (length bytes ≤ length data)%nat) draws →
  ∃ responses s', send_packets draws data s = Some (map Ok responses, s') ∧
    length <$> responses = length <$> draws ∧
    unread s ++ mjoin (written draws data) = mjoin responses ++ unread s' ∧
    (length (unread s') = length (unread s) + foldr Nat.add 0 ((λ bytes, length data - length bytes) <$> draws))%nat.
Proof.
  intros Hall. revert s. remember (length data) as n eqn:Hn. revert data Hn.
  induction Hall as [|bytes draws Hb _ IH]; intros data Hn s; cbn [send_packets].
  { exists [], s. cbn. rewrite app_nil_r. split_and!; [done..|lia]. }
  subst n. cbn [write_all echo_stream mbind option_bind read_exact unread].
  rewrite (proj2 (Nat.leb_le _ _)) by (rewrite length_app, fill_bytes_length by done; lia).
  pose proof (fill_bytes_length bytes data Hb) as Hf.
  destruct (IH (fill_bytes bytes data) (eq_sym Hf) (mk_echo (drop (length bytes) (unread s ++ fill_bytes bytes data))))
    as (responses & s' & Hs & Hlen & Happ & Hun).
  rewrite Hs. cbn [mbind option_bind].
  exists (take (length bytes) (unread s ++ fill_bytes bytes data) :: responses), s'. split_and!; [done|..].
  - cbn. rewrite Hlen, length_take, length_app, Hf. f_equal. lia.
  - cbn [written]. assert (∀ (x : list Z) l, mjoin (x :: l) = x ++ mjoin l) as Hj by done.
    rewrite !Hj. cbn [unread] in Happ.
    rewrite <- (app_assoc (take _ _)), <- Happ, !app_assoc. by rewrite take_drop.
  - rewrite Hun. cbn -[fill_bytes]. rewrite length_drop, length_app, Hf. lia.
Qed.

End EchoProperties.

(** ** Pacing and shaping *)
Module ClientFacts.
Import Client.

(** The number spawned stays below the rate, and each full round of clients is logged once. *)
Lemma spawn_turns_spec turns rate k :
  0 ≤ k < rate → rate ≤ umax u32 →
  spawn_turns turns rate k =
    Some (replicate (Z.to_nat ((k + Z.of_nat turns) / rate)) rate, (k + Z.of_nat turns) mod rate).
Proof.
  revert k. induction turns as [|turns IH]; intros k Hk Hr; cbn [spawn_turns].
  { rewrite Z.add_0_r, Z.div_small, Z.mod_small by lia. done. }
  unfold spawn_turn. rewrite (proj2 (checked_add_Some u32 k 1 (k + 1))) by lia. cbn [mbind option_bind].
  destruct (Z.eqb_spec (k + 1) rate) as [<-|Hne]; cbn [mbind option_bind].
  - rewrite IH by lia. cbn [mbind option_bind option_list app].
    replace (k + Z.of_nat (S turns)) with (0 + Z.of_nat turns + 1 * (k + 1)) by lia.
    rewrite Z.div_add, Z.mod_add by lia.
    assert (0 ≤ (0 + Z.of_nat turns) / (k + 1)) by (apply Z.div_pos; lia).
    by rewrite Z2Nat.inj_add, Nat.add_comm by lia.
  - rewrite IH by lia. cbn [mbind option_bind option_list app]. by replace (k + 1 + Z.of_nat turns) with (k + Z.of_nat (S turns)) by lia.
Qed.

(** With shaping on, the programs are detached before the client sends any data. *)
Lemma shaping_ends_before_data {S : Type} `{Stream S} (net : sockets S) call_ok version read_config draws port send
    cgroup_path config_file_path actions :
  run_client net call_ok version read_config draws port true send cgroup_path config_file_path = Some actions →
  ∃ before after, actions = before ++ Detached :: after ∧ ∀ responses, DataSent responses ∉ before.
Proof.
  unfold run_client, client_stream. intros (_ & _ & H1)%bind_Some.
  apply bind_Some in H1 as ([r acts] & Hc & H1).
  apply bind_Some in Hc as (m & _ & Hc). apply bind_Some in Hc as (config & _ & Hc).
  apply bind_Some in Hc as ([r' m'] & _ & [= <- <-]).
  exists ([Attached cgroup_path] ++ match r' with Ok _ => [Connected] | Err _ => [] end).
  destruct r' as [stream|e]; [|injection H1 as <-; eexists; split; [reflexivity|]; set_solver].
  apply bind_Some in H1 as ([sent stream'] & _ & H1). destruct (shutdown net stream'); [|done].
  injection H1 as <-. eexists. split; [reflexivity|]. set_solver.
Qed.

End ClientFacts.
