(* ===== verification/Traits.v ===== *)
(** * Traits: the interfaces the main loop is generic over

    [do_work] of nfm-controller/src/lib.rs takes its components behind traits, so that its test can
    run it over components that only count calls.  Each trait is a class; [I] is the type of what the
    outside answers while a method of the component runs (map contents, command outputs, iteration
    orders), which an implementation chooses.  The components of the agent are the instances below;
    the traits [NatResolver], [ReportPublisher] and [Clock] are with their implementations. *)

From stdpp Require Import base numbers gmap list strings.
From S2P Require Import Prelude Network BpfMaps ReportData NetworkEvent EventFilter NatResolver EventProvider.
From S2P Require Import Text Metadata HostStats.

(** ** event_provider.rs *)
Class EventProvider (I P : Type) := {
  perform_aggregation_cycle {R : Type} `{NatResolver R} : I → P → R → option (P * R);
  network_stats : I → P → list AggregateResults.t * P;
  counters : P → CountersOverall.t * P;
  socket_count : P → Z;
  ebpf_allocated_mem_kb : P → Z;
}.

(** ** event_filter.rs *)
Class EventFilter (A F : Type) := filter_events : F → list A → list A * F.

(** ** env_metadata_provider.rs *)
Class EnvMetadataProvider (I M : Type) := {
  refresh : I → M → M;
  get_metadata : M → EnvMetadata.t;
}.

Class MultiMetadataProvider (I M : Type) `{EnvMetadataProvider I M} := {
  get_network_devices : I → M → list NetworkDevice.t * M;
}.

(** ** host_stats_provider.rs *)
Class HostStatsProvider (I H : Type) := {
  set_network_devices : I → H → list NetworkDevice.t → H;
  get_stats : I → H → option (HostStats.t * H);
}.

(** ** The components of the agent *)

(** What the kernel maps hold and yield during a cycle, and the orders in which hash maps are
    visited. *)
Module ProviderInputs.
Record t := mk {
  cycle_reads : EventProviderEbpf.reads;
  cycle_orders : EventProviderEbpf.orders;
  per_cpu_counters : list EventCounters.t;
  bpf_sock_props : SharedHashMap.t CpuSockKey.t SockContext.t;
  bpf_sock_stats : SharedHashMap.t CpuSockKey.t SockStats.t;
  flows_order : gmap FlowProperties.t AggregateResults.t → list (FlowProperties.t * AggregateResults.t);
}.

(** The provider over the maps as the kernel has left them. *)
Definition current_maps (i : t) (self : EventProviderEbpf.t) : EventProviderEbpf.t :=
  self <| EventProviderEbpf.nfm_counters := per_cpu_counters i |>
       <| EventProviderEbpf.ebpf_sock_props := bpf_sock_props i |>
       <| EventProviderEbpf.ebpf_sock_stats := bpf_sock_stats i |>.
End ProviderInputs.

#[global] Instance event_provider_ebpf : EventProvider ProviderInputs.t EventProviderEbpf.t := {
  perform_aggregation_cycle R _ i self nat_resolver :=
    EventProviderEbpf.perform_aggregation_cycle (ProviderInputs.cycle_reads i) (ProviderInputs.cycle_orders i)
      (ProviderInputs.current_maps i self) nat_resolver;
  network_stats i self :=
    EventProviderEbpf.network_stats self (ProviderInputs.flows_order i (EventProviderEbpf.flow_cache self));
  counters := EventProviderEbpf.counters;
  socket_count := EventProviderEbpf.socket_count;
  ebpf_allocated_mem_kb := EventProviderEbpf.ebpf_allocated_mem_kb;
}.

#[global] Instance event_filter_top_loss : EventFilter AggregateResults.t EventFilterTopLoss.t :=
  λ self events, (EventFilterTopLoss.filter_events self events, self).

(** The metadata service, the machine id file, [ip link] and the check for virtual interfaces. *)
Module MetadataInputs.
Record t := mk {
  imds_get : chars → Result chars unit;
  machine_id_file : Result chars unit;
  ip_link : Result chars unit;
  is_virtual : chars → Result bool unit;
}.
End MetadataInputs.

#[global] Instance env_metadata_provider_impl : EnvMetadataProvider MetadataInputs.t MultiMetadataProvider.t := {
  refresh i self :=
    MultiMetadataProvider.refresh (MetadataInputs.imds_get i) (MetadataInputs.machine_id_file i) self;
  get_metadata := MultiMetadataProvider.get_metadata;
}.

#[global] Instance multi_metadata_provider_impl : MultiMetadataProvider MetadataInputs.t MultiMetadataProvider.t := {
  get_network_devices i self :=
    (MultiMetadataProvider.get_network_devices (MetadataInputs.ip_link i) (MetadataInputs.is_virtual i) self, self);
}.

(** [ethtool], and the order in which the deltas are drained. *)
Module HostInputs.
Record t := mk {
  ethtool : chars → Result chars unit;
  stats_order : gmap NetworkDevice.t NetworkInterfaceStats.t → list (NetworkDevice.t * NetworkInterfaceStats.t);
}.
End HostInputs.

#[global] Instance host_stats_provider_impl :
    HostStatsProvider HostInputs.t (gmap NetworkDevice.t NetworkInterfaceStats.t) := {
  set_network_devices i self devices := HostStatsProviderImpl.set_network_devices (HostInputs.ethtool i) self devices;
  get_stats i self := HostStatsProviderImpl.get_stats (HostInputs.ethtool i) (HostInputs.stats_order i) self;
}.
