(* ===== verification/Agent.v ===== *)
(** * Agent: the main loop

    Models [do_work] of nfm-controller/src/lib.rs (and the kernel check, and cpu.rs's usage ratio):
    registering the periodic events and the signals, and one turn of the loop.  As in the source the
    loop is generic over its components, through the classes of Traits.v.  What the outside answers
    during a turn is the record [inputs]: the time that has passed, the random generator and exit
    flag for the timer, what each component asks for, the pods known at that moment, the clocks and
    memory of the process and the transport of reports.  The watchers of the Kubernetes API are in
    Kubernetes.v; logging is left out. *)

From stdpp Require Import base numbers gmap list strings.
From Stdlib Require Import QArith_base.
From S2P Require Import Prelude Network BpfMaps SockCache ReportData NetworkEvent EventFilter NatResolver EventProvider.
From S2P Require Import Timer Text Metadata HostStats Report Publisher Kubernetes Traits.
Open Scope Z_scope.

(** [KernelVersion]s are ordered lexicographically; at least 5.8.0 is needed. *)
Definition check_kernel_version (major minor patch : Z) : bool :=
  (5 <? major) || ((major =? 5) && ((8 <? minor) || ((minor =? 8) && (0 <=? patch)))).

(** ** [CpuUsageMonitor] of cpu.rs *)
Module CpuUsageMonitor.

Record t := mk { process_start : timespec.t; boot_start : timespec.t; num_cpus : positive }.

(** The kernel's clocks at the start, and the number of cores. *)
Definition start (clock_gettime : Z → Result timespec.t unit) (num_cpus : positive) : t :=
  mk (process_now clock_gettime) (boot_now clock_gettime) num_cpus.

Section at_a_time.
(** The kernel's clocks when the monitor is read. *)
Context (clock_gettime : Z → Result timespec.t unit).

(** The user and system time consumed by the process across all logical cores since the start. *)
Definition process_duration (self : t) : option timespec.t :=
  clock_delta (process_now clock_gettime) (process_start self).

(** The time that has elapsed since the start. *)
Definition total_duration (self : t) : option timespec.t := clock_delta (boot_now clock_gettime) (boot_start self).

(** The quotients of the floating-point numbers are exact here; [None] is the panic of a clock that
    went backwards. *)
Definition usage_ratio (self : t) : option Q :=
  consumed ← (process_duration self ≫= timespec_to_nsec);
  elapsed ← (total_duration self ≫= timespec_to_nsec);
  Some (Qdiv (Qdiv (inject_Z consumed) (inject_Z (Z.pos (num_cpus self)))) (inject_Z elapsed)).

End at_a_time.
End CpuUsageMonitor.

(** [OnOff] is [bool], [On] being [true]; this is its [Display]. *)
Definition on_off_to_string (b : bool) : string := if b then "on" else "off".

(** The command line; those of the feature-gated OpenMetrics server are in
    Startup.v. *)
Module Options.

Record t := mk {
  cgroup : string;
  top_k : Z;
  notrack_secs : Z;
  usage_data : bool;
  aggregate_msecs : Z;
  publish_secs : Z;
  jitter_secs : Z;
  endpoint : string;
  endpoint_region : string;
  proxy : string;
  log_reports : bool;
  publish_reports : bool;
  report_compression : ReportPublisherOTLP.ReportCompression;
  kubernetes_metadata : bool;
  resolve_nat : bool;
}.

(** [default_value]s. *)
Definition default : t :=
  mk "/sys/fs/cgroup/unified" 500 65 true 500 30 5 "" "" "" false true ReportPublisherOTLP.Gzip false false.

(** The ranges the argument parser enforces. *)
Definition valid (o : t) : Prop :=
  0 ≤ top_k o ∧ 1 ≤ notrack_secs o ≤ 600 ∧ 100 ≤ aggregate_msecs o ≤ 60000 ∧
  1 ≤ publish_secs o ≤ 600 ∧ 0 ≤ jitter_secs o ≤ 600.

End Options.

(** The signals that end the loop. *)
Definition SIGINT : Z := 2.
Definition SIGQUIT : Z := 3.
Definition SIGTERM : Z := 15.

Module Agent.
Section agent.
Context {R : Type} `{NatResolver R} {T : Type} `{Clock T}.
Context {IP P : Type} `{EventProvider IP P} {F : Type} `{EventFilter AggregateResults.t F}.
Context {IM M : Type} `{MultiMetadataProvider IM M} {IS S : Type} `{HostStatsProvider IS S}.
Context {Pub E : Type}.
Context (service : ServiceMetadata.t) (env_var : string → option string).

Record t := mk {
  provider : P;
  nat_resolver : R;
  event_filter : F;
  publisher : Pub;
  metadata_provider : M;
  host_stats_provider : S;
  k8s_metadata_collector : Watchers.t;
  cpu_monitor : CpuUsageMonitor.t;
  timer : EventTimer.t T;
  failed_reports_count : Z;
  usage_stats : UsageStats.t;
  aggregate_event : Z;
  publish_event : Z;
  resolve_nat_event : Z;
}.

#[global] Instance eta_t : Eta t := λ r,
  mk (provider r) (nat_resolver r) (event_filter r) (publisher r) (metadata_provider r) (host_stats_provider r)
    (k8s_metadata_collector r) (cpu_monitor r) (timer r) (failed_reports_count r) (usage_stats r)
    (aggregate_event r) (publish_event r) (resolve_nat_event r).

Definition usage_default : UsageStats.t := UsageStats.mk 0 0 0 0 0.

(** What the outside answers while the loop is set up: whether the handler of a signal can be
    registered, what the watchers find, the random generator, the clocks and the number of cores. *)
Record setup_inputs := mk_setup_inputs {
  register_signal : Z → bool;
  surroundings : Watchers.surroundings;
  setup_gen_range : Z → Z;
  setup_clocks : Z → Result timespec.t unit;
  num_cpus : positive;
}.

(** What the outside answers during one turn. *)
Record inputs := mk_inputs {
  (** What the time spent since the last turn has made of the clock. *)
  time_passed : T → T;
  tie : nat;
  gen_range : Z → Z;
  exit_flag : nat → bool;
  provider_in : IP;
  metadata_in : IM;
  host_in : IS;
  pods : gmap IpAddr.t (gmap Z PodInfo.t);
  pods_order : gmap Z PodInfo.t → list PodInfo.t;
  (** The clocks when the usage is computed, and when the monitor is started again. *)
  usage_clocks : Z → Result timespec.t unit;
  restart_clocks : Z → Result timespec.t unit;
  mem_used_kb : Z;
  mem_used_ratio : Q;
  transport : ReportPublisher Pub E;
}.

(** What a turn of the loop did. *)
Inductive outcome :=
| Exited
| Aggregated
| Published (report : NfmReport.t) (success : bool) (effects : list E)
| NatRefreshed
| UnknownEvent.

(** Registering the periodic events, the signals that end the loop and the watchers. *)
Definition setup (opt : Options.t) (i : setup_inputs) (clock : T) (prov : P) (nat : R) (filter : F) (publisher : Pub)
    (metadata : M) (host : S) (collector : Watchers.t) : option t :=
  let gen := setup_gen_range i in
  let monitor := CpuUsageMonitor.start (setup_clocks i) (num_cpus i) in
  let tm := EventTimer.new clock in
  '(agg_id, tm) ← EventTimer.add_event gen tm (Options.aggregate_msecs opt * 1000) 0;
  '(pub_id, tm) ← EventTimer.add_event gen tm (Options.publish_secs opt * 1000000)
                              (Options.jitter_secs opt * 1000000);
  '(nat_id, tm) ← (
    if Options.resolve_nat opt then
      EventTimer.add_event_with_delay gen tm (100 * 1000) 0 (50 * 1000)
    else Some (UNKNOWN_EVENT, tm));
  (* Register POSIX signals for which we want to exit gracefully. *)
  _ ← (if forallb (register_signal i) [SIGINT; SIGQUIT; SIGTERM] then Some tt else None);
  collector ← (if Options.kubernetes_metadata opt then Watchers.setup_watchers (surroundings i) collector
               else Some collector);
  Some {|
    provider := prov;
    nat_resolver := nat;
    event_filter := filter;
    publisher := publisher;
    metadata_provider := metadata;
    host_stats_provider := host;
    k8s_metadata_collector := collector;
    cpu_monitor := monitor;
    timer := EventTimer.set_exit_flag tm;
    failed_reports_count := 0;
    usage_stats := usage_default;
    aggregate_event := agg_id;
    publish_event := pub_id;
    resolve_nat_event := nat_id
  |}.

(** The branch of the aggregation event. *)
Definition aggregate (i : inputs) (self : t) : option t :=
  '(prov, nat) ← Traits.perform_aggregation_cycle (provider_in i) (provider self) (nat_resolver self);
  Some (self <| provider := prov |> <| nat_resolver := NatResolver.perform_eviction nat |>).

(** The flows of the period, with the pods they belong to. *)
Definition take_flows (opt : Options.t) (i : inputs) (self : t) : list AggregateResults.t * t :=
  let '(agg_flows, prov) := network_stats (provider_in i) (provider self) in
  let self := self <| provider := prov |> in
  if Options.kubernetes_metadata opt then
    let collector := (Watchers.collector (k8s_metadata_collector self))
                       <| KubernetesMetadataCollector.pod_info := pods i |> in
    let '(_, agg_flows, collector) :=
      KubernetesMetadataCollector.enrich_flows (pods_order i) collector agg_flows in
    (agg_flows, self <| k8s_metadata_collector ::= λ k, k <| Watchers.collector := collector |> |>)
  else (agg_flows, self).

(** The process stats of the report, with the usage since the last one. *)
Definition take_process_stats (opt : Options.t) (i : inputs) (report : NfmReport.t) (self : t) :
    option (NfmReport.t * t) :=
  if Options.usage_data opt then
    (* Compute CPU usage then restart the monitor. *)
    cpu_util ← CpuUsageMonitor.usage_ratio (usage_clocks i) (cpu_monitor self);
    let usage := (usage_stats self) <| UsageStats.cpu_util := cpu_util |> in
    let monitor := CpuUsageMonitor.start (restart_clocks i) (CpuUsageMonitor.num_cpus (cpu_monitor self)) in
    let '(counters, prov) := counters (provider self) in
    (* Reset stats for the next report. *)
    Some (NfmReport.set_process_stats report (ProcessStats.mk counters [usage]),
      self <| cpu_monitor := monitor |> <| provider := prov |> <| usage_stats := usage_default |>)
  else Some (report, self).

(** The branch of the publishing event. *)
Definition publish_report (opt : Options.t) (i : inputs) (self : t) : option (NfmReport.t * bool * list E * t) :=
  (* Add network stats to the report. *)
  let report := NfmReport.new service env_var in
  let report := NfmReport.set_failed_reports report (failed_reports_count self) in
  let '(agg_flows, self) := take_flows opt i self in
  let '(kept, filter) := filter_events (event_filter self) agg_flows in
  let self := self <| event_filter := filter |> in
  let report := NfmReport.set_network_stats report kept in
  (* Add process stats to the report. *)
  '(report, self) ← take_process_stats opt i report self;
  (* Add metadata *)
  let metadata := refresh (metadata_in i) (metadata_provider self) in
  let report := NfmReport.set_env_metadata report (get_metadata metadata) in
  let '(net_devices, metadata) := get_network_devices (metadata_in i) metadata in
  let devices := set_network_devices (host_in i) (host_stats_provider self) net_devices in
  '(host_stats, devices) ← get_stats (host_in i) devices;
  let report := NfmReport.set_host_stats report host_stats in
  '(success, effects) ← publish (ReportPublisher := transport i) (publisher self) report;
  failed ← (if (success : bool) then Some 0 else checked_add u32 (failed_reports_count self) 1);
  Some (report, success, effects,
    self <| metadata_provider := metadata |>
         <| host_stats_provider := devices |>
         <| failed_reports_count := failed |>).

Definition Qmax (a b : Q) : Q := if Qle_bool a b then b else a.

(** We'll publish the highest mem usage during the report period. *)
Definition track_usage (opt : Options.t) (i : inputs) (self : t) : t :=
  if Options.usage_data opt then
    self <| usage_stats ::= λ u, u
      <| UsageStats.mem_used_kb ::= λ n, Z.max n (mem_used_kb i) |>
      <| UsageStats.mem_used_ratio ::= λ q, Qmax q (mem_used_ratio i) |>
      <| UsageStats.sockets_tracked ::= λ n, Z.max n (socket_count (provider self)) |>
      <| UsageStats.ebpf_allocated_mem_kb := ebpf_allocated_mem_kb (provider self) |> |>
  else self.

(** One turn of the loop. *)
Definition turn (opt : Options.t) (i : inputs) (self : t) : option (outcome * t) :=
  let tm := (timer self) <| EventTimer.clock ::= time_passed i |> in
  '(event_id, tm) ← EventTimer.await_next_event (tie i) (gen_range i) (exit_flag i) tm;
  let self := self <| timer := tm |> in
  if event_id =? EXIT_EVENT then Some (Exited, self)
  else
    '(what, self) ← (
      if event_id =? aggregate_event self then
        self ← aggregate i self; Some (Aggregated, self)
      else if event_id =? publish_event self then
        '(report, success, effects, self) ← publish_report opt i self;
        Some (Published report success effects, self)
      else if event_id =? resolve_nat_event self then
        Some (NatRefreshed, self <| nat_resolver ::= NatResolver.perform_aggregation_cycle |>)
      else Some (UnknownEvent, self));
    Some (what, track_usage opt i self).

(** The loop: turns until the agent exits or the inputs end. *)
Fixpoint run (opt : Options.t) (is_ : list inputs) (self : t) : option (list outcome * t) :=
  match is_ with
  | [] => Some ([], self)
  | i :: is_ =>
      '(what, self) ← turn opt i self;
      match what with
      | Exited => Some ([Exited], self)
      | _ => '(whats, self) ← run opt is_ self; Some (what :: whats, self)
      end
  end.

End agent.
Arguments t : clear implicits.
Arguments inputs : clear implicits.
Arguments outcome : clear implicits.
End Agent.

(** The components [on_load] puts together. *)
Definition EbpfAgent (R T Pub : Type) : Type :=
  Agent.t R T EventProviderEbpf.t EventFilterTopLoss.t MultiMetadataProvider.t
    (gmap NetworkDevice.t NetworkInterfaceStats.t) Pub.
Definition EbpfInputs (T Pub E : Type) : Type :=
  Agent.inputs T ProviderInputs.t MetadataInputs.t HostInputs.t Pub E.
