(* ===== verification/AgentProperties.v ===== *)
(** * AgentProperties: the guarantees of the main loop *)

From stdpp Require Import base numbers gmap list strings.
From S2P Require Import Prelude Network BpfMaps SockCache ReportData NetworkEvent EventFilter NatResolver.
From S2P Require Import EventProvider Timer TimerProperties Text Metadata HostStats HostStatsProperties.
From S2P Require Import Report Publisher Kubernetes KubernetesProperties Traits Agent.
From Stdlib Require Import QArith_base.
Import Agent.
Open Scope Z_scope.

Section agent.
Context {R : Type} `{NatResolver R} {T : Type} `{Clock T}.
Context {IP P : Type} `{EventProvider IP P} {F : Type} `{EventFilter AggregateResults.t F}.
Context {IM M : Type} `{MultiMetadataProvider IM M} {IS S : Type} `{HostStatsProvider IS S} {Pub E : Type}.
Context (service : ServiceMetadata.t) (env_var : string → option string) (opt : Options.t).
Implicit Types (self : Agent.t R T P F M S Pub) (i : inputs T IP IM IS Pub E).

(** *** The schedule *)

(** The identifiers the loop knows. *)
Definition known_ids self : list Z :=
  [aggregate_event self; publish_event self; resolve_nat_event self].

Definition schedule_ok self : Prop :=
  Forall (λ e, PeriodicEvent.id e ∈ known_ids self) (EventTimer.events (timer self)).

Lemma sleep_events fuel flag (tm : EventTimer.t T) until now j res tm' :
  EventTimer.try_sleep_loop fuel flag tm until now j = Some (res, tm') →
  EventTimer.events tm' = EventTimer.events tm.
Proof.
  revert tm now j. induction fuel as [|fuel IH]; intros tm now j; simpl.
  - destruct (now <? until); [done|]. by intros [= <- <-].
  - destruct (now <? until); [|by intros [= <- <-]]. intros (n & _ & Hs)%bind_Some.
    destruct (_ && _); [by injection Hs as <- <-|]. by apply IH in Hs.
Qed.

(** Waiting returns the exit event or a scheduled one, and schedules no other. *)
Lemma await_ids tie gen flag (tm : EventTimer.t T) event_id tm' (good : Z → Prop) :
  Forall (λ e, good (PeriodicEvent.id e)) (EventTimer.events tm) →
  EventTimer.await_next_event tie gen flag tm = Some (event_id, tm') →
  (event_id = EXIT_EVENT ∨ good event_id) ∧ Forall (λ e, good (PeriodicEvent.id e)) (EventTimer.events tm').
Proof.
  intros Hall. unfold EventTimer.await_next_event.
  pose proof (HeapFacts.pop_spec tie (EventTimer.events tm)) as Hpop.
  destruct (EventTimer.pop tie (EventTimer.events tm)) as [[e rest]|].
  2:{ intros [= <- <-]. split; [by left|done]. }
  destruct Hpop as [Hp _]. rewrite Hp in Hall. apply Forall_cons in Hall as [He Hrest].
  intros ([res tm1] & Hsleep & Hr)%bind_Some.
  assert (EventTimer.events tm1 = rest) as Hev.
  { destruct (_ <? PeriodicEvent.next_invocation e); [|by injection Hsleep as <- <-].
    unfold EventTimer.try_sleep in Hsleep. apply bind_Some in Hsleep as (? & _ & Hs).
    by apply sleep_events in Hs. }
  destruct res as [[]|[]].
  - apply bind_Some in Hr as (e' & Hch & [= <- <-]). split; [by right|]. simpl. rewrite Hev.
    constructor; [|done]. unfold PeriodicEvent.choose_next_invocation in Hch.
    apply bind_Some in Hch as (? & _ & Hch). apply bind_Some in Hch as (? & _ & Hch).
    apply bind_Some in Hch as (? & _ & Hch). apply bind_Some in Hch as (? & _ & [= <-]). done.
  - injection Hr as <- <-. split; [by left|by rewrite Hev].
Qed.

(** The branches keep the identifiers and the timer. *)
Definition same_schedule self self' : Prop := known_ids self' = known_ids self ∧ timer self' = timer self.

Lemma aggregate_schedule i self self' : aggregate i self = Some self' → same_schedule self self'.
Proof. unfold aggregate. intros ([prov nat] & _ & [= <-])%bind_Some. done. Qed.

(** What taking the flows and the process stats leaves alone. *)
Definition same_rest self self' : Prop :=
  same_schedule self self' ∧ failed_reports_count self' = failed_reports_count self ∧
  publisher self' = publisher self ∧ nat_resolver self' = nat_resolver self.

Lemma take_flows_rest i self : same_rest self (take_flows opt i self).2.
Proof.
  unfold take_flows. destruct (network_stats _ _) as [flows prov].
  destruct (Options.kubernetes_metadata opt); [|done].
  by destruct (KubernetesMetadataCollector.enrich_flows _ _ _) as [[n fl] c].
Qed.

Lemma take_process_stats_rest i report self report' self' :
  take_process_stats opt i report self = Some (report', self') →
  same_rest self self' ∧ NfmReport.failed_reports report' = NfmReport.failed_reports report.
Proof.
  unfold take_process_stats. destruct (Options.usage_data opt); [|by intros [= <- <-]].
  intros (q & _ & Hr)%bind_Some. destruct (counters (provider self)) as [c prov]. by injection Hr as <- <-.
Qed.

(** A report that was published went to the transport once, with the count of failures so far. *)
Lemma publish_outcome i self report ok effects self' :
  publish_report service env_var opt i self = Some (report, ok, effects, self') →
  same_schedule self self' ∧
  publish (ReportPublisher := transport i) (publisher self) report = Some (ok, effects) ∧
  NfmReport.failed_reports report = failed_reports_count self ∧
  failed_reports_count self' = (if ok then 0 else failed_reports_count self + 1).
Proof.
  unfold publish_report. pose proof (take_flows_rest i self) as ([Hs1 Ht1] & Hf1 & Hp1 & _).
  destruct (take_flows opt i self) as [flows self1]. cbn [snd] in *.
  destruct (filter_events _ flows) as [kept filter].
  intros ([report1 self2] & ([[Hs2 Ht2] (Hf2 & Hp2 & _)] & Hr2)%take_process_stats_rest & Hr)%bind_Some.
  destruct (get_network_devices _ _) as [devices metadata]. unfold same_schedule, known_ids in *.
  cbn in Hs2, Ht2, Hf2, Hp2, Hr2.
  apply bind_Some in Hr as ([host devs] & _ & Hr). apply bind_Some in Hr as ([ok' effects'] & Hpub & Hr).
  apply bind_Some in Hr as (failed & Hf & [= <- <- <- <-]). cbn.
  rewrite <- Hp1, <- Hp2. split_and!; [congruence..|done|congruence|]. rewrite <- Hf1, <- Hf2.
  destruct ok'; [by injection Hf as <-|]. by apply checked_add_Some in Hf as [-> _].
Qed.

Lemma publish_schedule i self report ok effects self' :
  publish_report service env_var opt i self = Some (report, ok, effects, self') → same_schedule self self'.
Proof. by intros (? & _)%publish_outcome. Qed.

Lemma track_schedule i self : same_schedule self (track_usage opt i self).
Proof. unfold track_usage. by destruct (Options.usage_data opt). Qed.

Lemma turn_schedule i self what self' :
  schedule_ok self → turn service env_var opt i self = Some (what, self') →
  schedule_ok self' ∧ what ≠ UnknownEvent.
Proof.
  intros Hok. unfold turn. intros ([event_id tm] & Haw & Hr)%bind_Some.
  set (tm0 := (timer self) <| EventTimer.clock ::= time_passed i |>) in *.
  assert (Forall (λ e, PeriodicEvent.id e ∈ known_ids self) (EventTimer.events tm0)) as Hok0 by exact Hok.
  destruct (await_ids _ _ _ _ _ _ (λ x, x ∈ known_ids self) Hok0 Haw) as [Hid Htm].
  assert (schedule_ok (self <| timer := tm |>)) as Hok1 by exact Htm.
  assert (∀ s', same_schedule (self <| timer := tm |>) s' → schedule_ok s') as Hsame.
  { intros s' [Hk Ht]. unfold schedule_ok. by rewrite Ht, Hk. }
  destruct (Z.eqb_spec event_id EXIT_EVENT) as [|Hne]; [by injection Hr as <- <-|].
  apply bind_Some in Hr as ([what1 self1] & Hb & [= <- <-]).
  assert (same_schedule (self <| timer := tm |>) self1 ∧ what1 ≠ UnknownEvent) as [Hs1 Hw].
  { destruct (Z.eqb_spec event_id (aggregate_event (self <| timer := tm |>))) as [|Hn1].
    { apply bind_Some in Hb as (s1 & Ha%aggregate_schedule & [= <- <-]). done. }
    destruct (Z.eqb_spec event_id (publish_event (self <| timer := tm |>))) as [|Hn2].
    { apply bind_Some in Hb as ([[[report ok] effects] s1] & Hp%publish_schedule & [= <- <-]). done. }
    destruct (Z.eqb_spec event_id (resolve_nat_event (self <| timer := tm |>))) as [|Hn3].
    { by injection Hb as <- <-. }
    exfalso. destruct Hid as [|Hid]; [done|]. unfold known_ids in Hid. simpl in Hn1, Hn2, Hn3. set_solver. }
  split; [|done]. apply Hsame. destruct Hs1, (track_schedule i self1). split; congruence.
Qed.

Lemma run_schedule (is_ : list (inputs T IP IM IS Pub E)) self whats self' :
  schedule_ok self → run service env_var opt is_ self = Some (whats, self') → UnknownEvent ∉ whats.
Proof.
  revert self whats. induction is_ as [|i is_ IH]; intros self whats Hok; cbn [run].
  { intros [= <- <-]. apply not_elem_of_nil. }
  intros ([what self1] & Ht & Hr)%bind_Some.
  destruct (turn_schedule i self what self1 Hok Ht) as [Hok1 Hne].
  destruct what; try (by injection Hr as <- <-; rewrite list_elem_of_singleton);
    (apply bind_Some in Hr as ([whats' self2] & Hrun & [= <- <-]); rewrite not_elem_of_cons;
     split; [done|]; by eapply IH).
Qed.

(** *** Failed reports *)

(** The failure counts the reports of a run should carry, and the final count. *)
Fixpoint expected_failures (n : Z) (whats : list (outcome E)) : list Z * Z :=
  match whats with
  | [] => ([], n)
  | Published _ ok _ :: whats =>
      let '(l, m) := expected_failures (if ok then 0 else n + 1) whats in (n :: l, m)
  | _ :: whats => expected_failures n whats
  end.

Definition reports_of (whats : list (outcome E)) : list NfmReport.t :=
  omap (λ w, match w with Published r _ _ => Some r | _ => None end) whats.

Lemma turn_failures i self what self' :
  turn service env_var opt i self = Some (what, self') →
  match what with
  | Published r ok _ => NfmReport.failed_reports r = failed_reports_count self ∧
      failed_reports_count self' = (if ok then 0 else failed_reports_count self + 1)
  | _ => failed_reports_count self' = failed_reports_count self
  end.
Proof.
  unfold turn. intros ([event_id tm] & _ & Hr)%bind_Some.
  assert (∀ s : Agent.t R T P F M S Pub, failed_reports_count (track_usage opt i s) = failed_reports_count s) as Htrack
    by (intros s; unfold track_usage; by destruct (Options.usage_data opt)).
  destruct (event_id =? EXIT_EVENT); [by injection Hr as <- <-|].
  apply bind_Some in Hr as ([what1 self1] & Hb & [= <- <-]). rewrite Htrack.
  destruct (event_id =? _).
  { apply bind_Some in Hb as (s1 & Ha & [= <- <-]). unfold aggregate in Ha.
    by apply bind_Some in Ha as ([prov nat] & _ & [= <-]). }
  destruct (event_id =? _).
  { by apply bind_Some in Hb as ([[[report ok] effects] s1] & (_ & _ & ? & ?)%publish_outcome & [= <- <-]). }
  destruct (event_id =? _); by injection Hb as <- <-.
Qed.

Lemma run_failures (is_ : list (inputs T IP IM IS Pub E)) self whats self' :
  run service env_var opt is_ self = Some (whats, self') →
  expected_failures (failed_reports_count self) whats =
  (NfmReport.failed_reports <$> reports_of whats, failed_reports_count self').
Proof.
  revert self whats self'. induction is_ as [|i is_ IH]; intros self whats self'; cbn [run].
  { by intros [= <- <-]. }
  intros ([what self1] & Ht%turn_failures & Hr)%bind_Some.
  destruct what as [| |r ok effects| |]; try (injection Hr as <- <-; simpl; by rewrite Ht);
    apply bind_Some in Hr as ([whats' self2] & Hrun%IH & [= <- <-]);
    cbn [expected_failures]; try (by rewrite <- Ht, Hrun).
  destruct Ht as [Ht1 Ht2]. rewrite <- Ht2, Hrun. unfold reports_of. csimpl. by rewrite Ht1.
Qed.

End agent.

(** ** Properties *)

Lemma add_event_id {T : Type} `{Clock T} gen (tm : EventTimer.t T) period jitter x tm' :
  EventTimer.add_event gen tm period jitter = Some (x, tm') →
  x = EventTimer.last_id tm + 1 ∧ EventTimer.last_id tm' = x ∧
  ∃ e, EventTimer.events tm' = e :: EventTimer.events tm ∧ PeriodicEvent.id e = x.
Proof.
  unfold EventTimer.add_event, EventTimer.create_event.
  intros ([e tm1] & Hc & [= <- <-])%bind_Some.
  apply bind_Some in Hc as (n & [-> _]%checked_add_Some & Hc). apply bind_Some in Hc as (p & _ & Hc).
  apply bind_Some in Hc as (j & _ & Hc). apply bind_Some in Hc as (e1 & Hch & [= <- <-]).
  unfold PeriodicEvent.choose_next_invocation in Hch.
  apply bind_Some in Hch as (? & _ & Hch). apply bind_Some in Hch as (? & _ & Hch).
  apply bind_Some in Hch as (? & _ & Hch). apply bind_Some in Hch as (? & _ & [= <-]).
  split_and!; [done..|]. by eexists.
Qed.

Lemma add_delayed_id {T : Type} `{Clock T} gen (tm : EventTimer.t T) period jitter delay x tm' :
  EventTimer.add_event_with_delay gen tm period jitter delay = Some (x, tm') →
  x = EventTimer.last_id tm + 1 ∧
  ∃ e, EventTimer.events tm' = e :: EventTimer.events tm ∧ PeriodicEvent.id e = x.
Proof.
  unfold EventTimer.add_event_with_delay, EventTimer.create_event.
  intros ([e tm1] & Hc & Hr)%bind_Some. apply bind_Some in Hr as (next & _ & [= <- <-]).
  apply bind_Some in Hc as (n & [-> _]%checked_add_Some & Hc). apply bind_Some in Hc as (p & _ & Hc).
  apply bind_Some in Hc as (j & _ & Hc). apply bind_Some in Hc as (e1 & Hch & [= <- <-]).
  unfold PeriodicEvent.choose_next_invocation in Hch.
  apply bind_Some in Hch as (? & _ & Hch). apply bind_Some in Hch as (? & _ & Hch).
  apply bind_Some in Hch as (? & _ & Hch). apply bind_Some in Hch as (? & _ & [= <-]).
  split; [done|]. by eexists.
Qed.

Section properties.
Context {R : Type} `{NatResolver R} {T : Type} `{Clock T}.
Context {IP P : Type} `{EventProvider IP P} {F : Type} `{EventFilter AggregateResults.t F}.
Context {IM M : Type} `{MultiMetadataProvider IM M} {IS S : Type} `{HostStatsProvider IS S} {Pub E : Type}.
Context (service : ServiceMetadata.t) (env_var : string → option string) (opt : Options.t).
Implicit Types (self : Agent.t R T P F M S Pub) (i : inputs T IP IM IS Pub E).

Lemma setup_schedule si (c : T) (prov : P) (nat : R) (f : F) (pub : Pub) (md : M) (host : S) k self :
  setup opt si c prov nat f pub md host k = Some self →
  schedule_ok self ∧ failed_reports_count self = 0 ∧
  known_ids self = [1; 2; if Options.resolve_nat opt then 3 else UNKNOWN_EVENT].
Proof.
  unfold setup. intros ([agg tm1] & H_1 & Hr)%bind_Some. apply bind_Some in Hr as ([pub_id tm2] & H_2 & Hr).
  apply bind_Some in Hr as ([nat_id tm3] & H_3 & Hr). apply bind_Some in Hr as (_ & _ & Hr).
  apply bind_Some in Hr as (collector & _ & [= <-]).
  apply add_event_id in H_1 as (-> & Hl1 & e1 & He1 & Hid1). simpl in Hl1, He1, Hid1.
  apply add_event_id in H_2 as (-> & Hl2 & e2 & He2 & Hid2).
  unfold schedule_ok, known_ids. simpl. rewrite Hl1 in *. destruct (Options.resolve_nat opt).
  - apply add_delayed_id in H_3 as (-> & e3 & He3 & Hid3). rewrite Hl2 in *. simpl.
    split; [|done]. rewrite He3, He2, He1. repeat (constructor; [set_solver|]). constructor.
  - injection H_3 as <- <-. split; [|done]. rewrite He2, He1. repeat (constructor; [set_solver|]). constructor.
Qed.

(** The schedule of the agent.  From start-up on, every event the timer delivers is one the loop
    handles: the periodic events have distinct identifiers, none of them is the exit event, and no
    sequence of outside answers leads to the error branch for unknown events. *)
Theorem schedule_sound si (c : T) (prov : P) (nat : R) (f : F) (pub : Pub) (md : M) (host : S) k self
    (is_ : list (inputs T IP IM IS Pub E)) whats self' :
  setup opt si c prov nat f pub md host k = Some self →
  run service env_var opt is_ self = Some (whats, self') →
  UnknownEvent ∉ whats ∧ NoDup (EXIT_EVENT :: known_ids self).
Proof.
  intros (Hok & _ & Hids)%setup_schedule Hrun. split; [by eapply run_schedule|]. rewrite Hids.
  apply NoDup_cons. split; destruct (Options.resolve_nat opt); unfold EXIT_EVENT, UNKNOWN_EVENT, umax;
    [set_solver by lia|set_solver by lia|..]; repeat (apply NoDup_cons; split; [set_solver by lia|]); apply NoDup_nil_2.
Qed.

(** C16: Failed reports are accounted for.  Whatever the components behind the traits do, in every run
    from start-up each report carries the number of publications that failed since the last one that
    succeeded, so that a backend can tell how many reports it has missed, and a success resets it. *)
Theorem failed_reports_consecutive si (c : T) (prov : P) (nat : R) (f : F) (pub : Pub) (md : M) (host : S) k self
    (is_ : list (inputs T IP IM IS Pub E)) whats self' :
  setup opt si c prov nat f pub md host k = Some self →
  run service env_var opt is_ self = Some (whats, self') →
  NfmReport.failed_reports <$> reports_of whats = (expected_failures 0 whats).1.
Proof.
  intros (_ & Hz & _)%setup_schedule Hrun%run_failures. rewrite Hz in Hrun. by rewrite Hrun.
Qed.

End properties.

(** An agent that publishes every second, over a simulated clock; the network answers [ok]. *)
Definition sample_options : Options.t := Options.mk "/sys/fs/cgroup" 500 65 true 60000 1 0 "" "" "" false true
    ReportPublisherOTLP.Gzip false false.
Definition sample_metadata : MultiMetadataProvider.t :=
  MultiMetadataProvider.mk (EniMetadataProvider.mk [] [] []) (HostMetadataProvider.mk [])
    (RuntimeEnvironmentMetadataProvider.from RuntimeEnvironmentMetadataProvider.Ec2Plain).
Definition sample_provider : option EventProviderEbpf.t := EventProviderEbpf.new 64000000000 65 2.
Definition sample_clocks (seconds : Z) : Z → Result timespec.t unit :=
  λ clock_type, Ok (timespec.mk (if clock_type =? CLOCK_PROCESS_CPUTIME_ID then 0 else seconds) 500000000).
Definition sample_inputs (seconds : Z) (ok : bool) : EbpfInputs FakeClock.t unit unit :=
  mk_inputs id 0 (λ n, n / 2) (λ _, false)
    (ProviderInputs.mk (EventProviderEbpf.mk_reads 100000000 [] [])
      (EventProviderEbpf.mk_orders elements map_to_list map_to_list map_to_list map_to_list)
      [] (SharedHashMap.with_max_entries 250) (SharedHashMap.with_max_entries 750) map_to_list)
    (MetadataInputs.mk (λ _, Err tt) (Err tt) (Err tt) (λ _, Ok false))
    (HostInputs.mk (λ _, Err tt) map_to_list)
    ∅ (λ m, (map_to_list m).*2) (sample_clocks seconds) (sample_clocks seconds)
    1000 (QArith_base.Qmake 1 50) (λ _ _, Some (ok, [tt])).
Definition sample_service : ServiceMetadata.t := ServiceMetadata.new "network-flow-monitor" "0.1.3" "now".
Definition sample_setup_inputs : setup_inputs :=
  mk_setup_inputs (λ _, true) (Watchers.mk_surroundings true None (λ s, s)) (λ n, n / 2) (sample_clocks 100) 2.

(** Start-up and three publications, of which the last succeeds. *)
Definition sample_setup (prov : EventProviderEbpf.t) : option (EbpfAgent NatResolverNoOp.t FakeClock.t unit) :=
  setup sample_options sample_setup_inputs (FakeClock.mk 100000000) prov NatResolverNoOp.mk
    (EventFilterTopLoss.new 500) tt sample_metadata HostStatsProviderImpl.new Watchers.new.
Definition sample_agent : option (EbpfAgent NatResolverNoOp.t FakeClock.t unit) :=
  prov ← sample_provider; sample_setup prov.
Definition sample_steps : list (EbpfInputs FakeClock.t unit unit) :=
  [sample_inputs 101 false; sample_inputs 102 false; sample_inputs 103 true].
Definition sample_run : option (list (outcome unit) * EbpfAgent NatResolverNoOp.t FakeClock.t unit) :=
  prov ← sample_provider;
  self ← sample_setup prov;
  run sample_service (λ _, None) sample_options sample_steps self.

Lemma sample_run_succeeds : ∃ r, sample_run = Some r.
Proof.
  destruct sample_run as [r|] eqn:E; [by exists r|]. exfalso. refine (succeeds_None _ _ E).
  vm_compute. reflexivity.
Defined.

Lemma schedule_sound_witness :
  match sample_run with Some (whats, _) => UnknownEvent ∉ whats | None => False end.
Proof.
  destruct sample_run_succeeds as [[whats self'] E]. rewrite E.
  apply bind_Some in E as (prov & _ & E). apply bind_Some in E as (self & Hs & Hr).
  exact (proj1 (schedule_sound sample_service (λ _, None) sample_options sample_setup_inputs
    (FakeClock.mk 100000000) prov NatResolverNoOp.mk _ _ sample_metadata _ _ self sample_steps whats self' Hs Hr)).
Defined.

Lemma failed_reports_consecutive_witness :
  match sample_run with
  | Some (whats, _) =>
      NfmReport.failed_reports <$> reports_of whats = (expected_failures 0 whats).1 ∧
      (expected_failures 0 whats).1 = [0; 1; 2]
  | None => False
  end.
Proof.
  destruct sample_run_succeeds as [[whats self'] E]. rewrite E.
  assert ((λ r : list (outcome unit) * _, (expected_failures 0 r.1).1) <$> sample_run = Some [0; 1; 2]) as Hv
    by (vm_compute; reflexivity).
  rewrite E in Hv. injection Hv as Hv.
  apply bind_Some in E as (prov & _ & E). apply bind_Some in E as (self & Hs & Hr).
  split; [|exact Hv].
  exact (failed_reports_consecutive sample_service (λ _, None) sample_options sample_setup_inputs
    (FakeClock.mk 100000000) prov NatResolverNoOp.mk _ _ sample_metadata _ _ self sample_steps whats self' Hs Hr).
Defined.

(** A flow without its Kubernetes metadata. *)
Definition strip (a : AggregateResults.t) : AggregateResults.t :=
  a <| AggregateResults.flow ::= λ f, f <| FlowProperties.kubernetes_metadata := None |> |>.

Lemma strip_enriched order collector flows :
  strip <$> (KubernetesMetadataCollector.enrich_flows order collector flows).1.2 = strip <$> flows.
Proof.
  unfold KubernetesMetadataCollector.enrich_flows. simpl.
  induction flows as [|a flows IH]; [done|]. cbn [map]. rewrite !fmap_cons, IH. f_equal.
  unfold KubernetesMetadataCollector.enrich_flow. case_match. by repeat case_match.
Qed.

(** ** The usage of the processor *)
Module CpuFacts.
Import CpuUsageMonitor.

Lemma elapsed_nsec now past :
  timespec.wf now → timespec.wf past → timespec.nanos past ≤ timespec.nanos now →
  clock_delta now past ≫= timespec_to_nsec = Some (timespec.nanos now - timespec.nanos past).
Proof.
  intros Hn Hp Hle. destruct (clock_arithmetic now past Hn Hp) as [Hd _].
  destruct (clock_delta now past) as [d|]; [|lia]. destruct Hd as [Hd <-].
  simpl. by destruct (clock_arithmetic d d Hd Hd) as (_ & -> & _).
Qed.

(** With clocks that do not go backwards, time that has passed, and no more processor time than the
    cores can give, the usage is computed and lies between 0 and 1. *)
Lemma usage_ratio_bounds before after num_cpus :
  let consumed := timespec.nanos (process_now after) - timespec.nanos (process_now before) in
  let elapsed := timespec.nanos (boot_now after) - timespec.nanos (boot_now before) in
  timespec.wf (process_now before) → timespec.wf (process_now after) →
  timespec.wf (boot_now before) → timespec.wf (boot_now after) →
  0 ≤ consumed ≤ Z.pos num_cpus * elapsed → 0 < elapsed →
  ∃ q, usage_ratio after (start before num_cpus) = Some q ∧ (0 <= q <= 1)%Q.
Proof.
  intros consumed elapsed Hp Hp' Hb Hb' Hc He. unfold usage_ratio, process_duration, total_duration. simpl.
  rewrite !elapsed_nsec by (done || lia). fold consumed elapsed. cbn [mbind option_bind].
  eexists. split; [reflexivity|]. clearbody consumed elapsed. destruct elapsed as [|e|]; [lia| |lia].
  unfold Qle, Qdiv, Qmult, Qinv, inject_Z. simpl. split; lia.
Qed.

(** Clocks that have not gone back since the monitor was started. *)
Definition clocks_advance (self : t) (clock_gettime : Z → Result timespec.t unit) : Prop :=
  timespec.wf (process_start self) ∧ timespec.wf (boot_start self) ∧
  timespec.wf (process_now clock_gettime) ∧ timespec.wf (boot_now clock_gettime) ∧
  timespec.nanos (process_start self) ≤ timespec.nanos (process_now clock_gettime) ∧
  timespec.nanos (boot_start self) ≤ timespec.nanos (boot_now clock_gettime).

Lemma usage_ratio_total self clock_gettime :
  clocks_advance self clock_gettime → ∃ q, usage_ratio clock_gettime self = Some q.
Proof.
  intros (? & ? & ? & ? & ? & ?). unfold usage_ratio, process_duration, total_duration.
  rewrite !elapsed_nsec by done. cbn [mbind option_bind]. by eexists.
Qed.

End CpuFacts.

(** ** Publishing *)

Section publishing.
Context {R : Type} `{NatResolver R} {T : Type} `{Clock T} {Pub E : Type}.
Implicit Types (i : EbpfInputs T Pub E) (self : EbpfAgent R T Pub).

(** Taking the flows: all of the period's, in some order, and none is kept. *)
Lemma take_flows_spec opt i self :
  (∀ m, ProviderInputs.flows_order (provider_in i) m ≡ₚ map_to_list m) →
  let '(flows, self') := take_flows opt i self in
  strip <$> flows ≡ₚ strip <$> (map_to_list (EventProviderEbpf.flow_cache (provider self))).*2 ∧
  provider self' = (provider self) <| EventProviderEbpf.flow_cache := ∅ |> ∧
  event_filter self' = event_filter self ∧ usage_stats self' = usage_stats self ∧
  cpu_monitor self' = cpu_monitor self.
Proof.
  intros Hord. unfold take_flows, network_stats, event_provider_ebpf, EventProviderEbpf.network_stats.
  destruct (Options.kubernetes_metadata opt); [|split_and!; [by rewrite Hord|done..]].
  match goal with |- context [KubernetesMetadataCollector.enrich_flows ?o ?c ?fl] =>
    pose proof (strip_enriched o c fl) as Hs; destruct (KubernetesMetadataCollector.enrich_flows o c fl) as [[n fl'] c'] end.
  cbn [fst snd] in Hs. split_and!; [by rewrite Hs, Hord|done..].
Qed.

(** Taking the process stats, with clocks that advance. *)
Lemma take_process_stats_spec opt i report self :
  (Options.usage_data opt = true → CpuFacts.clocks_advance (cpu_monitor self) (usage_clocks i)) →
  ∃ report' self', take_process_stats opt i report self = Some (report', self') ∧
    NfmReport.network_stats report' = NfmReport.network_stats report ∧
    EventProviderEbpf.flow_cache (provider self') = EventProviderEbpf.flow_cache (provider self) ∧
    EventProviderEbpf.sock_cache (provider self') = EventProviderEbpf.sock_cache (provider self) ∧
    (Options.usage_data opt = true →
      (∃ q, CpuUsageMonitor.usage_ratio (usage_clocks i) (cpu_monitor self) = Some q ∧
        ProcessStats.usage (NfmReport.process_stats report') = [(usage_stats self) <| UsageStats.cpu_util := q |>]) ∧
      CountersOverall.process_related (ProcessStats.counters (NfmReport.process_stats report')) =
        EventProviderEbpf.process_counters (provider self) ∧
      EventProviderEbpf.process_counters (provider self') = ProcessCounters.default ∧
      EventProviderEbpf.ebpf_counters_published (provider self') =
        EventProviderEbpf.ebpf_counters_latest (provider self) ∧
      usage_stats self' = usage_default).
Proof.
  intros Hclocks. unfold take_process_stats. destruct (Options.usage_data opt); [|by eexists _, _].
  destruct (CpuFacts.usage_ratio_total _ _ (Hclocks eq_refl)) as [q ->]. cbn [mbind option_bind].
  eexists _, _. split; [reflexivity|]. split_and!; [done..|]. intros _. split_and!; [by exists q|done..].
Qed.

(** The filter keeps at most its number of flows, and loses none. *)
Lemma filter_events_spec (f : EventFilterTopLoss.t) (flows : list AggregateResults.t) :
  Z.of_nat (length (filter_events f flows).1) ≤ Z.max 0 (EventFilterTopLoss.max_items f) ∧
  ∃ rest, (filter_events f flows).1 ++ rest ≡ₚ flows.
Proof.
  unfold filter_events, event_filter_top_loss, EventFilterTopLoss.filter_events. cbn [fst]. split.
  - rewrite length_take. lia.
  - exists (drop (Z.to_nat (EventFilterTopLoss.max_items f)) (sort_by (λ a b, EventFilterTopLoss.cmp b a) flows)).
    rewrite take_drop. apply EventFilterFacts.sort_perm.
Qed.

(** C15: What publishing does.  A report lists flows of the period, at most the configured number of
    them, each with its statistics unchanged, and together with the flows left out they are all the
    flows of the period; afterwards the period's flows are cleared, so that none is reported twice;
    with usage data on, the usage of the period and the counters are published and reset; the report
    goes to the publisher once.  With clocks that advance and a publisher that does not panic the
    report is always built: of all counters only that of failed reports, when full, stops the
    agent. *)
Theorem publish_effect service env_var opt i self :
  (∀ m, ProviderInputs.flows_order (provider_in i) m ≡ₚ map_to_list m) →
  (Options.usage_data opt = true → CpuFacts.clocks_advance (cpu_monitor self) (usage_clocks i)) →
  (∀ report, is_Some (publish (ReportPublisher := transport i) (publisher self) report)) →
  failed_reports_count self < umax u32 →
  ∃ report ok effects self',
    publish_report service env_var opt i self = Some (report, ok, effects, self') ∧
    publish (ReportPublisher := transport i) (publisher self) report = Some (ok, effects) ∧
    Z.of_nat (length (NfmReport.network_stats report)) ≤ Z.max 0 (EventFilterTopLoss.max_items (event_filter self)) ∧
    (∃ rest, strip <$> (NfmReport.network_stats report ++ rest) ≡ₚ
             strip <$> (map_to_list (EventProviderEbpf.flow_cache (provider self))).*2) ∧
    EventProviderEbpf.flow_cache (provider self') = ∅ ∧
    EventProviderEbpf.sock_cache (provider self') = EventProviderEbpf.sock_cache (provider self) ∧
    (Options.usage_data opt = true →
      (∃ q, CpuUsageMonitor.usage_ratio (usage_clocks i) (cpu_monitor self) = Some q ∧
        ProcessStats.usage (NfmReport.process_stats report) = [(usage_stats self) <| UsageStats.cpu_util := q |>]) ∧
      CountersOverall.process_related (ProcessStats.counters (NfmReport.process_stats report)) =
        EventProviderEbpf.process_counters (provider self) ∧
      EventProviderEbpf.process_counters (provider self') = ProcessCounters.default ∧
      EventProviderEbpf.ebpf_counters_published (provider self') =
        EventProviderEbpf.ebpf_counters_latest (provider self) ∧
      usage_stats self' = usage_default).
Proof.
  intros Hord Hclocks Hpub Hlt. unfold publish_report.
  pose proof (take_flows_rest opt i self) as (_ & Hf1 & Hp1 & _).
  pose proof (take_flows_spec opt i self Hord) as Hflows. destruct (take_flows opt i self) as [flows self1].
  cbn [snd] in Hf1, Hp1. destruct Hflows as (Hflows & Hprov & Hfil & Hus & Hmon).
  rewrite Hfil. pose proof (filter_events_spec (event_filter self) flows) as [Hlen [rest Hrest]].
  destruct (filter_events (event_filter self) flows) as [kept filter]. cbn [fst] in Hlen, Hrest.
  match goal with |- context [take_process_stats opt i ?r ?s] =>
    destruct (take_process_stats_spec opt i r s) as (report' & self2 & Htake & Hnet & Hfc & Hsc & Husage);
      [cbn; by rewrite Hmon|]; destruct (take_process_stats_rest opt i r s _ _ Htake) as [(_ & Hf2 & Hp2 & _) _] end.
  rewrite Htake. cbn [mbind option_bind]. cbn in Hf2, Hp2, Hnet, Hfc, Hsc, Husage. cbn [get_network_devices multi_metadata_provider_impl].
  match goal with |- context [get_stats ?a ?m] =>
    destruct (HostStatsFacts.get_stats_spec (HostInputs.ethtool a) (HostInputs.stats_order a) m) as (deltas & Hget & _) end.
  unfold get_stats, host_stats_provider_impl at 1. rewrite Hget. cbn [mbind option_bind].
  match goal with |- context [@publish _ _ ?tr ?p ?r] =>
    destruct (Hpub r) as [[ok effects] Hok]; replace p with (publisher self) by congruence; rewrite Hok end.
  cbn [mbind option_bind]. rewrite Hf2, Hf1.
  assert (∃ n, (if ok then Some 0 else checked_add u32 (failed_reports_count self) 1) = Some n) as [n ->]
    by (destruct ok; [by eexists|]; eexists; apply checked_add_Some; split; [reflexivity|lia]).
  cbn [mbind option_bind]. eexists _, _, _, _. split; [reflexivity|]. rewrite Hprov, Hus, Hmon in *. cbn.
  split_and!; [exact Hok|by rewrite Hnet|exists rest; by rewrite Hnet, Hrest, Hflows|by rewrite Hfc|by rewrite Hsc|exact Husage].
Qed.

End publishing.

Lemma publish_effect_witness :
  match sample_agent with
  | Some self => ∃ report ok effects self',
      publish_report sample_service (λ _, None) sample_options (sample_inputs 101 true) self =
        Some (report, ok, effects, self') ∧
      EventProviderEbpf.flow_cache (provider self') = ∅
  | None => False
  end.
Proof.
  destruct sample_agent as [self|] eqn:E.
  - destruct (publish_effect sample_service (λ _, None) sample_options (sample_inputs 101 true) self)
      as (report & ok & effects & self' & Hp & _ & _ & _ & Hf & _).
    + intros m. reflexivity.
    + assert (cpu_monitor <$> sample_agent = Some (CpuUsageMonitor.start (sample_clocks 100) 2)) as Hm by (vm_compute; reflexivity).
      rewrite E in Hm. injection Hm as ->. intros _. unfold CpuFacts.clocks_advance, timespec.wf. by_eval.
    + intros r. by eexists.
    + assert (failed_reports_count <$> sample_agent = Some 0) as Hz
        by (vm_compute; reflexivity).
      rewrite E in Hz. injection Hz as ->. by_eval.
    + exists report, ok, effects, self'. split; [exact Hp|exact Hf].
  - refine (succeeds_None _ _ E). vm_compute. reflexivity.
Defined.
