(* ===== verification/Startup.v ===== *)
(** * Startup: from the command line to the main loop

    Models [on_load] and [drop_capabilities] of nfm-controller/src/lib.rs, and the loading and
    attaching of the program by [EventProviderEbpf::new] and [instantiate_ebpf_object] of
    event_provider_ebpf.rs.  The kernel side is a parameter: what opening the cgroup, reading the
    memory size, loading, attaching and taking the maps answers ([aya], [procfs]), the capabilities
    of the process ([caps], a class with its laws), and the crates of the publisher.  [None] is a
    panic, [Err] the error that [on_load] returns. *)

From stdpp Require Import base numbers gmap list strings.
From S2P Require Import Prelude Network BpfMaps SockCache ReportData NetworkEvent EventFilter NatResolver EventProvider.
From S2P Require Import Timer Text Metadata HostStats Report Publisher Kubernetes OpenMetrics MetricsServer Traits Agent.
Open Scope Z_scope.

(** ** Loading the program *)
Module Loader.

Inductive Error :=
| CgroupNotFound
| ProgramNotParsed
| NotSockOps
| NotLoaded
| NotAttached
| PropsMapNotLoaded
| StatsMapNotLoaded.

(** What the kernel and the object file answer; an inner [None] is a name that is not in the object
    file. *)
Record kernel := mk {
  open_cgroup : string → bool;
  mem_total : Result Z unit;
  load_object : Z → Z → bool;
  sock_ops_program : option bool;
  load_program : bool;
  attach : string → bool;
  props_map : option bool;
  stats_map : option bool;
  num_cpus : nat;
}.

(** [context(...)?]: an error ends the function. *)
Definition require {A} (ok : bool) (e : Error) (k : option (Result A Error)) : option (Result A Error) :=
  if ok then k else Some (Err e).

(** The sizes become [u32]. *)
Definition instantiate_ebpf_object (kern : kernel) (sock_props_max_entries sock_stats_max_entries : Z) :
    option bool :=
  if (sock_props_max_entries <=? umax u32) && (sock_stats_max_entries <=? umax u32)
  then Some (load_object kern sock_props_max_entries sock_stats_max_entries) else None.

(** [EventProviderEbpf::new]. *)
Definition new (kern : kernel) (cgroup : string) (notrack_secs : Z) :
    option (Result EventProviderEbpf.t Error) :=
  require (open_cgroup kern cgroup) CgroupNotFound (
    match mem_total kern with
    | Err _ => None
    | Ok mem_total_bytes =>
        let '(sock_props_max_entries, sock_stats_max_entries) := map_max_entries mem_total_bytes in
        parsed ← instantiate_ebpf_object kern sock_props_max_entries sock_stats_max_entries;
        require parsed ProgramNotParsed (
          sock_ops ← sock_ops_program kern;
          require sock_ops NotSockOps (
          require (load_program kern) NotLoaded (
          require (attach kern cgroup) NotAttached (
          props ← props_map kern;
          require props PropsMapNotLoaded (
          stats ← stats_map kern;
          require stats StatsMapNotLoaded (
          provider ← EventProviderEbpf.new mem_total_bytes notrack_secs (num_cpus kern);
          Some (Ok provider)))))))
    end).

End Loader.

(** ** Capabilities *)

(** Capabilities by their numbers in the kernel. *)
Definition CAP_SYS_ADMIN : Z := 21.
Definition CAP_BPF : Z := 39.

Inductive CapSet := Effective | Permitted.

#[global] Instance CapSet_eq_dec : EqDecision CapSet.
Proof. solve_decision. Defined.

(** The crate [caps]: reading and setting the capability sets of the thread. *)
Class Caps (W : Type) := {
  read_caps : CapSet → W → Result (gset Z) unit;
  set_caps : CapSet → gset Z → W → Result unit unit * W;
}.

(** The sets as they are; a set that was set is what was asked for, the other is left alone, and an
    error changes nothing.  Reading gives the set or an error. *)
Class CapsLaws (W : Type) `{Caps W} := {
  held : W → CapSet → gset Z;
  read_caps_ok w s cs : read_caps s w = Ok cs → cs = held w s;
  set_caps_ok w s cs w' : set_caps s cs w = (Ok tt, w') →
    held w' s = cs ∧ ∀ s', s' ≠ s → held w' s' = held w s';
  set_caps_err w s cs e w' : set_caps s cs w = (Err e, w') → held w' = held w;
}.

Section capabilities.
Context {W : Type} `{Caps W}.

(** Reading a set, removing [CAP_SYS_ADMIN] and setting it. *)
Definition drop_from (s : CapSet) (w : W) : Result unit unit * W :=
  match read_caps s w with
  | Err e => (Err e, w)
  | Ok caps => set_caps s (caps ∖ {[CAP_SYS_ADMIN]}) w
  end.

Definition drop_capabilities (w : W) : Result unit unit * W :=
  match drop_from Effective w with
  | (Err e, w) => (Err e, w)
  | (Ok _, w) => drop_from Permitted w
  end.

End capabilities.

(** ** on_load *)
Module Startup.

Inductive Error :=
| KernelTooOld
| NotLoadedError (e : Loader.Error).

(** The state of the world that start-up changes: the capabilities and the threads of servers. *)
Record world (W : Type) := mk { caps : W; servers : OpenMetricsServer.world }.
Arguments mk {W} _ _.
Arguments caps {W} _.
Arguments servers {W} _.

(** The resolver behind [Box<dyn NatResolver>]. *)
Definition Resolver (R : Type) : Type := R + NatResolverNoOp.t.

#[global] Instance resolver {R : Type} `{NatResolver R} : NatResolver (Resolver R) := {
  NatResolver.perform_aggregation_cycle self :=
    sum_map NatResolver.perform_aggregation_cycle NatResolver.perform_aggregation_cycle self;
  NatResolver.perform_eviction self := sum_map NatResolver.perform_eviction NatResolver.perform_eviction self;
  NatResolver.get_beyond_nat_entry self :=
    match self with inl r => NatResolver.get_beyond_nat_entry r | inr r => NatResolver.get_beyond_nat_entry r end;
  NatResolver.store_beyond_nat_entries self :=
    match self with
    | inl r => NatResolver.store_beyond_nat_entries r
    | inr r => NatResolver.store_beyond_nat_entries r
    end;
  NatResolver.num_entries self :=
    match self with inl r => NatResolver.num_entries r | inr r => NatResolver.num_entries r end;
}.

#[global] Instance resolver_laws {R : Type} `{NatResolverLaws R} : NatResolverLaws (Resolver R).
Proof.
  constructor. intros [r|r] cache order result cache' Ho Hs; cbn in Hs.
  - by apply (store_only_external r cache order result).
  - by apply (store_only_external (R := NatResolverNoOp.t) r cache order result).
Qed.

(** What the main loop is started with. *)
Record started (R T Client : Type) := mk_started {
  agent : EbpfAgent (Resolver R) T (MultiPublisher.t (Publisher Client));
  server : option OpenMetricsServer.t;
}.
Arguments mk_started {R T Client} _ _.
Arguments agent {R T Client} _.
Arguments server {R T Client} _.

(** The options of the metrics server. *)
Record MetricsOptions := mk_metrics_options {
  open_metrics : bool;
  open_metrics_port : Z;
  open_metrics_address : chars;
}.

Section on_load.
Context {R T Bytes Client W : Type} `{NatResolver R} `{Clock T} `{Caps W}.

(** What the outside answers during start-up: the version of the kernel, the loader, the conntrack
    resolver (none if its socket cannot be opened, which panics), the crates of the publisher, the
    sources of metadata, what the loop asks for when it is set up, and the clock. *)
Record outside := mk_outside {
  kernel_version : Z * Z * Z;
  kernel : Loader.kernel;
  initialize_resolver : option R;
  crates : ReportPublisherOTLP.crates Bytes Client;
  imds_get : chars → Result chars unit;
  machine_id_file : Result chars unit;
  env_var : string → option string;
  loop : Agent.setup_inputs;
  boot_clock : T;
}.

(** The part after the capabilities were dropped: the components are built, and the loop is set up.
    Threads of the metrics server are started last. *)
Definition build (o : outside) (opt : Options.t) (mopt : MetricsOptions) (event_provider : EventProviderEbpf.t)
    (servers : OpenMetricsServer.world) : option (started R T Client * OpenMetricsServer.world) :=
  nat_resolver ← (if Options.resolve_nat opt then inl <$> initialize_resolver o
                  else Some (inr NatResolverNoOp.mk) : option (Resolver R));
  (* [top_k] becomes a [u32]. *)
  event_filter ← (if Options.top_k opt <=? umax u32 then Some (EventFilterTopLoss.new (Options.top_k opt)) else None);
  publisher ← MultiPublisher.from_options (crates o) (Options.log_reports opt) (Options.publish_reports opt)
                (Options.endpoint opt) (Options.endpoint_region opt) (Options.report_compression opt)
                (Options.proxy opt);
  let metadata_provider := {|
    MultiMetadataProvider.eni_metadata := EniMetadataProvider.new (imds_get o);
    MultiMetadataProvider.host_metadata := HostMetadataProvider.new (machine_id_file o);
    MultiMetadataProvider.runtime_env_metadata := RuntimeEnvironmentMetadataProvider.new (env_var o)
  |} in
  '(server, servers) ← start_open_metrics_server (open_metrics mopt) (open_metrics_address mopt)
                         (open_metrics_port mopt) true servers;
  agent ← Agent.setup opt (loop o) (boot_clock o) event_provider nat_resolver event_filter publisher
            metadata_provider HostStatsProviderImpl.new Watchers.new;
  Some (mk_started agent server, servers).

(** Start-up as a whole: an error leaves the world as it is. *)
Definition on_load (o : outside) (opt : Options.t) (mopt : MetricsOptions) (w : world W) :
    option (Result (started R T Client) Error * world W) :=
  let '(major, minor, patch) := kernel_version o in
  if negb (check_kernel_version major minor patch) then Some (Err KernelTooOld, w)
  else
    loaded ← Loader.new (kernel o) (Options.cgroup opt) (Options.notrack_secs opt);
    match loaded with
    | Err e => Some (Err (NotLoadedError e), w)
    | Ok event_provider =>
        (* Drop capabilities now that eBPF program is loaded and attached; a failure is only logged. *)
        let '(_, caps) := drop_capabilities (caps w) in
        '(s, servers) ← build o opt mopt event_provider (servers w);
        Some (Ok s, mk caps servers)
    end.

End on_load.
Arguments outside : clear implicits.
End Startup.
