(* ===== verification/StartupProperties.v ===== *)
(** * StartupProperties: the guarantees of start-up *)

From stdpp Require Import base numbers gmap list strings.
From S2P Require Import Prelude Network BpfMaps SockCache ReportData NetworkEvent EventFilter NatResolver EventProvider.
From S2P Require Import EventProviderFacts Timer TimerProperties Text Metadata HostStats Report Publisher.
From S2P Require Import PublisherProperties Kubernetes OpenMetrics MetricsServer Agent AgentProperties Startup.
Import Startup TimerFacts.
Open Scope Z_scope.

(** ** Capabilities *)
Section capabilities.
Context {W : Type} `{CapsLaws W}.

(** Dropping from one set leaves the other alone, and drops [CAP_SYS_ADMIN] only, or nothing. *)
Lemma drop_from_spec s (w : W) :
  let '(r, w') := drop_from s w in
  (∀ s', s' ≠ s → held w' s' = held w s') ∧
  held w' s = match r with Ok _ => held w s ∖ {[CAP_SYS_ADMIN]} | Err _ => held w s end.
Proof.
  unfold drop_from. destruct (read_caps s w) as [cs|] eqn:Hr; [|done]. apply read_caps_ok in Hr as ->.
  destruct (set_caps _ _ _) as [[[]|e] w'] eqn:Hs.
  - apply set_caps_ok in Hs as [??]. done.
  - apply set_caps_err in Hs. by rewrite Hs.
Qed.

(** Dropping the capabilities removes [CAP_SYS_ADMIN] from both sets and nothing else, [CAP_BPF]
    included; a failure keeps it permitted, so that it could be raised again. *)
Lemma drop_capabilities_spec (w : W) :
  match drop_capabilities w with
  | (Ok _, w') => ∀ s, held w' s = held w s ∖ {[CAP_SYS_ADMIN]}
  | (Err _, w') => held w' Permitted = held w Permitted ∧
      (held w' Effective = held w Effective ∨ held w' Effective = held w Effective ∖ {[CAP_SYS_ADMIN]})
  end.
Proof.
  unfold drop_capabilities. pose proof (drop_from_spec Effective w) as H1.
  destruct (drop_from Effective w) as [[?|e] w1], H1 as [Ho1 Hs1].
  - pose proof (drop_from_spec Permitted w1) as H2. destruct (drop_from Permitted w1) as [[?|e] w2], H2 as [Ho2 Hs2].
    + intros []; [by rewrite Ho2|by rewrite Hs2, Ho1].
    + split; [by rewrite Hs2, Ho1|]. right. by rewrite Ho2.
  - split; [by rewrite Ho1|by left].
Qed.

End capabilities.

(** ** Building the components *)

Lemma choose_next_total gen e now :
  gen_range_ok gen → 0 ≤ now ≤ 2 ^ 62 → 0 ≤ PeriodicEvent.period_us e ≤ 2 ^ 40 →
  0 ≤ PeriodicEvent.jitter_us e ≤ 2 ^ 40 → PeriodicEvent.jitter_us e ≤ now + PeriodicEvent.period_us e →
  ∃ next, PeriodicEvent.choose_next_invocation gen e now = Some (e <| PeriodicEvent.next_invocation := next |>) ∧
    0 ≤ next ≤ 2 ^ 63.
Proof.
  intros Hg Hnow Hp Hj Hjn. unfold PeriodicEvent.choose_next_invocation, checked_mul, checked_add, checked_sub, umax.
  destruct (Z.ltb_spec 0 (PeriodicEvent.jitter_us e)) as [Hpos|Hz].
  - pose proof (Hg (PeriodicEvent.jitter_us e * 2) ltac:(lia)) as Hr.
    check_bounds. eexists. split; [reflexivity|]. lia.
  - check_bounds. eexists. split; [reflexivity|]. lia.
Qed.

(** Events of the periods, jitters and delays of the command line can be added. *)
Definition timer_ok {T : Type} `{Clock T} (tm : EventTimer.t T) : Prop :=
  0 ≤ EventTimer.last_id tm < 2 ^ 16 ∧ 0 ≤ now_us (EventTimer.clock tm) ≤ 2 ^ 62.

Lemma create_event_total {T : Type} `{Clock T} gen (tm : EventTimer.t T) period jitter :
  gen_range_ok gen → timer_ok tm → 0 ≤ period ≤ 2 ^ 40 → 0 ≤ jitter ≤ 2 ^ 40 →
  jitter ≤ now_us (EventTimer.clock tm) + period →
  ∃ e, EventTimer.create_event gen tm period jitter =
    Some (e, tm <| EventTimer.last_id := EventTimer.last_id tm + 1 |>) ∧ 0 ≤ PeriodicEvent.next_invocation e ≤ 2 ^ 63.
Proof.
  intros Hg [Hid Hnow] Hp Hj Hjn. unfold EventTimer.create_event, checked_add, try_into, umax.
  rewrite (proj2 (Z.leb_le _ _)) by lia. cbn [mbind option_bind].
  rewrite !(proj2 (in_rangeb_spec _ _)) by (unfold in_range; lia). cbn [mbind option_bind].
  destruct (choose_next_total gen (PeriodicEvent.mk (EventTimer.last_id tm + 1) period jitter 0)
    (now_us (EventTimer.clock tm)) Hg Hnow Hp Hj Hjn) as (next & -> & ?). cbn [mbind option_bind].
  eexists. split; [reflexivity|done].
Qed.

(** What the process needs from its surroundings to set up the loop. *)
Definition setup_ok (opt : Options.t) (i : Agent.setup_inputs) : Prop :=
  gen_range_ok (Agent.setup_gen_range i) ∧ (∀ s, Agent.register_signal i s = true) ∧
  (Options.kubernetes_metadata opt = true → Watchers.favourable (Agent.surroundings i)).

Lemma setup_total {R T : Type} `{Clock T} {P F M S Pub : Type} opt i (clock : T) (prov : P) (nat : R) (f : F) (pub : Pub)
    (md : M) (host : S) k :
  setup_ok opt i → Options.valid opt → 0 ≤ now_us clock ≤ 2 ^ 62 →
  Options.jitter_secs opt * 1000000 ≤ now_us clock + Options.publish_secs opt * 1000000 →
  ∃ self, Agent.setup opt i clock prov nat f pub md host k = Some self.
Proof.
  intros (Hg & Hsig & Hrt) (_ & _ & Ha & Hp & Hj) Hnow Hjn.
  unfold Agent.setup, EventTimer.add_event, EventTimer.add_event_with_delay.
  set (gen := Agent.setup_gen_range i) in *.
  assert (∃ k', (if Options.kubernetes_metadata opt then Watchers.setup_watchers (Agent.surroundings i) k else Some k) =
    Some k') as [k' ->].
  { destruct (Options.kubernetes_metadata opt); [|by eexists]. rewrite Watchers.setup_favourable by auto. by eexists. }
  cbn [forallb]. rewrite !Hsig. cbn [andb].
  set (tm0 := EventTimer.new clock). assert (timer_ok tm0) as Ht0 by (split; [by_eval|done]).
  destruct (create_event_total gen tm0 (Options.aggregate_msecs opt * 1000) 0) as (e1 & -> & _); [done..| |lia| |]; [lia|cbn; lia|].
  cbn [mbind option_bind]. match goal with |- context [EventTimer.create_event gen ?tm] => set (tm1 := tm) end.
  assert (timer_ok tm1) as Ht1 by (split; [by_eval|done]).
  destruct (create_event_total gen tm1 (Options.publish_secs opt * 1000000) (Options.jitter_secs opt * 1000000))
    as (e2 & -> & _); [done..| | | |]; [lia|lia|cbn; lia|].
  cbn [mbind option_bind]. destruct (Options.resolve_nat opt); [|by eexists].
  match goal with |- context [EventTimer.create_event gen ?tm] => set (tm2 := tm) end.
  assert (timer_ok tm2) as Ht2 by (split; [by_eval|done]).
  destruct (create_event_total gen tm2 (100 * 1000) 0) as (e3 & -> & ?); [done..| | | |]; [lia|lia|cbn; lia|].
  cbn [mbind option_bind]. unfold checked_add, umax. rewrite wrap_id by by_eval.
  rewrite (proj2 (Z.leb_le _ _)) by lia. by eexists.
Qed.

Lemma new_provider_total mem secs cpus :
  0 ≤ secs ≤ 600 → ∃ p, EventProviderEbpf.new mem secs cpus = Some p.
Proof.
  intros Hs. unfold EventProviderEbpf.new, checked_mul, umax. destruct (map_max_entries mem) as [props stats].
  rewrite (proj2 (Z.leb_le _ _)) by lia. cbn [mbind option_bind].
  match goal with |- context [EventProviderEbpf.increase_sampling_interval ?s] => destruct (ProviderFacts.increase_synced s) as (p & -> & _) end; [|by exists p].
  split; [done|by_eval].
Qed.

(** ** Properties *)

(** A kernel on which the program can be loaded and attached. *)
Definition loadable (kern : Loader.kernel) (cgroup : string) : Prop :=
  Loader.open_cgroup kern cgroup = true ∧
  (∃ mem, Loader.mem_total kern = Ok mem ∧ in_range u64 mem) ∧
  (∀ props stats, Loader.load_object kern props stats = true) ∧
  Loader.sock_ops_program kern = Some true ∧ Loader.load_program kern = true ∧ Loader.attach kern cgroup = true ∧
  Loader.props_map kern = Some true ∧ Loader.stats_map kern = Some true.

Lemma loader_total kern cgroup secs :
  loadable kern cgroup → 0 ≤ secs ≤ 600 → ∃ p, Loader.new kern cgroup secs = Some (Ok p).
Proof.
  intros (Hc & (mem & Hm & Hr) & Ho & Hs & Hl & Ha & Hp & Ht) Hsecs. unfold Loader.new, Loader.require.
  destruct (new_provider_total mem secs (Loader.num_cpus kern) Hsecs) as [p Hnew].
  rewrite Hc, Hm. assert ((map_max_entries mem).1 ≤ umax u32 ∧ (map_max_entries mem).2 ≤ umax u32) as [Hb1 Hb2].
  { unfold map_max_entries, umax, MAX_ENTRIES_SK_STATS_HI, MAX_ENTRIES_SK_PROPS_HI, SK_STATS_TO_PROPS_RATIO. cbn. lia. }
  destruct (map_max_entries mem) as [props stats]. cbn [fst snd] in Hb1, Hb2. unfold Loader.instantiate_ebpf_object.
  rewrite (proj2 (Z.leb_le _ _) Hb1), (proj2 (Z.leb_le _ _) Hb2), Ho, Hs, Hl, Ha, Hp, Ht.
  cbn -[EventProviderEbpf.new]. rewrite Hnew. by exists p.
Qed.

Section startup.
Context {R T Bytes Client W : Type} `{NatResolver R} `{Clock T} `{CapsLaws W}.
Implicit Types (o : outside R T Bytes Client) (w : world W).

(** The threads of servers after start-up: one more iff the server is on. *)
Definition servers_after (mopt : MetricsOptions) (w w' : OpenMetricsServer.world) : Prop :=
  if open_metrics mopt then
    OpenMetricsServer.live w' = <[OpenMetricsServer.next_thread w := OpenMetricsServer.next_token w]> (OpenMetricsServer.live w)
  else w' = w.

Lemma setup_publisher {N P F M S Pub : Type} opt i (clock : T) (prov : P) (nat : N) (f : F) (pub : Pub) (md : M) (host : S) k self :
  Agent.setup opt i clock prov nat f pub md host k = Some self → Agent.publisher self = pub.
Proof.
  unfold Agent.setup. intros ([? ?] & _ & Hr)%bind_Some. apply bind_Some in Hr as ([? ?] & _ & Hr).
  apply bind_Some in Hr as ([? ?] & _ & Hr). apply bind_Some in Hr as (_ & _ & Hr).
  by apply bind_Some in Hr as (? & _ & [= <-]).
Qed.

(** What [build] makes of the options. *)
Lemma build_spec o opt mopt prov servers s servers' :
  build o opt mopt prov servers = Some (s, servers') →
  servers_after mopt servers servers' ∧
  MultiPublisher.from_options (crates o) (Options.log_reports opt) (Options.publish_reports opt)
    (Options.endpoint opt) (Options.endpoint_region opt) (Options.report_compression opt) (Options.proxy opt) =
    Some (Agent.publisher (agent s)) ∧
  ∃ nat f pub md host k, Agent.setup opt (loop o) (boot_clock o) prov nat f pub md host k = Some (agent s) ∧
    (is_Some (maybe inl nat) ↔ Options.resolve_nat opt = true).
Proof.
  unfold build. intros (nat & Hnat & Hr)%bind_Some. apply bind_Some in Hr as (f & _ & Hr).
  apply bind_Some in Hr as (ps & Hps & Hr). apply bind_Some in Hr as ([srv servers1] & Hsrv & Hr).
  apply bind_Some in Hr as (ag & Hag & [= <- <-]). split_and!; [|by apply setup_publisher in Hag as <-|].
  - unfold servers_after. unfold start_open_metrics_server in Hsrv. destruct (open_metrics mopt).
    + apply bind_Some in Hsrv as (cfg & _ & Hsrv). cbn in Hsrv. by injection Hsrv as _ <-.
    + by injection Hsrv as _ <-.
  - eexists nat, _, _, _, _, _. split; [exact Hag|]. destruct (Options.resolve_nat opt).
    + destruct (initialize_resolver o); [|done]. injection Hnat as <-. cbn. split; [done|by eexists].
    + injection Hnat as <-. cbn. split; [by intros [? ?]|done].
Qed.

(** C17: start-up does what the command line says, or nothing.  An error, which is an old kernel or a
    program that cannot be loaded, leaves the capabilities and the threads of the process alone.
    Otherwise the program is attached before privileges are given up: [CAP_SYS_ADMIN] is gone from
    both capability sets unless dropping it failed, all other capabilities are kept; one server
    thread more runs iff the metrics server is on; the publishers are those of the
    options; and no run of the agent meets an event its loop does not know. *)
Theorem startup_effect o opt mopt w r w' :
  on_load o opt mopt w = Some (r, w') →
  match r with
  | Err e => w' = w ∧
      (e = KernelTooOld ↔ (let '(major, minor, patch) := kernel_version o in check_kernel_version major minor patch) = false)
  | Ok s =>
      (∃ prov, Loader.new (kernel o) (Options.cgroup opt) (Options.notrack_secs opt) = Some (Ok prov)) ∧
      (∀ set, held (caps w') set ∖ {[CAP_SYS_ADMIN]} = held (caps w) set ∖ {[CAP_SYS_ADMIN]}) ∧
      ((drop_capabilities (caps w)).1 = Ok tt → ∀ set, CAP_SYS_ADMIN ∉ held (caps w') set) ∧
      servers_after mopt (servers w) (servers w') ∧
      MultiPublisher.from_options (crates o) (Options.log_reports opt) (Options.publish_reports opt)
        (Options.endpoint opt) (Options.endpoint_region opt) (Options.report_compression opt) (Options.proxy opt) =
        Some (Agent.publisher (agent s)) ∧
      (∀ E service env (is_ : list (EbpfInputs T _ E)) whats self',
         Agent.run service env opt is_ (agent s) = Some (whats, self') →
         Agent.UnknownEvent ∉ whats)
  end.
Proof.
  unfold on_load. destruct (kernel_version o) as [[major minor] patch].
  destruct (check_kernel_version major minor patch) eqn:Hk; cbn [negb]; [|by intros [= <- <-]].
  intros ([prov|e] & Hload & Hr)%bind_Some; [|by injection Hr as <- <-].
  pose proof (drop_capabilities_spec (caps w)) as Hdrop. destruct (drop_capabilities (caps w)) as [d cw].
  apply bind_Some in Hr as ([s servers1] & Hb & [= <- <-]). apply build_spec in Hb as (Hsrv & Hpub & nat & f & pub & md & host & k & Hset & _).
  split_and!; [by exists prov| | |done|done|].
  - intros set. cbn. destruct d as [?|e]; [rewrite Hdrop; set_solver|]. destruct Hdrop as [Hp He].
    destruct set; [destruct He as [-> | ->]; set_solver|by rewrite Hp].
  - cbn. intros -> set. rewrite Hdrop. set_solver.
  - intros E service env is_ whats self' Hrun. apply setup_schedule in Hset as (Hok & _ & _).
    exact (run_schedule service env opt is_ (agent s) whats self' Hok Hrun).
Qed.

(** C35: a well-configured agent starts.  On a kernel of at least 5.8 that accepts the program, with
    options in their ranges, publishers and resolver that can be built, a parseable metrics address,
    and a jitter no longer than the uptime plus one period, start-up neither fails nor panics. *)
Theorem agent_starts o opt mopt w publishers :
  (let '(major, minor, patch) := kernel_version o in check_kernel_version major minor patch = true) →
  loadable (kernel o) (Options.cgroup opt) →
  Options.valid opt → Options.top_k opt ≤ umax u32 →
  (Options.resolve_nat opt = true → is_Some (initialize_resolver o)) →
  MultiPublisher.from_options (crates o) (Options.log_reports opt) (Options.publish_reports opt)
    (Options.endpoint opt) (Options.endpoint_region opt) (Options.report_compression opt) (Options.proxy opt) =
    Some publishers →
  (open_metrics mopt = true → is_Some (parse_ip (open_metrics_address mopt))) →
  setup_ok opt (loop o) → 0 ≤ now_us (boot_clock o) ≤ 2 ^ 62 →
  Options.jitter_secs opt * 1000000 ≤ now_us (boot_clock o) + Options.publish_secs opt * 1000000 →
  ∃ s w', on_load o opt mopt w = Some (Ok s, w') ∧ Agent.publisher (agent s) = publishers ∧
    Agent.failed_reports_count (agent s) = 0.
Proof.
  intros Hk Hload Hv Htop Hnat Hpub Hip Hg Hnow Hj. unfold on_load. destruct (kernel_version o) as [[major minor] patch].
  rewrite Hk. cbn [negb]. destruct (loader_total _ _ (Options.notrack_secs opt) Hload) as [prov ->].
  { destruct Hv; lia. }
  cbn [mbind option_bind]. destruct (drop_capabilities (caps w)) as [d cw]. unfold build.
  assert (∃ nat : Resolver R, (if Options.resolve_nat opt then inl <$> initialize_resolver o
    else Some (inr NatResolverNoOp.mk)) = Some nat) as [nat ->].
  { destruct (Options.resolve_nat opt); [|by eexists]. destruct Hnat as [r ->]; [done|]. by eexists. }
  cbn [mbind option_bind]. rewrite (proj2 (Z.leb_le _ _) Htop). cbn [mbind option_bind]. rewrite Hpub. cbn [mbind option_bind].
  assert (∃ srv, start_open_metrics_server (open_metrics mopt) (open_metrics_address mopt) (open_metrics_port mopt) true
    (servers w) = Some srv) as [[srv servers1] ->].
  { unfold start_open_metrics_server, OpenMetricsServerConfig.from. destruct (open_metrics mopt); [|by eexists].
    destruct Hip as [ip ->]; [done|]. cbn. by eexists. }
  cbn [mbind option_bind].
  match goal with |- context [?X] => lazymatch X with Agent.setup opt _ _ _ _ _ _ _ _ _ =>
    assert (∃ self, X = Some self) as [self Hself] by (by apply setup_total) end end.
  rewrite Hself. cbn [mbind option_bind]. eexists _, _. split; [reflexivity|].
  split; [by apply setup_publisher in Hself|by apply setup_schedule in Hself as (_ & ? & _)].
Qed.

End startup.

(** ** An agent that starts *)

(** Capability sets as a pair, set without errors. *)
#[global] Instance pair_caps : Caps (gset Z * gset Z) := {
  read_caps s w := Ok (match s with Effective => w.1 | Permitted => w.2 end);
  set_caps s cs w := (Ok tt, match s with Effective => (cs, w.2) | Permitted => (w.1, cs) end);
}.

#[global] Instance pair_caps_laws : CapsLaws (gset Z * gset Z).
Proof.
  refine {| held := λ w s, match s with Effective => w.1 | Permitted => w.2 end |}.
  - by intros w [] cs [= <-].
  - intros w [] cs w' [= <-]; (split; [done|]); by intros [].
  - by intros w [].
Defined.

Definition kernel_example : Loader.kernel :=
  Loader.mk (λ _, true) (Ok 64000000000) (λ _ _, true) (Some true) true (λ _, true) (Some true) (Some true) 2.
Definition outside_example : outside NatResolverNoOp.t FakeClock.t nat unit :=
  mk_outside (5, 10, 3) kernel_example None crates_example (λ _, Err tt) (Err tt) (λ _, None)
    (Agent.mk_setup_inputs (λ _, true) (Watchers.mk_surroundings true None (λ s, s)) (λ _, 0) (λ _, Err tt) 2) (FakeClock.mk 100000000).
Definition options_example : Options.t :=
  Options.mk "/sys/fs/cgroup" 500 65 true 500 30 5 endpoint_example "eu-west-1" "" true true
    ReportPublisherOTLP.Gzip false false.
Definition metrics_example : MetricsOptions := mk_metrics_options true 80 (chr "127.0.0.1").
Definition world_example : world (gset Z * gset Z) :=
  mk ({[CAP_SYS_ADMIN; CAP_BPF]}, {[CAP_SYS_ADMIN; CAP_BPF]}) (OpenMetricsServer.mk_world ∅ ∅ 0 0).

Lemma agent_starts_witness :
  ∃ s w', on_load outside_example options_example metrics_example world_example = Some (Ok s, w') ∧
    Agent.publisher (agent s) = publishers_example.
Proof.
  destruct (agent_starts outside_example options_example metrics_example world_example publishers_example)
    as (s & w' & Hl & Hp & _).
  - by vm_compute.
  - split_and!; try done. exists 64000000000. split; [done|by_eval].
  - unfold Options.valid. by_eval.
  - by_eval.
  - by intros.
  - by vm_compute.
  - intros _. vm_compute. by eexists.
  - split_and!; [intros n Hn; cbn; lia|done..].
  - by_eval.
  - by_eval.
  - by exists s, w'.
Defined.

Lemma startup_effect_witness :
  match on_load outside_example options_example metrics_example world_example with
  | Some (Ok _, w') => CAP_SYS_ADMIN ∉ held (caps w') Permitted ∧ CAP_BPF ∈ held (caps w') Permitted ∧
      OpenMetricsServer.live (servers w') = {[0%nat := 0%nat]}
  | _ => False
  end.
Proof.
  destruct (on_load outside_example options_example metrics_example world_example) as [[[s|e] w']|] eqn:Hl.
  - destruct (startup_effect _ _ _ _ _ _ Hl) as (_ & Hkept & Hgone & Hsrv & _). split_and!.
    + by apply Hgone.
    + assert (CAP_BPF ∈ held (caps world_example) Permitted ∖ {[CAP_SYS_ADMIN]}) as Hin by by_eval.
      rewrite <- Hkept in Hin. set_solver.
    + exact Hsrv.
  - by vm_compute in Hl.
  - by vm_compute in Hl.
Defined.
