(* ===== verification/Testing.v ===== *)
(** * Testing: the unit tests of the repository, run on the model

    A test is a computation that ends with [Some tt], or with [None] at the first assertion that does
    not hold; a panic of the code under test is [None] as well.  The files named [*Tests]
    translate the tests of the source, so that evaluating them checks the model against the
    expectations of its authors. *)

From stdpp Require Import base numbers list.
From S2P Require Import Prelude.

Definition test : Type := option unit.

(** [assert!], [assert_eq!], [assert_ne!] and [panic!]. *)
Definition assert (b : bool) : test := if b then Some tt else None.
Definition assert_eq {A : Type} `{EqDecision A} (left right : A) : test := assert (bool_decide (left = right)).
Definition assert_ne {A : Type} `{EqDecision A} (left right : A) : test := assert (bool_decide (left ≠ right)).

Definition passed (t : test) : bool := succeeds t.
Definition all_passed (l : list test) : bool := forallb passed l.

Lemma assert_eq_refl {A : Type} `{EqDecision A} (x : A) : assert_eq x x = Some tt.
Proof. unfold assert_eq. by rewrite bool_decide_eq_true_2. Qed.

(** A loop of assertions. *)
Definition for_each {A : Type} (l : list A) (body : A → test) : test := foldM (λ _ x, body x) tt l.

(** A list of tests passes as soon as it evaluates so. *)
Ltac run_tests := vm_compute; reflexivity.
