(* ===== verification/KernelTests.v ===== *)
(** * KernelTests: the tests of nfm-common

    The tests of network.rs and sock_ops_handler.rs, except the three of the latter that fill maps
    (CapacityTests.v). *)

From stdpp Require Import base numbers gmap list strings.
From S2P Require Import Prelude Network BpfMaps SockOps SockOpsFacts Testing.
Import TcpSockOpsHandler SockSlotFacts.

(** ** network.rs *)
Module NetworkTests.

Definition test_sock_context_is_valid : test :=
  let sock_ctx := SockContext.default in
  _ ← assert (negb (SockContext.is_valid sock_ctx));
  let sock_ctx := sock_ctx <| SockContext.address_family := AF_INET |> in
  _ ← assert (SockContext.is_valid sock_ctx);
  let sock_ctx := sock_ctx <| SockContext.address_family := AF_INET6 |> in
  assert (SockContext.is_valid sock_ctx).

Definition test_sock_stats_add_with_last_agg_timestamp : test :=
  let rtt touched count latest smoothed := SockStats.default <| SockStats.last_touched_us := touched |>
    <| SockStats.rtt_count := count |> <| SockStats.rtt_latest_us := latest |>
    <| SockStats.rtt_smoothed_us := smoothed |> in
  let stats1 := rtt 100 5 20 30 in
  let stats2 := rtt 200 7 25 35 in
  (* Adding with an old timestamp adds 'em all. *)
  let last_agg_ts := 99 in
  let expected := rtt 200 12 20 35 in
  actual ← SockStats.add_from stats1 stats2 last_agg_ts;
  _ ← assert_eq actual expected;
  actual ← SockStats.add_from stats2 stats1 last_agg_ts;
  _ ← assert_eq actual expected;
  (* Adding with a last-touched on the aggregation threshold also adds 'em all. *)
  let last_agg_ts := SockStats.last_touched_us stats1 in
  actual ← SockStats.add_from stats1 stats2 last_agg_ts;
  _ ← assert_eq actual expected;
  actual ← SockStats.add_from stats2 stats1 last_agg_ts;
  _ ← assert_eq actual expected;
  (* Adding with the newest timestamp adds all fields but for RTT, using only newer stats. *)
  let last_agg_ts := SockStats.last_touched_us stats2 in
  let expected := rtt 200 12 25 35 in
  actual ← SockStats.add_from stats1 stats2 last_agg_ts;
  _ ← assert_eq actual expected;
  actual ← SockStats.add_from stats2 stats1 last_agg_ts;
  _ ← assert_eq actual expected;
  (* Adding with all old stats leaves us with the first RTT unchanged. *)
  let last_agg_ts := 300 in
  let expected := rtt 200 12 20 30 in
  actual ← SockStats.add_from stats1 stats2 last_agg_ts;
  assert_eq actual expected.

(** All fields of a [SockStats] but the flags and the padding. *)
Definition sock_stats (touched start end_ bytes_r bytes_d segs_r segs_d count latest smoothed
    retr_syn retr_est retr_close rto_syn rto_est rto_close attempts successes : Z) : SockStats.t :=
  SockStats.default <| SockStats.last_touched_us := touched |>
    <| SockStats.connect_start_us := start |> <| SockStats.connect_end_us := end_ |>
    <| SockStats.bytes_received := bytes_r |> <| SockStats.bytes_delivered := bytes_d |>
    <| SockStats.segments_received := segs_r |> <| SockStats.segments_delivered := segs_d |>
    <| SockStats.rtt_count := count |> <| SockStats.rtt_latest_us := latest |>
    <| SockStats.rtt_smoothed_us := smoothed |>
    <| SockStats.retrans_syn := retr_syn |> <| SockStats.retrans_est := retr_est |>
    <| SockStats.retrans_close := retr_close |>
    <| SockStats.rtos_syn := rto_syn |> <| SockStats.rtos_est := rto_est |>
    <| SockStats.rtos_close := rto_close |>
    <| SockStats.connect_attempts := attempts |> <| SockStats.connect_successes := successes |>.

Definition test_sock_stats_add_from : test :=
  let stats1 := sock_stats 105 97 0 59 61 73 79 7 31 23 11 12 13 14 15 16 17 18 in
  let stats2 := sock_stats 415 0 101 67 71 83 89 19 37 29 17 18 19 20 21 22 23 24 in
  let expected := sock_stats 415 97 101 67 71 83 89 26 31 29 28 30 32 34 36 38 40 42 in
  let last_agg_ts := 0 in
  for_each [(stats1, stats2); (stats2, stats1)] (λ '(s1, s2),
    stats_a ← SockStats.add_from s1 s2 last_agg_ts;
    _ ← assert_eq stats_a expected;
    connect_us ← SockStats.connect_us stats_a;
    _ ← assert_eq connect_us 4;
    stats_a ← SockStats.add_from stats_a s2 last_agg_ts;
    assert_eq (SockStats.rtt_count stats_a) (SockStats.rtt_count s2 * 2 + SockStats.rtt_count s1)).

Definition test_event_counters_rollover : test :=
  let m := umax u32 in
  (* Start with values close to the edge to test rollover. *)
  let original := {|
    EventCounters.active_connect_events := m - 1; EventCounters.active_established_events := m - 2;
    EventCounters.passive_established_events := m - 3; EventCounters.state_change_events := m - 4;
    EventCounters.rtt_events := m - 5; EventCounters.retrans_events := m - 6;
    EventCounters.rto_events := m - 7; EventCounters.other_events := m - 8;
    EventCounters.socket_events := m - 9; EventCounters.sockets_invalid := m - 10;
    EventCounters.map_insertion_errors := m - 18; EventCounters.rtts_invalid := m - 13;
    EventCounters.set_flags_errors := m - 14; EventCounters.other_errors := m - 15 |} in
  let additions := {|
    EventCounters.active_connect_events := 10; EventCounters.active_established_events := 11;
    EventCounters.passive_established_events := 12; EventCounters.state_change_events := 13;
    EventCounters.rtt_events := 14; EventCounters.retrans_events := 15;
    EventCounters.rto_events := 16; EventCounters.other_events := 17;
    EventCounters.socket_events := 18; EventCounters.sockets_invalid := 19;
    EventCounters.map_insertion_errors := 27; EventCounters.rtts_invalid := 22;
    EventCounters.set_flags_errors := 23; EventCounters.other_errors := 24 |} in
  let new_counters := original in
  _ ← assert_eq new_counters original;
  (* Perform an add to cause rollover. *)
  let new_counters := EventCounters.add_from new_counters additions in
  _ ← assert_ne new_counters original;
  (* Confirm subtraction still yields the values we added. *)
  let delta := EventCounters.subtract new_counters original in
  assert_eq delta additions.

Definition byte_order_context (local_port remote_port : Z) : SockOpsContext.t :=
  SockOpsContext.default <| SockOpsContext.family := 2 |>
    <| SockOpsContext.local_port := local_port |> <| SockOpsContext.remote_port := remote_port |>
    <| SockOpsContext.local_ip4 := 318767104 |> <| SockOpsContext.remote_ip4 := 1325400064 |>
    <| SockOpsContext.local_ip6 := replicate 4 0x01010101 |>
    <| SockOpsContext.remote_ip6 := replicate 4 0x01010101 |>.

Definition test_sock_context_from_network_byte_order : test :=
  let actual_sock_ops_context := byte_order_context 20 184549376 in
  actual ← SockContext.from_sock_ops actual_sock_ops_context true;
  let expected := SockContext.default <| SockContext.is_client := true |>
    <| SockContext.address_family := 2 |> <| SockContext.local_port := 20 |>
    <| SockContext.remote_port := 11 |> <| SockContext.local_ipv4 := 19 |>
    <| SockContext.remote_ipv4 := 79 |> <| SockContext.local_ipv6 := replicate 16 1 |>
    <| SockContext.remote_ipv6 := replicate 16 1 |> in
  assert_eq actual expected.

Definition test_port_edge_cases : test :=
  for_each [0; 1; 500; 35000; 65535] (λ port,
    (* On a little-endian host [to_be] is [from_be]. *)
    let actual_sock_ops_context := byte_order_context port (SockContext.from_be32 port) in
    actual ← SockContext.from_sock_ops actual_sock_ops_context true;
    _ ← assert_eq (SockContext.local_port actual) port;
    assert_eq (SockContext.remote_port actual) port).

Definition test_ipv6_to_bytes : test :=
  let v6_quads := [67305985; 134678021; 202050057; 269422093] in
  (* Expect byte values 1 thru 16. *)
  let expected := seqZ 1 16 in
  let actual := SockContext.ipv6_to_bytes v6_quads in
  assert_eq actual expected.

Definition test_sock_stats_subtract : test :=
  let stats_a := (sock_stats 10 20 30 40 50 150 160 60 70 80 90 100 110 120 130 140 150 160)
    <| SockStats.state_flags := SockStateFlags.STARTED_CLOSURE |> in
  let stats_b := (sock_stats 1 2 3 4 5 15 16 6 7 8 9 10 11 12 13 14 15 16)
    <| SockStats.state_flags := SockStateFlags.ENTERED_ESTABLISH |> in
  (* Test a typical diff. *)
  let expected_diff := (sock_stats 10 20 30 36 45 135 144 54 70 80 81 90 99 108 117 126 135 144)
    <| SockStats.state_flags := SockStateFlags.STARTED_CLOSURE |> in
  let actual_diff := SockStats.subtract stats_a stats_b in
  _ ← assert_eq actual_diff expected_diff;
  (* Test values having wrapped around. *)
  let neg w (f : SockStats.t → Z) := umax w - f expected_diff + 1 in
  let expected_diff_wrapped := (sock_stats 1 2 3
    (neg u64 SockStats.bytes_received) (neg u64 SockStats.bytes_delivered)
    (neg u32 SockStats.segments_received) (neg u32 SockStats.segments_delivered)
    (neg u32 SockStats.rtt_count) 7 8
    (neg u32 SockStats.retrans_syn) (neg u32 SockStats.retrans_est) (neg u32 SockStats.retrans_close)
    (neg u32 SockStats.rtos_syn) (neg u32 SockStats.rtos_est) (neg u32 SockStats.rtos_close)
    (neg u8 SockStats.connect_attempts) (neg u8 SockStats.connect_successes))
    <| SockStats.state_flags := SockStateFlags.ENTERED_ESTABLISH |> in
  let actual_diff_wrapped := SockStats.subtract stats_b stats_a in
  assert_eq actual_diff_wrapped expected_diff_wrapped.

(** [Ipv4Addr::new] and [Ipv6Addr::new]. *)
Definition ipv4 (a b c d : Z) : IpAddr.t := IpAddr.V4 (((a * 256 + b) * 256 + c) * 256 + d).
Definition ipv6 (segments : list Z) : IpAddr.t := IpAddr.V6 (s ← segments; [s / 256; s mod 256]).

Definition test_ipv4_link_local : test :=
  (* Test IPv4 link-local addresses (169.254.0.0/16). *)
  _ ← for_each [ipv4 169 254 0 0; ipv4 169 254 100 200; ipv4 169 254 255 255]
        (λ addr, assert (IpAddr.is_link_local addr));
  (* Test non-link-local IPv4 addresses. *)
  for_each [ipv4 127 0 0 1; ipv4 10 0 0 1; ipv4 192 168 1 1; ipv4 8 8 8 8; ipv4 169 253 255 255; ipv4 169 255 0 0]
    (λ addr, assert (negb (IpAddr.is_link_local addr))).

Definition test_ipv6_link_local : test :=
  (* Test IPv6 link-local addresses (fe80::/10). *)
  _ ← for_each [ipv6 [0xfe80; 0; 0; 0; 0; 0; 0; 0];
                ipv6 [0xfe80; 0; 0; 0; 0x1234; 0x5678; 0x9abc; 0xdef0];
                ipv6 [0xfebf; 0xffff; 0xffff; 0xffff; 0xffff; 0xffff; 0xffff; 0xffff]]
        (λ addr, assert (IpAddr.is_link_local addr));
  (* Test non-link-local IPv6 addresses. *)
  for_each [ipv6 [0; 0; 0; 0; 0; 0; 0; 1]; ipv6 [0x2001; 0xdb8; 0; 0; 0; 0; 0; 1];
            ipv6 [0xfc00; 0; 0; 0; 0; 0; 0; 1]; ipv6 [0xff02; 0; 0; 0; 0; 0; 0; 1];
            ipv6 [0xfe7f; 0xffff; 0xffff; 0xffff; 0xffff; 0xffff; 0xffff; 0xffff];
            ipv6 [0xfec0; 0; 0; 0; 0; 0; 0; 0]]
    (λ addr, assert (negb (IpAddr.is_link_local addr))).

Lemma network_tests_pass : all_passed [test_sock_context_is_valid; test_sock_stats_add_with_last_agg_timestamp;
  test_sock_stats_add_from; test_event_counters_rollover; test_sock_context_from_network_byte_order;
  test_port_edge_cases; test_ipv6_to_bytes; test_sock_stats_subtract; test_ipv4_link_local;
  test_ipv6_link_local] = true.
Proof. run_tests. Qed.

End NetworkTests.

(** ** sock_ops_handler.rs *)
Module SockOpsTests.

Definition MOCK_CPU_ID : Z := 199.
Definition NO_COOKIE : Z := 0.
Definition BPF_TCP_FIN_WAIT1 : Z := 5.

(** The readers of the maps that the tests use; a missing entry panics. *)
Definition counters (maps : EbpfMaps.t) : option EventCounters.t := head (EbpfMaps.NFM_COUNTERS maps).
Definition sock_props (maps : EbpfMaps.t) (key : CpuSockKey.t) : option SockContext.t :=
  SharedHashMap.data (EbpfMaps.NFM_SK_PROPS maps) !! key.
Definition sock_stats (maps : EbpfMaps.t) (key : CpuSockKey.t) : option SockStats.t :=
  SharedHashMap.data (EbpfMaps.NFM_SK_STATS maps) !! key.
Definition num_props (maps : EbpfMaps.t) : nat := size (SharedHashMap.data (EbpfMaps.NFM_SK_PROPS maps)).
Definition num_stats (maps : EbpfMaps.t) : nat := size (SharedHashMap.data (EbpfMaps.NFM_SK_STATS maps)).

(** The handler over the mocked maps; the mocked [set_cb_flags] checks its argument and succeeds. *)
Definition set_cb_flags (_ : SockOpsContext.t) (flags : Z) : Result unit Z :=
  if forallb (λ flag, 0 <? Z.land flags flag)
       [BPF_SOCK_OPS_RTT_CB_FLAG; BPF_SOCK_OPS_RTO_CB_FLAG; BPF_SOCK_OPS_STATE_CB_FLAG;
        BPF_SOCK_OPS_RETRANS_CB_FLAG; BPF_SOCK_OPS_PARSE_ALL_HDR_OPT_CB_FLAG]
  then Ok tt else Err (- EINVAL).
Definition handle : SockOpsContext.t → Z → EbpfMaps.t → option (SockOpsResult * EbpfMaps.t) :=
  run_event MOCK_CPU_ID set_cb_flags.

#[local] Instance result_dec : EqDecision SockOpsResult.
Proof. solve_decision. Defined.

Definition run_sock_ops_test_with_args (cookie sock_state op_code : Z) (args : list Z) (ktime_us : Z)
    (expectation : SockOpsResult) (maps : EbpfMaps.t) : option EbpfMaps.t :=
  let ctx := SockOpsContext.default <| SockOpsContext.cookie := cookie |>
    <| SockOpsContext.sock_state := sock_state |> <| SockOpsContext.op := op_code |>
    <| SockOpsContext.args := args |> <| SockOpsContext.family := AF_INET |> in
  (* Handle the event. *)
  '(result, maps) ← handle ctx ktime_us maps;
  (* Validate initial results. *)
  _ ← assert_eq result expectation;
  _ ← (if is_ok expectation then
         stats ← sock_stats maps (CpuSockKey.mk MOCK_CPU_ID cookie);
         assert_eq (SockStats.last_touched_us stats) ktime_us
       else Some tt);
  Some maps.

Definition run_sock_ops_test (cookie op_code ktime_us : Z) (expectation : SockOpsResult) (maps : EbpfMaps.t) :
    option EbpfMaps.t :=
  let no_args := [0; 0] in
  run_sock_ops_test_with_args cookie BPF_TCP_SYN_SENT op_code no_args ktime_us expectation maps.

Definition test_ebpf_op_invalid : test :=
  let INVALID_OP := 0 in
  _ ← run_sock_ops_test NO_COOKIE INVALID_OP 0 (Err OperationUnknown) EbpfMaps.new;
  Some tt.

Definition test_ebpf_op_valid : test :=
  _ ← run_sock_ops_test 211 BPF_SOCK_OPS_TCP_CONNECT_CB 0 (Ok tt) EbpfMaps.new;
  Some tt.

Definition test_ebpf_context_invalid : test :=
  let AF_OTHER := 0 in
  let ctx := SockOpsContext.default <| SockOpsContext.op := BPF_SOCK_OPS_TCP_CONNECT_CB |>
    <| SockOpsContext.family := AF_OTHER |> in
  (* Try to handle the event. *)
  '(result, maps) ← handle ctx 0 EbpfMaps.new;
  (* Confirm failure. *)
  _ ← assert_eq result (Err ContextInvalid);
  c ← counters maps;
  _ ← assert_eq (EventCounters.active_connect_events c) 1;
  _ ← assert_eq (EventCounters.sockets_invalid c) 1;
  _ ← assert_eq (num_props maps) 0%nat;
  assert_eq (num_stats maps) 0%nat.

(** A connection is opened, actively or passively. *)
Definition test_ebpf_sock_op_connect : test :=
  maps ← run_sock_ops_test 197 BPF_SOCK_OPS_TCP_CONNECT_CB 0 (Ok tt) EbpfMaps.new;
  c ← counters maps;
  _ ← assert_eq (EventCounters.active_connect_events c) 1;
  _ ← assert_eq (num_props maps) 1%nat;
  assert_eq (num_stats maps) 1%nat.

Definition test_ebpf_sock_op_passive_established : test :=
  maps ← run_sock_ops_test 197 BPF_SOCK_OPS_PASSIVE_ESTABLISHED_CB 0 (Ok tt) EbpfMaps.new;
  c ← counters maps;
  _ ← assert_eq (EventCounters.passive_established_events c) 1;
  _ ← assert_eq (num_props maps) 1%nat;
  assert_eq (num_stats maps) 1%nat.

Definition test_ebpf_sock_op_active_established_sans_connect : test :=
  let ctx := SockOpsContext.default <| SockOpsContext.op := BPF_SOCK_OPS_ACTIVE_ESTABLISHED_CB |>
    <| SockOpsContext.family := AF_INET |> <| SockOpsContext.cookie := 197 |> in
  (* Handle the event. *)
  '(result, maps) ← handle ctx 0 EbpfMaps.new;
  (* Validate results. *)
  _ ← assert_eq result (Err OperationUnknown);
  c ← counters maps;
  _ ← assert_eq (EventCounters.active_established_events c) 0;
  _ ← assert_eq (num_props maps) 0%nat;
  assert_eq (num_stats maps) 0%nat.

Definition test_ebpf_sock_op_active_established : test :=
  let mock_ktime_us := 99 in
  let cookie := 197 in
  (* Handle two events. *)
  maps ← run_sock_ops_test cookie BPF_SOCK_OPS_TCP_CONNECT_CB mock_ktime_us (Ok tt) EbpfMaps.new;
  maps ← run_sock_ops_test_with_args cookie BPF_TCP_SYN_SENT BPF_SOCK_OPS_STATE_CB
           [BPF_TCP_SYN_SENT; BPF_TCP_ESTABLISHED] (mock_ktime_us + 10) (Ok tt) maps;
  (* Validate results. *)
  _ ← assert_eq (num_props maps) 1%nat;
  c ← counters maps;
  _ ← assert_eq (EventCounters.active_connect_events c) 1;
  let composite_key := CpuSockKey.mk MOCK_CPU_ID cookie in
  _ ← sock_props maps composite_key;
  stats ← sock_stats maps composite_key;
  _ ← assert_eq (SockStats.connect_start_us stats) mock_ktime_us;
  assert_eq (SockStats.connect_end_us stats) (mock_ktime_us + 10).

Definition test_ebpf_sock_op_rtt_with_arg : test :=
  let cookie := 197 in
  (* Handle a first event. *)
  maps ← run_sock_ops_test cookie BPF_SOCK_OPS_TCP_CONNECT_CB 0 (Ok tt) EbpfMaps.new;
  (* Handle a second event. *)
  let ctx := SockOpsContext.default <| SockOpsContext.cookie := cookie |>
    <| SockOpsContext.op := BPF_SOCK_OPS_RTT_CB |> <| SockOpsContext.args := [52; Z.shiftl 59 3] |> in
  '(result, maps) ← handle ctx 0 maps;
  (* Validate results. *)
  _ ← assert_eq result (Ok tt);
  stats ← sock_stats maps (CpuSockKey.mk MOCK_CPU_ID cookie);
  _ ← assert_eq (SockStats.rtt_count stats) 1;
  _ ← assert_eq (SockStats.rtt_latest_us stats) 52;
  _ ← assert_eq (SockStats.rtt_smoothed_us stats) 59;
  c ← counters maps;
  assert_eq (EventCounters.rtt_events c) 1.

Definition test_ebpf_sock_op_rtt_no_arg : test :=
  let cookie := 197 in
  (* Handle a first event. *)
  maps ← run_sock_ops_test cookie BPF_SOCK_OPS_TCP_CONNECT_CB 0 (Ok tt) EbpfMaps.new;
  (* Handle a second event. *)
  let ctx := SockOpsContext.default <| SockOpsContext.cookie := cookie |>
    <| SockOpsContext.op := BPF_SOCK_OPS_RTT_CB |> <| SockOpsContext.args := [0; 0] |>
    <| SockOpsContext.stats := SockOpsStats.default <| SockOpsStats.srtt_us := 59 |> |> in
  '(result, maps) ← handle ctx 0 maps;
  (* Validate results. *)
  _ ← assert_eq result (Ok tt);
  stats ← sock_stats maps (CpuSockKey.mk MOCK_CPU_ID cookie);
  _ ← assert_eq (SockStats.rtt_count stats) 1;
  _ ← assert_eq (SockStats.rtt_latest_us stats) 59;
  _ ← assert_eq (SockStats.rtt_smoothed_us stats) 59;
  c ← counters maps;
  _ ← assert_eq (EventCounters.rtt_events c) 1;
  assert_eq (EventCounters.rtts_invalid c) 1.

Definition test_ebpf_sock_op_retrans : test :=
  let cookie := 197 in
  let run state op args := run_sock_ops_test_with_args cookie state op args 0 (Ok tt) in
  (* A connection is initiated, followed by retransmits. *)
  maps ← run_sock_ops_test cookie BPF_SOCK_OPS_TCP_CONNECT_CB 0 (Ok tt) EbpfMaps.new;
  maps ← run BPF_TCP_SYN_SENT BPF_SOCK_OPS_RETRANS_CB [0; 11] maps;
  (* After entering established, more retransmits are seen.  Notice that the new state is reflected
     in the args, and not the sock context. *)
  maps ← run BPF_TCP_SYN_SENT BPF_SOCK_OPS_STATE_CB [BPF_TCP_SYN_SENT; BPF_TCP_ESTABLISHED] maps;
  maps ← run BPF_TCP_ESTABLISHED BPF_SOCK_OPS_RETRANS_CB [0; 22] maps;
  (* Finally, during close, more retransmits are seen. *)
  maps ← run BPF_TCP_ESTABLISHED BPF_SOCK_OPS_STATE_CB [BPF_TCP_ESTABLISHED; BPF_TCP_FIN_WAIT1] maps;
  maps ← run BPF_TCP_FIN_WAIT1 BPF_SOCK_OPS_RETRANS_CB [0; 33] maps;
  (* Validate results. *)
  stats ← sock_stats maps (CpuSockKey.mk MOCK_CPU_ID cookie);
  _ ← assert_eq (SockStats.retrans_syn stats) 11;
  _ ← assert_eq (SockStats.retrans_est stats) 22;
  _ ← assert_eq (SockStats.retrans_close stats) 33;
  c ← counters maps;
  assert_eq (EventCounters.retrans_events c) 3.

Definition test_ebpf_sock_op_rto : test :=
  let cookie := 197 in
  let run state op args := run_sock_ops_test_with_args cookie state op args 0 (Ok tt) in
  (* A connection is initiated, followed by an RTO. *)
  maps ← run_sock_ops_test cookie BPF_SOCK_OPS_TCP_CONNECT_CB 0 (Ok tt) EbpfMaps.new;
  maps ← run_sock_ops_test cookie BPF_SOCK_OPS_RTO_CB 0 (Ok tt) maps;
  (* After entering established, we see another RTO. *)
  maps ← run BPF_TCP_SYN_SENT BPF_SOCK_OPS_STATE_CB [BPF_TCP_SYN_SENT; BPF_TCP_ESTABLISHED] maps;
  maps ← run BPF_TCP_ESTABLISHED BPF_SOCK_OPS_RTO_CB [0; 0] maps;
  (* Finally, during close, another RTO. *)
  maps ← run BPF_TCP_ESTABLISHED BPF_SOCK_OPS_STATE_CB [BPF_TCP_ESTABLISHED; BPF_TCP_FIN_WAIT1] maps;
  maps ← run BPF_TCP_FIN_WAIT1 BPF_SOCK_OPS_RTO_CB [0; 0] maps;
  (* Validate results. *)
  stats ← sock_stats maps (CpuSockKey.mk MOCK_CPU_ID cookie);
  _ ← assert_eq (SockStats.rtos_syn stats) 1;
  _ ← assert_eq (SockStats.rtos_est stats) 1;
  _ ← assert_eq (SockStats.rtos_close stats) 1;
  c ← counters maps;
  assert_eq (EventCounters.rto_events c) 3.

(** The flags of a socket, and the number of state changes, after a list of events. *)
Definition flags_after (events : list (EbpfMaps.t → option EbpfMaps.t)) (flags state_changes : Z) : test :=
  maps ← foldM (λ maps event, event maps) EbpfMaps.new events;
  sock_wrap ← sock_stats maps (CpuSockKey.mk MOCK_CPU_ID 197);
  _ ← assert_eq (SockStats.state_flags sock_wrap) flags;
  c ← counters maps;
  assert_eq (EventCounters.state_change_events c) state_changes.

Definition test_ebpf_sock_op_rst_on_passive_connect : test :=
  let mock_ktime_us := 99 in
  flags_after
    [ (* Receive a connection. *)
     run_sock_ops_test_with_args 197 BPF_TCP_ESTABLISHED BPF_SOCK_OPS_PASSIVE_ESTABLISHED_CB [0; 0]
       mock_ktime_us (Ok tt);
     (* Terminate the connect attempt. *)
     run_sock_ops_test_with_args 197 BPF_TCP_ESTABLISHED BPF_SOCK_OPS_STATE_CB
       [BPF_TCP_ESTABLISHED; BPF_TCP_CLOSE] (mock_ktime_us + 10) (Ok tt)]
    (Z.lor SockStateFlags.ENTERED_ESTABLISH (Z.lor SockStateFlags.STARTED_CLOSURE
      (Z.lor SockStateFlags.TERMINATED_FROM_EST SockStateFlags.CLOSED))) 1.

Definition test_ebpf_sock_op_rst_on_active_connect : test :=
  let mock_ktime_us := 99 in
  flags_after
    [ (* Initiate a connection. *)
     run_sock_ops_test_with_args 197 BPF_TCP_SYN_SENT BPF_SOCK_OPS_TCP_CONNECT_CB [0; 0] mock_ktime_us (Ok tt);
     (* Terminate the connect attempt. *)
     run_sock_ops_test_with_args 197 BPF_TCP_SYN_SENT BPF_SOCK_OPS_STATE_CB
       [BPF_TCP_SYN_SENT; BPF_TCP_CLOSE] (mock_ktime_us + 10) (Ok tt)]
    (Z.lor SockStateFlags.STARTED_CLOSURE (Z.lor SockStateFlags.TERMINATED_FROM_SYN SockStateFlags.CLOSED)) 1.

Definition test_ebpf_sock_op_rst_on_establish : test :=
  let mock_ktime_us := 99 in
  flags_after
    [ (* Handle two events. *)
     run_sock_ops_test 197 BPF_SOCK_OPS_TCP_CONNECT_CB mock_ktime_us (Ok tt);
     run_sock_ops_test_with_args 197 BPF_TCP_SYN_SENT BPF_SOCK_OPS_STATE_CB
       [BPF_TCP_SYN_SENT; BPF_TCP_ESTABLISHED] (mock_ktime_us + 10) (Ok tt);
     (* Handle a 3rd event that mimicks a TCP RST by transitioning from ESTABLISHED to CLOSED. *)
     run_sock_ops_test_with_args 197 BPF_TCP_ESTABLISHED BPF_SOCK_OPS_STATE_CB
       [BPF_TCP_ESTABLISHED; BPF_TCP_CLOSE] (mock_ktime_us + 10) (Ok tt)]
    (Z.lor SockStateFlags.ENTERED_ESTABLISH (Z.lor SockStateFlags.STARTED_CLOSURE
      (Z.lor SockStateFlags.TERMINATED_FROM_EST SockStateFlags.CLOSED))) 2.

(** The decision on every kind of event, with a random number and an interval of 2. *)
Definition sampling_test (mock_rand : Z) (captures_new : bool) : test :=
  control ← SharedArray.insert (EbpfMaps.NFM_CONTROL EbpfMaps.new) 0
              (ControlData.default <| ControlData.sampling_interval := 2 |>);
  let maps := EbpfMaps.new <| EbpfMaps.mock_rand := mock_rand |> <| EbpfMaps.NFM_CONTROL := control |> in
  let should_handle := BpfControlConveyor.should_handle_event maps in
  (* New socket events. *)
  _ ← for_each [BPF_SOCK_OPS_TCP_CONNECT_CB; BPF_SOCK_OPS_PASSIVE_ESTABLISHED_CB]
        (λ op, assert_eq (should_handle op) captures_new);
  (* We capture other events. *)
  _ ← for_each [BPF_SOCK_OPS_RETRANS_CB; BPF_SOCK_OPS_RTT_CB; BPF_SOCK_OPS_RTO_CB] (λ op, assert (should_handle op));
  (* We ignore unnecessary events. *)
  for_each [BPF_SOCK_OPS_TIMEOUT_INIT; BPF_SOCK_OPS_RWND_INIT; BPF_SOCK_OPS_NEEDS_ECN;
            BPF_SOCK_OPS_ACTIVE_ESTABLISHED_CB] (λ op, assert (negb (should_handle op))).

(** A random value not divisible by the sampling interval results in a discard, others in a capture. *)
Definition test_ebpf_sock_op_sample_discard : test := sampling_test 121 false.
Definition test_ebpf_sock_op_sample_capture : test := sampling_test 122 true.

Lemma sock_ops_tests_pass : all_passed [test_ebpf_op_invalid; test_ebpf_op_valid; test_ebpf_context_invalid;
  test_ebpf_sock_op_connect; test_ebpf_sock_op_passive_established;
  test_ebpf_sock_op_active_established_sans_connect; test_ebpf_sock_op_active_established;
  test_ebpf_sock_op_rtt_with_arg; test_ebpf_sock_op_rtt_no_arg; test_ebpf_sock_op_retrans; test_ebpf_sock_op_rto;
  test_ebpf_sock_op_rst_on_passive_connect; test_ebpf_sock_op_rst_on_active_connect;
  test_ebpf_sock_op_rst_on_establish; test_ebpf_sock_op_sample_discard; test_ebpf_sock_op_sample_capture] = true.
Proof. run_tests. Qed.

End SockOpsTests.
