(* ===== verification/AgentTests.v ===== *)
(** * AgentTests: the tests of the aggregation in nfm-controller

    The tests of sock_cache.rs, except the one that fills the cache (CapacityTests.v).  Hash maps are visited in the
    order of [map_to_list]; SockCacheFacts shows that no result depends on it. *)

From stdpp Require Import base numbers gmap list strings.
From Stdlib Require Import QArith.
From S2P Require Import Prelude Network SockCache Testing.
Open Scope Z_scope.

(** ** sock_cache.rs *)
Module SockCacheTests.

Definition STALENESS_TS : Z := 0.

#[global] Instance sock_operation_result_dec : EqDecision SockOperationResult.t.
Proof. solve_decision. Defined.

Definition result (completed partial failed : Z) : SockOperationResult.t :=
  SockOperationResult.mk completed partial failed.
Definition inet : SockContext.t := SockContext.default <| SockContext.address_family := AF_INET |>.
Definition touched (us : Z) : SockStats.t := SockStats.default <| SockStats.last_touched_us := us |>.
Definition delivered (bytes : Z) : SockStats.t := SockStats.default <| SockStats.bytes_delivered := bytes |>.

Definition stream : Type := gmap Z AggSockStats.t.
Definition update (sock_cache : SockCache.t) (sock_stream : stream) (staleness : Z) :
    SockOperationResult.t * SockCache.t * stream :=
  SockCache.update_stats_and_get_deltas sock_cache sock_stream (map_to_list sock_stream) staleness.

(** [num_cpus] of the cache: both bounds, and the average within a hundredth. *)
Definition assert_num_cpus (sock_cache : SockCache.t) (expected : Z) : test :=
  let '(min, max, avg) := SockCache.num_cpus sock_cache (map_to_list (SockCache.cache sock_cache)).*2 in
  _ ← assert_eq min expected;
  _ ← assert_eq max expected;
  assert (negb (Qle_bool (1 # 100) (inject_Z expected - avg)) && negb (Qle_bool (1 # 100) (avg - inject_Z expected))).

Definition sock_keys : list Z := [99; 101; 4; 55; 19; 79].
Definition num_keys : Z := 6.
(** The incoming stream: one entry per key. *)
Definition stream_of (entry : Z → AggSockStats.t) : stream := list_to_map ((λ k, (k, entry k)) <$> sock_keys).
(** A context for every key; each is new. *)
Definition add_contexts (now_us : Z) (sock_cache : SockCache.t) : option SockCache.t :=
  foldM (λ sock_cache sock_key,
    let '(r, sock_cache) := SockCache.add_context sock_cache sock_key inet now_us in
    _ ← assert_eq r (result 1 0 0); Some sock_cache) sock_cache sock_keys.

Definition test_sock_cache_add_context_new : test :=
  let sock_key := 55 in
  let context := inet <| SockContext.local_ipv4 := 99 |> in
  let now_us := 100 in
  let '(r, sock_cache) := SockCache.add_context SockCache.new sock_key context now_us in
  _ ← assert_eq r (result 1 0 0);
  wrapper ← SockCache.get sock_cache sock_key;
  _ ← assert_eq (SockWrapper.context wrapper) context;
  _ ← assert_eq (SockWrapper.agg_stats wrapper) (AggSockStats.mk (touched now_us) []);
  _ ← assert_eq (SockCache.len sock_cache) 1;
  assert_num_cpus sock_cache 1.

Definition test_sock_cache_add_context_pre_existing : test :=
  (* Add an initial context. *)
  let sock_key := 55 in
  let context := inet <| SockContext.local_ipv4 := 99 |> in
  let now_us := 100 in
  let '(_, sock_cache) := SockCache.add_context SockCache.new sock_key context now_us in
  (* Add a second context and verify it takes precedence. *)
  let context2 := inet <| SockContext.local_ipv4 := 99 * 2 |> in
  let now_us := now_us * 2 in
  let '(r, sock_cache) := SockCache.add_context sock_cache sock_key context2 now_us in
  _ ← assert_eq r (result 0 1 0);
  wrapper ← SockCache.get sock_cache sock_key;
  _ ← assert_eq (SockWrapper.context wrapper) context2;
  _ ← assert_eq (SockWrapper.agg_stats wrapper) (AggSockStats.mk (touched now_us) []);
  assert_eq (SockCache.len sock_cache) 1.

Definition test_get_sock_deltas_empty : test :=
  (* On empty should yield nothing. *)
  let '(r, sock_cache, sock_stream) := update SockCache.new ∅ STALENESS_TS in
  _ ← assert_eq r SockOperationResult.default;
  _ ← assert_eq sock_stream ∅;
  assert (SockCache.is_empty sock_cache).

Definition test_get_sock_deltas_all_new_stats : test :=
  (* Create a slew of sockets in the incoming stream, each with a context in cache. *)
  let sock_stream := stream_of (λ sock_key,
    AggSockStats.mk ((touched (sock_key * 3)) <| SockStats.bytes_delivered := sock_key * 4 |>) [sock_key mod 2; 100]) in
  sock_cache ← add_contexts 2049 SockCache.new;
  (* On nothing before should yield all of the after. *)
  let expected_deltas := sock_stream in
  let '(r, sock_cache, sock_stream) := update sock_cache sock_stream STALENESS_TS in
  _ ← assert_eq r (result num_keys 0 0);
  _ ← assert_eq (SockCache.len sock_cache) num_keys;
  _ ← assert_eq sock_stream expected_deltas;
  assert_num_cpus sock_cache 2.

Definition test_get_sock_deltas_all_new_contexts : test :=
  (* Create a slew of sockets in the incoming stream. *)
  let sock_stream := stream_of (λ sock_key,
    AggSockStats.mk ((touched (sock_key * 3)) <| SockStats.bytes_delivered := sock_key * 4 |>) [sock_key mod 2; 100]) in
  (* On nothing before should yield all of the after. *)
  let expected_deltas := sock_stream in
  let '(r, sock_cache, sock_stream) := update SockCache.new sock_stream STALENESS_TS in
  _ ← assert_eq r (result 0 num_keys 0);
  _ ← assert_eq (SockCache.len sock_cache) num_keys;
  assert_eq sock_stream expected_deltas.

(** The incoming stream of the next tests. *)
Definition delivered_stream : stream := stream_of (λ sock_key, AggSockStats.mk (delivered (sock_key * 4)) [sock_key mod 2; 100]).
(** Every delta of the stream is the given multiple of its key. *)
Definition assert_deltas (sock_stream : stream) (factor : Z → Z) : test :=
  _ ← assert_eq (Z.of_nat (size sock_stream)) num_keys;
  for_each (map_to_list sock_stream) (λ '(sock_key, actual_delta),
    assert_eq actual_delta (AggSockStats.mk (delivered (sock_key * factor sock_key)) [sock_key mod 2; 100])).

Definition test_get_sock_deltas_all_changed : test :=
  (* Create sock stats already in cache, but with smaller values. *)
  let old_stream := stream_of (λ sock_key, AggSockStats.mk (delivered sock_key) []) in
  let '(r, sock_cache, _) := update SockCache.new old_stream STALENESS_TS in
  _ ← assert_eq r (result 0 num_keys 0);
  (* Validate the resultant deltas placed into the sock stream. *)
  let '(r, sock_cache, sock_stream) := update sock_cache delivered_stream STALENESS_TS in
  _ ← assert_eq r (result num_keys 0 0);
  assert_deltas sock_stream (λ _, 3).

Definition test_get_sock_deltas_new_and_changed : test :=
  (* Create sock stats already in cache, but with smaller values. *)
  let old_stream := stream_of (λ sock_key, AggSockStats.mk (delivered sock_key) []) in
  (* Let's say two sockets were not in the old stream, and will thus appear anew. *)
  let old_stream := delete 19 (delete 101 old_stream) in
  let '(r, sock_cache, _) := update SockCache.new old_stream STALENESS_TS in
  _ ← assert_eq r (result 0 (num_keys - 2) 0);
  (* Validate the resultant deltas placed into the sock stream. *)
  let '(r, sock_cache, sock_stream) := update sock_cache delivered_stream STALENESS_TS in
  _ ← assert_eq r (result (num_keys - 2) 2 0);
  assert_deltas sock_stream (λ sock_key, if (sock_key =? 101) || (sock_key =? 19) then 4 else 3).

Definition test_get_sock_deltas_all_partial : test :=
  (* Place a slew of sockets into the cache. *)
  let '(r, sock_cache, _) := update SockCache.new delivered_stream STALENESS_TS in
  _ ← assert_eq r (result 0 num_keys 0);
  (* On something before but nothing after is non-sensical, so should yield nothing. *)
  let '(r, _, sock_stream) := update sock_cache ∅ STALENESS_TS in
  _ ← assert_eq r (result 0 0 0);
  assert_eq sock_stream ∅.

Definition test_get_sockets_to_evict_empty : test :=
  let '(socks_evicted, num_stale, sock_cache) := SockCache.perform_eviction SockCache.new in
  _ ← assert_eq (size socks_evicted) 0%nat;
  _ ← assert_eq num_stale 0;
  assert_eq (SockCache.len sock_cache) 0.

(** The streams of the tests on eviction. *)
Definition now_us : Z := 100.
Definition notrack_us : Z := 10.
Definition staleness_timestamp : Z := now_us - notrack_us.
Definition active_stream : stream := stream_of (λ sock_key, AggSockStats.mk (touched (now_us - notrack_us / 2)) [sock_key mod 2]).

Definition test_get_sockets_to_evict_all_active : test :=
  (* Many active sockets yields nothing. *)
  let '(r, sock_cache, _) := update SockCache.new active_stream staleness_timestamp in
  _ ← assert_eq r (result 0 num_keys 0);
  let '(socks_evicted, num_stale, sock_cache) := SockCache.perform_eviction sock_cache in
  _ ← assert_eq (size socks_evicted) 0%nat;
  _ ← assert_eq num_stale 0;
  assert_eq (SockCache.len sock_cache) num_keys.

(** The evicted entry of a socket has the statistics of the stream. *)
Definition assert_evicted (socks_evicted : gmap Z SockWrapper.t) (sock_stream : stream) (sock_key : Z) : test :=
  evicted ← socks_evicted !! sock_key;
  agg_stats ← sock_stream !! sock_key;
  assert_eq (SockWrapper.agg_stats evicted) agg_stats.

Definition test_get_sockets_to_evict_some_closed : test :=
  (* Create many active sockets, also with a context in cache. *)
  sock_cache ← add_contexts now_us SockCache.new;
  (* Close two of them. *)
  let close a := a <| AggSockStats.stats ::= λ s,
    s <| SockStats.state_flags ::= λ fl, SockStateFlags.insert fl SockStateFlags.CLOSED |> |> in
  let sock_stream := alter close 101 (alter close 99 active_stream) in
  (* Store the full set in cache. *)
  let '(r, sock_cache, sock_stream) := update sock_cache sock_stream staleness_timestamp in
  _ ← assert_eq r (result num_keys 0 0);
  (* Perform eviction and validate. *)
  let '(socks_evicted, num_stale, sock_cache) := SockCache.perform_eviction sock_cache in
  _ ← assert_eq (size socks_evicted) 2%nat;
  _ ← assert_eq num_stale 0;
  _ ← assert_eq (SockCache.len sock_cache) (num_keys - 2);
  _ ← assert_evicted socks_evicted sock_stream 99;
  assert_evicted socks_evicted sock_stream 101.

Definition test_get_sockets_to_evict_some_inactive : test :=
  (* Create many active sockets, and make two of them inactive. *)
  let touch us a := a <| AggSockStats.stats ::= λ s, s <| SockStats.last_touched_us := us |> |> in
  let sock_stream := alter (touch (now_us - notrack_us * 2)) 79 (alter (touch (now_us - notrack_us)) 4 active_stream) in
  (* Store the full set in cache. *)
  let '(r, sock_cache, sock_stream) := update SockCache.new sock_stream staleness_timestamp in
  _ ← assert_eq r (result 0 num_keys 0);
  (* Perform eviction and validate. *)
  let '(socks_evicted, num_stale, sock_cache) := SockCache.perform_eviction sock_cache in
  _ ← assert_eq (size socks_evicted) 2%nat;
  _ ← assert_eq num_stale 2;
  _ ← assert_eq (SockCache.len sock_cache) (num_keys - 2);
  _ ← assert_evicted socks_evicted sock_stream 4;
  assert_evicted socks_evicted sock_stream 79.

Definition test_get_sockets_to_evict_all_closed : test :=
  (* Create many sockets, all closed, also with a context in cache. *)
  let sock_stream := stream_of (λ sock_key, AggSockStats.mk ((touched (now_us - notrack_us / 2))
    <| SockStats.state_flags := SockStateFlags.CLOSED |>) [sock_key mod 2]) in
  sock_cache ← add_contexts now_us SockCache.new;
  (* Store the full set in cache. *)
  let '(r, sock_cache, _) := update sock_cache sock_stream staleness_timestamp in
  _ ← assert_eq r (result num_keys 0 0);
  (* Perform eviction and validate. *)
  let '(socks_evicted, num_stale, sock_cache) := SockCache.perform_eviction sock_cache in
  _ ← assert_eq num_stale 0;
  _ ← assert_eq (SockCache.len sock_cache) 0;
  _ ← assert_eq (Z.of_nat (size socks_evicted)) num_keys;
  for_each sock_keys (λ key, assert (bool_decide (is_Some (socks_evicted !! key)))).

Definition test_sock_cache_get_last_touched : test :=
  let sock_key1 := 1979 in
  let sock_key2 := 2005 in
  let sock_key_invalid := 2553 in
  let now_us := 1997 in
  let '(_, sock_cache) := SockCache.add_context SockCache.new sock_key1 SockContext.default now_us in
  let '(_, sock_cache) := SockCache.add_context sock_cache sock_key2 SockContext.default (now_us + 26) in
  _ ← assert_eq (SockCache.get_last_touched sock_cache sock_key_invalid) 0;
  _ ← assert_eq (SockCache.get_last_touched sock_cache sock_key1) now_us;
  assert_eq (SockCache.get_last_touched sock_cache sock_key2) (now_us + 26).

Definition test_sock_wrapper_should_evict : test :=
  let fresh := SockWrapper.new SockContext.default AggSockStats.default in
  (* Test case 1: Socket is complete (closed). *)
  let wrapper := (SockWrapper.new inet AggSockStats.default) <| SockWrapper.is_complete := true |> in
  _ ← assert (SockWrapper.should_evict wrapper);
  (* Test case 2: Socket is stale. *)
  let wrapper := fresh <| SockWrapper.is_stale := true |> in
  _ ← assert (SockWrapper.should_evict wrapper);
  (* Test case 3: Socket has been partially initialized for more than one cycle. *)
  let wrapper := fresh <| SockWrapper.cycles_not_fully_initialized := Some 2 |> in
  _ ← assert (SockWrapper.should_evict wrapper);
  (* Test case 4: Socket has been partially initialized for exactly one cycle. *)
  let wrapper := fresh <| SockWrapper.cycles_not_fully_initialized := Some 1 |> in
  _ ← assert (negb (SockWrapper.should_evict wrapper));
  (* Test case 5: Socket is fully initialized (cycles_not_fully_initialized is None). *)
  let wrapper := fresh <| SockWrapper.cycles_not_fully_initialized := None |> in
  assert (negb (SockWrapper.should_evict wrapper)).

Definition test_sock_wrapper_update_status : test :=
  let now_us := 100 in
  let staleness_ts := 50 in
  let of_stats context stats := SockWrapper.new context (AggSockStats.mk stats []) in
  let check wrapper stale complete cycles :=
    let wrapper := SockWrapper.update_status wrapper staleness_ts in
    _ ← assert_eq (SockWrapper.is_stale wrapper) stale;
    _ ← assert_eq (SockWrapper.is_complete wrapper) complete;
    assert_eq (SockWrapper.cycles_not_fully_initialized wrapper) cycles in
  (* Test case 1: Valid context, not closed. *)
  _ ← check ((of_stats inet (touched now_us)) <| SockWrapper.cycles_not_fully_initialized := Some 1 |>) false false None;
  (* Test case 2: Valid context, closed. *)
  _ ← check (of_stats inet ((touched now_us) <| SockStats.state_flags := SockStateFlags.CLOSED |>)) false true None;
  (* Test case 3: Invalid context, not stale. *)
  _ ← check (of_stats SockContext.default (touched now_us)) false false (Some 1);
  (* Test case 4: Invalid context, stale. *)
  _ ← check (of_stats SockContext.default (touched staleness_ts)) true false (Some 1);
  (* Test case 5: Invalid context, increment cycles. *)
  let wrapper := (SockWrapper.new SockContext.default AggSockStats.default)
    <| SockWrapper.cycles_not_fully_initialized := Some 1 |> in
  let wrapper := SockWrapper.update_status wrapper staleness_ts in
  assert_eq (SockWrapper.cycles_not_fully_initialized wrapper) (Some 2).

Definition test_sock_wrapper_update_context : test :=
  let now_us := 100 in
  (* Test case 1: Update from invalid to valid context. *)
  let wrapper := (SockWrapper.new SockContext.default AggSockStats.default)
    <| SockWrapper.cycles_not_fully_initialized := Some 1 |> in
  let wrapper := SockWrapper.update_context wrapper inet now_us in
  _ ← assert_eq (SockWrapper.cycles_not_fully_initialized wrapper) None;
  _ ← assert_eq (SockWrapper.last_touched_us wrapper) now_us;
  (* Test case 2: Update from valid to valid context. *)
  let valid := (SockWrapper.new inet AggSockStats.default) <| SockWrapper.cycles_not_fully_initialized := None |> in
  let wrapper := SockWrapper.update_context valid
    (SockContext.default <| SockContext.address_family := AF_INET6 |>) now_us in
  _ ← assert_eq (SockWrapper.cycles_not_fully_initialized wrapper) None;
  (* Test case 3: Update from valid to invalid context. *)
  let wrapper := SockWrapper.update_context valid SockContext.default now_us in
  assert_eq (SockWrapper.cycles_not_fully_initialized wrapper) None.

Definition test_sock_cache_update_stats_missing_entries : test :=
  let now_us := 100 in
  let staleness_ts := 50 in
  let add context := foldM (λ sock_cache sock_key,
    Some (SockCache.add_context sock_cache sock_key context now_us).2) in
  (* Add sockets to the cache with a valid context, and with an invalid context. *)
  let context := SockContext.default <| SockContext.address_family := AF_INET6 |> in
  _ ← assert (SockContext.is_valid context);
  sock_cache ← add context SockCache.new [1; 3];
  sock_cache ← add SockContext.default sock_cache [2; 4];
  (* Apply a stats update for one valid and one invalid socket. *)
  let entry := AggSockStats.mk (touched (now_us + 10)) [0] in
  let sock_stream : stream := <[2 := entry]> (<[1 := entry]> ∅) in
  let '(_, sock_cache, sock_stream) := update sock_cache sock_stream staleness_ts in
  let assert_cycles sock_cache expected := for_each expected (λ '(sock_key, cycles),
    wrapper ← SockCache.get sock_cache sock_key;
    assert_eq (SockWrapper.cycles_not_fully_initialized wrapper) cycles) in
  (* Confirm that only socket 1 is now fully initialized, sockets 2 thru 4 have their
     cycles_not_fully_initialized incremented. *)
  _ ← assert_cycles sock_cache [(1, None); (2, Some 1); (3, Some 1); (4, Some 1)];
  (* Apply another stats update. *)
  let '(_, sock_cache, sock_stream) := update sock_cache sock_stream staleness_ts in
  (* Confirm that sockets 2 thru 4 have their cycles_not_fully_initialized incremented again. *)
  _ ← assert_cycles sock_cache [(1, None); (2, Some 2); (3, Some 2); (4, Some 2)];
  (* Perform eviction and check that sockets with cycles > 1 are evicted. *)
  let '(evicted, _, sock_cache) := SockCache.perform_eviction sock_cache in
  _ ← assert_eq (size evicted) 3%nat;
  _ ← assert_eq (SockCache.len sock_cache) 1;
  assert_cycles sock_cache [(1, None)].

Definition test_sock_cache_eviction_with_partially_initialized : test :=
  let now_us := 100 in
  let staleness_ts := 50 in
  let of_stats context stats := SockWrapper.new context (AggSockStats.mk stats []) in
  (* Socket 1: Valid context, not closed. *)
  let '(_, sock_cache) := SockCache.add_context SockCache.new 1 inet now_us in
  (* Socket 2: Valid context, closed. *)
  let sock2 := SockWrapper.update_status
    (of_stats inet ((touched now_us) <| SockStats.state_flags := SockStateFlags.CLOSED |>)) staleness_ts in
  (* Socket 3: Invalid context, cycles = 1. *)
  let sock3 := SockWrapper.update_status (of_stats SockContext.default (touched now_us)) staleness_ts in
  (* Socket 4: Invalid context, cycles = 2. *)
  let sock4 := (of_stats SockContext.default (touched now_us))
    <| SockWrapper.cycles_not_fully_initialized := Some 2 |> in
  (* Socket 5: Stale. *)
  let sock5 := SockWrapper.update_status (of_stats SockContext.default (touched (staleness_ts - 10))) staleness_ts in
  let sock_cache := sock_cache <| SockCache.cache ::= λ m,
    <[5 := sock5]> (<[4 := sock4]> (<[3 := sock3]> (<[2 := sock2]> m))) |> in
  (* Perform eviction. *)
  let '(evicted, num_stale, sock_cache) := SockCache.perform_eviction sock_cache in
  (* Sockets 2 (closed), 4 (partially initialized for 2 cycles) and 5 (stale) should be evicted. *)
  _ ← assert_eq (size evicted) 3%nat;
  _ ← assert_eq num_stale 1;
  _ ← for_each [2; 4; 5] (λ key, assert (bool_decide (is_Some (evicted !! key))));
  _ ← for_each [1; 3] (λ key, assert (bool_decide (evicted !! key = None)));
  (* Check remaining sockets. *)
  _ ← assert_eq (SockCache.len sock_cache) 2;
  for_each [1; 3] (λ key, assert (bool_decide (is_Some (SockCache.get sock_cache key)))).

Lemma sock_cache_tests_pass : all_passed [test_sock_cache_add_context_new; test_sock_cache_add_context_pre_existing;
  test_get_sock_deltas_empty; test_get_sock_deltas_all_new_stats; test_get_sock_deltas_all_new_contexts;
  test_get_sock_deltas_all_changed; test_get_sock_deltas_new_and_changed; test_get_sock_deltas_all_partial;
  test_get_sockets_to_evict_empty; test_get_sockets_to_evict_all_active; test_get_sockets_to_evict_some_closed;
  test_get_sockets_to_evict_some_inactive; test_get_sockets_to_evict_all_closed; test_sock_cache_get_last_touched;
  test_sock_wrapper_should_evict; test_sock_wrapper_update_status; test_sock_wrapper_update_context;
  test_sock_cache_update_stats_missing_entries; test_sock_cache_eviction_with_partially_initialized] = true.
Proof. run_tests. Qed.

End SockCacheTests.
