(* ===== verification/FlowTests.v ===== *)
(** * FlowTests: the tests of flows, their selection and their aggregation

    The tests of network_event.rs, event_filter_top_loss.rs and event_provider_ebpf.rs, except the
    two of the last that fill the table of flows, which are in CapacityTests.v. *)

From stdpp Require Import base numbers gmap list strings.
From S2P Require Import Prelude Network SockCache ReportData NetworkEvent EventFilter NatResolver EventProvider.
From S2P Require Import Testing AgentTests.
Open Scope Z_scope.

(** ** network_event.rs *)
Module NetworkEventTests.
Import NetworkStats.

Definition ipv6_octets : list Z := seqZ 1 16.

Definition unwrap {A E : Type} (r : Result A E) : option A := match r with Ok a => Some a | Err _ => None end.

Definition test_from_sock_context_v4 : test :=
  let context := SockContext.default <| SockContext.address_family := AF_INET |>
    <| SockContext.local_ipv4 := 16909060 |> <| SockContext.remote_ipv4 := 16909060 |>
    <| SockContext.local_port := 9 |> <| SockContext.remote_port := 10 |> <| SockContext.is_client := true |>
    <| SockContext.local_ipv6 := replicate 16 0 |> <| SockContext.remote_ipv6 := replicate 16 0 |> in
  properties ← unwrap (FlowProperties.try_from context);
  _ ← assert_eq properties {|
    FlowProperties.protocol := TCP;
    FlowProperties.local_address := IpAddr.V4 0x01020304;
    FlowProperties.remote_address := IpAddr.V4 0x01020304;
    FlowProperties.local_port := ELIDED_PORT;
    FlowProperties.remote_port := 10;
    FlowProperties.kubernetes_metadata := None |};
  assert (FlowProperties.is_client_flow properties).

(** A context with IPv6 addresses. *)
Definition context_v6 (address_family : Z) : SockContext.t := SockContext.default
  <| SockContext.address_family := address_family |>
  <| SockContext.local_ipv6 := ipv6_octets |> <| SockContext.remote_ipv6 := ipv6_octets |>
  <| SockContext.local_port := 9 |> <| SockContext.remote_port := 10 |> <| SockContext.is_client := true |>
  <| SockContext.local_ipv4 := 0 |> <| SockContext.remote_ipv4 := 0 |>.

Definition test_from_sock_context_v6 : test :=
  properties ← unwrap (FlowProperties.try_from (context_v6 AF_INET6));
  assert_eq properties {|
    FlowProperties.protocol := TCP;
    FlowProperties.local_address := IpAddr.V6 ipv6_octets;
    FlowProperties.remote_address := IpAddr.V6 ipv6_octets;
    FlowProperties.local_port := ELIDED_PORT;
    FlowProperties.remote_port := 10;
    FlowProperties.kubernetes_metadata := None |}.

Definition test_from_sock_context_invalid_address_family : test :=
  assert (is_err (FlowProperties.try_from (context_v6 99))).

Definition test_sock_to_flow_rtt_add : test :=
  let rtt count latest smoothed := SockStats.default <| SockStats.rtt_count := count |>
    <| SockStats.rtt_latest_us := latest |> <| SockStats.rtt_smoothed_us := smoothed |> in
  let expected connecting rtt_us rtt_smoothed_us := NetworkStats.default
    <| sockets_connecting := connecting |> <| NetworkStats.rtt_us := rtt_us |>
    <| NetworkStats.rtt_smoothed_us := rtt_smoothed_us |> in
  let hist := MetricHistogram.mk in
  (* No RTT measurements taken. *)
  net_stats ← add_from NetworkStats.default (rtt 0 0 0);
  _ ← assert_eq net_stats (expected 1 (hist 0 0 0 0) (hist 0 0 0 0));
  (* RTTs with no count. *)
  net_stats ← add_from net_stats (rtt 0 1 2);
  _ ← assert_eq net_stats (expected 2 (hist 0 0 0 0) (hist 0 0 0 0));
  (* A new min and max. *)
  net_stats ← add_from net_stats (rtt 1 10 3);
  _ ← assert_eq net_stats (expected 3 (hist 1 10 10 10) (hist 1 3 3 3));
  (* A new min, but no smoothed measurement.  Notice that multiple RTT occurrences increase our
     sampled count by just 1. *)
  net_stats ← add_from net_stats (rtt 12 5 0);
  _ ← assert_eq net_stats (expected 4 (hist 2 5 10 15) (hist 1 3 3 3));
  (* A new max with multiple observations, leading to one sampled. *)
  net_stats ← add_from net_stats (rtt 29 20 25);
  assert_eq net_stats (expected 5 (hist 3 5 20 35) (hist 2 3 25 28)).

Definition test_network_stats_add_from : test :=
  let net_stats := {|
    sockets_connecting := 20; sockets_established := 60; sockets_closing := 5; sockets_closed := 15;
    sockets_completed := 9; severed_connect := 4; severed_establish := 2;
    connect_attempts := 56; bytes_received := 59; bytes_delivered := 61;
    segments_received := 73; segments_delivered := 79;
    connect_us := MetricHistogram.mk 57 20 25 1250;
    rtt_us := MetricHistogram.mk 11 29 31 350;
    rtt_smoothed_us := MetricHistogram.mk 11 50 100 1000;
    retrans_syn := 50; retrans_est := 51; retrans_close := 52;
    rtos_syn := 53; rtos_est := 54; rtos_close := 55 |} in
  let sock_stats := SockStats.default <| SockStats.last_touched_us := 451 |>
    <| SockStats.connect_start_us := 101 |> <| SockStats.connect_end_us := 127 |>
    <| SockStats.bytes_received := 67 |> <| SockStats.bytes_delivered := 71 |>
    <| SockStats.segments_received := 83 |> <| SockStats.segments_delivered := 89 |>
    <| SockStats.state_flags := Z.lor SockStateFlags.ENTERED_ESTABLISH
         (Z.lor SockStateFlags.STARTED_CLOSURE SockStateFlags.CLOSED) |>
    <| SockStats.rtt_count := 3 |> <| SockStats.rtt_latest_us := 25 |> <| SockStats.rtt_smoothed_us := 40 |>
    <| SockStats.retrans_syn := 10 |> <| SockStats.retrans_est := 1 |> <| SockStats.retrans_close := 2 |>
    <| SockStats.rtos_syn := 3 |> <| SockStats.rtos_est := 4 |> <| SockStats.rtos_close := 5 |>
    <| SockStats.connect_attempts := 6 |> <| SockStats.connect_successes := 7 |> in
  let expected := {|
    sockets_connecting := 20; sockets_established := 60; sockets_closing := 5; sockets_closed := 16;
    sockets_completed := 9; severed_connect := 4; severed_establish := 2;
    connect_attempts := 62; bytes_received := 126; bytes_delivered := 132;
    segments_received := 156; segments_delivered := 168;
    connect_us := MetricHistogram.mk 64 20 26 1276;
    rtt_us := MetricHistogram.mk 12 25 31 375;
    rtt_smoothed_us := MetricHistogram.mk 12 40 100 1040;
    retrans_syn := 60; retrans_est := 52; retrans_close := 54;
    rtos_syn := 56; rtos_est := 58; rtos_close := 60 |} in
  net_stats ← add_from net_stats sock_stats;
  _ ← assert_eq net_stats expected;
  net_stats ← add_from net_stats sock_stats;
  _ ← assert_eq (bytes_delivered net_stats) (SockStats.bytes_delivered sock_stats * 2 + 61);
  assert_eq (MetricHistogram.max (connect_us net_stats)) 26.

Definition test_quantify_loss : test :=
  let stats := NetworkStats.default in
  _ ← assert_eq (quantify_loss stats) 0;
  let stats := stats <| bytes_received := 100 |> in
  _ ← assert_eq (quantify_loss stats) 0;
  let stats := stats <| rtt_us ::= λ h, h <| MetricHistogram.count := 50 |> |> in
  _ ← assert_eq (quantify_loss stats) 0;
  let loss_a1 := quantify_loss (stats <| retrans_syn := 1 |>) in
  let loss_a2 := quantify_loss (stats <| retrans_est := 1 |>) in
  let loss_a3 := quantify_loss (stats <| retrans_close := 1 |>) in
  let loss_b1 := quantify_loss (stats <| rtos_syn := 1 |>) in
  let loss_b2 := quantify_loss (stats <| rtos_est := 1 |>) in
  let loss_b3 := quantify_loss (stats <| rtos_close := 1 |>) in
  let loss_c := quantify_loss (stats <| severed_connect := 1 |>) in
  let loss_d := quantify_loss (stats <| retrans_syn := 1 |> <| rtos_syn := 1 |> <| severed_connect := 1 |>) in
  _ ← assert (loss_c <? loss_d);
  _ ← assert (loss_b1 <? loss_c);
  _ ← assert (loss_a1 <? loss_b1);
  _ ← assert_eq loss_a2 loss_a1;
  _ ← assert_eq loss_a3 loss_a1;
  _ ← assert_eq loss_b2 loss_b1;
  assert_eq loss_b3 loss_b1.

Lemma network_event_tests_pass : all_passed [test_from_sock_context_v4; test_from_sock_context_v6;
  test_from_sock_context_invalid_address_family; test_sock_to_flow_rtt_add; test_network_stats_add_from;
  test_quantify_loss] = true.
Proof. run_tests. Qed.

End NetworkEventTests.

(** ** event_filter_top_loss.rs *)
Module TopLossTests.

Definition empty_flow : FlowProperties.t := {|
  FlowProperties.protocol := ANY;
  FlowProperties.local_address := IpAddr.V4 0;
  FlowProperties.remote_address := IpAddr.V4 0;
  FlowProperties.local_port := 0;
  FlowProperties.remote_port := 0;
  FlowProperties.kubernetes_metadata := None |}.

#[local] Instance comparison_dec : EqDecision comparison.
Proof. solve_decision. Defined.

Definition test_top_loss_cmp : test :=
  let of_stats := AggregateResults.mk empty_flow in
  let result_all_good := of_stats NetworkStats.default in
  let result_retrans := of_stats (NetworkStats.default <| NetworkStats.retrans_syn := 20 |>) in
  let result_rto := of_stats (NetworkStats.default <| NetworkStats.rtos_syn := 20 |>) in
  let result_disconnect := of_stats (NetworkStats.default <| NetworkStats.severed_establish := 20 |>) in
  let result_all_good_more_bytes := of_stats (NetworkStats.default <| NetworkStats.bytes_received := 1 |>) in
  let cmp := EventFilterTopLoss.cmp in
  _ ← assert_eq (cmp result_all_good result_retrans) Lt;
  _ ← assert_eq (cmp result_retrans result_all_good) Gt;
  _ ← assert_eq (cmp result_retrans result_rto) Lt;
  _ ← assert_eq (cmp result_disconnect result_rto) Gt;
  _ ← assert_eq (cmp result_disconnect result_disconnect) Eq;
  _ ← assert_eq (cmp result_all_good result_all_good) Eq;
  assert_eq (cmp result_all_good_more_bytes result_all_good) Gt.

Definition test_top_loss_filter : test :=
  (* Give each agg-result a flow with a unique local port so's to easily identify the flow in test results. *)
  let result port stats := AggregateResults.mk (empty_flow <| FlowProperties.local_port := port |>) stats in
  let result_all_good := result 1 NetworkStats.default in
  let result_retrans := result 2 (NetworkStats.default <| NetworkStats.retrans_syn := 20 |>) in
  let result_rto := result 3 (NetworkStats.default <| NetworkStats.retrans_syn := 20 |>) in
  let result_disconnect := result 4 (NetworkStats.default <| NetworkStats.severed_establish := 20 |>) in
  let result_all_good_more_bytes := result 5 (NetworkStats.default <| NetworkStats.bytes_received := 1 |>) in
  let event_list := [result_rto; result_all_good_more_bytes; result_disconnect; result_all_good; result_retrans] in
  let ids results := (λ r, FlowProperties.local_port (AggregateResults.flow r)) <$> results in
  let filter := EventFilterTopLoss.new (Z.of_nat (length event_list)) in
  let top_loss_result := EventFilterTopLoss.filter_events filter event_list in
  (* Confirm results are in the expected order. *)
  _ ← assert_eq (ids top_loss_result) [4; 3; 2; 5; 1];
  (* Test with a smaller max. *)
  let filter := EventFilterTopLoss.mk 3 in
  let top_loss_result := EventFilterTopLoss.filter_events filter event_list in
  (* Confirm results are in the expected order. *)
  assert_eq (ids top_loss_result) [4; 3; 2].

Lemma top_loss_tests_pass : all_passed [test_top_loss_cmp; test_top_loss_filter] = true.
Proof. run_tests. Qed.

End TopLossTests.

(** ** event_provider_ebpf.rs *)
Module EventProviderTests.
Import SockCacheTests SocketQueries.

Definition test_result_aggregation_into_flows : test :=
  let NUM_CPUS := 16 in
  let now_us := 2025 in
  (* Simulate sock properties having already been loaded.  All sockets alternate between two remote ports. *)
  let fake_values := zip sock_keys [10; 20; 10; 20; 10; 20] in
  let sock_cache := foldl (λ sock_cache '(sock_key, fake_value),
    (SockCache.add_context sock_cache sock_key (inet <| SockContext.is_client := true |>
      <| SockContext.local_ipv4 := 1950 |> <| SockContext.remote_ipv4 := 2265 |>
      <| SockContext.local_port := 1492 |> <| SockContext.remote_port := fake_value |>) now_us).2)
    SockCache.new fake_values in
  (* Simulate later socket events being handled by two different CPUs. *)
  let entry cpu sock_key bytes count latest : Result (CpuSockKey.t * SockStats.t) unit :=
    Ok (CpuSockKey.mk (cpu mod NUM_CPUS) sock_key, (touched now_us) <| SockStats.bytes_received := bytes |>
      <| SockStats.rtt_count := count |> <| SockStats.rtt_latest_us := latest |>) in
  let ebpf_sk_stats := '(sock_key, fake_value) ← fake_values;
    [entry (sock_key + 3) sock_key (fake_value * 3) (fake_value * 5) 99;
     entry (sock_key + 4) sock_key (fake_value * 4) (fake_value * 6) 100] in
  (* Aggregate results. *)
  sock_stream ← aggregate_sock_stats ebpf_sk_stats sock_cache ∅;
  let '(delta_result, sock_cache, sock_stream) := update sock_cache sock_stream STALENESS_TS in
  '(agg_result, flow_cache) ← aggregate_into_flows (map_to_list sock_stream) sock_cache ∅;
  (* Now validate what we got. *)
  _ ← assert_eq delta_result (result num_keys 0 0);
  _ ← assert_eq agg_result (result num_keys 0 0);
  let num_endpoints := num_keys / 2 in
  _ ← assert_eq (size flow_cache) 2%nat;
  for_each (map_to_list flow_cache).*2 (λ result,
    let flow := AggregateResults.flow result in
    let stats := AggregateResults.stats result in
    _ ← assert_eq (FlowProperties.local_address flow) (IpAddr.V4 (7 * 256 + 158));
    _ ← assert_eq (FlowProperties.remote_address flow) (IpAddr.V4 (8 * 256 + 217));
    _ ← assert_eq (FlowProperties.protocol flow) TCP;
    _ ← assert_eq (FlowProperties.local_port flow) 0;
    let fake_value := FlowProperties.remote_port flow in
    _ ← assert ((fake_value =? 10) || (fake_value =? 20));
    (* Validate the stats summed across CPUs. *)
    _ ← assert_eq (NetworkStats.bytes_received stats) (fake_value * 4 * num_endpoints);
    assert_eq (MetricHistogram.count (NetworkStats.rtt_us stats)) num_endpoints).

Definition test_flow_aggregation_empty : test :=
  '(agg_result, flow_cache) ← aggregate_into_flows [] SockCache.new ∅;
  _ ← assert_eq (size flow_cache) 0%nat;
  assert_eq agg_result (result 0 0 0).

(** Many sockets with the same context, each with one byte received; the cache is as [add_context]
    leaves it for each of them. *)
Definition sock_numbers : list Z := seqZ 0 AGG_FLOWS_MAX_ENTRIES.
Definition many_sockets (sock_context : SockContext.t) (now_us : Z) : SockCache.t * stream :=
  let wrapper := SockWrapper.new sock_context (AggSockStats.mk (touched now_us) []) in
  ((SockCache.with_max_entries AGG_FLOWS_MAX_ENTRIES)
     <| SockCache.cache := list_to_map ((λ sock_key, (sock_key, wrapper)) <$> sock_numbers) |>,
   list_to_map ((λ sock_key,
     (sock_key, AggSockStats.mk (SockStats.default <| SockStats.bytes_received := 1 |>) [])) <$> sock_numbers)).

Definition test_flow_aggregation_one_flow : test :=
  (* Test the aggregation of many sockets into one flow. *)
  let '(sock_cache, sock_stream) :=
    many_sockets (inet <| SockContext.remote_ipv4 := 44 * 2 ^ 24 + 33 * 2 ^ 16 + 22 * 2 ^ 8 + 11 |>) 2025 in
  '(agg_result, flow_cache) ← aggregate_into_flows (map_to_list sock_stream) sock_cache ∅;
  let expected_bytes := AGG_FLOWS_MAX_ENTRIES in
  let flows := (map_to_list flow_cache).*2 in
  let actual_bytes := foldr Z.add 0
    ((λ agg_flow, NetworkStats.bytes_received (AggregateResults.stats agg_flow)) <$> flows) in
  _ ← assert_eq (size flow_cache) 1%nat;
  _ ← assert_eq actual_bytes expected_bytes;
  _ ← assert_eq agg_result (result AGG_FLOWS_MAX_ENTRIES 0 0);
  for_each (map_to_list flow_cache).*1 (λ flow,
    assert_eq (FlowProperties.remote_address flow) (IpAddr.V4 (44 * 2 ^ 24 + 33 * 2 ^ 16 + 22 * 2 ^ 8 + 11))).

Definition test_flow_aggregation_with_nat : test :=
  (* Aggregate many sockets into one flow. *)
  let '(sock_cache, sock_stream) :=
    many_sockets (inet <| SockContext.remote_ipv4 := 4 * 2 ^ 24 + 3 * 2 ^ 16 + 2 * 2 ^ 8 + 1 |>) 2025 in
  (* Apply some NAT results. *)
  let local := 10 * 2 ^ 24 + 6 * 2 ^ 16 + 7 * 2 ^ 8 + 8 in
  let remote := 44 * 2 ^ 24 + 33 * 2 ^ 16 + 22 * 2 ^ 8 + 11 in
  let external := inet <| SockContext.local_ipv4 := local |> <| SockContext.remote_ipv4 := remote |>
    <| SockContext.local_port := 22 |> <| SockContext.remote_port := 2938 |> <| SockContext.is_client := false |> in
  let sock_cache := sock_cache <| SockCache.cache ::= fmap (λ sock_wrap : SockWrapper.t,
    sock_wrap <| SockWrapper.context_external := Some external |>) |> in
  (* Do some aggregation. *)
  '(agg_result, flow_cache) ← aggregate_into_flows (map_to_list sock_stream) sock_cache ∅;
  _ ← assert_eq agg_result (result AGG_FLOWS_MAX_ENTRIES 0 0);
  (* Confirm the flow represents the view beyond local NAT. *)
  _ ← assert_eq (size flow_cache) 1%nat;
  for_each (map_to_list flow_cache).*1 (λ flow,
    assert_eq flow (FlowProperties.mk TCP (IpAddr.V4 local) (IpAddr.V4 remote) 22 0 None)).

Definition test_sock_wrappers_missing_on_flow_agg : test :=
  let sock_stream : stream := <[22 := AggSockStats.default]> (<[11 := AggSockStats.default]> ∅) in
  (* Create an empty sock cache. *)
  '(agg_result, _) ← aggregate_into_flows (map_to_list sock_stream) SockCache.new ∅;
  assert_eq agg_result (result 0 0 2).

(** The sizes of the maps for an amount of memory. *)
Definition test_map_max_entries_low_mem : test :=
  assert_eq (map_max_entries 1) (MAX_ENTRIES_SK_PROPS_LO, MAX_ENTRIES_SK_STATS_LO).
Definition test_map_max_entries_lowish_mem : test :=
  assert_eq (map_max_entries 400000000) (MAX_ENTRIES_SK_PROPS_LO, MAX_ENTRIES_SK_STATS_LO).
Definition test_map_max_entries_medium_mem : test :=
  assert_eq (map_max_entries 1000000000) (MAX_ENTRIES_SK_PROPS_LO, MAX_ENTRIES_SK_STATS_LO).
Definition test_map_max_entries_highish_mem : test :=
  let '(max_sk_props, max_sk_stats) := map_max_entries 34000000000 in
  _ ← assert (MAX_ENTRIES_SK_PROPS_LO <? max_sk_props);
  _ ← assert (max_sk_props <? MAX_ENTRIES_SK_PROPS_HI);
  _ ← assert (MAX_ENTRIES_SK_STATS_LO <? max_sk_stats);
  assert (max_sk_stats <? MAX_ENTRIES_SK_STATS_HI).
Definition test_map_max_entries_highest_mem : test :=
  assert_eq (map_max_entries (umax u64)) (MAX_ENTRIES_SK_PROPS_HI, MAX_ENTRIES_SK_STATS_HI).

Definition test_calculate_ebpf_memory_usage_max : test :=
  assert_eq (calculate_ebpf_memory_usage MAX_ENTRIES_SK_PROPS_HI MAX_ENTRIES_SK_STATS_HI) 8080.

Lemma event_provider_tests_pass : all_passed [test_result_aggregation_into_flows; test_flow_aggregation_empty;
  test_sock_wrappers_missing_on_flow_agg; test_map_max_entries_low_mem; test_map_max_entries_lowish_mem;
  test_map_max_entries_medium_mem; test_map_max_entries_highish_mem; test_map_max_entries_highest_mem;
  test_calculate_ebpf_memory_usage_max; test_flow_aggregation_one_flow; test_flow_aggregation_with_nat] = true.
Proof. run_tests. Qed.

End EventProviderTests.
