(* ===== verification/HostTests.v ===== *)
(** * HostTests: the tests of addresses, connections, time and interfaces

    The tests of nat_resolver.rs, conntrack_listener.rs, vpc_cidr_checker.rs, clock.rs,
    event_timer.rs and host_stats_provider.rs.  Left out are those that ask the real system (its
    clocks, its connection tracking) and the decoding of raw netlink messages, which is a crate's. *)

From stdpp Require Import base numbers gmap list strings.
From Stdlib Require Import Ascii.
From S2P Require Import Prelude Network Text SockCache VpcCidr Conntrack NatResolver Timer Metadata HostStats.
From S2P Require Import Kubernetes Testing AgentTests.
Open Scope Z_scope.

(** [IpAddr::from_str(s).unwrap()]; what cannot be read is no address. *)
Definition ip (s : string) : IpAddr.t := default (IpAddr.V6 []) (parse_ip (chr s)).
Definition ipv4_bits (s : string) : Z := match ip s with IpAddr.V4 bits => bits | _ => -1 end.
Definition ipv6_bytes (s : string) : list Z := match ip s with IpAddr.V6 octets => octets | _ => [] end.

(** ** nat_resolver.rs *)
Module NatResolverTests.
Import NatResolverImpl.

(** [ConntrackListenerSeeded]: the pending replies; reading beyond them panics, here an error. *)
Definition Seeded : Type := list (list ConntrackEntry.t).
#[local] Instance seeded_provider : ConntrackProvider Seeded := λ pending_replies,
  match pending_replies with
  | reply :: rest => (Ok reply, rest)
  | [] => (Err tt, [])
  end.

Definition seeded_nat_resolver (listener : Seeded) : NatResolverImpl.t Seeded := {|
  conntrack_listener := listener;
  conntrack_ringbuf := replicate RING_BUF_ENTRIES ∅;
  ringbuf_index := 0 |}.

Definition cxn (src dst : string) (src_port dst_port : Z) : ConnectionProperties.t :=
  ConnectionProperties.mk (ip src) (ip dst) src_port dst_port IPPROTO_TCP.
(** A client's context over IPv4 and over IPv6. *)
Definition ctx_v4 (local remote : string) (local_port remote_port : Z) : SockContext.t := SockContext.default
  <| SockContext.local_ipv4 := ipv4_bits local |> <| SockContext.remote_ipv4 := ipv4_bits remote |>
  <| SockContext.local_ipv6 := replicate 16 0 |> <| SockContext.remote_ipv6 := replicate 16 0 |>
  <| SockContext.local_port := local_port |> <| SockContext.remote_port := remote_port |>
  <| SockContext.address_family := AF_INET |> <| SockContext.is_client := true |>.
Definition ctx_v6 (local remote : string) (local_port remote_port : Z) : SockContext.t := SockContext.default
  <| SockContext.local_ipv4 := 0 |> <| SockContext.remote_ipv4 := 0 |>
  <| SockContext.local_ipv6 := ipv6_bytes local |> <| SockContext.remote_ipv6 := ipv6_bytes remote |>
  <| SockContext.local_port := local_port |> <| SockContext.remote_port := remote_port |>
  <| SockContext.address_family := AF_INET6 |> <| SockContext.is_client := true |>.

Definition test_nat_resolver_aggregation : test :=
  (* Mirror reflection means NAT was not applied. *)
  let ct_entry := ConntrackEntry.mk (cxn "1.2.3.4" "5.6.7.8" 1234 5678) (cxn "9.10.11.12" "1.2.3.4" 9876 1234) in
  let nat_resolver := seeded_nat_resolver [[ct_entry]] in
  (* Expect a cache entry for each direction. *)
  let nat_resolver := NatResolverImpl.perform_aggregation_cycle nat_resolver in
  _ ← assert_eq (NatResolverImpl.num_entries nat_resolver) 2;
  (* Now try NAT resolution. *)
  let sock_ctx := ctx_v4 "1.2.3.4" "5.6.7.8" 1234 5678 in
  found ← NatResolverImpl.get_beyond_nat_entry nat_resolver sock_ctx;
  actual_natd_ctx ← found;
  let expected_natd_ctx := ctx_v4 "1.2.3.4" "9.10.11.12" 1234 9876 in
  _ ← assert_eq actual_natd_ctx expected_natd_ctx;
  (* Test the resolver updating the sock cache. *)
  let sock_key := 1979 in
  let now_us := 1997 in
  let '(_, sock_cache) := SockCache.add_context SockCache.new sock_key sock_ctx now_us in
  '(store_result, sock_cache) ← NatResolverImpl.store_beyond_nat_entries nat_resolver sock_cache
    (map_to_list (SockCache.cache sock_cache));
  _ ← assert_eq store_result (SockOperationResult.mk 1 0 0);
  wrapper ← SockCache.get sock_cache sock_key;
  external ← SockWrapper.context_external wrapper;
  _ ← assert_eq external expected_natd_ctx;
  (* After evicting everything, there's nothing more to resolve. *)
  let nat_resolver := Nat.iter RING_BUF_ENTRIES NatResolverImpl.perform_eviction nat_resolver in
  found ← NatResolverImpl.get_beyond_nat_entry nat_resolver sock_ctx;
  assert_eq found None.

Definition unwrap {A E : Type} (r : Result A E) : option A := match r with Ok a => Some a | Err _ => None end.

Definition test_sock_context_to_egress_cxn_info_ipv4 : test :=
  let ctx := ctx_v4 "1.2.3.4" "5.6.7.8" 99 100 in
  actual_cxn_info ← unwrap (sock_context_to_egress_cxn_info ctx);
  assert_eq actual_cxn_info (cxn "1.2.3.4" "5.6.7.8" 99 100).

Definition test_sock_context_to_egress_cxn_info_ipv6 : test :=
  let ctx := ctx_v6 "fe80::1979:4bff:febb:da61" "fe80:2160::1997:4bff:febb:da61" 99 100 in
  actual_cxn_info ← unwrap (sock_context_to_egress_cxn_info ctx);
  assert_eq actual_cxn_info (cxn "fe80::1979:4bff:febb:da61" "fe80:2160::1997:4bff:febb:da61" 99 100).

Definition test_sock_context_to_egress_cxn_info_pseudo_ipv6 : test :=
  let ctx := ctx_v6 "::ffff:1.2.3.4" "::ffff:1.2.3.5" 99 100 in
  actual_cxn_info ← unwrap (sock_context_to_egress_cxn_info ctx);
  assert_eq actual_cxn_info (cxn "1.2.3.4" "1.2.3.5" 99 100).

Definition test_ingress_cxn_info_tp_sock_context_ipv4 : test :=
  let cxn_info := cxn "1.2.3.4" "5.6.7.8" 99 100 in
  actual_ctx ← ingress_cxn_info_to_sock_context cxn_info true;
  assert_eq actual_ctx (ctx_v4 "5.6.7.8" "1.2.3.4" 100 99).

Definition test_ingress_cxn_info_tp_sock_context_ipv6 : test :=
  let cxn_info := cxn "fe80::1979:4bff:febb:da61" "fe80:2160::1997:4bff:febb:da61" 99 100 in
  actual_ctx ← ingress_cxn_info_to_sock_context cxn_info true;
  assert_eq actual_ctx (ctx_v6 "fe80:2160::1997:4bff:febb:da61" "fe80::1979:4bff:febb:da61" 100 99).

Lemma nat_resolver_tests_pass : all_passed [test_nat_resolver_aggregation; test_sock_context_to_egress_cxn_info_ipv4;
  test_sock_context_to_egress_cxn_info_ipv6; test_sock_context_to_egress_cxn_info_pseudo_ipv6;
  test_ingress_cxn_info_tp_sock_context_ipv4; test_ingress_cxn_info_tp_sock_context_ipv6] = true.
Proof. run_tests. Qed.

End NatResolverTests.

(** ** conntrack_listener.rs *)
Module ConntrackTests.
Import NatResolverTests ConntrackListener.

Definition test_conntrack_props_reverse : test :=
  let actual := cxn "1.2.3.4" "5.6.7.8" 1234 5678 in
  let reverse := cxn "5.6.7.8" "1.2.3.4" 5678 1234 in
  _ ← assert (ConnectionProperties.is_inverse_of reverse actual);
  _ ← assert (ConnectionProperties.is_inverse_of actual reverse);
  let reverse := reverse <| ConnectionProperties.dst_port ::= Z.add 1 |> in
  _ ← assert (negb (ConnectionProperties.is_inverse_of reverse actual));
  assert (negb (ConnectionProperties.is_inverse_of actual reverse)).

Definition test_process_conntrack_event_snat_and_dnat_with_vpc_ip : test :=
  let vpc_cidr_checker := VpcCidrChecker.mk [(0x0a000000, 0xff000000)] [] in (* 10.0.0.0/8 *)
  let listener : ConntrackListener.t unit := {|
    socket := []; vpc_cidr_checker := vpc_cidr_checker;
    snat_overrides := 0; non_nats := 0; non_tcps := 0; snat_skips := 0; events := 0 |} in
  let orig_src := "10.0.1.5"%string in
  (* Only SNAT: dst unchanged, src changed, source is VPC IP -> should skip *)
  let original := cxn orig_src "8.8.8.8" 5000 443 in
  let reply := cxn "8.8.8.8" "1.2.3.4" 443 6000 in (* SNAT applied *)
  let '(accepted, reply, listener) := filter_and_normalize_event listener original reply in
  _ ← assert_eq accepted false;
  (* Only SNAT but source is NOT VPC IP -> should not skip *)
  let original_non_vpc := cxn "192.168.1.5" "8.8.8.8" 5000 443 in
  let '(accepted, _, listener) := filter_and_normalize_event listener original_non_vpc reply in
  _ ← assert_eq accepted true;
  (* Both SNAT and DNAT with VPC IP -> should accept with SNAT removed *)
  let original_both := cxn orig_src "10.0.2.100" 5000 80 in (* ClusterIP *)
  let reply_both := cxn "192.168.10.10" "1.2.3.4" 8080 6000 in (* DNAT: actual pod IP; SNAT: external IP *)
  let '(_, reply_both, listener) := filter_and_normalize_event listener original_both reply_both in
  (* SNAT should be removed: reply.dst should be original.src *)
  _ ← assert_eq (ConnectionProperties.dst_ip reply_both) (ip orig_src);
  _ ← assert_eq (ConnectionProperties.dst_port reply_both) 5000;
  (* DNAT should be preserved *)
  _ ← assert_eq (ConnectionProperties.src_ip reply_both) (ip "192.168.10.10");
  _ ← assert_eq (ConnectionProperties.src_port reply_both) 8080;
  (* DNAT only (no SNAT) -> should accept without touching *)
  let reply_dnat := cxn "10.1.1.1" orig_src 443 5000 in
  let '(_, reply_dnat_clone, listener) := filter_and_normalize_event listener original reply_dnat in
  _ ← assert_eq reply_dnat_clone reply_dnat;
  assert_eq (stats_summary listener)
    (chr "events:0, snat_overrides:1, snat_skips:1, non_nats:0, non_tcps:0").

Lemma conntrack_tests_pass : all_passed [test_conntrack_props_reverse;
  test_process_conntrack_event_snat_and_dnat_with_vpc_ip] = true.
Proof. run_tests. Qed.

End ConntrackTests.

(** ** vpc_cidr_checker.rs *)
Module VpcCidrTests.
Import VpcCidrChecker.

Definition test_parse_cidr_v4 : test :=
  '(network, mask) ← parse_cidr_v4 (chr "10.0.0.0/16");
  _ ← assert_eq network 0x0a000000;
  _ ← assert_eq mask 0xffff0000;
  '(network, mask) ← parse_cidr_v4 (chr "192.168.1.0/24");
  _ ← assert_eq network 0xc0a80100;
  assert_eq mask 0xffffff00.

Definition test_parse_cidr_v6 : test :=
  '(network, mask) ← parse_cidr_v6 (chr "2001:db8::/32");
  _ ← assert_eq network 0x20010db8000000000000000000000000;
  assert_eq mask 0xffffffff000000000000000000000000.

Definition test_is_vpc_ip_v4 : test :=
  let checker := mk [(0x0a000000, 0xffff0000)] [] in (* 10.0.0.0/16 *)
  _ ← assert (is_vpc_ip checker (ip "10.0.1.5"));
  _ ← assert (is_vpc_ip checker (ip "10.0.255.255"));
  _ ← assert (negb (is_vpc_ip checker (ip "10.1.0.0")));
  assert (negb (is_vpc_ip checker (ip "192.168.1.1"))).

Definition test_is_vpc_ip_v6 : test :=
  let checker := mk [] [(0x20010db8000000000000000000000000, 0xffffffff000000000000000000000000)] in
  _ ← assert (is_vpc_ip checker (ip "2001:db8::1"));
  _ ← assert (is_vpc_ip checker (ip "2001:db8:ffff:ffff:ffff:ffff:ffff:ffff"));
  assert (negb (is_vpc_ip checker (ip "2001:db9::1"))).

(** [MockImdsProvider]: documents by path, empty when there is none. *)
Definition get_metadata (metadata : gmap string string) (path : chars) : chars :=
  chr (default "" (metadata !! str path)).
Definition macs : string := "/latest/meta-data/network/interfaces/macs/".
Definition v4_blocks : string := "/latest/meta-data/network/interfaces/macs/00:11:22:33:44:55/vpc-ipv4-cidr-blocks".
Definition v6_blocks : string := "/latest/meta-data/network/interfaces/macs/00:11:22:33:44:55/vpc-ipv6-cidr-blocks".
(** A string that ends with a line feed. *)
Definition line (s : string) : string := str (chr s ++ [LF]).
Definition num_blocks (checker : VpcCidrChecker.t) (v4 v6 : nat) : test :=
  _ ← assert_eq (length (vpc_cidrs_v4 checker)) v4;
  assert_eq (length (vpc_cidrs_v6 checker)) v6.

Definition test_with_mock_provider_v4_only : test :=
  let metadata : gmap string string :=
    <[v6_blocks := ""]> (<[v4_blocks := (line "10.0.0.0/16" +:+ line "172.16.0.0/12")]>
      (<[macs := line "00:11:22:33:44:55/"]> ∅)) in
  let checker := with_provider (get_metadata metadata) in
  _ ← num_blocks checker 2 0;
  _ ← assert (is_vpc_ip checker (ip "10.0.1.1"));
  _ ← assert (is_vpc_ip checker (ip "172.16.5.5"));
  assert (negb (is_vpc_ip checker (ip "192.168.1.1"))).

Definition test_with_mock_provider_v6_only : test :=
  let metadata : gmap string string :=
    <[v6_blocks := line "2001:db8::/32"]> (<[v4_blocks := ""]> (<[macs := line "00:11:22:33:44:55/"]> ∅)) in
  let checker := with_provider (get_metadata metadata) in
  _ ← num_blocks checker 0 1;
  _ ← assert (is_vpc_ip checker (ip "2001:db8::1"));
  assert (negb (is_vpc_ip checker (ip "2001:db9::1"))).

Definition test_with_mock_provider_no_macs : test := num_blocks (with_provider (get_metadata ∅)) 0 0.

Definition test_with_mock_provider_empty_mac_list : test :=
  num_blocks (with_provider (get_metadata {[macs := ""]})) 0 0.

(** Later insertions replace earlier ones, so that only the last document counts. *)
Definition test_with_mock_provider_broken_ipv4 : test :=
  let metadata : gmap string string :=
    <[v4_blocks := "10.0.0.0/0"]> (* this one is ok *)
    (<[v4_blocks := "10.0.0.0/33/111/222/333/44"]>
    (<[v4_blocks := "10.0.0.0/33"]> (* 33 prefix *)
    (<[macs := "00:11:22:33:44:55/"]> ∅))) in
  num_blocks (with_provider (get_metadata metadata)) 1 0.

Definition test_with_mock_provider_broken_ipv6 : test :=
  let metadata : gmap string string :=
    <[v6_blocks := "2001:db8::/0"]> (* this one is ok *)
    (<[v6_blocks := "2001:db8::/129/123/123"]> (* too many slashes *)
    (<[v6_blocks := "2001:db8::/129"]> (* 129 prefix *)
    (<[macs := "00:11:22:33:44:55/"]> ∅))) in
  num_blocks (with_provider (get_metadata metadata)) 0 1.

Lemma vpc_cidr_tests_pass : all_passed [test_parse_cidr_v4; test_parse_cidr_v6; test_is_vpc_ip_v4; test_is_vpc_ip_v6;
  test_with_mock_provider_v4_only; test_with_mock_provider_v6_only; test_with_mock_provider_no_macs;
  test_with_mock_provider_empty_mac_list; test_with_mock_provider_broken_ipv4;
  test_with_mock_provider_broken_ipv6] = true.
Proof. run_tests. Qed.

End VpcCidrTests.

(** ** clock.rs *)
Module ClockTests.

Definition test_timespec_to_nsec : test :=
  for_each [(0, 0, 0); (0, 1, 1); (0, 1000, 1000); (1979, 1000, 1979000001000)] (λ '(sec, nsec, expected),
    actual ← timespec_to_nsec (timespec.mk sec nsec);
    assert_eq actual expected).

Definition test_timespec_to_us : test :=
  for_each [(0, 0, 0); (0, 1, 0); (0, 1000000, 1000); (1979, 1000000, 1979001000)] (λ '(sec, nsec, expected),
    actual ← timespec_to_us (timespec.mk sec nsec);
    assert_eq actual expected).

Definition test_fake_clock_sleep : test :=
  let clock := FakeClock.mk 0 in
  _ ← assert_eq (now_us clock) 0;
  let clock := sleep clock 0 in
  _ ← assert_eq (now_us clock) 0;
  let clock := sleep clock 19 in
  _ ← assert_eq (now_us clock) 19;
  let clock := sleep clock 3 in
  _ ← assert_eq (now_us clock) 22;
  let clock := sleep clock 0 in
  assert_eq (now_us clock) 22.

Definition test_clock_delta : test :=
  let past_time := timespec.mk 1 2000000 in
  let clock := FakeClock.mk 2001000 in
  let current_time := FakeClock.now_timespec clock in
  _ ← assert_eq current_time (timespec.mk 2 1000000);
  (* Test with a higher nanosec in the past. *)
  actual ← clock_delta current_time past_time;
  _ ← assert_eq actual (timespec.mk 0 999000000);
  (* Test with a lower nanosec in the past. *)
  let past_time := timespec.mk 1 900000 in
  actual ← clock_delta current_time past_time;
  assert_eq actual (timespec.mk 1 100000).

(** [#[should_panic]]: a larger time in the past. *)
Definition test_clock_delta_panic : test :=
  let past_time := timespec.mk 3 2000000 in
  let clock := FakeClock.mk 2001 in
  assert_eq (clock_delta (FakeClock.now_timespec clock) past_time) None.

Lemma clock_tests_pass : all_passed [test_timespec_to_nsec; test_timespec_to_us; test_fake_clock_sleep;
  test_clock_delta; test_clock_delta_panic] = true.
Proof. run_tests. Qed.

End ClockTests.

(** ** event_timer.rs *)
Module EventTimerTests.
Import EventTimer.

(** The random numbers of a run: the least, a middle one, the greatest. *)
Definition generators : list (Z → Z) := [λ _, 0; λ n, n / 2; λ n, n - 1].
Definition never : nat → bool := λ _, false.
Definition always : nat → bool := λ _, true.

Definition test_event_timer : test :=
  for_each generators (λ gen_range,
    let timer := EventTimer.new (FakeClock.mk 0) in
    '(id1, timer) ← add_event gen_range timer 100 5;
    _ ← assert (EXIT_EVENT <? id1);
    '(id2, timer) ← add_event gen_range timer 40 2;
    '(id3, timer) ← add_event gen_range timer 110 5;
    (* Confirm events are retrieved in the following order. *)
    timer ← foldM (λ timer expected_id,
      '(actual_id, timer) ← await_next_event 0 gen_range never timer;
      _ ← assert_eq actual_id expected_id;
      Some timer) timer [id2; id2; id1; id3; id2; id2];
    (* Ensure the elapsed time is within our jitter bounds (4 periods of even #2). *)
    let now := now_us (clock timer) in
    assert ((38 * 4 <=? now) && (now <=? 42 * 4))).

Definition test_event_timer_delay : test :=
  for_each generators (λ gen_range,
    let timer := EventTimer.new (FakeClock.mk 0) in
    let start_us := now_us (clock timer) in
    '(id1, timer) ← add_event_with_delay gen_range timer 100 0 500;
    _ ← assert (EXIT_EVENT <? id1);
    '(found_id, timer) ← await_next_event 0 gen_range never timer;
    _ ← assert_eq found_id id1;
    let elapsed_us := now_us (clock timer) - start_us in
    assert (600 <=? elapsed_us)).

Definition test_event_timer_empty : test :=
  let timer := EventTimer.new (FakeClock.mk 0) in
  timer ← foldM (λ timer _,
    '(id, timer) ← await_next_event 0 (λ _, 0) never timer;
    _ ← assert_eq EXIT_EVENT id;
    Some timer) timer (seq 0 10);
  assert_eq 0 (now_us (clock timer)).

Definition test_next_event_invocation : test :=
  let event := PeriodicEvent.mk 0 0 0 0 in
  for_each generators (λ gen_range,
    let choose := PeriodicEvent.choose_next_invocation gen_range in
    (* Test an empty period & jitter. *)
    event ← choose event 0;
    _ ← assert_eq (PeriodicEvent.next_invocation event) 0;
    (* Test a period with no jitter. *)
    event ← choose (event <| PeriodicEvent.period_us := 1979 |>) 0;
    _ ← assert_eq (PeriodicEvent.next_invocation event) 1979;
    (* Test a repeat. *)
    event ← choose event 0;
    _ ← assert_eq (PeriodicEvent.next_invocation event) 1979;
    event ← choose event 2049;
    _ ← assert_eq (PeriodicEvent.next_invocation event) (2049 + 1979);
    (* Test a period with jitter.  Every result must be within jitter of the next period. *)
    event ← choose (event <| PeriodicEvent.period_us := 50 |> <| PeriodicEvent.jitter_us := 5 |>) 12300;
    assert ((12345 <=? PeriodicEvent.next_invocation event) && (PeriodicEvent.next_invocation event <=? 12355))).

(** [FakeNoSleepClock]: time stands still. *)
Definition FakeNoSleepClock : Type := Z.
#[local] Instance no_sleep_clock : Clock FakeNoSleepClock := {| now_us self := self; sleep self _ := self |}.

Definition test_event_invocation_in_the_past : test :=
  let MAX_TIME_US := 1000 in
  let EVENT_PERIOD := 100 in
  let timer : EventTimer.t FakeNoSleepClock := EventTimer.new MAX_TIME_US in
  (* Create an event manually to control the next execution time. *)
  let event_id := 1 in
  let timer := timer <| events ::= cons (PeriodicEvent.mk event_id EVENT_PERIOD 0 0) |> in
  (* Retrieve the event using the regular logic. *)
  '(found_id, timer) ← await_next_event 0 (λ _, 0) never timer;
  _ ← assert_eq found_id event_id;
  (* Check that the event was added back. *)
  _ ← assert_eq (length (events timer)) 1%nat;
  (* Test the same again to validate the full flow *)
  '(found_id, timer) ← await_next_event 0 (λ _, 0) never timer;
  _ ← assert_eq found_id event_id;
  assert_eq (length (events timer)) 1%nat.

Definition test_try_sleep : test :=
  (* One sleep of ten microseconds: whether it succeeds. *)
  let try flag (timer : EventTimer.t FakeClock.t) :=
    let now := now_us (clock timer) in try_sleep flag timer (now + 10) now in
  let timer := set_exit_flag (EventTimer.new (FakeClock.mk 0)) in
  (* Confirm sleep succeeds when not interrupted. *)
  '(r, timer) ← try never timer;
  _ ← assert (is_ok r);
  (* Confirm sleep does not succeed when we are interrupted. *)
  '(r, timer) ← try always timer;
  _ ← assert (is_err r);
  (* Test returning to successful sleep. *)
  '(r, timer) ← try never timer;
  _ ← assert (is_ok r);
  (* Confirm successful sleep when no flag is set. *)
  '(r, _) ← try always (EventTimer.new (FakeClock.mk 0));
  assert (is_ok r).

Definition test_interrupted_await_next_event : test :=
  let timer := set_exit_flag (EventTimer.new (FakeClock.mk 0)) in
  '(_, timer) ← add_event (λ _, 0) timer 100 0;
  '(id, _) ← await_next_event 0 (λ _, 0) always timer;
  assert_eq id EXIT_EVENT.

Lemma event_timer_tests_pass : all_passed [test_event_timer; test_event_timer_delay; test_event_timer_empty;
  test_next_event_invocation; test_event_invocation_in_the_past; test_try_sleep;
  test_interrupted_await_next_event] = true.
Proof. run_tests. Qed.

End EventTimerTests.

(** ** host_stats_provider.rs *)
Module HostStatsTests.
Import HostStatsProviderImpl.

(** The output of [ethtool], with its six values. *)
Definition ethtool_template (bw_in bw_out pps conntrack linklocal available : Z) : chars :=
  let stat name value := chr name ++ chr ": " ++ show_uint value ++ [LF] in
  [LF] ++ chr "NIC statistics:" ++ [LF] ++
  stat "     total_resets" 0 ++ stat "     reset_fail" 0 ++ stat "     tx_timeout" 0 ++
  stat "     bw_in_allowance_exceeded" bw_in ++ stat "     bw_out_allowance_exceeded" bw_out ++
  stat "     pps_allowance_exceeded" pps ++ stat "     conntrack_allowance_exceeded" conntrack ++
  stat "     linklocal_allowance_exceeded" linklocal ++ stat "     conntrack_allowance_available" available ++
  stat "     ena_admin_q_out_of_space" 0 ++ stat "     ena_admin_q_no_completion" 0.

(** The expectations of the fake runner: the answer for each device; any other command fails. *)
Fixpoint fake_runner (expectations : list (string * Result chars unit)) (dev : chars) : Result chars unit :=
  match expectations with
  | [] => Err tt
  | (expected, answer) :: rest => if decide (chr expected = dev) then answer else fake_runner rest dev
  end.

#[local] Instance iface_result_dec : EqDecision (Result NetworkInterfaceStats.t unit).
Proof. solve_decision. Defined.

Definition test_load_single_iface_stats : test :=
  let runner := fake_runner [("eth0"%string, Ok (ethtool_template 5 6 9 7 8 10))] in
  let expected_stats := NetworkInterfaceStats.mk 5 6 7 8 9 10 in
  assert_eq (load_single_iface_stats runner (chr "eth0")) (Ok expected_stats).

Definition test_load_stats_from_incompatible_driver : test :=
  let runner := fake_runner [("eth0"%string, Ok (chr "NIC statistics from other driver"))] in
  assert_eq (load_single_iface_stats runner (chr "eth0")) (Ok (NetworkInterfaceStats.mk 0 0 0 0 0 0)).

Definition test_get_host_stats : test :=
  (* Set our command expectations. *)
  let runner := fake_runner [("eth1"%string, Ok (ethtool_template 5 6 9 7 8 10));
                             ("eth2"%string, Ok (ethtool_template 55 66 99 77 88 1010))] in
  (* Build what we expect should be loaded. *)
  let device1 := NetworkDevice.mk (chr "eth1") (chr "id1") in
  let device2 := NetworkDevice.mk (chr "eth2") (chr "id2") in
  let expected_stats1 := NetworkInterfaceStats.mk 5 6 7 8 9 10 in
  let expected_stats2 := NetworkInterfaceStats.mk 55 66 77 88 99 1010 in
  (* Do work. *)
  let provider := set_network_devices runner HostStatsProviderImpl.new [device1; device2] in
  (* Validate stats initially loaded. *)
  _ ← assert_eq provider (<[device2 := expected_stats2]> (<[device1 := expected_stats1]> ∅));
  (* Mimic an error for eth1 and the linklocal value changed for eth2. *)
  let runner := fake_runner [("eth1"%string, Err tt);
                             ("eth2"%string, Ok (ethtool_template 55 66 99 77 89 1010))] in
  '(stats, _) ← get_stats runner map_to_list provider;
  let actual := (λ g, (GroupedInterfaceStats.interface_id g, GroupedInterfaceStats.stats g)) <$> HostStats.interface_stats stats in
  (* eth1 values show no change after command failure, eth2 values represent the diff on success. *)
  assert (bool_decide (actual ≡ₚ
    [(chr "id1", NetworkInterfaceStats.default <| NetworkInterfaceStats.conntrack_allowance_available := 10 |>);
     (chr "id2", NetworkInterfaceStats.default <| NetworkInterfaceStats.linklocal_allowance_exceeded := 1 |>
       <| NetworkInterfaceStats.conntrack_allowance_available := 1010 |>)])).

Lemma host_stats_tests_pass : all_passed [test_load_single_iface_stats; test_load_stats_from_incompatible_driver;
  test_get_host_stats] = true.
Proof. run_tests. Qed.

End HostStatsTests.
