(* ===== verification/ClusterTests.v ===== *)
(** * ClusterTests: the tests of the Kubernetes metadata

    Translates the tests of kubernetes/kubernetes_metadata_collector.rs.  The test of both watchers
    runs its two tasks under several schedules instead of for a stretch of time; the test that starts
    the real runtime only starts the tasks. *)

From stdpp Require Import base numbers gmap list strings.
From S2P Require Import Prelude Network ReportData NetworkEvent Text Kubernetes Testing HostTests.
Open Scope Z_scope.

Module CollectorTests.
Import KubernetesMetadataCollector.

Definition TEST_POD_PORT : Z := 100.

Definition test_get_service_name_from_endpoint_slice : test :=
  let slice := EndpointSlice.mk (Some "test"%string)
    (Some {["kubernetes.io/service-name"%string := "test-service"%string]}) [] None [] in
  _ ← assert_eq (get_service_name_from_endpoint_slice slice) "test-service"%string;
  (* test with owner references *)
  let slice := EndpointSlice.mk (Some "test"%string) None ["test-service-owner"%string] None [] in
  assert_eq (get_service_name_from_endpoint_slice slice) "test-service-owner"%string.

Definition get_flow (agg_results : AggregateResults.t) : option FlowMetadata.t :=
  FlowProperties.kubernetes_metadata (AggregateResults.flow agg_results).

Definition test_setup_watchers_sanity : test :=
  _ ← Watchers.setup_watchers (Watchers.mk_surroundings true None (λ s, s)) Watchers.new;
  Some tt.

Definition create_pod_info (name ns srv : string) : PodInfo.t := PodInfo.mk name ns srv.

Definition create_agg_results (local_port remote_port : Z) (local_ip remote_ip : option IpAddr.t) :
    AggregateResults.t :=
  AggregateResults.mk
    (FlowProperties.mk TCP (default (ip "255.255.255.255") local_ip) (default (ip "255.255.255.254") remote_ip)
       local_port remote_port None)
    NetworkStats.default.

(** Enriching with the given pods: the number of flows enriched, and the flows. *)
Definition enrich (pod_info : PodMap) (flows : list AggregateResults.t) : Z * list AggregateResults.t :=
  (enrich_flows (λ m, (map_to_list m).*2) (KubernetesMetadataCollector.new
     <| KubernetesMetadataCollector.pod_info := pod_info |>) flows).1.

(** One flow, with what its sides must be resolved to; [None] for a side not looked at. *)
Definition enriches_as (pod_info : PodMap) (flow : AggregateResults.t) (local remote : option (option PodInfo.t)) :
    test :=
  let '(count, flows) := enrich pod_info [flow] in
  _ ← assert_eq count 1;
  flow ← head flows;
  metadata ← get_flow flow;
  _ ← (if local is Some expected then assert_eq (FlowMetadata.local metadata) expected else Some tt);
  if remote is Some expected then assert_eq (FlowMetadata.remote metadata) expected else Some tt.

Definition test_enrich_flows : test :=
  let pod_local := ip "10.0.0.1" in
  let pod_remote := ip "10.0.0.2" in
  let pod_local_mapped := ip "::ffff:10.0.0.1" in
  let pod_remote_mapped := ip "::ffff:10.0.0.2" in
  let pod_info_local := create_pod_info "pod-1" "ns-1" "service-1" in
  let pod_info_remote := create_pod_info "pod-2" "ns-2" "service-2" in
  let pod_info : PodMap := {[pod_local := {[6666 := pod_info_local]}; pod_remote := {[6666 := pod_info_remote]}]} in
  let flows := [create_agg_results 0 6666 (Some pod_local) (Some pod_remote);
                create_agg_results 0 6666 None (Some pod_remote);
                create_agg_results 0 6666 (Some pod_local_mapped) None;
                create_agg_results 0 6666 None (Some pod_remote_mapped)] in
  let '(count, flows) := enrich pod_info flows in
  _ ← assert_eq count 4;
  metadata ← (flows !! 0%nat) ≫= get_flow;
  _ ← assert_eq (FlowMetadata.local metadata) (Some pod_info_local);
  _ ← assert_eq (FlowMetadata.remote metadata) (Some pod_info_remote);
  metadata ← (flows !! 2%nat) ≫= get_flow;
  _ ← assert_eq (FlowMetadata.local metadata) (Some pod_info_local);
  metadata ← (flows !! 3%nat) ≫= get_flow;
  assert_eq (FlowMetadata.remote metadata) (Some pod_info_remote).

Definition test_enrich_flows_multi_scenario : test :=
  let pod_local := ip "10.0.0.1" in
  let pod_remote := ip "10.0.0.2" in
  let pod_info_local := create_pod_info "p-1" "ns-1" "s-1" in
  let pod_info_remote := create_pod_info "p-2" "ns-2" "s-2" in
  let polluter := create_pod_info "x" "x" "x" in
  let many_remote : PortMap := {[6666 := pod_info_remote; 5555 := polluter; 4444 := polluter]} in
  let many_local : PortMap := {[1111 := pod_info_local; 2222 := polluter; 3333 := polluter]} in
  let one_local : PortMap := {[1111 := pod_info_local]} in
  let one_remote : PortMap := {[6666 := pod_info_remote]} in
  let client_flow := create_agg_results 0 6666 (Some pod_local) (Some pod_remote) in
  let server_flow := create_agg_results 1111 0 (Some pod_local) (Some pod_remote) in
  (* Scenario 1: For a client flow, the remote pod is ALWAYS resolved if we have its pod info. *)
  _ ← enriches_as {[pod_remote := many_remote]} client_flow None (Some (Some pod_info_remote));
  (* Scenario 2: For a server flow, the local pod is ALWAYS resolved if we have its pod info. *)
  _ ← enriches_as {[pod_local := many_local]} (create_agg_results 1111 0 (Some pod_local) None)
        (Some (Some pod_info_local)) None;
  (* Scenario 3: For a client flow, if the local IP has a single port registered, local pod can be resolved. *)
  _ ← enriches_as {[pod_local := one_local; pod_remote := many_remote]} client_flow
        (Some (Some pod_info_local)) (Some (Some pod_info_remote));
  (* Scenario 4: For a server flow, if the remote IP has a single port registered, remote pod can be resolved. *)
  _ ← enriches_as {[pod_local := many_local; pod_remote := one_remote]} server_flow
        (Some (Some pod_info_local)) (Some (Some pod_info_remote));
  (* Scenario 5: For a client flow, if the local IP has multiple ports registered, we cant resolve the local pod *)
  _ ← enriches_as {[pod_local := many_local; pod_remote := many_remote]} client_flow
        (Some None) (Some (Some pod_info_remote));
  (* Scenario 6: For a server flow, if the remote IP has multiple ports registered, we cant resolve the remote pod *)
  enriches_as {[pod_local := many_local; pod_remote := many_remote]} server_flow
    (Some (Some pod_info_local)) (Some None).

Definition test_enrich_flows_multiple_ports_same_pod : test :=
  let pod_local := ip "10.0.0.1" in
  let pod_remote := ip "10.0.0.2" in
  let pod_info_local := create_pod_info "p-1" "ns-1" "s-1" in
  let pod_info_remote := create_pod_info "p-2" "ns-2" "s-2" in
  let ports info : PortMap := {[80 := info; 443 := info; 8080 := info]} in
  (* Scenario 7: Client flow with multiple ports on local IP, all from same pod *)
  _ ← enriches_as {[pod_local := ports pod_info_local; pod_remote := {[6666 := pod_info_remote]}]}
        (create_agg_results 0 6666 (Some pod_local) (Some pod_remote))
        (Some (Some pod_info_local)) (Some (Some pod_info_remote));
  (* Scenario 8: Server flow with multiple ports on remote IP, all from same pod *)
  enriches_as {[pod_local := {[1111 := pod_info_local]}; pod_remote := ports pod_info_remote]}
    (create_agg_results 1111 0 (Some pod_local) (Some pod_remote))
    (Some (Some pod_info_local)) (Some (Some pod_info_remote)).

Definition adress_to_podname (address : string) : string := "pod-1/" +:+ address.

Definition create_test_pod (address : string) : Pod.t :=
  Pod.mk (adress_to_podname address) (Some "default"%string)
    (Some [Container.mk (Some [ContainerPort.mk TEST_POD_PORT (Some "TCP"%string);
                               (* to verify that this is ignored *)
                               ContainerPort.mk (TEST_POD_PORT + 1) (Some "UDP"%string)])])
    (Some (chr address)).

Definition create_test_slice (address : string) : EndpointSlice.t :=
  EndpointSlice.mk (Some "default"%string) None ["test-service"%string]
    (Some [(Some "TCP"%string, Some TEST_POD_PORT);
           (* UDP should be disregarded, for now at least *)
           (Some "UDP"%string, Some TEST_POD_PORT); (Some "UDP"%string, Some (TEST_POD_PORT + 1))])
    [Endpoint.mk [chr address] (Some (adress_to_podname address))].

Definition pod_behind (pod_info : PodMap) (address : string) : option PodInfo.t :=
  port_map ← pod_info !! ip address; port_map !! TEST_POD_PORT.

Definition test_handle_endpoint_slice_event : test :=
  let adress := "192.168.1.1"%string in
  let slice := create_test_slice adress in
  (* add the endpoint *)
  pod_info ← handle_endpoint_slice_event (Ok (Apply slice)) ∅;
  _ ← assert_eq (pod_behind pod_info adress) (Some (PodInfo.mk (adress_to_podname adress) "default" "test-service"));
  (* now delete it *)
  pod_info ← handle_endpoint_slice_event (Ok (Delete slice)) pod_info;
  _ ← assert_eq (pod_info !! ip adress) None;
  (* and do a final test to see if it is still empty after a no-op event *)
  pod_info ← handle_endpoint_slice_event (Err tt) pod_info;
  assert_eq pod_info ∅.

Definition test_handle_pod_event : test :=
  let adress := "192.168.1.1"%string in
  let pod := create_test_pod adress in
  (* add the endpoint *)
  let pod_info := handle_pod_event (Ok (Apply pod)) ∅ in
  _ ← assert_ne pod_info ∅;
  '(_, ports) ← head (map_to_list pod_info);
  (* should only contain 1 port, no UDP *)
  assert_eq (size ports) 1%nat.

(** One round of the events of a watcher. *)
Definition event_vector {A : Type} (object object2 : A) : list (Result (Event A) unit) :=
  [Ok (Apply object); Ok (Delete object); Ok (Delete object2); Ok (InitApply object2); Err tt;
   Ok (Delete object2); Ok (InitApply object); Ok (Apply object2); Ok InitEvent; Err tt].

(** Both lists, an element of each in turn. *)
Fixpoint alternate {A : Type} (l1 l2 : list A) : list A :=
  match l1, l2 with
  | x :: l1, y :: l2 => x :: y :: alternate l1 l2
  | l1, l2 => l1 ++ l2
  end.

(** The slice watcher makes a last round after the pod watcher has finished; before that, their rounds
    run one after the other, or event by event in turn, the one or the other first. *)
Definition test_both_watchers_deadlock_free : test :=
  let adress := "192.168.1.1"%string in
  let adress2 := "192.168.1.2"%string in
  let pods := Watchers.PodEvent <$> event_vector (create_test_pod adress) (create_test_pod adress2) in
  let slices := Watchers.SliceEvent <$> event_vector (create_test_slice adress) (create_test_slice adress2) in
  for_each [pods ++ slices ++ pods; slices ++ pods; alternate pods slices; alternate slices pods;
            alternate (pods ++ pods) slices] (λ schedule,
    pod_info ← foldM (λ m e, Watchers.for_each e m) ∅ (schedule ++ slices);
    (* we apply items last, so we must verify that they exist *)
    _ ← assert_eq (size pod_info) 2%nat;
    for_each [adress; adress2] (λ a,
      assert_eq (pod_behind pod_info a) (Some (PodInfo.mk (adress_to_podname a) "default" "test-service")))).

Lemma collector_tests_pass : all_passed [test_get_service_name_from_endpoint_slice; test_setup_watchers_sanity;
  test_enrich_flows; test_enrich_flows_multi_scenario; test_enrich_flows_multiple_ports_same_pod;
  test_handle_endpoint_slice_event; test_handle_pod_event; test_both_watchers_deadlock_free] = true.
Proof. run_tests. Qed.

End CollectorTests.
