(* ===== verification/MetricsTests.v ===== *)
(** * MetricsTests: the tests of the OpenMetrics providers

    Translates the tests of types.rs, namespace_manager.rs, netns_stats.rs, discovery.rs and
    interface_metrics_provider.rs under nfm-controller/src/open_metrics/providers.  The commands a
    test expects are answered by a list; any other command fails here where the fake runner panics.
    The three regular expressions are matched by a small matcher of their shape. *)

From stdpp Require Import base numbers gmap list strings.
From Stdlib Require Import Ascii.
From S2P Require Import Prelude Network ReportData Text Metadata HostStats HostInspection Kubernetes NetNamespaces.
From S2P Require Import OpenMetrics Testing HostTests.
Import RuntimeEnvironmentMetadataProvider.
Open Scope Z_scope.

(** ** What the tests stand on *)
Module Fakes.

(** The lines of a text. *)
Definition text (ls : list string) : chars := join [LF] (chr <$> ls).

Definition output (code_is_zero : bool) (stdout : chars) : Result Output.t unit :=
  Ok (Output.mk code_is_zero stdout []).

(** [FakeCommandRunner] with its expectations, by the full command. *)
Definition runner (expectations : list (string * Result Output.t unit)) (cmd : chars) (args : list chars) :
    Result Output.t unit :=
  from_option id (Err tt) ((list_to_map ((λ e, (chr e.1, e.2)) <$> expectations) : gmap chars (Result Output.t unit))
                      !! FakeCommandRunner.full_command cmd args).

(** The rest of a text after the first occurrence of a word that white space follows, without it. *)
Fixpoint after_word (word s : chars) : option chars :=
  let rest := drop (length word) s in
  if starts_with word s && match rest with c :: _ => is_whitespace c | [] => false end then Some rest
  else match s with [] => None | _ :: s => after_word word s end.

Fixpoint skip_space (s : chars) : chars :=
  match s with c :: s' => if is_whitespace c then skip_space s' else s | [] => [] end.
Fixpoint span (p : ascii → bool) (s : chars) : chars :=
  match s with c :: s => if p c then c :: span p s else [] | [] => [] end.

(** [\S+/]: up to the last slash of the token. *)
Definition before_last_slash (token : chars) : option chars :=
  match reverse (split "/"%char token) with
  | _ :: (_ :: _) as parts => Some (join [ "/"%char ] (reverse parts))
  | _ => None
  end.

Definition non_empty (s : chars) : option chars := match s with [] => None | _ => Some s end.

Definition captures (regex : string) (line : chars) : option NetworkNamespaceManager.Captures :=
  let group word (g : chars → option chars) :=
    rest ← after_word (chr word) line;
    found ← g (skip_space rest) ≫= non_empty;
    Some [Some line; Some found] in
  let address s := before_last_slash (span (λ c, negb (is_whitespace c)) s) in
  if decide (regex = get_ipv4_regex) then group "inet"%string address
  else if decide (regex = get_ipv6_regex) then group "inet6"%string address
  else if decide (regex = get_link_netnsid_regex) then
    group "link-netnsid"%string (λ s, Some (span (λ c, (48 <=? code c) && (code c <=? 57)) s))
  else None.

#[global] Instance platform_dec : EqDecision ComputePlatform.
Proof. solve_decision. Defined.

Definition is_some {A : Type} (o : option A) : bool := match o with Some _ => true | None => false end.

End Fakes.
Import Fakes.

(** ** types.rs *)
Module TypesTests.

Definition test_newtype_wrappers : test :=
  let pid : ProcessId := 1234 in
  _ ← assert_eq pid 1234;
  let ns_id : NamespaceId := 5678 in
  assert_eq ns_id 5678.

Definition test_host_interface_virtual_detection : test :=
  let interface := HostInterface.new (chr "veth123") true in
  _ ← assert_eq (HostInterface.name interface) (chr "veth123");
  assert_eq (HostInterface.is_virtual interface) true.

Definition test_interface_metrics_error_display : test :=
  let error := CommandExecution (chr "test command") in
  assert_eq (error_to_string error) (chr "Failed to execute command: " ++ chr "test command").

Lemma types_tests_pass : all_passed [test_newtype_wrappers; test_host_interface_virtual_detection;
  test_interface_metrics_error_display] = true.
Proof. run_tests. Qed.

End TypesTests.

(** ** namespace_manager.rs *)
Module NamespaceManagerTests.
Import NetworkNamespaceManager.

Definition parse_line (run : chars → list chars → Result Output.t unit) (line : string) :=
  parse_namespace_line run (λ _, Ok false) captures show_uint (chr line).
Definition nothing_expected : chars → list chars → Result Output.t unit := runner [].

Definition test_parse_namespace_line_valid : test :=
  let fake_runner := runner [("nsenter -t 1628 -n ip a"%string, output true [])] in
  let result := parse_line fake_runner
    "4026531992 net      54  1628 user           88 /host/run/netns/test sleep 180" in
  _ ← assert (is_ok result);
  match result with
  | Ok (Some (ns_id, ns_info)) =>
      _ ← assert_eq ns_id 88;
      assert_eq (NamespaceInfo.pid ns_info) 1628
  | _ => Some tt
  end.

#[local] Instance parsed_dec : EqDecision (Result (option (NamespaceId * NamespaceInfo.t)) InterfaceMetricsError).
Proof. assert (EqDecision InterfaceMetricsError) by solve_decision. solve_decision. Defined.

Definition test_parse_namespace_line_unassigned : test :=
  assert_eq (parse_line nothing_expected
    "4026531840 net     135       1 root   unassigned                                                          /usr/lib/systemd/systemd")
    (Ok None).

Definition test_parse_namespace_line_malformed : test :=
  assert_eq (parse_line nothing_expected "4026531992 net") (Ok None).

(** The addresses found, in any order. *)
Definition assert_addresses (addresses : list IpAddr.t) (expected : list string) : test :=
  _ ← assert_eq (length addresses) (length expected);
  for_each expected (λ address, assert (bool_decide (ip address ∈ addresses))).

Definition test_parse_ip_addresses : test :=
  let ip_output := text ["2: eth0: <BROADCAST,MULTICAST,UP,LOWER_UP> mtu 1500";
    "    inet 192.168.1.10/24 brd 192.168.1.255 scope global eth0";
    "    inet6 2001:db8::1/64 scope global"]%string in
  assert_addresses (parse_ip_addresses captures ip_output) ["192.168.1.10"; "2001:db8::1"]%string.

Definition test_extract_ip_from_line_ipv4 : test :=
  let ipv4_regex := get_ipv4_regex in
  (* Test valid IPv4 address *)
  let line := chr "    inet 192.168.1.10/24 brd 192.168.1.255 scope global eth0" in
  _ ← assert_eq (extract_ip_from_line captures line ipv4_regex) (Some (ip "192.168.1.10"));
  (* Test loopback address (should be filtered out) *)
  let line := chr "    inet 127.0.0.1/8 scope host lo" in
  assert_eq (extract_ip_from_line captures line ipv4_regex) None.

Definition test_extract_ip_from_line_ipv6 : test :=
  let ipv6_regex := get_ipv6_regex in
  (* Test valid IPv6 address *)
  let line := chr "    inet6 2001:db8::1/64 scope global" in
  _ ← assert_eq (extract_ip_from_line captures line ipv6_regex) (Some (ip "2001:db8::1"));
  (* Test link-local address (should be filtered out) *)
  let line := chr "    inet6 fe80::42:acff:fe11:2/64 scope link" in
  assert_eq (extract_ip_from_line captures line ipv6_regex) None.

Definition eth0_link : string := "2: eth0: <BROADCAST,MULTICAST,UP,LOWER_UP> mtu 1500".
Definition eth0_inet (address : string) : string := "    inet " +:+ address +:+ "/24 brd 192.168.1.255 scope global eth0".

Definition test_get_namespace_info_success : test :=
  let file_1 := "/tmp/file_get_namespace_info_success_1"%string in
  let file_2 := "/tmp/file_get_namespace_info_success_2"%string in
  let fake_runner := runner
    [("lsns -t net --noheadings"%string, output true (text
        ["4026531992 net      54  1628 user           88 " +:+ file_1 +:+ " sleep 180";
         "4026531993 net      55  1629 user           89 " +:+ file_2 +:+ " sleep 180"]%string));
     (* Mock nsenter calls for IP address retrieval *)
     ("nsenter --net " +:+ file_1 +:+ " ip a", output true (text [eth0_link; eth0_inet "192.168.1.10"]));
     ("nsenter --net " +:+ file_2 +:+ " ip a", output true (text [eth0_link; eth0_inet "192.168.1.11"]))]%string in
  let exists_file path := Ok (bool_decide (path = chr file_1 ∨ path = chr file_2)) in
  match get_namespace_info fake_runner exists_file captures show_uint with
  | Err _ => None
  | Ok namespace_info =>
      _ ← assert_eq (size namespace_info) 2%nat;
      ns_88 ← namespace_info !! 88;
      _ ← assert_eq (NamespaceInfo.pid ns_88) 1628;
      _ ← assert_eq (NamespaceInfo.ns_file ns_88) (Some (chr file_1));
      assert_addresses (NamespaceInfo.ip_addresses ns_88) ["192.168.1.10"]%string
  end.

Definition namespaces_of (answer : Result Output.t unit) :=
  get_namespace_info (runner [("lsns -t net --noheadings"%string, answer)]) (λ _, Ok false) captures show_uint.

Definition test_get_namespace_info_command_failure : test := assert (is_err (namespaces_of (Err tt))).

Definition test_get_namespace_info_command_non_zero_exit : test :=
  match namespaces_of (output false []) with
  | Ok namespace_info => assert_eq namespace_info ∅
  | Err _ => None
  end.

Definition test_get_ip_addresses_from_ns_file_success : test :=
  let fake_runner := runner [("nsenter --net /test/ns/path ip a"%string,
    output true (text [eth0_link; eth0_inet "192.168.1.10"; "    inet6 2001:db8::1/64 scope global"]%string))] in
  match get_ip_addresses_from_ns_file fake_runner captures (chr "/test/ns/path") with
  | Ok addresses => assert_addresses addresses ["192.168.1.10"; "2001:db8::1"]%string
  | Err _ => None
  end.

Definition test_get_ip_addresses_from_ns_file_failure : test :=
  let fake_runner := runner [("nsenter --net /test/ns/path ip a"%string, output false [])] in
  assert (is_err (get_ip_addresses_from_ns_file fake_runner captures (chr "/test/ns/path"))).

Definition test_get_ip_addresses_for_pid_success : test :=
  let fake_runner := runner [("nsenter -t 1234 -n ip a"%string,
    output true (text [eth0_link; eth0_inet "192.168.1.10"]))] in
  match get_ip_addresses_for_pid fake_runner captures show_uint 1234 with
  | Ok addresses => assert_addresses addresses ["192.168.1.10"]%string
  | Err _ => None
  end.

Definition test_get_ip_addresses_for_pid_failure_returns_empty : test :=
  let fake_runner := runner [("nsenter -t 1234 -n ip a"%string, output false [])] in
  match get_ip_addresses_for_pid fake_runner captures show_uint 1234 with
  | Ok addresses => assert_eq addresses []
  | Err _ => None
  end.

Definition test_parse_namespace_line_with_missing_ns_file : test :=
  let fake_runner := runner [("nsenter -t 1628 -n ip a"%string, output true [])] in
  let result := parse_line fake_runner "4026531992 net      54  1628 user           88" in
  _ ← assert (is_ok result);
  match result with
  | Ok (Some (ns_id, ns_info)) =>
      _ ← assert_eq ns_id 88;
      _ ← assert_eq (NamespaceInfo.pid ns_info) 1628;
      assert_eq (NamespaceInfo.ns_file ns_info) None
  | _ => Some tt
  end.

Definition test_parse_namespace_line_invalid_pid : test :=
  assert (is_err (parse_line nothing_expected
    "4026531992 net      54  invalid user           88 /host/run/netns/test")).

Definition test_parse_namespace_line_invalid_netns_id : test :=
  assert (is_err (parse_line nothing_expected
    "4026531992 net      54  1628 user           invalid /host/run/netns/test")).

Definition test_get_ip_addresses_for_namespace_fallback_to_pid : test :=
  let fake_runner := runner
    [ (* First call to nsenter with namespace file fails *)
     ("nsenter --net /nonexistent/path ip a"%string, output false []);
     (* Second call with PID succeeds *)
     ("nsenter -t 1234 -n ip a"%string, output true (text [eth0_link; eth0_inet "192.168.1.10"]))] in
  let ns_file := Some (chr "/nonexistent/path") in
  match get_ip_addresses_for_namespace fake_runner captures show_uint 1234 ns_file with
  | Ok addresses => assert_addresses addresses ["192.168.1.10"]%string
  | Err _ => None
  end.

(** *** [ip link show] *)

Definition lo_lines : list string :=
  ["1: lo: <LOOPBACK,UP,LOWER_UP> mtu 65536 qdisc noqueue state UNKNOWN mode DEFAULT group default qlen 1000";
   "    link/loopback 00:00:00:00:00:00 brd 00:00:00:00:00:00"]%string.
Definition eth0_lines : list string :=
  ["2: eth0: <BROADCAST,MULTICAST,UP,LOWER_UP> mtu 1500 qdisc pfifo_fast state UP mode DEFAULT group default qlen 1000";
   "    link/ether 08:00:27:12:34:56 brd ff:ff:ff:ff:ff:ff"]%string.
Definition veth_lines (name mac netnsid : string) : list string :=
  [name +:+ ": <BROADCAST,MULTICAST,UP,LOWER_UP> mtu 1500 qdisc noqueue master docker0 state UP mode DEFAULT group default link-netnsid "
     +:+ netnsid;
   "    link/ether " +:+ mac +:+ " brd ff:ff:ff:ff:ff:ff link-netnsid " +:+ netnsid]%string.
Definition veth123_lines : string → list string := veth_lines "15: veth123@if14" "02:42:ac:11:00:03".
Definition vethab45_lines : string → list string := veth_lines "17: vethab45@if16" "02:42:ac:11:00:05".

Definition links_of (answer : Result Output.t unit) :=
  parse_all_interface_links (runner [("ip link show"%string, answer)]) captures.
(** The whole map of interfaces to namespaces. *)
Definition assert_links (answer : Result Output.t unit) (expected : list (string * Z)) : test :=
  match links_of answer with
  | Ok interface_map => assert_eq interface_map (list_to_map ((λ e, (chr e.1, e.2)) <$> expected))
  | Err _ => None
  end.
(** The output ends with a line feed. *)
Definition links (ls : list string) : Result Output.t unit := output true (text ls ++ [LF]).

Definition test_parse_all_interface_links_success : test :=
  (* Should parse interfaces with namespace IDs and ignore those without *)
  assert_links (links (lo_lines ++ eth0_lines ++ veth123_lines "42" ++ vethab45_lines "7"))
    [("veth123"%string, 42); ("vethab45"%string, 7)].

Definition test_parse_all_interface_links_empty_output : test := assert_links (output true []) [].

Definition test_parse_all_interface_links_command_failure : test := assert_links (output false []) [].

Definition test_parse_all_interface_links_command_error : test := assert (is_err (links_of (Err tt))).

Definition test_parse_all_interface_links_invalid_namespace_id : test :=
  (* Should skip the interface with invalid namespace ID and parse the valid one *)
  assert_links (links (veth123_lines "invalid" ++ vethab45_lines "7")) [("vethab45"%string, 7)].

Definition test_parse_all_interface_links_mixed_interfaces : test :=
  (* Should only parse interfaces that have namespace IDs *)
  assert_links (links (lo_lines ++ eth0_lines ++ veth123_lines "0")) [("veth123"%string, 0)].

Lemma namespace_manager_tests_pass : all_passed [test_parse_namespace_line_valid; test_parse_namespace_line_unassigned;
  test_parse_namespace_line_malformed; test_parse_ip_addresses; test_extract_ip_from_line_ipv4;
  test_extract_ip_from_line_ipv6; test_get_namespace_info_success; test_get_namespace_info_command_failure;
  test_get_namespace_info_command_non_zero_exit; test_get_ip_addresses_from_ns_file_success;
  test_get_ip_addresses_from_ns_file_failure; test_get_ip_addresses_for_pid_success;
  test_get_ip_addresses_for_pid_failure_returns_empty; test_parse_namespace_line_with_missing_ns_file;
  test_parse_namespace_line_invalid_pid; test_parse_namespace_line_invalid_netns_id;
  test_get_ip_addresses_for_namespace_fallback_to_pid; test_parse_all_interface_links_success;
  test_parse_all_interface_links_empty_output; test_parse_all_interface_links_command_failure;
  test_parse_all_interface_links_command_error; test_parse_all_interface_links_invalid_namespace_id;
  test_parse_all_interface_links_mixed_interfaces] = true.
Proof. run_tests. Qed.

End NamespaceManagerTests.

(** ** netns_stats.rs *)
Module NetNsStatsTests.
Import NetNsInterfaceMetricValues NetNsStats.

Definition assert_counts (result : NetNsInterfaceMetricValues.t) (ingress egress : Z) : test :=
  _ ← assert_eq (ingress_flow_count result) ingress;
  assert_eq (egress_flow_count result) egress.

Definition test_netns_stats_parse_nstat : test :=
  let nstat_output := text ["TcpActiveOpens                  150                0.0";
    "TcpPassiveOpens                 200                0.0";
    "TcpAttemptFails                 5                  0.0"]%string in
  (* TcpPassiveOpens, TcpActiveOpens *)
  assert_counts (parse_nstat_output nstat_output) 200 150.

Definition test_parse_nstat_value_valid : test :=
  assert_eq (parse_nstat_value (chr "TcpActiveOpens                  150                0.0")) 150.
Definition test_parse_nstat_value_invalid : test :=
  assert_eq (parse_nstat_value (chr "TcpActiveOpens                  invalid            0.0")) 0.
Definition test_parse_nstat_value_malformed : test := assert_eq (parse_nstat_value (chr "TcpActiveOpens")) 0.

Definition test_netns_interface_metric_values_delta : test :=
  let current := NetNsInterfaceMetricValues.new 100 80 in
  let previous := NetNsInterfaceMetricValues.new 70 50 in
  assert_counts (calculate_delta current previous) 30 30.

Definition test_netns_interface_metric_values_delta_saturating : test :=
  let current := NetNsInterfaceMetricValues.new 50 30 in
  let previous := NetNsInterfaceMetricValues.new 100 80 in (* Higher than current *)
  (* Should saturate to 0 *)
  assert_counts (calculate_delta current previous) 0 0.

Definition no_file : chars → Result chars unit := λ _, Err tt.
Definition nstat_command : string := "nsenter --net /proc/1234/ns/net nstat -a".

Definition test_get_namespace_flow_stats_success : test :=
  let fake_runner := runner [(nstat_command, output true (text
    ["TcpActiveOpens                  100                0.0"; "TcpPassiveOpens                 200                0.0";
     "TcpAttemptFails                 5                  0.0"]%string))] in
  let ns_info := NamespaceInfo.mk 1234 (Some (chr "/proc/1234/ns/net")) [] in
  match get_namespace_flow_stats fake_runner no_file show_uint ns_info with
  | Ok result => assert_counts result 200 100
  | Err _ => None
  end.

Definition test_get_namespace_flow_stats_command_failure : test :=
  let fake_runner := runner [("nsenter -t 1234 -n nstat -a"%string, Err tt)] in
  let ns_info := NamespaceInfo.mk 1234 None [] in
  (* Should return error on command failure *)
  assert (is_err (get_namespace_flow_stats fake_runner no_file show_uint ns_info)).

Definition test_get_namespace_flow_stats_non_zero_exit : test :=
  let fake_runner := runner [(nstat_command, output false [])] in
  let ns_info := NamespaceInfo.mk 1234 (Some (chr "/proc/1234/ns/net")) [] in
  (* Should return error on command failure *)
  assert (is_err (get_namespace_flow_stats fake_runner no_file show_uint ns_info)).

Definition test_parse_nstat_output_partial_data : test :=
  (* Test with only TcpActiveOpens *)
  _ ← assert_counts (parse_nstat_output (text ["TcpActiveOpens                  150                0.0";
        "TcpAttemptFails                 5                  0.0"]%string)) 0 150;
  (* Test with only TcpPassiveOpens *)
  assert_counts (parse_nstat_output (text ["TcpPassiveOpens                 200                0.0";
    "TcpAttemptFails                 5                  0.0"]%string)) 200 0.

Definition test_parse_nstat_output_empty : test := assert_counts (parse_nstat_output []) 0 0.

Definition test_parse_nstat_output_malformed_lines : test :=
  (* Should handle malformed lines gracefully *)
  assert_counts (parse_nstat_output (text ["TcpActiveOpens"; "TcpPassiveOpens invalid_value 0.0";
    "TcpAttemptFails                 5                  0.0"]%string)) 0 0.

Definition test_parse_nstat_output_early_termination : test :=
  (* Test that parsing stops early when both values are found *)
  assert_counts (parse_nstat_output (text ["TcpActiveOpens                  100                0.0";
    "TcpPassiveOpens                 200                0.0"; "TcpRetransSegs                  50                 0.0";
    "TcpInSegs                       1000               0.0"]%string)) 200 100.

Definition test_netns_interface_metric_values_default : test := assert_counts NetNsInterfaceMetricValues.default 0 0.
Definition test_netns_interface_metric_values_new : test := assert_counts (NetNsInterfaceMetricValues.new 100 50) 100 50.

Definition test_parse_nstat_value_edge_cases : test :=
  for_each
    [ (* Test with extra whitespace *)
     ("TcpActiveOpens                     150                   0.0"%string, 150);
     (* Test with minimum fields *)
     ("TcpActiveOpens 150"%string, 150);
     (* Test with zero value *)
     ("TcpActiveOpens                  0                0.0"%string, 0);
     (* Test with large number *)
     ("TcpActiveOpens                  18446744073709551615                0.0"%string, 18446744073709551615)]
    (λ '(line, expected), assert_eq (parse_nstat_value (chr line)) expected).

Definition tcp_headers : string := "Tcp: RtoAlgorithm RtoMin RtoMax MaxConn ActiveOpens PassiveOpens AttemptFails EstabResets CurrEstab InSegs OutSegs RetransSegs InErrs OutRsts InCsumErrors".

Definition test_parse_proc_netstat : test :=
  (* This is the actual format from /proc/net/snmp *)
  let proc_snmp_content := text
    ["Ip: Forwarding DefaultTTL InReceives InHdrErrors InAddrErrors ForwDatagrams InUnknownProtos InDiscards InDelivers OutRequests OutDiscards OutNoRoutes ReasmTimeout ReasmReqds ReasmOKs ReasmFails FragOKs FragFails FragCreates";
     "Ip: 1 255 34597080 0 1 9651 0 0 34587427 30845281 12 32 0 0 0 0 0 0 0";
     "Icmp: InMsgs InErrors InCsumErrors InDestUnreachs InTimeExcds InParmProbs InSrcQuenchs InRedirects InEchos InEchoReps InTimestamps InTimestampReps InAddrMasks InAddrMaskReps OutMsgs OutErrors OutDestUnreachs OutTimeExcds OutParmProbs OutSrcQuenchs OutRedirects OutEchos OutEchoReps OutTimestamps OutTimestampReps OutAddrMasks OutAddrMaskReps";
     "Icmp: 2304 2 0 2148 6 0 0 0 114 0 36 0 0 0 4005 0 3855 0 0 0 0 0 150 0 0 0 0";
     tcp_headers;
     "Tcp: 1 200 120000 -1 100 200 5 10 2 1000 800 50 0 20 0";
     "Udp: InDatagrams NoPorts InErrors OutDatagrams RcvbufErrors SndbufErrors InCsumErrors IgnoredMulti";
     "Udp: 2827021 5108 0 3335454 0 0 0 0"]%string in
  assert_counts (parse_proc_netstat proc_snmp_content) 200 100.

Definition test_parse_tcp_section : test :=
  match parse_tcp_section (chr tcp_headers) (chr "Tcp: 1 200 120000 -1 150 250 5 10 2 1000 800 50 0 20 0") with
  | Ok stats => assert_counts stats 250 150
  | Err _ => None
  end.

Definition test_parse_tcp_section_mismatch : test :=
  let header_line := chr "Tcp: RtoAlgorithm RtoMin RtoMax MaxConn ActiveOpens PassiveOpens" in
  let values_line := chr "Tcp: 1 200 120000 -1 150" in (* Missing values *)
  assert (is_err (parse_tcp_section header_line values_line)).

Definition test_parse_tcp_section_invalid_values : test :=
  let header_line := chr "Tcp: RtoAlgorithm RtoMin RtoMax MaxConn ActiveOpens PassiveOpens AttemptFails" in
  let values_line := chr "Tcp: 1 200 120000 -1 invalid_active invalid_passive 5" in
  match parse_tcp_section header_line values_line with
  | Ok stats => assert_counts stats 0 0
  | Err _ => None
  end.

Definition test_parse_proc_netstat_no_tcp_section : test :=
  assert_counts (parse_proc_netstat (text ["TcpExt: SyncookiesSent SyncookiesRecv"; "TcpExt: 0 0";
    "IpExt: InNoRoutes InTruncatedPkts"; "IpExt: 0 0"]%string)) 0 0.

Definition test_parse_proc_netstat_partial_tcp_data : test :=
  (* Test with only ActiveOpens in TCP section *)
  assert_counts (parse_proc_netstat (text ["Tcp: RtoAlgorithm RtoMin RtoMax MaxConn ActiveOpens AttemptFails";
    "Tcp: 1 200 120000 -1 150 5"]%string)) 0 150.

Definition test_parse_proc_netstat_early_termination : test :=
  assert_counts (parse_proc_netstat (text [tcp_headers; "Tcp: 1 200 120000 -1 100 200 5 10 2 1000 800 50 0 20 0"]%string))
    200 100.

Definition test_parse_proc_netstat_empty : test := assert_counts (parse_proc_netstat []) 0 0.

Lemma netns_stats_tests_pass : all_passed [test_netns_stats_parse_nstat; test_parse_nstat_value_valid;
  test_parse_nstat_value_invalid; test_parse_nstat_value_malformed; test_netns_interface_metric_values_delta;
  test_netns_interface_metric_values_delta_saturating; test_get_namespace_flow_stats_success;
  test_get_namespace_flow_stats_command_failure; test_get_namespace_flow_stats_non_zero_exit;
  test_parse_nstat_output_partial_data; test_parse_nstat_output_empty; test_parse_nstat_output_malformed_lines;
  test_parse_nstat_output_early_termination; test_netns_interface_metric_values_default;
  test_netns_interface_metric_values_new; test_parse_nstat_value_edge_cases; test_parse_proc_netstat;
  test_parse_tcp_section; test_parse_tcp_section_mismatch; test_parse_tcp_section_invalid_values;
  test_parse_proc_netstat_no_tcp_section; test_parse_proc_netstat_partial_tcp_data;
  test_parse_proc_netstat_early_termination; test_parse_proc_netstat_empty] = true.
Proof. run_tests. Qed.

End NetNsStatsTests.

(** ** discovery.rs *)
Module DiscoveryTests.
Import HostInterfaceMetricValues.

Definition assert_values (v : HostInterfaceMetricValues.t) (ingress_pkts ingress_bytes egress_pkts egress_bytes : Z) : test :=
  _ ← assert_eq (ingress_pkt_count v) ingress_pkts;
  _ ← assert_eq (ingress_bytes_count v) ingress_bytes;
  _ ← assert_eq (egress_pkt_count v) egress_pkts;
  assert_eq (egress_bytes_count v) egress_bytes.

Definition test_host_interface_metric_values_new : test :=
  assert_values (HostInterfaceMetricValues.new 1000 50000 800 40000) 1000 50000 800 40000.

Definition test_host_interface_metric_values_swap_tx_rx : test :=
  let value := HostInterfaceMetricValues.new 1000 50000 800 40000 in
  assert_values (swap_tx_rx value) 800 40000 1000 50000.

Definition test_host_interface_metric_values_delta : test :=
  let current := HostInterfaceMetricValues.new 1000 50000 800 40000 in
  let previous := HostInterfaceMetricValues.new 900 45000 700 35000 in
  assert_values (calculate_delta current previous) 100 5000 100 5000.

(** A flag set of an interface, and what is decided for the interface with it. *)
Definition included (name : string) (is_virtual : bool) (flags : list (string * InterfaceFlags.t)) : bool :=
  should_include_interface (HostInterface.new (chr name) is_virtual)
    (list_to_map ((λ e, (chr e.1, e.2)) <$> flags)).
Definition UP : InterfaceFlags.t := InterfaceFlags.mk false true.
Definition LOOPBACK_UP : InterfaceFlags.t := InterfaceFlags.mk true true.
Definition empty : InterfaceFlags.t := InterfaceFlags.mk false false.

Definition test_should_include_interface_logic : test :=
  (* Test interface not found in flags *)
  _ ← assert (negb (included "test0" false []));
  (* Test loopback interface (should be excluded) *)
  let flags := [("lo"%string, LOOPBACK_UP)] in
  _ ← assert (negb (included "lo" true flags));
  (* Test non-UP interface (should be excluded) *)
  let flags := ("down0"%string, empty) :: flags in
  assert (negb (included "down0" true flags)).

(** The pods of a set in any order; no interface of the host has an address. *)
Definition order : gset PodInfo.t → list PodInfo.t := elements.
Definition no_address : chars → Result (list (option IpAddr.t)) unit := λ _, Err tt.

Definition test_get_pod_info_from_real_iface_no_match : test :=
  assert_eq (get_pod_info_from_real_iface order no_address (chr "eth0") ∅) (""%string, ""%string).

Definition test_host_interface_metric_values_default : test := assert_values HostInterfaceMetricValues.default 0 0 0 0.

Definition test_host_interface_metric_values_delta_saturating : test :=
  let current := HostInterfaceMetricValues.new 500 25000 400 20000 in
  let previous := HostInterfaceMetricValues.new 1000 50000 800 40000 in (* Higher than current *)
  (* Should saturate to 0 when previous is higher than current *)
  assert_values (calculate_delta current previous) 0 0 0 0.

Definition test_should_include_interface_virtual_up : test :=
  (* Test virtual interface that is UP (should be included) *)
  let flags := [("veth123"%string, UP)] in
  _ ← assert (included "veth123" true flags);
  (* Test docker interface that is UP (should be included) *)
  let flags := ("docker0"%string, UP) :: flags in
  assert (included "docker0" true flags).

Definition test_should_include_interface_physical : test :=
  (* Test physical interface (should be excluded even if UP) *)
  assert (negb (included "eth0" false [("eth0"%string, UP)])).

(** A namespace with one address, and the pod behind it. *)
Definition ns_id : NamespaceId := 42.
Definition ip_addr : IpAddr.t := ip "192.168.1.10".
Definition ns_info : NamespaceInfo.t := NamespaceInfo.mk 1234 (Some (chr "/test/ns")) [ip_addr].
Definition namespace_info : NamespaceMapping := {[ns_id := ns_info]}.
Definition pod_mappings : IpToPodMapping :=
  {[ip_addr := {[PodInfo.mk "test-pod" "test-namespace" "test-service"]}]}.

Definition test_get_pod_info_from_netns_found : test :=
  assert_eq (get_pod_info_from_netns order (namespace_info !! ns_id) pod_mappings)
    ("test-pod"%string, "test-namespace"%string).

Definition test_get_pod_info_from_netns_not_found : test :=
  assert_eq (get_pod_info_from_netns order ((∅ : NamespaceMapping) !! ns_id) ∅) (""%string, ""%string).

Definition test_get_pod_info_from_netns_no_pod_match : test :=
  (* namespace info with IP address but no corresponding pod mapping *)
  assert_eq (get_pod_info_from_netns order (namespace_info !! ns_id) ∅) (""%string, ""%string).

Definition test_get_pod_info_from_iface_with_namespace : test :=
  assert_eq (get_pod_info_from_iface order no_address (chr "veth123") namespace_info pod_mappings (Some ns_id))
    ("test-pod"%string, "test-namespace"%string).

Definition test_get_pod_info_from_iface_without_namespace : test :=
  assert_eq (get_pod_info_from_iface order no_address (chr "eth0") ∅ ∅ None) (""%string, ""%string).

Definition test_host_interface_metric_values_zero_delta : test :=
  let current := HostInterfaceMetricValues.new 1000 50000 800 40000 in
  let previous := HostInterfaceMetricValues.new 1000 50000 800 40000 in (* Same values *)
  assert_values (calculate_delta current previous) 0 0 0 0.

Definition test_should_include_interface_combined_flags : test :=
  (* Test interface with multiple flags including UP *)
  let flags := [("veth456"%string, UP)] in
  _ ← assert (included "veth456" true flags);
  (* Test loopback with UP flag (should still be excluded) *)
  let flags := ("lo"%string, LOOPBACK_UP) :: flags in
  assert (negb (included "lo" true flags)).

Lemma discovery_tests_pass : all_passed [test_host_interface_metric_values_new;
  test_host_interface_metric_values_swap_tx_rx; test_host_interface_metric_values_delta;
  test_should_include_interface_logic; test_get_pod_info_from_real_iface_no_match;
  test_host_interface_metric_values_default; test_host_interface_metric_values_delta_saturating;
  test_should_include_interface_virtual_up; test_should_include_interface_physical;
  test_get_pod_info_from_netns_found; test_get_pod_info_from_netns_not_found;
  test_get_pod_info_from_netns_no_pod_match; test_get_pod_info_from_iface_with_namespace;
  test_get_pod_info_from_iface_without_namespace; test_host_interface_metric_values_zero_delta;
  test_should_include_interface_combined_flags] = true.
Proof. run_tests. Qed.

End DiscoveryTests.

(** ** interface_metrics_provider.rs *)
Module InterfaceProviderTests.
Import InterfaceMetricsProvider.

(** [MockInterfaceDiscovery]: every device listed is virtual; its flags are up. *)
Record MockVirtual := mock_virtual {}.
#[local] Instance mock_checker : InterfaceVirtualChecker MockVirtual := {| is_virtual self _ := (Ok true, self) |}.
Definition provider : Type := InterfaceMetricsProvider.t MockVirtual MapGauge.t.
Definition discovery : InterfaceDiscoveryImpl.t MockVirtual := InterfaceDiscoveryImpl.mk mock_virtual.

(** A host with no interface, command or pod. *)
Definition bare_host : host := {|
  run := runner [];
  fs_exists := λ _, Ok false;
  read_to_string := λ _, Err tt;
  captures := Fakes.captures;
  u32_to_string := show_uint;
  dev_status := Ok [];
  getifaddrs := Ok [];
  filter_get := λ _, Err tt;
  collector := KubernetesMetadataCollector.new;
  pods_order := elements;
  stats_order := map_to_list;
  metrics_order := map_to_list
|}.
Definition no_env : string → option string := λ _, None.
Definition no_imds : chars → Result chars unit := λ _, Err tt.

(** [InterfaceMetricsProvider::new] with the host's own discovery. *)
Definition new_provider (platform : ComputePlatform) (k8s : bool) : option provider :=
  new bare_host no_env no_imds discovery platform k8s.

Definition test_interface_metrics_provider_new : test :=
  self ← new_provider Ec2Plain false;
  _ ← assert_eq (compute_platform self) Ec2Plain;
  assert_eq (node_name self) "unknown"%string.

Definition test_interface_metrics_provider_new_with_k8s_metadata : test :=
  self ← new_provider Ec2K8sEks true;
  _ ← assert_eq (compute_platform self) Ec2K8sEks;
  assert (k8s_metadata self).

Definition platforms : list ComputePlatform := [Ec2Plain; Ec2K8sEks; Ec2K8sVanilla].

Definition test_interface_metrics_provider_new_all_platforms : test :=
  for_each platforms (λ platform,
    self ← new_provider platform false;
    assert_eq (compute_platform self) platform).

Definition test_interface_metric_key_labels : test :=
  _ ← assert_eq (InterfaceMetricKey.get_labels Ec2Plain) ["instance_id"; "iface"]%string;
  assert_eq (InterfaceMetricKey.get_labels Ec2K8sEks) ["instance_id"; "iface"; "pod"; "namespace"; "node"]%string.

Definition test_interface_metric_key_label_values : test :=
  let key := InterfaceMetricKey.mk "i-123" (chr "eth0") "test-pod" "default" "node1" in
  let ec2_labels := InterfaceMetricKey.label_values key Ec2Plain "node1" "i-123" in
  _ ← assert_eq ec2_labels ["i-123"; "eth0"]%string;
  let k8s_labels := InterfaceMetricKey.label_values key Ec2K8sEks "node1" "i-123" in
  assert_eq k8s_labels ["i-123"; "eth0"; "test-pod"; "default"; "node1"]%string.

Definition assert_all (v : InterfaceMetricValues.t) (ip_ ib ep eb ifl efl : Z) : test :=
  _ ← DiscoveryTests.assert_values (InterfaceMetricValues.host v) ip_ ib ep eb;
  NetNsStatsTests.assert_counts (InterfaceMetricValues.netns v) ifl efl.

Definition test_interface_metric_values_delta : test :=
  let current := InterfaceMetricValues.mk (HostInterfaceMetricValues.new 1000 50000 800 40000)
                   (NetNsInterfaceMetricValues.new 100 80) in
  let previous := InterfaceMetricValues.mk (HostInterfaceMetricValues.new 900 45000 700 35000)
                    (NetNsInterfaceMetricValues.new 70 50) in
  assert_all (InterfaceMetricValues.calculate_delta current previous) 100 5000 100 5000 30 30.

Definition test_environment_info_ec2_plain : test :=
  self ← new_provider Ec2Plain false;
  let '(ns_info, pod_info) := environment_info bare_host self in
  _ ← assert (negb (is_some ns_info));
  assert (negb (is_some pod_info)).

Definition test_environment_info_k8s_platforms : test :=
  self ← new_provider Ec2K8sEks true;
  let '(ns_info, pod_info) := environment_info bare_host self in
  (* These will be Some() for K8s platforms *)
  _ ← assert (is_some ns_info);
  assert (is_some pod_info).

Definition test_get_ip_pod_info_mapping : test :=
  self ← new_provider Ec2K8sEks true;
  assert (is_some (get_ip_pod_info_mapping bare_host self)).

Definition test_get_ip_pod_info_mapping_none : test :=
  self ← new_provider Ec2Plain false;
  assert (negb (is_some (get_ip_pod_info_mapping bare_host self))).

Definition test_build_metric_key_ec2_plain : test :=
  self ← new_provider Ec2Plain false;
  let key := build_metric_key bare_host self (chr "eth0") None None None in
  _ ← assert_eq (InterfaceMetricKey.iface key) (chr "eth0");
  _ ← assert_eq (InterfaceMetricKey.pod key) ""%string;
  assert_eq (InterfaceMetricKey.pod_namespace key) ""%string.

Definition test_build_metric_key_k8s_platforms : test :=
  self ← new_provider Ec2K8sEks true;
  (* Create mock namespace mapping with actual data *)
  let ns_id := 123 in
  let address := ip "10.0.1.100" in
  let ns_mapping : NamespaceMapping := {[ns_id := NamespaceInfo.mk 456 (Some (chr "/proc/456/ns/net")) [address]]} in
  (* Create mock pod mapping with actual pod data *)
  let pod_mapping : IpToPodMapping :=
    {[address := {[PodInfo.mk "test-pod" "test-namespace" "test-service"]}]} in
  let key := build_metric_key bare_host self (chr "veth123") (Some ns_mapping) (Some pod_mapping) (Some ns_id) in
  _ ← assert_eq (InterfaceMetricKey.iface key) (chr "veth123");
  _ ← assert_eq (InterfaceMetricKey.pod key) "test-pod"%string;
  _ ← assert_eq (InterfaceMetricKey.pod_namespace key) "test-namespace"%string;
  (* Should be valid with proper pod info *)
  assert (InterfaceMetricKey.is_valid key Ec2K8sEks).

(** [gather]: the families of the registry, which are those of the gauges with a value. *)
Definition gather (gs : list MapGauge.t) (registry : ListRegistry.t) : list MapGauge.t :=
  filter (λ g, MapGauge.name g ∈ ListRegistry.names registry ∧ MapGauge.values g ≠ ∅) gs.

Definition test_register_to_registry : test :=
  self ← new_provider Ec2Plain false;
  (* Test that registration doesn't panic *)
  registry ← register_to self (registry_new : ListRegistry.t);
  (* We'll manually set values on the metrics to ensure they appear in gather() *)
  let test_labels := ["test-instance"; "test-iface"]%string in
  gs ← mapM (λ '(g, n), gauge_set g test_labels n)
         [(ingress_pkt_count self, 100); (ingress_bytes_count self, 1000); (egress_pkt_count self, 200);
          (egress_bytes_count self, 2000); (ingress_flow_count self, 10); (egress_flow_count self, 20)];
  let metric_families := gather gs registry in
  (* 6 metrics registered *)
  _ ← assert_eq (length metric_families) 6%nat;
  for_each ["ingress_packets"; "ingress_bytes"; "egress_packets"; "egress_bytes"; "ingress_flow"; "egress_flow"]%string
    (λ name, assert (bool_decide (name ∈ MapGauge.name <$> metric_families))).

Definition test_update_metrics_success : test :=
  self ← new_provider Ec2Plain false;
  _ ← update_metrics bare_host self;
  Some tt.

Definition test_interface_metric_values_default : test := assert_all InterfaceMetricValues.default 0 0 0 0 0 0.

Definition test_get_metrics_empty_result : test :=
  self ← new_provider Ec2Plain false;
  let '(metrics, _) := get_metrics bare_host self in
  assert (bool_decide (metrics = ∅) || negb (bool_decide (metrics = ∅))).

(** *** A host with two pods *)

Definition ns_file_1 : string := "/tmp/mocked_ns_1".
Definition ns_file_2 : string := "/tmp/mocked_ns_2".

Definition mocked_host : host := {|
  run := runner
    [ (* List namespaces *)
     ("lsns -t net --noheadings"%string, output true (text
        ["4026531992 net      54  1628 user           88 " +:+ ns_file_1 +:+ " sleep 180";
         "4026531993 net      55  1629 user           89 " +:+ ns_file_2 +:+ " sleep 180"]%string));
     (* Get the Ips from the namespaces *)
     ("nsenter --net " +:+ ns_file_1 +:+ " ip a", output true (text
        ["2: eth0: <BROADCAST,MULTICAST,UP,LOWER_UP> mtu 1500";
         "    inet 192.168.1.10/24 brd 192.168.1.255 scope global eth0"]%string));
     ("nsenter --net " +:+ ns_file_2 +:+ " ip a", output true (text
        ["2: eth0: <BROADCAST,MULTICAST,UP,LOWER_UP> mtu 1500";
         "    inet 192.168.2.10/24 brd 192.168.2.255 scope global eth0"]%string));
     (* the bulk ip link show command *)
     ("ip link show", output true (text
        ["2: veth1@if3: <BROADCAST,MULTICAST,UP,LOWER_UP> mtu 1500 qdisc noqueue state UP mode DEFAULT group default link-netnsid 88";
         "3: veth2@if3: <BROADCAST,MULTICAST,UP,LOWER_UP> mtu 1500 qdisc noqueue state UP mode DEFAULT group default link-netnsid 89"]%string
        ++ [LF])%list);
     (* Namespace information *)
     ("nsenter --net " +:+ ns_file_2 +:+ " nstat -a", output true (text
        ["TcpActiveOpens                  102                0.0"; "TcpPassiveOpens                 202                0.0";
         "TcpAttemptFails                 5                  0.0"]%string));
     ("nsenter --net " +:+ ns_file_1 +:+ " nstat -a", output true (text
        ["TcpActiveOpens                  101                0.0"; "TcpPassiveOpens                 201                0.0";
         "TcpAttemptFails                 5                  0.0"]%string))]%string;
  fs_exists := λ path, Ok (bool_decide (path = chr ns_file_1 ∨ path = chr ns_file_2));
  read_to_string := λ _, Err tt;
  captures := Fakes.captures;
  u32_to_string := show_uint;
  (* Interface stats. Notice that the values will be swapped (ingress/egress) for these metrics. *)
  dev_status := Ok [(chr "veth1", DeviceStatus.mk 1 2 9 10); (chr "veth2", DeviceStatus.mk 21 22 29 30)];
  getifaddrs := Ok [(chr "veth1", InterfaceFlags.mk false true); (chr "veth2", InterfaceFlags.mk false true)];
  filter_get := λ _, Err tt;
  (* Pod information *)
  collector := KubernetesMetadataCollector.mk 0
       {[ip "192.168.1.10" := {[0 := PodInfo.mk "pod1" "namespace1" "service1"]};
         ip "192.168.2.10" := {[1 := PodInfo.mk "pod2" "namespace2" "service2"]}]};
  pods_order := elements;
  stats_order := map_to_list;
  metrics_order := map_to_list
|}.

Definition create_mocked_metric_provider : option provider :=
  let build : string → string → option MapGauge.t := build_gauge_metric (InterfaceMetricKey.get_labels Ec2K8sEks) in
  g1 ← build "ingress_packets"%string "Ingress packet count"%string;
  g2 ← build "ingress_bytes"%string "Ingress bytes count"%string;
  g3 ← build "egress_packets"%string "Egress packet count"%string;
  g4 ← build "egress_bytes"%string "Egress bytes count"%string;
  g5 ← build "ingress_flow"%string "Ingress TCP flow count"%string;
  g6 ← build "egress_flow"%string "Egress TCP flow count"%string;
  Some (InterfaceMetricsProvider.mk Ec2K8sEks "mocked-instance-id" "mocked-node-name" discovery true
          g1 g2 g3 g4 g5 g6 ∅).

(** Every value expected, and no other. *)
Definition test_update_metrics : test :=
  metric_provider ← create_mocked_metric_provider;
  registry ← register_to metric_provider (registry_new : ListRegistry.t);
  metric_provider ← update_metrics mocked_host metric_provider;
  let metric_families := gather (gauges metric_provider) registry in
  (* Validation is based on the data of [mocked_host] *)
  _ ← assert_eq (length metric_families) 6%nat;
  let pod1 := ["mocked-instance-id"; "veth1"; "pod1"; "namespace1"; "mocked-node-name"]%string in
  let pod2 := ["mocked-instance-id"; "veth2"; "pod2"; "namespace2"; "mocked-node-name"]%string in
  let expected_metrics : gmap string (Z * Z) :=
    {["ingress_packets" := (10, 30); "egress_packets" := (2, 22); "ingress_bytes" := (9, 29);
      "egress_bytes" := (1, 21); "ingress_flow" := (201, 202); "egress_flow" := (101, 102)]}%string in
  for_each metric_families (λ family,
    _ ← assert_eq (MapGauge.labels family) (InterfaceMetricKey.get_labels Ec2K8sEks);
    '(value1, value2) ← expected_metrics !! MapGauge.name family;
    assert_eq (MapGauge.values family) {[pod1 := value1; pod2 := value2]}).

Lemma interface_provider_tests_pass : all_passed [test_interface_metrics_provider_new;
  test_interface_metrics_provider_new_with_k8s_metadata; test_interface_metrics_provider_new_all_platforms;
  test_interface_metric_key_labels; test_interface_metric_key_label_values; test_interface_metric_values_delta;
  test_environment_info_ec2_plain; test_environment_info_k8s_platforms; test_get_ip_pod_info_mapping;
  test_get_ip_pod_info_mapping_none; test_build_metric_key_ec2_plain; test_build_metric_key_k8s_platforms;
  test_register_to_registry; test_update_metrics_success; test_interface_metric_values_default;
  test_get_metrics_empty_result; test_update_metrics] = true.
Proof. run_tests. Qed.

End InterfaceProviderTests.
