(* ===== verification/ServerTests.v ===== *)
(** * ServerTests: the tests of the system metrics and of the metrics server

    Translates the tests of system_metrics_provider.rs, provider.rs and server.rs of
    nfm-controller/src/open_metrics and of metadata/eni.rs.  A request goes to the handler of the
    server instead of through a socket; the tests that need an EC2 instance are left out. *)

From stdpp Require Import base numbers gmap list strings.
From Stdlib Require Import Ascii.
From S2P Require Import Prelude Network ReportData Text Metadata HostStats HostInspection Kubernetes NetNamespaces.
From S2P Require Import OpenMetrics MetricsServer Testing HostTests MetricsTests.
Import RuntimeEnvironmentMetadataProvider Fakes.
Open Scope Z_scope.

(** ** eni.rs *)
Module EniTests.

(** [MockInterfaceVirtualChecker]. *)
Definition is_virtual (virtual_interfaces : list string) (iface_name : chars) : Result bool unit :=
  Ok (bool_decide (iface_name ∈ chr <$> virtual_interfaces)).

Definition provider (network : list NetworkInterfaceInfo.t) : EniMetadataProvider.t :=
  EniMetadataProvider.mk (chr "the-instance-id") (chr "the-instance-type") network.

Definition test_instance_id : test :=
  let imds_get : chars → Result chars unit := λ _, Err tt in
  let ec2_provider := EniMetadataProvider.refresh imds_get (EniMetadataProvider.new imds_get) in
  let metadata := EniMetadataProvider.get_metadata ec2_provider in
  assert (EnvMetadata.contains_key metadata "instance-id").

(** [assert_eq!] of a metadata value with a string. *)
Definition assert_string (value : option ReportValue.t) (expected : string) : test :=
  match value with Some (ReportValue.String s) => assert_eq s expected | _ => None end.

Definition test_network_information : test :=
  let ec2_provider := provider [NetworkInterfaceInfo.mk (chr "the-mac") (chr "the-interface-id")] in
  let metadata := EniMetadataProvider.get_metadata ec2_provider in
  _ ← assert_eq (length metadata) 2%nat;
  _ ← assert_string (EnvMetadata.get metadata "instance-id") "the-instance-id";
  assert_string (EnvMetadata.get metadata "instance-type") "the-instance-type".

Definition ip_br_link : chars := text
  [""; "                    lo               UNKNOWN        11:00:00:00:00:00 <LOOPBACK,UP,LOWER_UP> ";
   "                    eth1             UP             22:00:00:00:00:00 <BROADCAST,MULTICAST,UP,LOWER_UP> ";
   "                    docker0          DOWN           33:00:00:00:00:00 <NO-CARRIER,BROADCAST,MULTICAST,UP> ";
   "                    eth2             UP             44:00:00:00:00:00 <BROADCAST,MULTICAST,UP,LOWER_UP> ";
   "                "]%string.

Definition net_infos : list NetworkInterfaceInfo.t :=
  [NetworkInterfaceInfo.mk (chr "22:00:00:00:00:00") (chr "ifc-id1");
   NetworkInterfaceInfo.mk (chr "44:00:00:00:00:00") (chr "ifc-id2")].

Definition test_get_network_devices : test :=
  let actual_net_devs :=
    EniMetadataProvider.get_network_devices (Ok ip_br_link) (is_virtual ["docker0"; "lo"]%string) (provider net_infos) in
  assert_eq actual_net_devs
    [NetworkDevice.mk (chr "eth1") (chr "ifc-id1"); NetworkDevice.mk (chr "eth2") (chr "ifc-id2")].

Lemma eni_tests_pass : all_passed [test_instance_id; test_network_information; test_get_network_devices] = true.
Proof. run_tests. Qed.

End EniTests.

(** ** system_metrics_provider.rs *)
Module SystemProviderTests.
Import SystemMetricsProvider InterfaceProviderTests.

Definition provider : Type := SystemMetricsProvider.t MapGauge.t.

(** A host with no interface. *)
Definition bare_host : host := SystemMetricsProvider.mk_host (Err tt) (λ _, Ok false) (λ _, Err tt) map_to_list.

Definition create_test_provider (compute_platform : ComputePlatform) : option provider :=
  new no_env no_imds compute_platform.

Definition test_system_metrics_provider_new : test :=
  self ← create_test_provider Ec2Plain;
  (* Verify the provider is created successfully *)
  _ ← assert_eq (compute_platform self) Ec2Plain;
  (* Default when K8s metadata is not available *)
  assert_eq (node_name self) "unknown"%string.

Definition k8s_platforms : list ComputePlatform := [Ec2K8sEks; Ec2K8sVanilla].

Definition test_system_metrics_provider_new_k8s_platforms : test :=
  for_each k8s_platforms (λ platform,
    self ← create_test_provider platform;
    assert_eq (compute_platform self) platform).

Definition test_system_metric_get_labels_ec2_plain : test :=
  assert_eq (SystemMetric.get_labels Ec2Plain) ["instance_id"; "eni"]%string.

Definition test_system_metric_get_labels_k8s_platforms : test :=
  for_each k8s_platforms (λ platform,
    assert_eq (SystemMetric.get_labels platform) ["instance_id"; "eni"; "node"]%string).

Definition metric : SystemMetric.t := SystemMetric.mk (chr "eni-12345") 100 200 300 400 500.

Definition test_system_metric_label_values_ec2_plain : test :=
  assert_eq (SystemMetric.label_values metric Ec2Plain "test-node" "i-1234567890abcdef0")
    ["i-1234567890abcdef0"; "eni-12345"]%string.

Definition test_system_metric_label_values_k8s_platforms : test :=
  for_each k8s_platforms (λ platform,
    assert_eq (SystemMetric.label_values metric platform "test-node" "i-1234567890abcdef0")
      ["i-1234567890abcdef0"; "eni-12345"; "test-node"]%string).

(** *** A host with two interfaces *)

(** [eth1] and [eth2] are physical, and [ethtool] answers for both. *)
Definition mocked_host : host := SystemMetricsProvider.mk_host (Ok EniTests.ip_br_link)
  (EniTests.is_virtual ["lo"; "docker0"]%string)
  (HostStatsTests.fake_runner [("eth1"%string, Ok (HostStatsTests.ethtool_template 5 6 9 7 8 10));
                               ("eth2"%string, Ok (HostStatsTests.ethtool_template 5 6 9 7 8 10))])
  map_to_list.

Definition create_mocked_provider_for_platform (platform : ComputePlatform) : option provider :=
  let network_interface_stats : HostStatsProviderImpl.Table :=
    <[NetworkDevice.mk (chr "eth2") (chr "ifc-id2") := NetworkInterfaceStats.default]>
      (<[NetworkDevice.mk (chr "eth1") (chr "ifc-id1") := NetworkInterfaceStats.default]> ∅) in
  (* Set node name based on platform type *)
  let node_name :=
    match platform with Ec2Plain => "node-name" | Ec2K8sEks | Ec2K8sVanilla => "k8s-node-name" end%string in
  let build name : option MapGauge.t := build_gauge_metric (SystemMetric.get_labels platform) name "description" in
  g1 ← build "bw_in_allowance_exceeded"%string;
  g2 ← build "bw_out_allowance_exceeded"%string;
  g3 ← build "pps_allowance_exceeded"%string;
  g4 ← build "conntrack_allowance_exceeded"%string;
  g5 ← build "linklocal_allowance_exceeded"%string;
  Some (SystemMetricsProvider.mk platform
    (EniMetadataProvider.mk (chr "inst-id1") (chr "the-instance-type") EniTests.net_infos)
    network_interface_stats node_name g1 g2 g3 g4 g5).

Definition create_mocked_provider : option provider := create_mocked_provider_for_platform Ec2Plain.

Definition metric_names : list string :=
  ["bw_in_allowance_exceeded"; "bw_out_allowance_exceeded"; "pps_allowance_exceeded"; "conntrack_allowance_exceeded";
   "linklocal_allowance_exceeded"].

(** The families gathered after an update. *)
Definition gather_updated (self : provider) : option (list MapGauge.t) :=
  registry ← register_to self (registry_new : ListRegistry.t);
  self ← update_metrics mocked_host self;
  Some (gather (gauges self) registry).

Definition assert_five_families (self : provider) : test :=
  metric_families ← gather_updated self;
  _ ← assert_eq (length metric_families) 5%nat;
  for_each metric_names (λ name, assert (bool_decide (name ∈ MapGauge.name <$> metric_families))).

Definition test_register_to_registry : test :=
  self ← create_mocked_provider;
  assert_five_families self.

Definition test_update_metrics_success : test :=
  self ← create_test_provider Ec2Plain;
  _ ← update_metrics bare_host self;
  Some tt.

Definition test_multiple_compute_platforms : test :=
  for_each platforms (λ platform,
    self ← create_mocked_provider_for_platform platform;
    _ ← assert_eq (compute_platform self) platform;
    assert_five_families self).

Definition test_gauge_metrics_have_correct_labels : test :=
  for_each platforms (λ platform,
    self ← create_mocked_provider_for_platform platform;
    metric_families ← gather_updated self;
    let expected_labels := SystemMetric.get_labels platform in
    _ ← assert_eq (length metric_families) 5%nat;
    for_each metric_families (λ family,
      _ ← assert_ne (MapGauge.values family) ∅;
      assert_eq (MapGauge.labels family) expected_labels)).

Definition test_get_metrics : test :=
  self ← create_mocked_provider;
  _ ← register_to self (registry_new : ListRegistry.t);
  '(metrics, _) ← get_metrics mocked_host self;
  (* 2 interfaces *)
  assert_eq (length metrics) 2%nat.

Lemma system_provider_tests_pass : all_passed [test_system_metrics_provider_new;
  test_system_metrics_provider_new_k8s_platforms; test_system_metric_get_labels_ec2_plain;
  test_system_metric_get_labels_k8s_platforms; test_system_metric_label_values_ec2_plain;
  test_system_metric_label_values_k8s_platforms; test_register_to_registry; test_update_metrics_success;
  test_multiple_compute_platforms; test_gauge_metrics_have_correct_labels; test_get_metrics] = true.
Proof. run_tests. Qed.

End SystemProviderTests.

(** ** provider.rs and server.rs *)
Module MetricsServerTests.
Import InterfaceProviderTests OpenMetricsServer.

#[local] Existing Instance mock_checker.

Definition providers : Type := Metrics.providers (C:=MockVirtual) (G:=MapGauge.t).
Definition bare : Metrics.host := Metrics.mk_host SystemProviderTests.bare_host InterfaceProviderTests.bare_host.

Definition get_open_metric_providers (platform : ComputePlatform) (k8s : bool) : option providers :=
  Metrics.get_open_metric_providers bare no_env no_imds discovery platform k8s.

Definition test_get_open_metric_providers_all_platforms : test :=
  for_each platforms (λ platform, _ ← get_open_metric_providers platform false; Some tt).

Definition test_get_open_metric_providers_with_k8s_collector : test :=
  _ ← get_open_metric_providers Ec2K8sEks true; Some tt.

Definition test_providers_implement_trait : test :=
  ps ← get_open_metric_providers Ec2Plain false;
  registry ← SystemMetricsProvider.register_to (Metrics.system ps) (registry_new : ListRegistry.t);
  _ ← InterfaceMetricsProvider.register_to (Metrics.interface ps) registry;
  (* Test update_metrics doesn't panic *)
  _ ← SystemMetricsProvider.update_metrics (Metrics.system_host bare) (Metrics.system ps);
  _ ← InterfaceMetricsProvider.update_metrics (Metrics.interface_host bare) (Metrics.interface ps);
  Some tt.

(** *** The server *)

(** The names of the gauges stand for their text. *)
Definition encode (_ : ListRegistry.t) (gs : list MapGauge.t) : string := String.concat " " (MapGauge.name <$> gs).

Definition idle : world := mk_world ∅ ∅ 0 0.
Definition started (addr : string) (port : Z) : option (OpenMetricsServer.t * world) :=
  config ← OpenMetricsServerConfig.from (chr addr) port false;
  let '(server, w) := with_config idle config in
  match start server w with (Ok _, server, w) => Some (server, w) | _ => None end.

(** One connection with one request. *)
Definition make_request (path : string) : option (Metrics.StatusCode * string) :=
  responses ← Metrics.run_server encode true bare no_env no_imds discovery false
                [Metrics.Connection [(bare, path)]; Metrics.Cancelled];
  match responses with
  | Ok [response] => Some (Metrics.status response, Metrics.body response)
  | _ => None
  end.

#[local] Instance status_dec : EqDecision Metrics.StatusCode.
Proof. solve_decision. Defined.
#[local] Instance error_dec : EqDecision (Result unit Error).
Proof. assert (EqDecision Error) by solve_decision. solve_decision. Defined.

Definition test_server_startup : test :=
  '(server, w) ← started "127.0.0.1" 9876;
  assert (is_running server w).

Definition test_metrics_endpoint : test :=
  '(status, _) ← make_request "/metrics";
  assert_eq status Metrics.OK.

Definition test_root_endpoint : test :=
  '(status, body) ← make_request "/";
  _ ← assert_eq status Metrics.OK;
  assert (starts_with (chr "Network Flow Monitor Agent Metrics Server") (chr body)).

Definition test_not_found : test :=
  '(status, body) ← make_request "/nonexistent";
  _ ← assert_eq status Metrics.NOT_FOUND;
  assert_eq body "Not Found"%string.

Definition test_default : test :=
  let expected_addr := (ip "127.0.0.1", 80) in
  let '(default_server, _) := with_config idle OpenMetricsServerConfig.default in
  _ ← assert_eq (OpenMetricsServerConfig.addr (config default_server)) expected_addr;
  assert_eq (OpenMetricsServerConfig.addr OpenMetricsServerConfig.default) expected_addr.

Definition test_stop : test :=
  '(server, w) ← started "127.0.0.1" 9999;
  '(result, server, w) ← stop server w;
  _ ← assert (is_ok result);
  assert (negb (is_running server w)).

Definition test_server_config : test :=
  config ← OpenMetricsServerConfig.from (chr "1.1.1.1") 99 false;
  assert_eq (OpenMetricsServerConfig.addr config) (ip "1.1.1.1", 99).

Definition test_start_already_running : test :=
  '(server, w) ← started "127.0.0.1" 9998;
  (* Try to start again - should fail *)
  let '(result, server, w) := start server w in
  _ ← assert_eq result (Err AlreadyExists);
  '(result, _, _) ← stop server w;
  assert (is_ok result).

Definition test_stop_not_running : test :=
  let '(server, w) := with_config idle OpenMetricsServerConfig.default in
  (* Try to stop a server that's not running *)
  '(result, _, _) ← stop server w;
  assert_eq result (Err NotFound).

Definition test_drop_running_server : test :=
  '(server, w) ← started "127.0.0.1" 9996;
  _ ← assert (is_running server w);
  (* Drop should stop the server *)
  w ← drop server w;
  assert_eq (live w) ∅.

Definition test_server_with_custom_config : test :=
  '(server, w) ← started "127.0.0.1" 9995;
  _ ← assert (is_running server w);
  '(result, server, w) ← stop server w;
  _ ← assert (is_ok result);
  assert (negb (is_running server w)).

Lemma metrics_server_tests_pass : all_passed [test_get_open_metric_providers_all_platforms;
  test_get_open_metric_providers_with_k8s_collector; test_providers_implement_trait; test_server_startup;
  test_metrics_endpoint; test_root_endpoint; test_not_found; test_default; test_stop; test_server_config;
  test_start_already_running; test_stop_not_running; test_drop_running_server; test_server_with_custom_config] = true.
Proof. run_tests. Qed.

End MetricsServerTests.

(** ** host.rs and lib.rs *)
From S2P Require Import Startup StartupProperties.
Module StartupTests.

(** The cached checker over a host whose only device link is that of [eth0]. *)
Definition device_exists (path : chars) : bool := bool_decide (path = chr "/sys/class/net/eth0/device").
Definition check (checker : CachedInterfaceVirtualChecker.t RecencyList.t) (name : string) :
    Result bool unit * CachedInterfaceVirtualChecker.t RecencyList.t :=
  CachedInterfaceVirtualChecker.is_virtual_cached device_exists checker (chr name).

Definition test_cached_interface_virtual_checker_basic : test :=
  let checker := CachedInterfaceVirtualChecker.new in
  let interface_name := "lo"%string in
  let '(result1, checker) := check checker interface_name in
  let '(result2, _) := check checker interface_name in
  (* Both calls should return same result *)
  match result1, result2 with
  | Ok val1, Ok val2 => assert_eq val1 val2
  | _, _ => None
  end.

(** Through the class, as through the trait object. *)
Definition test_trait_object : test :=
  let '(result, _) := HostInspection.is_virtual
    (InterfaceVirtualChecker := CachedInterfaceVirtualChecker.checker device_exists)
    (CachedInterfaceVirtualChecker.new (L:=RecencyList.t)) (chr "lo") in
  assert (is_ok result).

(** The capability is set first, and gone from both sets afterwards. *)
Definition test_capability_dropping : test :=
  let has_cap (s : CapSet) (w : gset Z * gset Z) :=
    match read_caps s w with Ok caps => bool_decide (CAP_SYS_ADMIN ∈ caps) | Err _ => false end in
  let '(_, w) := set_caps Effective {[CAP_SYS_ADMIN; CAP_BPF]} ((∅, ∅) : gset Z * gset Z) in
  let '(_, w) := set_caps Permitted {[CAP_SYS_ADMIN; CAP_BPF]} w in
  _ ← assert (has_cap Effective w);
  _ ← assert (has_cap Permitted w);
  (* Use our actual capability dropping function *)
  let '(result, w) := drop_capabilities w in
  _ ← assert (is_ok result);
  (* Verify that the capability was dropped from both sets *)
  _ ← assert (negb (has_cap Effective w));
  assert (negb (has_cap Permitted w)).

Lemma startup_tests_pass : all_passed [test_cached_interface_virtual_checker_basic; test_trait_object;
  test_capability_dropping] = true.
Proof. run_tests. Qed.

End StartupTests.
