(* ===== verification/ReportTests.v ===== *)
(** * ReportTests: the tests of the report, its export and the publishers

    Translates the tests of reports/report.rs, report_otlp.rs and publisher.rs, and the request of
    publisher_endpoint.rs, of nfm-controller/src.  The expected values of the first two are the files
    of test-data, written out here.  The tests of compression are in CompressionTests.v; those
    of proxy addresses exercise the crates only and are left out. *)

From stdpp Require Import base numbers gmap list strings.
From Stdlib Require Import QArith_base.
From S2P Require Import Prelude Network ReportData NetworkEvent Text Metadata HostStats Timer Report Publisher.
From S2P Require Import Testing HostTests FlowTests.
Import RuntimeEnvironmentMetadataProvider.
Open Scope Z_scope.

(** ** What the tests share *)
Module ReportFixture.

#[global] Instance Q_dec : EqDecision Q.
Proof. solve_decision. Defined.
#[global] Instance usage_dec : EqDecision UsageStats.t.
Proof. solve_decision. Defined.
#[global] Instance value_dec : EqDecision ReportValue.t.
Proof. solve_decision. Defined.

Definition server_context : SockContext.t := SockContext.default
  <| SockContext.is_client := false |> <| SockContext.address_family := AF_INET |>
  <| SockContext.local_ipv4 := 16909060 |> <| SockContext.remote_ipv4 := 84281096 |>
  <| SockContext.local_ipv6 := replicate 16 0 |> <| SockContext.remote_ipv6 := replicate 16 0 |>
  <| SockContext.local_port := 443 |> <| SockContext.remote_port := 28015 |>.

Definition stats : NetworkStats.t := {|
  NetworkStats.sockets_connecting := 4;
  NetworkStats.sockets_established := 3;
  NetworkStats.sockets_closing := 2;
  NetworkStats.sockets_closed := 1;
  NetworkStats.sockets_completed := 44;
  NetworkStats.severed_connect := 2;
  NetworkStats.severed_establish := 1;
  NetworkStats.connect_attempts := 14;
  NetworkStats.bytes_received := 43;
  NetworkStats.bytes_delivered := 47;
  NetworkStats.segments_received := 53;
  NetworkStats.segments_delivered := 59;
  NetworkStats.retrans_syn := 20;
  NetworkStats.retrans_est := 19;
  NetworkStats.retrans_close := 18;
  NetworkStats.rtos_syn := 17;
  NetworkStats.rtos_est := 16;
  NetworkStats.rtos_close := 15;
  NetworkStats.connect_us := {| MetricHistogram.count := 2; MetricHistogram.min := 12; MetricHistogram.max := 13; MetricHistogram.sum := 25 |};
  NetworkStats.rtt_us := {| MetricHistogram.count := 3; MetricHistogram.min := 14; MetricHistogram.max := 15; MetricHistogram.sum := 44 |};
  NetworkStats.rtt_smoothed_us := {| MetricHistogram.count := 4; MetricHistogram.min := 16; MetricHistogram.max := 17; MetricHistogram.sum := 66 |}
|}.

Definition iface_stats (interface_id : string) : GroupedInterfaceStats.t :=
  GroupedInterfaceStats.mk (chr interface_id) {|
    NetworkInterfaceStats.bw_in_allowance_exceeded := 211;
    NetworkInterfaceStats.bw_out_allowance_exceeded := 223;
    NetworkInterfaceStats.conntrack_allowance_exceeded := 227;
    NetworkInterfaceStats.linklocal_allowance_exceeded := 229;
    NetworkInterfaceStats.pps_allowance_exceeded := 233;
    NetworkInterfaceStats.conntrack_allowance_available := 239
  |}.

Definition flow_of (context : SockContext.t) : option FlowProperties.t :=
  match FlowProperties.try_from context with Ok flow => Some flow | Err _ => None end.

(** A report of a build without an environment. *)
Definition new_report : NfmReport.t := NfmReport.new (ServiceMetadata.new "" "" "") (λ _, None).

End ReportFixture.
Import ReportFixture.

(** ** report.rs *)
Module ReportTests.

#[local] Instance report_dec : EqDecision NfmReport.t.
Proof.
  assert (EqDecision NetworkInterfaceStats.t) by solve_decision.
  assert (EqDecision GroupedInterfaceStats.t) by solve_decision.
  assert (EqDecision HostStats.t) by solve_decision.
  assert (EqDecision CountersOverall.t) by solve_decision.
  assert (EqDecision ProcessStats.t) by solve_decision.
  assert (EqDecision EnvMetadata.t) by (unfold EnvMetadata.t; apply _).
  assert (EqDecision ServiceMetadata.t) by solve_decision.
  assert (EqDecision K8sMetadata.t) by solve_decision.
  solve_decision.
Defined.

(** report1.json, and report2.json with the ports of a client. *)
Definition expected (local_port remote_port : Z) : NfmReport.t := {|
  NfmReport.network_stats := [AggregateResults.mk
    (FlowProperties.mk TCP (ip "1.2.3.4") (ip "5.6.7.8") local_port remote_port None) stats];
  NfmReport.process_stats := ProcessStats.mk
    (CountersOverall.mk EventCounters.default ProcessCounters.default)
    [UsageStats.mk (4 # 100) 512 (6 # 100) 49 12800];
  NfmReport.host_stats := HostStats.mk [iface_stats "iface-id-1"];
  NfmReport.env_metadata := [("instance_id"%string, ReportValue.String "instance-id")];
  NfmReport.service_metadata := ServiceMetadata.mk (ReportValue.String "test-service") (ReportValue.String "1.0")
    (ReportValue.String "build-time");
  NfmReport.failed_reports := 0;
  NfmReport.report_version := "1.1";
  NfmReport.k8s_metadata := K8sMetadata.mk None None
|}.

Definition test_build_report : test :=
  let report := new_report in
  let process_stats := ProcessStats.default
    <| ProcessStats.usage := [UsageStats.mk (4 # 100) 512 (6 # 100) 49 12800] |> in
  let host_stats := HostStats.mk [iface_stats "iface-id-1"] in
  (* From the perspective of a server, the local port is the service port. *)
  flow ← flow_of server_context;
  let agg_results := AggregateResults.mk flow stats in
  let env_metadata := EnvMetadata.insert EnvMetadata.new "instance_id" (ReportValue.String "instance-id") in
  let report := NfmReport.set_network_stats report [agg_results] in
  let report := NfmReport.set_process_stats report process_stats in
  let report := NfmReport.set_host_stats report host_stats in
  let report := NfmReport.set_env_metadata report env_metadata in
  let report := NfmReport.set_service_metadata report (ServiceMetadata.new "test-service" "1.0" "build-time") in
  _ ← assert_eq report (expected 443 0);
  (* From the perspective of a client, the remote port is the service port. *)
  flow ← flow_of (server_context <| SockContext.is_client := true |>);
  let report := NfmReport.set_network_stats report [AggregateResults.mk flow stats] in
  assert_eq report (expected 0 28015).

Lemma report_tests_pass : all_passed [test_build_report] = true.
Proof. run_tests. Qed.

End ReportTests.

(** ** report_otlp.rs *)
Module OtlpTests.

#[local] Instance metric_dec : EqDecision Metric.
Proof.
  assert (EqDecision HistogramDataPoint) by solve_decision.
  assert (EqDecision NumberValue) by solve_decision.
  assert (EqDecision NumberDataPoint) by solve_decision.
  assert (EqDecision Data) by solve_decision.
  solve_decision.
Defined.
#[local] Instance key_value_dec : EqDecision KeyValue.
Proof. assert (EqDecision Value) by solve_decision. solve_decision. Defined.
#[global] Instance resource_metrics_dec : EqDecision ResourceMetrics.
Proof. assert (EqDecision ScopeMetrics) by solve_decision. solve_decision. Defined.

Definition timestamp_us : Z := 1718716821050000.

(** *** The files of test-data *)

Definition level (name : string) (n : Z) : Metric :=
  mk_metric name (Histogram [mk_hdp timestamp_us timestamp_us 1 (Some (inject_Z n)) None None]).
Definition histogram (name : string) (count min max sum : Z) : Metric :=
  mk_metric name (Histogram [mk_hdp timestamp_us timestamp_us count (Some (inject_Z sum)) (Some (inject_Z min))
                               (Some (inject_Z max))]).
Definition gauge (name : string) (value : NumberValue) : Metric :=
  mk_metric name (Gauge [mk_ndp timestamp_us timestamp_us (Some value)]).
Definition sum (name : string) (value : Z) : Metric :=
  mk_metric name (Sum [mk_ndp timestamp_us timestamp_us (Some (AsInt value))]).
Definition attribute (name value : string) : KeyValue := mk_kv name (StringValue value).

Definition expected_network : list Metric :=
  [level "bytes_delivered" 47; level "bytes_received" 43; level "connect_attempts" 14;
   level "retrans_close" 18; level "retrans_est" 19; level "retrans_syn" 20; level "rtos_close" 15;
   level "rtos_est" 16; level "rtos_syn" 17; level "segments_delivered" 59; level "segments_received" 53;
   level "severed_connect" 2; level "severed_establish" 1; level "sockets_closed" 1; level "sockets_closing" 2;
   level "sockets_completed" 44; level "sockets_connecting" 4; level "sockets_established" 3;
   histogram "connect_us" 2 12 13 25; histogram "rtt_us" 3 14 15 44; histogram "rtt_smoothed_us" 4 16 17 66]%string.
Definition expected_process : list Metric :=
  [gauge "cpu_util" (AsDouble (4 # 100)); gauge "mem_used_kb" (AsInt 512);
   gauge "mem_used_ratio" (AsDouble (6 # 100)); gauge "sockets_tracked" (AsInt 100);
   gauge "ebpf_allocated_mem_kb" (AsInt 12802)]%string.
Definition expected_host : list Metric :=
  [sum "bw_in_allowance_exceeded" 211; sum "bw_out_allowance_exceeded" 223;
   sum "conntrack_allowance_available" 239; sum "conntrack_allowance_exceeded" 227;
   sum "linklocal_allowance_exceeded" 229; sum "pps_allowance_exceeded" 233]%string.
Definition expected_counters : list Metric :=
  [sum "active_connect_events" 1; sum "active_established_events" 2; sum "map_insertion_errors" 18;
   sum "other_errors" 17; sum "other_events" 8; sum "passive_established_events" 3; sum "retrans_events" 6;
   sum "rto_events" 7; sum "rtt_events" 5; sum "rtts_invalid" 15; sum "set_flags_errors" 16;
   sum "socket_events" 9; sum "sockets_invalid" 10; sum "state_change_events" 4;
   sum "remote_nat_reversal_errors" 0; sum "restarts" 0; sum "socket_agg_above_limit" 0;
   sum "socket_agg_completed" 0; sum "socket_agg_missing_props" 0; sum "socket_deltas_above_limit" 0;
   sum "socket_deltas_completed" 0; sum "socket_deltas_missing_props" 0; sum "socket_eviction_completed" 0;
   sum "socket_eviction_failed" 0; sum "sockets_added" 0; sum "sockets_natd" 0; sum "sockets_stale" 0;
   sum "publish_report_failed" 10]%string.

(** The attributes that pods add, and those of the resource. *)
Definition expected_pods (platform : ComputePlatform) : list KeyValue :=
  match platform with
  | Ec2Plain => []
  | Ec2K8sEks | Ec2K8sVanilla =>
      [attribute "local_pod_name" "local-pod"; attribute "local_pod_namespace" "local-namespace";
       attribute "local_pod_service" "local-service"; attribute "remote_pod_name" "remote-pod";
       attribute "remote_pod_namespace" "remote-namespace"; attribute "remote_pod_service" "remote-service"]
  end.
Definition expected_platform (platform : ComputePlatform) : string * list KeyValue :=
  match platform with
  | Ec2Plain => ("EC2_PLAIN"%string, [])
  | Ec2K8sEks => ("EC2_K8S_EKS"%string,
      [attribute "k8s_node_name" "k8s-node"; attribute "k8s_eks_cluster_name" "k8s-cluster"])
  | Ec2K8sVanilla => ("EC2_K8S_VANILLA"%string, [attribute "k8s_node_name" "k8s-node"])
  end.

Definition expected_report (platform : ComputePlatform) : ResourceMetrics :=
  let '(platform_name, k8s) := expected_platform platform in
  mk_resource
    ([attribute "instance_id" "instance-id"; attribute "machine_id" "machine-id";
      attribute "compute_platform" platform_name; attribute "service.name" "agent-service";
      attribute "service.version" "0.1.0"; attribute "agent.build_ts" "build-time";
      attribute "report.version" "1.1"] ++ k8s)
    [mk_scope "network_stats"
       ([attribute "local_address" "1.2.3.4"; mk_kv "local_port" (IntValue 443); attribute "protocol" "TCP";
         attribute "remote_address" "5.6.7.8"; mk_kv "remote_port" (IntValue 0)] ++ expected_pods platform)
       expected_network;
     mk_scope "process_stats" [] expected_process;
     mk_scope "host_stats" [attribute "interface_id" "iface-id-1"] expected_host;
     mk_scope "host_stats" [attribute "interface_id" "iface-id-2"] expected_host;
     mk_scope "counters" [] expected_counters].

(** *** The tests *)

(** The resource and, scope by scope, the attributes in order and the metrics up to their order. *)
Definition assert_reports_eq (actual_report expected_report : ResourceMetrics) : test :=
  _ ← assert_eq (resource actual_report) (resource expected_report);
  _ ← assert_eq (length (scope_metrics actual_report)) (length (scope_metrics expected_report));
  _ ← assert (0 <? Z.of_nat (length (scope_metrics expected_report)));
  for_each (zip (scope_metrics actual_report) (scope_metrics expected_report)) (λ '(actual, expected),
    _ ← assert_eq (scope_name actual) (scope_name expected);
    _ ← assert_eq (attributes actual) (attributes expected);
    _ ← assert (bool_decide (metrics actual ≡ₚ metrics expected));
    assert_ne (metrics expected) []).

Definition ip_to_string (a : IpAddr.t) : string :=
  match a with IpAddr.V4 bits => str (show_ipv4 bits) | IpAddr.V6 _ => "" end.

Definition build_and_save_report (compute_platform : ComputePlatform) : test :=
  let event_related := {|
    EventCounters.active_connect_events := 1;
    EventCounters.active_established_events := 2;
    EventCounters.passive_established_events := 3;
    EventCounters.state_change_events := 4;
    EventCounters.rtt_events := 5;
    EventCounters.retrans_events := 6;
    EventCounters.rto_events := 7;
    EventCounters.other_events := 8;
    EventCounters.socket_events := 9;
    EventCounters.sockets_invalid := 10;
    EventCounters.map_insertion_errors := 18;
    EventCounters.rtts_invalid := 15;
    EventCounters.set_flags_errors := 16;
    EventCounters.other_errors := 17
  |} in
  let process_stats := ProcessStats.mk (CountersOverall.mk event_related ProcessCounters.default)
    [UsageStats.mk (4 # 100) 512 (6 # 100) 100 12802] in
  let host_stats := HostStats.mk [iface_stats "iface-id-1"; iface_stats "iface-id-2"] in
  flow ← flow_of server_context;
  let flow :=
    match compute_platform with
    | Ec2Plain => flow
    | _ => flow <| FlowProperties.kubernetes_metadata := Some (FlowMetadata.mk
             (Some (PodInfo.mk "local-pod" "local-namespace" "local-service"))
             (Some (PodInfo.mk "remote-pod" "remote-namespace" "remote-service"))) |>
    end in
  let env_metadata := EnvMetadata.new in
  let env_metadata := EnvMetadata.insert env_metadata "instance_id" (ReportValue.String "instance-id") in
  let env_metadata := EnvMetadata.insert env_metadata "machine_id" (ReportValue.String "machine-id") in
  let env_metadata := EnvMetadata.extend env_metadata (get_metadata (RuntimeEnvironmentMetadataProvider.from compute_platform)) in
  let report := new_report in
  let report := NfmReport.set_network_stats report [AggregateResults.mk flow stats] in
  let report := NfmReport.set_process_stats report process_stats in
  let report := NfmReport.set_env_metadata report env_metadata in
  let report := NfmReport.set_host_stats report host_stats in
  let report := NfmReport.set_failed_reports report 10 in
  let report := NfmReport.set_service_metadata report (ServiceMetadata.new "agent-service" "0.1.0" "build-time") in
  let report := NfmReport.set_k8s_metadata report
    match compute_platform with
    | Ec2K8sEks => K8sMetadata.mk (Some (ReportValue.String "k8s-node")) (Some (ReportValue.String "k8s-cluster"))
    | Ec2K8sVanilla => K8sMetadata.mk (Some (ReportValue.String "k8s-node")) None
    | Ec2Plain => K8sMetadata.mk None None
    end in
  actual_report ← NfmReportOTLP.build_export ip_to_string report timestamp_us;
  assert_reports_eq actual_report (expected_report compute_platform).

Definition test_build_report_from_ec2_instance : test := build_and_save_report Ec2Plain.
Definition test_build_report_from_k8s_vanilla_pod : test := build_and_save_report Ec2K8sVanilla.
Definition test_build_report_from_k8s_eks_pod : test := build_and_save_report Ec2K8sEks.

Lemma otlp_tests_pass : all_passed [test_build_report_from_ec2_instance; test_build_report_from_k8s_vanilla_pod;
  test_build_report_from_k8s_eks_pod] = true.
Proof. run_tests. Qed.

End OtlpTests.

(** ** publisher.rs *)
Module PublisherTests.

(** [ReportPublisherLog::publish] logs the report. *)
Definition test_log_publish : test :=
  let publisher : Publisher unit := ReportPublisherLog in
  '(_, effects) ← publish_one (Bytes:=unit)
    (ReportPublisherOTLP.mk_crates unit (λ _, None) (λ _, None) (λ _, Err tt) (λ _, false) (λ _, ""%string)
       (λ _, None) (λ _, None) (λ _ _ _ _ _ _ _ _ _, ""%string) (λ _, ""%string) (Err tt) None)
    (ReportPublisherOTLP.mk_answers (timespec.mk 0 0) (timespec.mk 0 0) (Err tt) (Err tt) (λ _ _, Err tt))
    publisher new_report;
  match effects with [Logged _] => Some tt | _ => None end.

(** [MockPublisher]: what it publishes must be the report it expects. *)
Record MockPublisher := mock_publisher { expects : NfmReport.t }.
#[local] Instance mock_publish : ReportPublisher MockPublisher unit := λ self report,
  if decide (NfmReport.network_stats report = NfmReport.network_stats (expects self)) then Some (true, []) else None.

Definition test_multi_publish : test :=
  let report := new_report in
  let builder := MultiPublisher.builder in
  let builder := MultiPublisher.with_publisher builder (mock_publisher report) in
  let publisher := MultiPublisher.with_publisher builder (mock_publisher report) in
  _ ← MultiPublisher.publish_all publisher report;
  Some tt.

(** Every proxy is accepted. *)
Definition crates : ReportPublisherOTLP.crates unit unit :=
  ReportPublisherOTLP.mk_crates unit (λ _, Some tt) (λ _, Some tt) (λ _, Err tt) (λ _, false) (λ _, ""%string)
    (λ _, None) (λ _, None) (λ _ _ _ _ _ _ _ _ _, ""%string) (λ _, ""%string) (Ok tt) (Some tt).
Definition from_options (with_log with_endpoint : bool) : option (MultiPublisher.t (Publisher unit)) :=
  MultiPublisher.from_options crates with_log with_endpoint "a" "b" ReportPublisherOTLP.NoCompression "d".

Definition test_build_multi_publisher : test :=
  (* Only log *)
  publisher ← from_options true false;
  _ ← assert_eq (length publisher) 1%nat;
  (* Only endpoint *)
  publisher ← from_options false true;
  _ ← assert_eq (length publisher) 1%nat;
  (* Both publishers *)
  publisher ← from_options true true;
  assert_eq (length publisher) 2%nat.

Lemma publisher_tests_pass : all_passed [test_log_publish; test_multi_publish; test_build_multi_publisher] = true.
Proof. run_tests. Qed.

End PublisherTests.

(** ** publisher_endpoint.rs *)
Module EndpointTests.
Import ReportPublisherOTLP.

(** Bytes are the exported message itself; the address of the service is the only URL. *)
Definition crates : crates ResourceMetrics unit :=
  mk_crates unit (λ _, Some tt) (λ _, Some tt)
    (λ url, if decide (url = "http://127.0.0.1:8181"%string) then Ok (Some "127.0.0.1"%string) else Err tt)
    (λ _, true) (λ _, "20240618T132021Z"%string) Some Some
    (λ _ _ _ _ _ _ _ _ _, "AWS4-HMAC-SHA256"%string) OtlpTests.ip_to_string (Ok tt) (Some tt).

Definition test_request : test :=
  let mock_clock := FakeClock.mk 1718716821050 in
  let now := FakeClock.now_timespec mock_clock in
  (* The service answers every request with success. *)
  let outside := mk_answers now now (Ok tt) (Ok (mk_credentials "AKID" "SECRET" (Some "TOKEN"%string))) (λ _ _, Ok 200) in
  publisher ← new_without_proxy crates "http://127.0.0.1:8181" "us-west-1" NoCompression;
  flow ← flow_of server_context;
  let report := NfmReport.set_network_stats new_report [AggregateResults.mk flow NetworkStats.default] in
  timestamp_ns ← timespec_to_nsec now;
  expected_body ← NfmReportOTLP.build_export OtlpTests.ip_to_string report timestamp_ns;
  '(success, requests) ← publish_report crates outside publisher report;
  _ ← assert success;
  request ← head requests;
  _ ← assert_eq (body request) expected_body;
  (* Test related to the HTTP headers. *)
  let header name := headers request !! name in
  _ ← assert_eq (header "host"%string) (Some "127.0.0.1"%string);
  _ ← assert_eq (header "content-type"%string) (Some "application/x-protobuf"%string);
  _ ← assert_eq (header "x-amz-security-token"%string) (Some "TOKEN"%string);
  assert_ne (header "authorization"%string) None.

Lemma endpoint_tests_pass : all_passed [test_request] = true.
Proof. run_tests. Qed.

End EndpointTests.

(** ** The metadata of the host and its environment *)
Module MetadataTests.

(** The environment variables set by the tests. *)
Definition unset_k8s_env_vars : string → option string := λ _, None.
Definition set_k8s_vanilla_env_vars : string → option string := λ name,
  if decide (name = ENV_K8S_NODE_NAME) then Some "k8s-node-name"%string else None.
Definition set_k8s_eks_env_vars : string → option string := λ name,
  if decide (name = ENV_K8S_NODE_NAME) then Some "k8s-node-name"%string
  else if decide (name = ENV_EKS_CLUSTER_NAME) then Some "eks-cluster-name"%string else None.

(** *** k8s_metadata.rs *)

Definition test_no_data : test :=
  let k8s_metadata := K8sMetadata.default unset_k8s_env_vars in
  _ ← assert_eq (K8sMetadata.node_name k8s_metadata) None;
  assert_eq (K8sMetadata.cluster_name k8s_metadata) None.

Definition test_some_data : test :=
  let k8s_metadata := K8sMetadata.default set_k8s_eks_env_vars in
  _ ← assert_eq (K8sMetadata.node_name k8s_metadata) (Some (ReportValue.String "k8s-node-name"));
  assert_eq (K8sMetadata.cluster_name k8s_metadata) (Some (ReportValue.String "eks-cluster-name")).

Definition test_k8s_metadata_new : test :=
  let k8s_metadata := K8sMetadata.new "node_name" "cluster_name" in
  _ ← assert_eq (K8sMetadata.node_name k8s_metadata) (Some (ReportValue.String "node_name"));
  assert_eq (K8sMetadata.cluster_name k8s_metadata) (Some (ReportValue.String "cluster_name")).

(** *** runtime_environment_metadata.rs *)

Definition assert_platform (env_var : string → option string) (expected : ComputePlatform) : test :=
  let rm_provider := refresh (RuntimeEnvironmentMetadataProvider.default env_var) in
  let metadata := get_metadata rm_provider in
  _ ← assert_eq (EnvMetadata.len metadata) 1;
  value ← EnvMetadata.get metadata KEY_COMPUTE_PLATFORM;
  match value with
  | ReportValue.String str_value => assert_eq str_value (platform_to_string expected)
  | _ => Some tt
  end.

Definition test_k8s_eks_env : test := assert_platform set_k8s_eks_env_vars Ec2K8sEks.
Definition test_k8s_vanilla_env : test := assert_platform set_k8s_vanilla_env_vars Ec2K8sVanilla.
Definition test_ec2_env : test := assert_platform unset_k8s_env_vars Ec2Plain.

(** *** host.rs, with a file that ends in a line feed *)

Definition test_machine_id : test :=
  let file := Ok (chr "ec2c5dba" ++ [LF]) in
  let ec2_provider := HostMetadataProvider.refresh file (HostMetadataProvider.default file) in
  let metadata := HostMetadataProvider.get_metadata ec2_provider in
  _ ← assert_eq (EnvMetadata.len metadata) 1;
  _ ← assert (EnvMetadata.contains_key metadata "machine-id");
  assert (existsb (λ '(key, value),
    match value with
    | ReportValue.String str_value =>
        bool_decide (key = "machine-id"%string) && negb (bool_decide (str_value = ""%string)) &&
        negb (ends_with_char LF (chr str_value))
    | _ => false
    end) (EnvMetadata.enumerate metadata)).

(** *** env_metadata_provider.rs *)

Definition test_multi_metadata_provider : test :=
  let mmp := {|
    MultiMetadataProvider.eni_metadata := EniMetadataProvider.mk (chr "the-instance-id") (chr "the-instance-type")
      [NetworkInterfaceInfo.mk (chr "the-mac") (chr "the-interface-id")];
    MultiMetadataProvider.host_metadata := HostMetadataProvider.default (Err tt);
    MultiMetadataProvider.runtime_env_metadata := RuntimeEnvironmentMetadataProvider.default unset_k8s_env_vars
  |} in
  let multi_md := MultiMetadataProvider.get_metadata mmp in
  _ ← for_each ["instance-id"; "machine-id"; "instance-type"; "compute_platform"]%string
        (λ key, assert (EnvMetadata.contains_key multi_md key));
  let mmp := MultiMetadataProvider.refresh (λ _, Err tt) (Err tt) mmp in
  assert (4 <=? EnvMetadata.len (MultiMetadataProvider.get_metadata mmp)).

(** *** service_metadata.rs *)

(** For any version and time of the build. *)
Definition test_service_metadata_default (PKG_VERSION BUILD_TIME_3339 : string) : test :=
  let service_metadata := ServiceMetadata.default PKG_VERSION BUILD_TIME_3339 in
  _ ← assert_eq (ServiceMetadata.name service_metadata) (ReportValue.String PROJECT_NAME);
  _ ← assert_eq (ServiceMetadata.version service_metadata) (ReportValue.String PKG_VERSION);
  assert_eq (ServiceMetadata.build_ts service_metadata) (ReportValue.String BUILD_TIME_3339).

Definition test_service_metadata_new : test :=
  let service_metadata := ServiceMetadata.new "test_name" "test_version" "test_build_ts" in
  _ ← assert_eq (ServiceMetadata.name service_metadata) (ReportValue.String "test_name");
  _ ← assert_eq (ServiceMetadata.version service_metadata) (ReportValue.String "test_version");
  assert_eq (ServiceMetadata.build_ts service_metadata) (ReportValue.String "test_build_ts").

(** *** utils.rs of nfm-common *)

Definition test_min_non_zero : test :=
  for_each [(0, 0, 0); (1, 0, 1); (0, 1, 1); (1, 2, 1); (2, 1, 1); (100, 200, 100); (umax u32, umax u32 - 1, umax u32 - 1)]
    (λ '(a, b, expected), assert_eq (min_non_zero a b) expected).

Lemma metadata_tests_pass : all_passed [test_no_data; test_some_data; test_k8s_metadata_new; test_k8s_eks_env;
  test_k8s_vanilla_env; test_ec2_env; test_machine_id; test_multi_metadata_provider; test_service_metadata_default "0.1.3" "2025-01-01T00:00:00+00:00"; test_service_metadata_new;
  test_min_non_zero] = true.
Proof. run_tests. Qed.

End MetadataTests.
