(* ===== verification/LoopTests.v ===== *)
(** * LoopTests: the test of the main loop

    Translates the test of [do_work] in nfm-controller/src/lib.rs: the loop runs over components that
    only count the calls they get, behind the traits of Traits.v, until each has been called.  The
    source runs it in a thread against the system clock for at most two seconds; here the clock is
    simulated, with a twentieth of a second spent in each turn. *)

From stdpp Require Import base numbers gmap list strings.
From S2P Require Import Prelude Network SockCache ReportData NetworkEvent NatResolver Timer Metadata HostStats Report.
From S2P Require Import Publisher Kubernetes Traits Agent AgentProperties Testing.
Open Scope Z_scope.

Module DoWorkTests.

(** [saturating_add(1)] on the counter of a component. *)
Definition called (calls : Z) : Z := saturating_add u8 calls 1.

Record EventProviderNoOp := mk_provider { provider_calls : Z }.
Record NatResolverNoOp := mk_resolver { resolver_calls : Z }.
Record EventFilterNoOp := mk_filter { filter_calls : Z }.
Record MultiMetadataProviderNoOp := mk_metadata { metadata_calls : Z }.
Record HostStatsProviderNoOp := mk_host { host_calls : Z }.

#[local] Instance event_provider_no_op : EventProvider unit EventProviderNoOp := {
  perform_aggregation_cycle R _ _ self nat_resolver := Some (mk_provider (called (provider_calls self)), nat_resolver);
  network_stats _ self := ([], mk_provider (called (provider_calls self)));
  counters self := (CountersOverall.mk EventCounters.default ProcessCounters.default, self);
  socket_count _ := 0;
  ebpf_allocated_mem_kb _ := 0;
}.

#[local] Instance nat_resolver_no_op : NatResolver NatResolverNoOp := {
  NatResolver.perform_aggregation_cycle self := mk_resolver (called (resolver_calls self));
  NatResolver.perform_eviction self := self;
  NatResolver.get_beyond_nat_entry _ _ := Some None;
  NatResolver.store_beyond_nat_entries _ sock_cache _ := Some (SockOperationResult.default, sock_cache);
  NatResolver.num_entries _ := 0;
}.

#[local] Instance event_filter_no_op : EventFilter AggregateResults.t EventFilterNoOp :=
  λ self _, ([], mk_filter (called (filter_calls self))).

(** The publisher answers [true]; its calls are the effects of the run. *)
Definition publisher_no_op : ReportPublisher unit unit := λ _ _, Some (true, [tt]).

#[local] Instance env_metadata_no_op : EnvMetadataProvider unit MultiMetadataProviderNoOp := {
  refresh _ self := mk_metadata (called (metadata_calls self));
  get_metadata _ := EnvMetadata.new;
}.

#[local] Instance multi_metadata_no_op : MultiMetadataProvider unit MultiMetadataProviderNoOp := {
  get_network_devices _ self := ([], self);
}.

#[local] Instance host_stats_no_op : HostStatsProvider unit HostStatsProviderNoOp := {
  set_network_devices _ self _ := mk_host (called (host_calls self));
  get_stats _ self := Some (HostStats.mk [], mk_host (called (host_calls self)));
}.

Definition create_options : Options.t := {|
  Options.log_reports := false;
  Options.publish_reports := false;
  Options.endpoint := "a";
  Options.endpoint_region := "b";
  Options.cgroup := "c";
  Options.proxy := "d";
  Options.top_k := 100;
  Options.notrack_secs := 0;
  Options.usage_data := true;
  Options.aggregate_msecs := 0;
  Options.publish_secs := 0;
  Options.jitter_secs := 0;
  Options.report_compression := ReportPublisherOTLP.NoCompression;
  Options.kubernetes_metadata := true;
  Options.resolve_nat := true
|}.

Definition loop_state : Type :=
  Agent.t NatResolverNoOp FakeClock.t EventProviderNoOp EventFilterNoOp MultiMetadataProviderNoOp HostStatsProviderNoOp unit.

(** A turn: both orders of events that are due at the same time occur. *)
Definition turn_inputs (n : nat) : Agent.inputs FakeClock.t unit unit unit unit unit :=
  Agent.mk_inputs (λ c, sleep c 50000) n id (λ _, false) tt tt tt ∅ (λ m, (map_to_list m).*2)
    (sample_clocks (101 + Z.of_nat n)) (sample_clocks (101 + Z.of_nat n)) 1000 (QArith_base.Qmake 0 1) publisher_no_op.

Definition do_work (turns : nat) : option (list (Agent.outcome unit) * loop_state) :=
  self ← Agent.setup create_options sample_setup_inputs (FakeClock.mk 0) (mk_provider 0) (mk_resolver 0)
           (mk_filter 0) tt (mk_metadata 0) (mk_host 0) Watchers.new;
  Agent.run sample_service (λ _, None) create_options (turn_inputs <$> seq 0 turns) self.

Definition published (whats : list (Agent.outcome unit)) : Z :=
  Z.of_nat (length (reports_of whats)).

Definition test_do_work : test :=
  '(whats, self) ← do_work 40;
  _ ← assert (1 <=? provider_calls (Agent.provider self));
  _ ← assert (1 <=? resolver_calls (Agent.nat_resolver self));
  _ ← assert (1 <=? filter_calls (Agent.event_filter self));
  _ ← assert (1 <=? published whats);
  _ ← assert (1 <=? metadata_calls (Agent.metadata_provider self));
  assert (1 <=? host_calls (Agent.host_stats_provider self)).

Definition test_on_off_display : test :=
  _ ← assert_eq (on_off_to_string true) "on"%string;
  assert_eq (on_off_to_string false) "off"%string.

Lemma do_work_tests_pass : all_passed [test_do_work; test_on_off_display] = true.
Proof. run_tests. Qed.

End DoWorkTests.
