(* ===== verification/CapacityTests.v ===== *)
(** * CapacityTests: the tests that fill a table

    The tests of the source that fill the BPF maps, the socket cache or the table of flows are loops
    of tens of thousands of turns.  They are translated as the loops they are; that they pass is not
    evaluated but proved, by invariants of the loops; those on the maps follow from the slot
    transition of SockOpsFacts.v, and that on the flows holds for any order of the visits. *)

From stdpp Require Import base numbers gmap list strings.
From S2P Require Import Prelude Network BpfMaps SockOps SockOpsFacts SockCache NetworkEvent EventProvider.
From S2P Require Import Testing KernelTests AgentTests.
Import TcpSockOpsHandler SockSlotFacts MapInvariant SockOpsTests.
Open Scope Z_scope.

(** [for _ in 0..n] over the state of a test. *)
Fixpoint repeat_n {S : Type} (n : nat) (body : S → option S) (s : S) : option S :=
  match n with
  | O => Some s
  | S n => s ← body s; repeat_n n body s
  end.

(** A loop keeps an invariant that counts its turns. *)
Lemma repeat_n_invariant {S : Type} (Inv : nat → S → Prop) (body : S → option S) n k s :
  (∀ i s, (k ≤ i < k + n)%nat → Inv i s → ∃ s', body s = Some s' ∧ Inv (1 + i)%nat s') →
  Inv k s → ∃ s', repeat_n n body s = Some s' ∧ Inv (k + n)%nat s'.
Proof.
  revert k s. induction n as [|n IH]; intros k s Hbody Hs; cbn [repeat_n].
  { exists s. by rewrite Nat.add_0_r. }
  destruct (Hbody k s) as (s' & -> & Hs'); [lia|done|]. cbn [mbind option_bind].
  destruct (IH (1 + k)%nat s') as (s2 & -> & H2); [intros i s0 ?; apply Hbody; lia|done|].
  exists s2. split; [done|]. by rewrite Nat.add_succ_r.
Qed.

(** ** sock_ops_handler.rs *)
Module MapCapacityTests.

(** The variables of the loops: the maps, the next cookie and the time. *)
Record vars := mk { maps : EbpfMaps.t; cookie : Z; mock_ktime_us : Z }.

(** [cookie += 3; mock_ktime_us += 10]. *)
Definition next (v : vars) (maps : EbpfMaps.t) : vars := mk maps (cookie v + 3) (mock_ktime_us v + 10).
Definition start : vars := mk EbpfMaps.new 197 99.

Definition connect (expectation : SockOpsResult) (v : vars) : option vars :=
  maps ← run_sock_ops_test (cookie v) BPF_SOCK_OPS_TCP_CONNECT_CB (mock_ktime_us v) expectation (maps v);
  Some (next v maps).

(** The bodies of the tests, over the numbers of turns of their loops. *)
Definition max_connections (effective_max : Z) (n : nat) : test :=
  v ← repeat_n n (λ v,
    maps ← run_sock_ops_test (cookie v) BPF_SOCK_OPS_TCP_CONNECT_CB (mock_ktime_us v) (Ok tt) (maps v);
    maps ← run_sock_ops_test_with_args (cookie v) BPF_TCP_SYN_SENT BPF_SOCK_OPS_STATE_CB
             [BPF_TCP_SYN_SENT; BPF_TCP_ESTABLISHED] (mock_ktime_us v + 10) (Ok tt) maps;
    Some (next v maps)) start;
  (* Validate results. *)
  _ ← assert (0 <? effective_max);
  c ← counters (maps v);
  _ ← assert_eq (EventCounters.active_connect_events c) effective_max;
  _ ← assert_eq (num_props (maps v)) n;
  assert_eq (num_stats (maps v)) n.

Definition test_ebpf_sock_op_max_connections : test :=
  let effective_max := Z.min MAX_ENTRIES_SK_PROPS_HI MAX_ENTRIES_SK_STATS_HI in
  max_connections effective_max (Z.to_nat effective_max).

Definition too_many_connections (n more : nat) : test :=
  v ← repeat_n n (connect (Ok tt)) start;
  v ← repeat_n more (connect (Err MapInsertionError)) v;
  (* Validate results. *)
  _ ← assert (0 <? MAX_ENTRIES_SK_PROPS_HI);
  _ ← assert_eq (num_props (maps v)) n;
  c ← counters (maps v);
  _ ← assert_eq (EventCounters.active_connect_events c) (MAX_ENTRIES_SK_PROPS_HI + 10);
  assert_eq (EventCounters.map_insertion_errors c) 10.

Definition test_ebpf_sock_op_too_many_connections : test := too_many_connections (Z.to_nat MAX_ENTRIES_SK_PROPS_HI) 10.

Definition close (expectation : SockOpsResult) (v : vars) : option vars :=
  maps ← run_sock_ops_test_with_args (cookie v) BPF_TCP_ESTABLISHED BPF_SOCK_OPS_STATE_CB
           [BPF_TCP_ESTABLISHED; BPF_TCP_CLOSE] (mock_ktime_us v) expectation (maps v);
  Some (next v maps).

Definition too_many_events (n more : nat) : test :=
  v ← repeat_n n (close (Ok tt)) start;
  v ← repeat_n more (close (Err MapInsertionError)) v;
  (* Validate results. *)
  _ ← assert (0 <? MAX_ENTRIES_SK_STATS_HI);
  _ ← assert_eq (num_stats (maps v)) n;
  c ← counters (maps v);
  _ ← assert_eq (EventCounters.state_change_events c) (MAX_ENTRIES_SK_STATS_HI + 10);
  assert_eq (EventCounters.map_insertion_errors c) 10.

Definition test_ebpf_sock_op_too_many_events : test := too_many_events (Z.to_nat MAX_ENTRIES_SK_STATS_HI) 10.

(** What a test leaves behind: the entries of each map, the counters it looks at, and that no key
    from the next cookie on is used. *)
Record shape := mk_shape { props : nat; stats : nat; connects : Z; changes : Z; errors : Z }.

Definition has_shape (m : EbpfMaps.t) (s : shape) : Prop :=
  num_props m = props s ∧ num_stats m = stats s ∧
  SharedHashMap.capacity (EbpfMaps.NFM_SK_PROPS m) = MAX_ENTRIES_SK_PROPS_HI ∧
  SharedHashMap.capacity (EbpfMaps.NFM_SK_STATS m) = MAX_ENTRIES_SK_STATS_HI ∧
  ∃ c, EbpfMaps.NFM_COUNTERS m = [c] ∧ EventCounters.active_connect_events c = connects s ∧
    EventCounters.state_change_events c = changes s ∧ EventCounters.map_insertion_errors c = errors s.

Definition unused_from (m : EbpfMaps.t) (cookie : Z) : Prop :=
  ∀ k, cookie ≤ CpuSockKey.sock_key k → SockSlot.load m k = SockSlot.mk None None.

(** The shape after a slot was filled and the counters grew. *)
Definition filled {V} (before after : option V) (n : nat) : nat :=
  match before, after with None, Some _ => S n | _, _ => n end.

Lemma put_size {V} (m : SharedHashMap.t CpuSockKey.t V) key v :
  (is_Some (SharedHashMap.data m !! key) → is_Some v) →
  size (SharedHashMap.data (SockSlot.put m key v)) =
    filled (SharedHashMap.data m !! key) v (size (SharedHashMap.data m)).
Proof.
  unfold SockSlot.put. cbn [SharedHashMap.data]. intros Hv. destruct v as [v|].
  - change (partial_alter _ key (SharedHashMap.data m)) with (<[key := v]> (SharedHashMap.data m)).
    rewrite map_size_insert. by destruct (SharedHashMap.data m !! key).
  - change (partial_alter _ key (SharedHashMap.data m)) with (delete key (SharedHashMap.data m)).
    destruct (SharedHashMap.data m !! key) as [x|] eqn:E; [by destruct Hv|]. by rewrite delete_id.
Qed.

Lemma slot_shape m key slot c s :
  has_shape m s →
  (is_Some (SockSlot.props (SockSlot.load m key)) → is_Some (SockSlot.props slot)) →
  (is_Some (SockSlot.stats (SockSlot.load m key)) → is_Some (SockSlot.stats slot)) →
  has_shape (SockSlot.add_counters (SockSlot.store m key slot) c) {|
    props := filled (SockSlot.props (SockSlot.load m key)) (SockSlot.props slot) (props s);
    stats := filled (SockSlot.stats (SockSlot.load m key)) (SockSlot.stats slot) (stats s);
    connects := wrapping_add u32 (connects s) (EventCounters.active_connect_events c);
    changes := wrapping_add u32 (changes s) (EventCounters.state_change_events c);
    errors := wrapping_add u32 (errors s) (EventCounters.map_insertion_errors c) |}.
Proof.
  intros (<- & <- & Hcp & Hcs & c0 & Hc & <- & <- & <-) Hp Hs. unfold has_shape, num_props, num_stats. cbn -[SockSlot.put].
  rewrite !put_size by done. split_and!; [done..|]. rewrite Hc. by eexists.
Qed.

(** The event of a test, its socket and its context. *)
Definition event (cookie sock_state op_code : Z) (args : list Z) : SockOpsContext.t :=
  SockOpsContext.default <| SockOpsContext.cookie := cookie |>
    <| SockOpsContext.sock_state := sock_state |> <| SockOpsContext.op := op_code |>
    <| SockOpsContext.args := args |> <| SockOpsContext.family := AF_INET |>.
Definition socket (cookie : Z) : CpuSockKey.t := CpuSockKey.mk MOCK_CPU_ID cookie.
Definition context (is_client : bool) : SockContext.t :=
  SockContext.default <| SockContext.is_client := is_client |> <| SockContext.address_family := AF_INET |>.

Lemma event_context cookie state op args is_client :
  SockContext.from_sock_ops (event cookie state op args) is_client = Some (context is_client).
Proof. destruct is_client; reflexivity. Qed.

Definition slot_after (m : EbpfMaps.t) (cookie state op a0 a1 now : Z) : SockOpsResult * SockSlot.t :=
  let c := event cookie state op [a0; a1] in
  SockSlot.step true (SharedHashMap.has_room (EbpfMaps.NFM_SK_PROPS m)) (SharedHashMap.has_room (EbpfMaps.NFM_SK_STATS m))
    c (context (op =? BPF_SOCK_OPS_TCP_CONNECT_CB)) a0 a1 now (SockSlot.load m (socket cookie)).

(** A run of the test helper is one slot transition, if the expectation is its result. *)
Lemma run_event_slot m cookie state op a0 a1 now res slot :
  slot_after m cookie state op a0 a1 now = (res, slot) →
  (is_ok res = true → SockStats.last_touched_us <$> SockSlot.stats slot = Some now) →
  run_sock_ops_test_with_args cookie state op [a0; a1] now res m =
    Some (SockSlot.add_counters (SockSlot.store m (socket cookie) slot)
            (SockSlot.contribution (event cookie state op [a0; a1]) a0 a1 res)).
Proof.
  intros Hslot Hnow. unfold run_sock_ops_test_with_args, handle. fold (event cookie state op [a0; a1]).
  rewrite (handle_socket_event_slot MOCK_CPU_ID set_cb_flags _ now m a0 a1 (context (op =? BPF_SOCK_OPS_TCP_CONNECT_CB)))
    by (done || (intros _; apply event_context)).
  change (event_key MOCK_CPU_ID (event cookie state op [a0; a1])) with (socket cookie).
  change (is_ok (set_cb_flags _ all_cb_flags)) with true. unfold slot_after in Hslot. rewrite Hslot. cbn [mbind option_bind].
  rewrite assert_eq_refl. cbn [mbind option_bind].
  destruct res as [[]|e]; [|done]. cbn [is_ok] in *. specialize (Hnow eq_refl).
  match goal with |- context [sock_stats ?x _] =>
    change (sock_stats x _) with (SockSlot.stats (SockSlot.load x (socket cookie))) end.
  rewrite load_same.
  destruct (SockSlot.stats slot) as [st|]; [|done]. injection Hnow as Hnow. cbn [mbind option_bind].
  by rewrite Hnow, assert_eq_refl.
Qed.

(** Later keys stay unused. *)
Lemma store_unused m cookie slot c :
  unused_from m cookie → unused_from (SockSlot.add_counters (SockSlot.store m (socket cookie) slot) c) (cookie + 3).
Proof.
  intros Hu k Hk. rewrite load_other; [apply Hu; lia|]. intros <-. cbn in Hk. lia.
Qed.

Lemma has_room_spec {V} (m : SharedHashMap.t CpuSockKey.t V) n cap :
  size (SharedHashMap.data m) = n → SharedHashMap.capacity m = cap →
  SharedHashMap.has_room m = (Z.of_nat n <? cap).
Proof. intros <- <-. unfold SharedHashMap.has_room. by rewrite Z.ltb_antisym. Qed.

(** The loop invariant: [s] is the shape of the maps, and the cookies from the next one on are free. *)
Definition holds (s : shape) (v : vars) : Prop := has_shape (maps v) s ∧ unused_from (maps v) (cookie v).

(** Counts a test can reach. *)
Definition small (s : shape) : Prop :=
  0 ≤ connects s < 2 ^ 20 ∧ 0 ≤ changes s < 2 ^ 20 ∧ 0 ≤ errors s < 2 ^ 20.

Lemma bump_small x n : 0 ≤ x → 0 ≤ n → x + n < 2 ^ 32 → wrapping_add u32 x n = x + n.
Proof. intros. unfold wrapping_add, wrap. apply Z.mod_small. lia. Qed.

(** A turn whose event is the first of its socket, with what it adds to the counters. *)
Lemma first_event s v state op a0 a1 res slot dc dch de :
  holds s v → small s → slot_after (maps v) (cookie v) state op a0 a1 (mock_ktime_us v) = (res, slot) →
  (is_ok res = true → SockStats.last_touched_us <$> SockSlot.stats slot = Some (mock_ktime_us v)) →
  let c := SockSlot.contribution (event (cookie v) state op [a0; a1]) a0 a1 res in
  EventCounters.active_connect_events c = Z.b2z dc → EventCounters.state_change_events c = Z.b2z dch →
  EventCounters.map_insertion_errors c = Z.b2z de →
  ∃ m', run_sock_ops_test_with_args (cookie v) state op [a0; a1] (mock_ktime_us v) res (maps v) = Some m' ∧
    SockSlot.load m' (socket (cookie v)) = slot ∧
    unused_from m' (cookie v + 3) ∧
    has_shape m' (mk_shape (filled None (SockSlot.props slot) (props s)) (filled None (SockSlot.stats slot) (stats s))
      (connects s + Z.b2z dc) (changes s + Z.b2z dch) (errors s + Z.b2z de)).
Proof.
  intros [Hs Hu] (Hc & Hch & He) Hslot Hnow c Edc Edch Ede.
  rewrite (run_event_slot _ _ _ _ _ _ _ _ _ Hslot Hnow). eexists. split; [done|].
  assert (SockSlot.load (maps v) (socket (cookie v)) = SockSlot.mk None None) as Hl by (apply Hu; cbn; lia).
  split_and!; [apply load_same|by apply store_unused|].
  pose proof (slot_shape (maps v) (socket (cookie v)) slot c s Hs) as Hshape.
  rewrite Hl, Edc, Edch, Ede, !bump_small in Hshape by (destruct dc, dch, de; cbn; lia). apply Hshape; by intros [].
Qed.

(** The events of the three tests, by the room they find. *)
Lemma connect_slot m cookie now :
  SockSlot.load m (socket cookie) = SockSlot.mk None None →
  SharedHashMap.has_room (EbpfMaps.NFM_SK_STATS m) = true →
  slot_after m cookie BPF_TCP_SYN_SENT BPF_SOCK_OPS_TCP_CONNECT_CB 0 0 now =
    if SharedHashMap.has_room (EbpfMaps.NFM_SK_PROPS m) then
      (Ok tt, SockSlot.mk (Some (context true)) (Some (SockStats.default
        <| SockStats.last_touched_us := now |> <| SockStats.connect_start_us := now |> <| SockStats.connect_attempts := 1 |>)))
    else (Err MapInsertionError, SockSlot.mk None None).
Proof.
  intros Hl Hr. unfold slot_after. rewrite Hl, Hr. by destruct (SharedHashMap.has_room (EbpfMaps.NFM_SK_PROPS m)).
Qed.

Lemma close_slot m cookie now :
  SockSlot.load m (socket cookie) = SockSlot.mk None None →
  slot_after m cookie BPF_TCP_ESTABLISHED BPF_SOCK_OPS_STATE_CB BPF_TCP_ESTABLISHED BPF_TCP_CLOSE now =
    if SharedHashMap.has_room (EbpfMaps.NFM_SK_STATS m) then
      (Ok tt, SockSlot.mk None (Some (SockStats.default <| SockStats.last_touched_us := now |>
        <| SockStats.state_flags := SockSlot.transition_flags BPF_TCP_ESTABLISHED BPF_TCP_CLOSE |>)))
    else (Err MapInsertionError, SockSlot.mk None None).
Proof. intros Hl. unfold slot_after. rewrite Hl. by destruct (SharedHashMap.has_room (EbpfMaps.NFM_SK_STATS m)). Qed.

Lemma room_of_shape m s : has_shape m s →
  SharedHashMap.has_room (EbpfMaps.NFM_SK_PROPS m) = (Z.of_nat (props s) <? MAX_ENTRIES_SK_PROPS_HI) ∧
  SharedHashMap.has_room (EbpfMaps.NFM_SK_STATS m) = (Z.of_nat (stats s) <? MAX_ENTRIES_SK_STATS_HI).
Proof. intros (Hp & Hs & Hcp & Hcs & _). split; by apply has_room_spec. Qed.

Lemma connect_turn s v :
  holds s v → small s → Z.of_nat (stats s) < MAX_ENTRIES_SK_STATS_HI →
  let ok := Z.of_nat (props s) <? MAX_ENTRIES_SK_PROPS_HI in
  ∃ m', run_sock_ops_test (cookie v) BPF_SOCK_OPS_TCP_CONNECT_CB (mock_ktime_us v)
          (if ok then Ok tt else Err MapInsertionError) (maps v) = Some m' ∧
    unused_from m' (cookie v + 3) ∧
    (ok = true → ∃ p st, SockSlot.load m' (socket (cookie v)) = SockSlot.mk (Some p) (Some st)) ∧
    has_shape m' (if ok then mk_shape (S (props s)) (S (stats s)) (connects s + 1) (changes s) (errors s)
                  else mk_shape (props s) (stats s) (connects s + 1) (changes s) (errors s + 1)).
Proof.
  intros Hh (Hc & Hch & He) Hst ok. destruct Hh as [Hs Hu]. pose proof (room_of_shape _ _ Hs) as [Hrp Hrs].
  assert (SharedHashMap.has_room (EbpfMaps.NFM_SK_STATS (maps v)) = true) as Hroom by (rewrite Hrs; by apply Z.ltb_lt).
  pose proof (connect_slot (maps v) (cookie v) (mock_ktime_us v) (Hu (socket (cookie v)) ltac:(cbn; lia)) Hroom) as Hslot.
  rewrite Hrp in Hslot. fold ok in Hslot. unfold run_sock_ops_test. clearbody ok.
  destruct ok; [destruct (first_event s v _ _ _ _ _ _ true false false (conj Hs Hu) ltac:(done) Hslot)
      as (m' & Hrun & Hl & Hu' & Hs')
    |destruct (first_event s v _ _ _ _ _ _ true false true (conj Hs Hu) ltac:(done) Hslot)
      as (m' & Hrun & Hl & Hu' & Hs')]; try done;
    exists m'; cbn in Hs'; rewrite !Z.add_0_r in Hs'; (split_and!; [exact Hrun|done|try done|done]).
  intros _. by eexists _, _.
Qed.

Lemma close_turn s v :
  holds s v → small s →
  let ok := Z.of_nat (stats s) <? MAX_ENTRIES_SK_STATS_HI in
  ∃ v', close (if ok then Ok tt else Err MapInsertionError) v = Some v' ∧
    holds (if ok then mk_shape (props s) (S (stats s)) (connects s) (changes s + 1) (errors s)
           else mk_shape (props s) (stats s) (connects s) (changes s + 1) (errors s + 1)) v'.
Proof.
  intros [Hs Hu] Hsm ok. pose proof (room_of_shape _ _ Hs) as [_ Hrs].
  pose proof (close_slot (maps v) (cookie v) (mock_ktime_us v) (Hu (socket (cookie v)) ltac:(cbn; lia))) as Hslot.
  rewrite Hrs in Hslot. fold ok in Hslot. unfold close. clearbody ok.
  destruct ok; [destruct (first_event s v _ _ _ _ _ _ false true false (conj Hs Hu) Hsm Hslot) as (m' & Hrun & _ & Hu' & Hs')
    |destruct (first_event s v _ _ _ _ _ _ false true true (conj Hs Hu) Hsm Hslot) as (m' & Hrun & _ & Hu' & Hs')];
    try done; rewrite Hrun; cbn [mbind option_bind]; eexists; (split; [reflexivity|]);
    cbn in Hs'; rewrite !Z.add_0_r in Hs'; by split.
Qed.

Lemma connect_loop_turn s v :
  holds s v → small s → Z.of_nat (stats s) < MAX_ENTRIES_SK_STATS_HI →
  let ok := Z.of_nat (props s) <? MAX_ENTRIES_SK_PROPS_HI in
  ∃ v', connect (if ok then Ok tt else Err MapInsertionError) v = Some v' ∧
    holds (if ok then mk_shape (S (props s)) (S (stats s)) (connects s + 1) (changes s) (errors s)
           else mk_shape (props s) (stats s) (connects s + 1) (changes s) (errors s + 1)) v'.
Proof.
  intros Hh Hsm Hst ok. destruct (connect_turn s v Hh Hsm Hst) as (m' & Hrun & Hu & _ & Hs). unfold connect.
  fold ok in Hrun, Hs. rewrite Hrun. cbn [mbind option_bind]. eexists. split; [reflexivity|]. by split.
Qed.

Lemma start_holds : holds (mk_shape 0 0 0 0 0) start.
Proof. split; [|by intros k _]. split_and!; try done. by eexists. Qed.

(** The two loops of a test that fills a map of [cap] entries, and goes on for [more] turns. *)
Section fill.
Context (body : SockOpsResult → vars → option vars) (cap more : nat) (shape_at : nat → nat → shape).
Context (full_turn : ∀ i v, (i < cap)%nat → holds (shape_at i 0) v →
  ∃ v', body (Ok tt) v = Some v' ∧ holds (shape_at (S i) 0) v').
Context (over_turn : ∀ j v, (j < more)%nat → holds (shape_at cap j) v →
  ∃ v', body (Err MapInsertionError) v = Some v' ∧ holds (shape_at cap (S j)) v').

Lemma fill_and_more v :
  holds (shape_at 0 0) v →
  ∃ v1 v2, repeat_n cap (body (Ok tt)) v = Some v1 ∧
    repeat_n more (body (Err MapInsertionError)) v1 = Some v2 ∧ holds (shape_at cap more) v2.
Proof.
  intros Hv. destruct (repeat_n_invariant (λ i, holds (shape_at i 0)) (body (Ok tt)) cap 0 v) as (v1 & H1 & Hv1);
    [intros i s ? Hs; by apply full_turn; [lia|]|done|].
  destruct (repeat_n_invariant (λ j, holds (shape_at cap j)) (body (Err MapInsertionError)) more 0 v1) as (v2 & H2 & Hv2);
    [intros j s ? Hs; by apply over_turn; [lia|]|done|]. by exists v1, v2.
Qed.
End fill.

Ltac caps_lia := unfold small, MAX_ENTRIES_SK_STATS_HI, SK_STATS_TO_PROPS_RATIO, MAX_ENTRIES_SK_PROPS_HI in *;
  cbn [connects changes errors props stats]; lia.

Lemma too_many_connections_passes cap more : Z.of_nat more = 10 → Z.of_nat cap = MAX_ENTRIES_SK_PROPS_HI → passed (too_many_connections cap more) = true.
Proof.
  intros Emore Ecap. unfold too_many_connections.
  destruct (fill_and_more connect cap more (λ i j, mk_shape i i (Z.of_nat (i + j)) 0 (Z.of_nat j))) with (v := start)
    as (v1 & v2 & H1 & H2 & (Hp & Hs & _ & _ & c & Hc & Hac & Hch & He) & _).
  - intros i v Hi Hv. destruct (connect_loop_turn _ v Hv) as (v' & Hrun & Hv'); [caps_lia..|].
    cbn [props] in Hrun, Hv'. rewrite (proj2 (Z.ltb_lt _ _)) in Hrun, Hv' by lia.
    exists v'. split; [done|]. cbn in Hv'. by replace (Z.of_nat (S i + 0)) with (Z.of_nat (i + 0) + 1) by lia.
  - intros j v Hj Hv. destruct (connect_loop_turn _ v Hv) as (v' & Hrun & Hv'); [caps_lia..|].
    cbn [props] in Hrun, Hv'. rewrite (proj2 (Z.ltb_ge _ _)) in Hrun, Hv' by lia. exists v'. split; [done|].
    cbn in Hv'. replace (Z.of_nat (cap + S j)) with (Z.of_nat (cap + j) + 1) by lia.
    by replace (Z.of_nat (S j)) with (Z.of_nat j + 1) by lia.
  - apply start_holds.
  - rewrite H1. cbn [mbind option_bind]. rewrite H2. unfold counters. cbn [mbind option_bind]. rewrite Hc, Hp.
    cbn [head mbind option_bind props stats connects changes errors] in *.
    rewrite Hac, He, assert_eq_refl, Nat2Z.inj_add, Ecap, Emore. by rewrite !assert_eq_refl.
Qed.

Lemma too_many_events_passes cap more : Z.of_nat more = 10 → Z.of_nat cap = MAX_ENTRIES_SK_STATS_HI → passed (too_many_events cap more) = true.
Proof.
  intros Emore Ecap. unfold too_many_events.
  destruct (fill_and_more close cap more (λ i j, mk_shape 0 i 0 (Z.of_nat (i + j)) (Z.of_nat j))) with (v := start)
    as (v1 & v2 & H1 & H2 & (Hp & Hs & _ & _ & c & Hc & Hac & Hch & He) & _).
  - intros i v Hi Hv. destruct (close_turn _ v Hv) as (v' & Hrun & Hv'); [caps_lia..|].
    cbn [stats] in Hrun, Hv'. rewrite (proj2 (Z.ltb_lt _ _)) in Hrun, Hv' by lia.
    exists v'. split; [done|]. cbn in Hv'. by replace (Z.of_nat (S i + 0)) with (Z.of_nat (i + 0) + 1) by lia.
  - intros j v Hj Hv. destruct (close_turn _ v Hv) as (v' & Hrun & Hv'); [caps_lia..|].
    cbn [stats] in Hrun, Hv'. rewrite (proj2 (Z.ltb_ge _ _)) in Hrun, Hv' by lia. exists v'. split; [done|].
    cbn in Hv'. replace (Z.of_nat (cap + S j)) with (Z.of_nat (cap + j) + 1) by lia.
    by replace (Z.of_nat (S j)) with (Z.of_nat j + 1) by lia.
  - apply start_holds.
  - rewrite H1. cbn [mbind option_bind]. rewrite H2. unfold counters. cbn [mbind option_bind]. rewrite Hc, Hs.
    cbn [head mbind option_bind props stats connects changes errors] in *.
    rewrite Hch, He, assert_eq_refl, Nat2Z.inj_add, Ecap, Emore. by rewrite !assert_eq_refl.
Qed.

(** The second event of a turn: the connection of the socket is established. *)
Lemma establish_turn m s cookie now p st :
  has_shape m s → small s → unused_from m (cookie + 3) →
  SockSlot.load m (socket cookie) = SockSlot.mk (Some p) (Some st) →
  ∃ m', run_sock_ops_test_with_args cookie BPF_TCP_SYN_SENT BPF_SOCK_OPS_STATE_CB
          [BPF_TCP_SYN_SENT; BPF_TCP_ESTABLISHED] now (Ok tt) m = Some m' ∧
    has_shape m' (mk_shape (props s) (stats s) (connects s) (changes s + 1) (errors s)) ∧ unused_from m' (cookie + 3).
Proof.
  intros Hs (Hc & Hch & He) Hu Hl.
  assert (∃ st', slot_after m cookie BPF_TCP_SYN_SENT BPF_SOCK_OPS_STATE_CB BPF_TCP_SYN_SENT BPF_TCP_ESTABLISHED now =
    (Ok tt, SockSlot.mk (Some p) (Some st')) ∧ SockStats.last_touched_us st' = now) as (st' & Hslot & Hnow).
  { unfold slot_after. rewrite Hl. eexists. by split. }
  rewrite (run_event_slot _ _ _ _ _ _ _ _ _ Hslot) by (intros _; cbn; by rewrite Hnow).
  eexists. split; [done|]. split.
  - match goal with |- has_shape (SockSlot.add_counters _ ?d) _ => pose proof (slot_shape m (socket cookie) (SockSlot.mk (Some p) (Some st')) d s Hs) as Hshape end.
    rewrite Hl in Hshape. cbn [SockSlot.props SockSlot.stats filled] in Hshape.
    change (EventCounters.active_connect_events _) with 0 in Hshape. change (EventCounters.state_change_events _) with 1 in Hshape.
    change (EventCounters.map_insertion_errors _) with 0 in Hshape.
    rewrite !bump_small, !Z.add_0_r in Hshape by lia. apply Hshape; intros _; by eexists.
  - intros k Hk. rewrite load_other; [by apply Hu|]. intros <-. cbn in Hk. lia.
Qed.

Lemma max_connections_passes cap :
  Z.of_nat cap = MAX_ENTRIES_SK_PROPS_HI → passed (max_connections MAX_ENTRIES_SK_PROPS_HI cap) = true.
Proof.
  intros Ecap. unfold max_connections.
  match goal with |- context [repeat_n cap ?b start] =>
    destruct (repeat_n_invariant (λ i, holds (mk_shape i i (Z.of_nat i) (Z.of_nat i) 0)) b cap 0 start)
      as (v & Hrun & (Hp & Hs & _ & _ & c & Hc & Hac & _ & _) & _) end.
  - intros i v Hi Hv. destruct (connect_turn _ v Hv) as (m1 & Hrun1 & Hu1 & Hl1 & Hs1); [caps_lia..|].
    cbn [props] in Hrun1, Hl1, Hs1. rewrite (proj2 (Z.ltb_lt _ _)) in Hrun1, Hl1, Hs1 by lia.
    destruct (Hl1 eq_refl) as (p & st & Hl). rewrite Hrun1. cbn [mbind option_bind].
    destruct (establish_turn m1 _ (cookie v) (mock_ktime_us v + 10) p st Hs1) as (m2 & Hrun2 & Hs2 & Hu2); [caps_lia|done..|].
    rewrite Hrun2. cbn [mbind option_bind]. eexists. split; [reflexivity|]. split; [|done]. cbn in Hs2 |- *.
    by replace (Z.of_nat (S i)) with (Z.of_nat i + 1) by lia.
  - apply start_holds.
  - rewrite Hrun. unfold counters. cbn [mbind option_bind]. rewrite Hc, Hp, Hs.
    cbn [head mbind option_bind props stats connects] in *. rewrite Hac, Nat.add_0_l, Ecap. by rewrite !assert_eq_refl.
Qed.

Lemma map_capacity_tests_pass : all_passed [test_ebpf_sock_op_max_connections;
  test_ebpf_sock_op_too_many_connections; test_ebpf_sock_op_too_many_events] = true.
Proof.
  cbn [all_passed forallb]. unfold test_ebpf_sock_op_max_connections, test_ebpf_sock_op_too_many_connections,
    test_ebpf_sock_op_too_many_events. rewrite Z.min_l by done.
  rewrite max_connections_passes by (apply Z2Nat.id; by_eval).
  rewrite too_many_connections_passes by ((apply Z2Nat.id; by_eval) || reflexivity).
  by rewrite too_many_events_passes by ((apply Z2Nat.id; by_eval) || reflexivity).
Qed.

End MapCapacityTests.

(** ** sock_cache.rs *)
Module CacheCapacityTests.
Import SockCacheTests.

Definition context : SockContext.t :=
  SockContext.default <| SockContext.address_family := AF_INET6 |> <| SockContext.local_port := 217 |>.
Definition now_us : Z := 100.

(** One turn of [for sock_key in ..]: the cache and the next key. *)
Definition add_one (expected : SockOperationResult.t) (s : SockCache.t * Z) : option (SockCache.t * Z) :=
  let '(sock_cache, sock_key) := s in
  let '(r, sock_cache) := SockCache.add_context sock_cache sock_key context now_us in
  _ ← assert_eq r expected;
  Some (sock_cache, sock_key + 1).

Definition too_many_contexts (n more : nat) : test :=
  (* Fill up the sock cache. *)
  '(sock_cache, sock_key) ← repeat_n n (add_one (result 1 0 0)) (SockCache.new, 0);
  _ ← assert_eq (SockCache.len sock_cache) (SockCache.max_entries sock_cache);
  (* Now try to add beyond the limit. *)
  '(sock_cache, _) ← repeat_n more (add_one (result 0 0 1)) (sock_cache, sock_key);
  assert_eq (SockCache.len sock_cache) (SockCache.max_entries sock_cache).

Definition test_sock_cache_add_context_too_many : test :=
  too_many_contexts (Z.to_nat (SockCache.max_entries SockCache.new)) 10.

(** The keys below the next one are those of the cache. *)
Definition filled_to (n : nat) (s : SockCache.t * Z) : Prop :=
  SockCache.max_sock_entries s.1 = MAX_ENTRIES_SK_PROPS_HI ∧ size (SockCache.cache s.1) = n ∧
  ∀ k, s.2 ≤ k → SockCache.cache s.1 !! k = None.

Lemma add_one_turn n s :
  filled_to n s →
  let ok := Z.of_nat n <? MAX_ENTRIES_SK_PROPS_HI in
  ∃ s', add_one (if ok then result 1 0 0 else result 0 0 1) s = Some s' ∧ filled_to (if ok then S n else n) s'.
Proof.
  destruct s as [cache key]. intros (Hmax & Hn & Hfree) ok. cbn [fst snd] in *. unfold add_one, SockCache.add_context.
  rewrite (Hfree key), Hmax by lia. unfold SockCache.len. rewrite Hn. fold ok. clearbody ok.
  destruct ok; cbn -[MAX_ENTRIES_SK_PROPS_HI assert_eq]; rewrite assert_eq_refl; eexists; (split; [reflexivity|]).
  - split_and!; [done|cbn; by rewrite map_size_insert_None, Hn by (apply Hfree; lia)|].
    intros k Hk. cbn in *. rewrite lookup_insert_ne by lia. apply Hfree. lia.
  - split_and!; [done..|]. intros k Hk. cbn in *. apply Hfree. lia.
Qed.

Lemma too_many_contexts_passes n more :
  Z.of_nat n = MAX_ENTRIES_SK_PROPS_HI → passed (too_many_contexts n more) = true.
Proof.
  intros En. unfold too_many_contexts.
  destruct (repeat_n_invariant filled_to (add_one (result 1 0 0)) n 0 (SockCache.new, 0)) as ([c1 k1] & H1 & Hf1).
  - intros i s Hi Hs. destruct (add_one_turn i s Hs) as (s' & Hrun & Hs').
    rewrite (proj2 (Z.ltb_lt _ _)) in Hrun, Hs' by lia. by exists s'.
  - split_and!; [done..|]. intros k _. apply lookup_empty.
  - destruct (repeat_n_invariant (λ _, filled_to n) (add_one (result 0 0 1)) more 0 (c1, k1)) as ([c2 k2] & H2 & Hf2).
    + intros i s _ Hs. destruct (add_one_turn n s Hs) as (s' & Hrun & Hs').
      rewrite (proj2 (Z.ltb_ge _ _)) in Hrun, Hs' by lia. by exists s'.
    + done.
    + rewrite H1. cbn [mbind option_bind]. rewrite H2. unfold SockCache.len, SockCache.max_entries.
      destruct Hf1 as (Hm1 & Hn1 & _), Hf2 as (Hm2 & Hn2 & _). cbn [fst] in *.
      rewrite Hm1, Hn1, Nat.add_0_l, En, assert_eq_refl. cbn [mbind option_bind]. by rewrite Hm2, Hn2, En, assert_eq_refl.
Qed.

Lemma cache_capacity_test_passes : passed test_sock_cache_add_context_too_many = true.
Proof. apply too_many_contexts_passes, Z2Nat.id. by_eval. Qed.

End CacheCapacityTests.

(** ** event_provider_ebpf.rs *)
Module FlowCapacityTests.
Import SockCacheTests SocketQueries.

(** The variables of the loop that sets up the sockets: the cache, the stream, and [i]. *)
Record vars := mk { sock_cache : SockCache.t; sock_stream : gmap Z AggSockStats.t; i : Z }.

Definition sock_context (i : Z) : SockContext.t := inet <| SockContext.remote_ipv4 := i |>.
Definition sock_stats (i : Z) : AggSockStats.t := AggSockStats.mk (SockStats.default <| SockStats.bytes_received := i |>) [].

Definition add_socket (now_us : Z) (v : vars) : option vars :=
  Some (mk (SockCache.add_context (sock_cache v) (i v) (sock_context (i v)) now_us).2
           (<[i v := sock_stats (i v)]> (sock_stream v)) (i v + 1)).

(** The body of both tests for [n] sockets: what the aggregation returns, the number of flows and the
    bytes they received.  [order] is the order in which the stream is visited. *)
Definition aggregate_sockets (order : gmap Z AggSockStats.t → list (Z * AggSockStats.t)) (now_us : Z) (n : nat) :
    option (SockOperationResult.t * Z * Z) :=
  v ← repeat_n n (add_socket now_us) (mk (SockCache.with_max_entries AGG_FLOWS_MAX_ENTRIES) ∅ 0);
  '(agg_result, flow_cache) ← aggregate_into_flows (order (sock_stream v)) (sock_cache v) ∅;
  let actual_bytes := Zsum ((λ agg_flow, NetworkStats.bytes_received (AggregateResults.stats agg_flow.2)) <$> map_to_list flow_cache) in
  Some (agg_result, Z.of_nat (size flow_cache), actual_bytes).

Definition expected_bytes : Z := (AGG_FLOWS_MAX_ENTRIES - 1) * (AGG_FLOWS_MAX_ENTRIES / 2).

Section tests.
Context (order : gmap Z AggSockStats.t → list (Z * AggSockStats.t)).

Definition test_flow_aggregation_many_flows : test :=
  '(agg_result, flows, actual_bytes) ← aggregate_sockets order 1997 (Z.to_nat AGG_FLOWS_MAX_ENTRIES);
  _ ← assert_eq agg_result (result AGG_FLOWS_MAX_ENTRIES 0 0);
  _ ← assert_eq flows AGG_FLOWS_MAX_ENTRIES;
  assert_eq actual_bytes expected_bytes.

Definition test_flow_aggregation_too_many_flows : test :=
  '(agg_result, flows, actual_bytes) ← aggregate_sockets order 2342 (Z.to_nat (AGG_FLOWS_MAX_ENTRIES * 2));
  _ ← assert_eq flows AGG_FLOWS_MAX_ENTRIES;
  _ ← assert (expected_bytes <=? actual_bytes);
  assert_eq agg_result (result AGG_FLOWS_MAX_ENTRIES 0 AGG_FLOWS_MAX_ENTRIES).

(** *** The sockets set up *)

(** The cache has the first sockets, as many as it may, and the stream all of them. *)
Definition set_up (now_us : Z) (n : nat) (v : vars) : Prop :=
  i v = Z.of_nat n ∧ SockCache.max_sock_entries (sock_cache v) = AGG_FLOWS_MAX_ENTRIES ∧
  Z.of_nat (size (SockCache.cache (sock_cache v))) = Z.min (Z.of_nat n) AGG_FLOWS_MAX_ENTRIES ∧
  (∀ k, SockCache.cache (sock_cache v) !! k =
     if decide (0 ≤ k < Z.min (Z.of_nat n) AGG_FLOWS_MAX_ENTRIES)
     then Some (SockWrapper.new (sock_context k) (AggSockStats.mk (touched now_us) [])) else None) ∧
  map_to_list (sock_stream v) ≡ₚ (λ k, (k, sock_stats k)) <$> seqZ 0 (Z.of_nat n).

Lemma seqZ_snoc n : seqZ 0 (Z.of_nat (S n)) = seqZ 0 (Z.of_nat n) ++ [Z.of_nat n].
Proof. rewrite Nat2Z.inj_succ, <- Z.add_1_r, seqZ_app by lia. by rewrite Z.add_0_l. Qed.

Lemma add_socket_turn now_us n v : set_up now_us n v → ∃ v', add_socket now_us v = Some v' ∧ set_up now_us (S n) v'.
Proof.
  destruct v as [sc stream j]. intros (Hi & Hmax & Hsize & Hcache & Hstream).
  cbn [i sock_cache sock_stream] in *. subst j. eexists. split; [reflexivity|].
  assert (SockCache.cache sc !! Z.of_nat n = None) as Hfree by (rewrite Hcache, decide_False; [done|lia]).
  assert (stream !! Z.of_nat n = None) as Hnew.
  { destruct (stream !! Z.of_nat n) as [a|] eqn:E; [|done]. apply elem_of_map_to_list in E.
    rewrite Hstream in E. apply list_elem_of_fmap in E as (k & [= -> _] & Hk). apply elem_of_seqZ in Hk. lia. }
  unfold set_up. cbn [i sock_cache sock_stream]. rewrite map_to_list_insert, Hstream, seqZ_snoc, fmap_app by done.
  unfold SockCache.add_context. rewrite Hfree, Hmax. unfold SockCache.len. rewrite Hsize.
  split; [lia|]. destruct (Z.ltb_spec (Z.min (Z.of_nat n) AGG_FLOWS_MAX_ENTRIES) AGG_FLOWS_MAX_ENTRIES) as [Hlt|Hge];
    (split_and!; [done| | |by apply Permutation_cons_append]).
  - cbn. rewrite map_size_insert_None by done. lia.
  - cbn. intros k. destruct (decide (k = Z.of_nat n)) as [->|].
    + rewrite lookup_insert_eq, decide_True by lia. done.
    + rewrite lookup_insert_ne, Hcache by done. repeat case_decide; (done || lia).
  - cbn [snd]. rewrite Hsize. lia.
  - cbn [snd]. intros k. rewrite Hcache. repeat case_decide; (done || lia).
Qed.

(** *** The flows aggregated *)

Definition flow (k : Z) : FlowProperties.t := FlowProperties.mk TCP (IpAddr.V4 0) (IpAddr.V4 k) 0 0 None.
Definition known (l : list (Z * AggSockStats.t)) : list Z := filter (λ k, k < AGG_FLOWS_MAX_ENTRIES) l.*1.

Lemma add_bytes k :
  0 ≤ k < 2 ^ 20 → ∃ st, NetworkStats.add_from NetworkStats.default (AggSockStats.stats (sock_stats k)) = Some st ∧
    NetworkStats.bytes_received st = k.
Proof.
  intros Hk. eexists. split; [reflexivity|]. cbn. unfold saturating_add, umax. change (2 ^ u64 - 1) with 18446744073709551615. lia.
Qed.

(** After the sockets of [l], in any order: a flow for each socket known to the cache. *)
Definition aggregated (l : list (Z * AggSockStats.t)) (st : SockOperationResult.t * FlowCache) : Prop :=
  st.1 = result (Z.of_nat (length (known l))) 0 (Z.of_nat (length l) - Z.of_nat (length (known l))) ∧
  size st.2 = length (known l) ∧ (∀ k, k ∉ l.*1 → st.2 !! flow k = None) ∧
  Zsum ((λ a, NetworkStats.bytes_received (AggregateResults.stats a.2)) <$> map_to_list st.2) = Zsum (known l).

Lemma known_snoc l k : known (l ++ [(k, sock_stats k)]) = known l ++ (if decide (k < AGG_FLOWS_MAX_ENTRIES) then [k] else []).
Proof. unfold known. rewrite fmap_app, filter_app. done. Qed.

(** At most as many sockets as the cache has room for are known. *)
Lemma known_bounded l :
  NoDup l.*1 → Forall (λ k, 0 ≤ k) l.*1 → Z.of_nat (length (known l)) ≤ AGG_FLOWS_MAX_ENTRIES.
Proof.
  intros Hnd Hpos. assert (known l ⊆+ seqZ 0 AGG_FLOWS_MAX_ENTRIES) as Hsub%submseteq_length.
  { apply NoDup_submseteq; [by apply NoDup_filter|]. intros k [Hk Hin]%list_elem_of_filter. apply elem_of_seqZ.
    rewrite Forall_forall in Hpos. specialize (Hpos k Hin). lia. }
  rewrite length_seqZ in Hsub. apply inj_le in Hsub. rewrite Z2Nat.id in Hsub by by_eval. done.
Qed.

Section aggregation.
Context (cache : SockCache.t) (now_us : Z).
Hypothesis cache_full : ∀ k, SockCache.cache cache !! k =
  if decide (0 ≤ k < AGG_FLOWS_MAX_ENTRIES) then Some (SockWrapper.new (sock_context k) (AggSockStats.mk (touched now_us) []))
  else None.

Lemma into_flow_turn l k st :
  aggregated l st → 0 ≤ k < 2 ^ 20 → NoDup (l ++ [(k, sock_stats k)]).*1 → Forall (λ k, 0 ≤ k) l.*1 →
  ∃ st', into_flow cache st (k, sock_stats k) = Some st' ∧ aggregated (l ++ [(k, sock_stats k)]) st'.
Proof.
  destruct st as [r flows]. intros (Hr & Hsize & Hfree & Hsum) Hk Hnd Hpos. cbn [fst snd] in *. unfold into_flow, SockCache.get.
  assert (k ∉ l.*1) as Hnew by (rewrite fmap_app in Hnd; apply NoDup_app in Hnd as (_ & Hd & _); intros ?; by eapply Hd; [done|left]).
  rewrite cache_full. unfold aggregated. rewrite known_snoc, !length_app. cbn [fst snd].
  destruct (decide (k < AGG_FLOWS_MAX_ENTRIES)) as [Hlt|Hge].
  - rewrite decide_True by lia. cbn [SockWrapper.context_external SockWrapper.new SockWrapper.context default].
    change (FlowProperties.try_from _) with (Ok (E := unit) (flow k)). cbv match zeta.
    rewrite (Hfree k Hnew).
    assert (Z.of_nat (size flows) < AGG_FLOWS_MAX_ENTRIES) as Hroom.
    { pose proof (known_bounded (l ++ [(k, sock_stats k)]) Hnd) as Hb. rewrite known_snoc, decide_True, length_app in Hb by done.
      rewrite Hsize. cbn in Hb. rewrite fmap_app in Hb. specialize (Hb ltac:(apply Forall_app; split; [done|constructor; [cbn; lia|constructor]])). lia. }
    rewrite (proj2 (Z.ltb_lt _ _) Hroom). destruct (add_bytes k Hk) as (stats & Hadd & Hb). cbn [AggregateResults.stats]. rewrite Hadd.
    cbn [mbind option_bind]. change (SockWrapper.should_evict _) with false. cbv match. cbn [mbind option_bind].
    eexists. split; [reflexivity|]. cbn [fst snd]. split_and!.
    + rewrite Hr. unfold result. cbn. f_equal; lia.
    + rewrite map_size_insert_None by auto. rewrite Hsize. cbn. lia.
    + intros k' Hk'. rewrite fmap_app in Hk'. rewrite lookup_insert_ne; [apply Hfree; set_solver|]. intros [= ->]. set_solver.
    + rewrite map_to_list_insert by auto. cbn. rewrite Hb. unfold Zsum in *. rewrite Hsum, list_sum_app_Z. cbn. lia.
  - rewrite decide_False by lia. eexists. split; [reflexivity|]. cbn [fst snd]. rewrite app_nil_r. split_and!; [|rewrite Hsize; cbn; lia| |done].
    + rewrite Hr. unfold result. cbn. f_equal; lia.
    + intros k' Hk'. apply Hfree. rewrite fmap_app in Hk'. set_solver.
Qed.

Lemma into_flow_loop rest l st :
  aggregated l st → NoDup (l ++ rest).*1 → Forall (λ k, 0 ≤ k) l.*1 →
  Forall (λ it, it.2 = sock_stats it.1 ∧ 0 ≤ it.1 < 2 ^ 20) rest →
  ∃ st', foldM (into_flow cache) st rest = Some st' ∧ aggregated (l ++ rest) st'.
Proof.
  revert l st. induction rest as [|[k a] rest IH]; intros l st Hst Hnd Hpos Hall.
  { exists st. by rewrite app_nil_r. }
  apply Forall_cons in Hall as [[Ha Hk] Hall]. cbn [fst snd] in Ha, Hk. subst a.
  rewrite (cons_middle _ l rest), app_assoc in Hnd |- *. destruct (into_flow_turn l k st Hst Hk) as (st1 & Hrun & Hst1).
  - rewrite fmap_app in Hnd. by apply NoDup_app in Hnd as [? _].
  - done.
  - cbn [foldM]. rewrite Hrun. cbn [mbind option_bind]. apply IH; [done..| |done].
    rewrite fmap_app. apply Forall_app. split; [done|]. constructor; [cbn; lia|constructor].
Qed.

End aggregation.

(** The bytes of the sockets known. *)
Lemma Zsum_seqZ n : 2 * Zsum (seqZ 0 (Z.of_nat n)) = Z.of_nat n * (Z.of_nat n - 1).
Proof.
  induction n as [|n IH]; [done|]. rewrite seqZ_snoc. unfold Zsum in *. rewrite list_sum_app_Z. cbn [foldr]. nia.
Qed.

Lemma sum_expected : Zsum (seqZ 0 AGG_FLOWS_MAX_ENTRIES) = expected_bytes.
Proof.
  assert (∀ n, 0 ≤ n → 2 * Zsum (seqZ 0 n) = n * (n - 1)) as Hs.
  { intros n Hn. pose proof (Zsum_seqZ (Z.to_nat n)) as H. by rewrite Z2Nat.id in H. }
  specialize (Hs AGG_FLOWS_MAX_ENTRIES ltac:(by_eval)). unfold expected_bytes.
  change (AGG_FLOWS_MAX_ENTRIES * (AGG_FLOWS_MAX_ENTRIES - 1)) with 99990000 in Hs.
  change ((AGG_FLOWS_MAX_ENTRIES - 1) * (AGG_FLOWS_MAX_ENTRIES / 2)) with 49995000. lia.
Qed.

Lemma filter_seqZ m n : 0 ≤ m ≤ n → filter (λ k, k < m) (seqZ 0 n) ≡ₚ seqZ 0 m.
Proof.
  intros Hm. apply NoDup_Permutation; [apply NoDup_filter, NoDup_seqZ|apply NoDup_seqZ|].
  intros k. rewrite list_elem_of_filter, !elem_of_seqZ. lia.
Qed.

Hypothesis order_perm : ∀ m, order m ≡ₚ map_to_list m.

(** For any order of the visits, and any number of sockets that fills the cache. *)
Lemma aggregate_sockets_full now_us n :
  AGG_FLOWS_MAX_ENTRIES ≤ Z.of_nat n < 2 ^ 20 →
  aggregate_sockets order now_us n =
    Some (result AGG_FLOWS_MAX_ENTRIES 0 (Z.of_nat n - AGG_FLOWS_MAX_ENTRIES), AGG_FLOWS_MAX_ENTRIES, expected_bytes).
Proof.
  intros Hn. unfold aggregate_sockets.
  destruct (repeat_n_invariant (set_up now_us) (add_socket now_us) n 0
    (mk (SockCache.with_max_entries AGG_FLOWS_MAX_ENTRIES) ∅ 0)) as (v & Hrun & _ & _ & _ & Hcache & Hstream).
  { intros j v _. apply add_socket_turn. }
  { split_and!; [done..| |done]. intros k. cbn. rewrite decide_False by lia. apply lookup_empty. }
  rewrite Hrun. cbn [mbind option_bind]. rewrite Nat.add_0_l, Z.min_r in Hcache by lia. rewrite Nat.add_0_l in Hstream.
  assert (order (sock_stream v) ≡ₚ (λ k, (k, sock_stats k)) <$> seqZ 0 (Z.of_nat n)) as Hord by by rewrite order_perm.
  assert ((order (sock_stream v)).*1 ≡ₚ seqZ 0 (Z.of_nat n)) as Hkeys.
  { rewrite Hord, <- list_fmap_compose. by rewrite list_fmap_id. }
  destruct (into_flow_loop (sock_cache v) now_us Hcache (order (sock_stream v)) [] (SockOperationResult.default, ∅))
    as ([r flows] & Hagg & Hr & Hsize & _ & Hsum).
  - split_and!; [done..| |done]. intros k _. apply lookup_empty.
  - rewrite app_nil_l, Hkeys. apply NoDup_seqZ.
  - constructor.
  - rewrite Hord. apply Forall_fmap, Forall_forall. intros k Hk%elem_of_seqZ. cbn. split; [done|lia].
  - unfold aggregate_into_flows, clear_flow_levels. rewrite fmap_empty. rewrite Hagg. cbn [mbind option_bind fst snd app] in *.
    assert (known (order (sock_stream v)) ≡ₚ seqZ 0 AGG_FLOWS_MAX_ENTRIES) as Hknown.
    { unfold known. rewrite Hkeys. apply filter_seqZ. split; [by_eval|lia]. }
    assert (Z.of_nat (length (known (order (sock_stream v)))) = AGG_FLOWS_MAX_ENTRIES) as Hlen
      by (rewrite Hknown, length_seqZ; apply Z2Nat.id; by_eval).
    assert (length (order (sock_stream v)) = n) as Htotal by (rewrite Hord, length_fmap, length_seqZ; lia).
    by rewrite Hr, Hsize, Hsum, Hlen, Htotal, Hknown, sum_expected.
Qed.

Lemma flow_capacity_tests_pass :
  all_passed [test_flow_aggregation_many_flows; test_flow_aggregation_too_many_flows] = true.
Proof.
  cbn [all_passed forallb]. unfold test_flow_aggregation_many_flows, test_flow_aggregation_too_many_flows.
  rewrite !aggregate_sockets_full by (rewrite Z2Nat.id by by_eval; by_eval).
  rewrite !Z2Nat.id by by_eval. reflexivity.
Qed.

End tests.
End FlowCapacityTests.
