(* ===== verification/CompressionTests.v ===== *)
(** * CompressionTests: a compressed report is the report

    Translates the tests of publisher_endpoint.rs that build reports of hundreds of random flows and
    compare the compressed body with the plain one.  They are not evaluated on samples: they are proved
    to pass whatever the random generator draws, for crates that behave as documented.  Storing the
    bodies as sample files is left out. *)

From stdpp Require Import base numbers gmap list strings.
From Stdlib Require Import QArith_base.
From S2P Require Import Prelude Network ReportData NetworkEvent Text Metadata HostStats Timer TimerProperties.
From S2P Require Import Report ReportProperties Publisher PublisherProperties Testing ReportTests.
Import ReportFacts ReportPublisherOTLP ReportFixture.
Open Scope Z_scope.

(** The generator of random numbers, as its state. *)
Class Rng (R : Type) := {
  next_u32 : R → Z * R;
  gen_u8 : R → Z * R;
  gen_range : Z → Z → R → Z * R;
}.

(** Drawing threads the generator. *)
Definition rand (R A : Type) : Type := R → A * R.
#[local] Notation "x ⟵ m ; k" := (λ rng, let '(x, rng) := m rng in k rng)
  (at level 20, m at level 100, k at level 200, right associativity).
Definition return_rand {R A : Type} (a : A) : rand R A := λ rng, (a, rng).

Section draws.
Context {R : Type} `{Rng R}.

(** ** Values that are somewhat within realistic ranges we'd see in the field *)
Fixpoint rand_bytes (n : nat) : rand R (list Z) :=
  match n with
  | O => return_rand []
  | S n => byte ⟵ gen_u8; bytes ⟵ rand_bytes n; return_rand (byte :: bytes)
  end.
(** The first half of the address is random. *)
Definition rand_ipv6 : rand R (list Z) := bytes ⟵ rand_bytes 8; return_rand (bytes ++ replicate 8 0).
Definition rand_service_port : rand R Z := gen_range 1 100.
Definition rand_cxn_count : rand R Z := gen_range 0 1000000.
Definition rand_duration_us : rand R Z := gen_range 0 1000000.
Definition rand_retrans_count : rand R Z := gen_range 0 1000000.
Definition rand_byte_segment_count : rand R Z := gen_range 0 10000000000.

Definition rand_histogram : rand R MetricHistogram.t :=
  count ⟵ rand_cxn_count;
  min ⟵ rand_duration_us;
  max ⟵ rand_duration_us;
  sum ⟵ rand_duration_us;
  return_rand (MetricHistogram.mk count min max sum).

Definition build_random_network_stats : rand R NetworkStats.t :=
  sockets_connecting ⟵ rand_cxn_count;
  sockets_established ⟵ rand_cxn_count;
  sockets_closing ⟵ rand_cxn_count;
  sockets_closed ⟵ rand_cxn_count;
  sockets_completed ⟵ rand_cxn_count;
  severed_connect ⟵ rand_cxn_count;
  severed_establish ⟵ rand_cxn_count;
  connect_attempts ⟵ rand_cxn_count;
  bytes_received ⟵ rand_byte_segment_count;
  bytes_delivered ⟵ rand_byte_segment_count;
  segments_received ⟵ rand_byte_segment_count;
  segments_delivered ⟵ rand_byte_segment_count;
  retrans_syn ⟵ rand_retrans_count;
  retrans_est ⟵ rand_retrans_count;
  retrans_close ⟵ rand_retrans_count;
  rtos_syn ⟵ rand_retrans_count;
  rtos_est ⟵ rand_retrans_count;
  rtos_close ⟵ rand_retrans_count;
  connect_us ⟵ rand_histogram;
  rtt_us ⟵ rand_histogram;
  rtt_smoothed_us ⟵ rand_histogram;
  return_rand (NetworkStats.mk sockets_connecting sockets_established sockets_closing sockets_closed
    sockets_completed severed_connect severed_establish connect_attempts bytes_received bytes_delivered
    segments_received segments_delivered retrans_syn retrans_est retrans_close rtos_syn rtos_est rtos_close
    connect_us rtt_us rtt_smoothed_us).

(** ** The report *)
Definition build_env_metadata : EnvMetadata.t :=
  let env_metadata := EnvMetadata.default in
  let env_metadata := EnvMetadata.insert env_metadata "instance_id" (ReportValue.String "instance-id") in
  EnvMetadata.insert env_metadata "machine_id" (ReportValue.String "machine-id").

Definition build_process_stats : ProcessStats.t :=
  ProcessStats.mk (CountersOverall.mk {|
      EventCounters.active_connect_events := 1;
      EventCounters.active_established_events := 2;
      EventCounters.passive_established_events := 3;
      EventCounters.state_change_events := 4;
      EventCounters.rtt_events := 5;
      EventCounters.retrans_events := 6;
      EventCounters.rto_events := 7;
      EventCounters.other_events := 8;
      EventCounters.socket_events := 9;
      EventCounters.sockets_invalid := 10;
      EventCounters.map_insertion_errors := 18;
      EventCounters.rtts_invalid := 15;
      EventCounters.set_flags_errors := 16;
      EventCounters.other_errors := 17
    |} ProcessCounters.default) [UsageStats.mk (40 # 1000) 512 (6 # 100) 100 12801].

Definition build_host_stats : HostStats.t := HostStats.mk [iface_stats "iface-id-1"; iface_stats "iface-id-2"].

Definition build_k8s_metadata : K8sMetadata.t :=
  K8sMetadata.mk (Some (ReportValue.String "k8s-node")) (Some (ReportValue.String "k8s-cluster")).

Definition numbered (prefix : string) (n : nat) : string := str (chr prefix ++ show_uint (Z.of_nat n)).

Definition pods_of (flow_idx : nat) : FlowMetadata.t :=
  let service_name_mutator := (flow_idx mod 5)%nat in
  let pod_name_mutator := (flow_idx mod 20)%nat in
  FlowMetadata.mk
    (Some (PodInfo.mk (numbered "nginx-deployment-59f8b7dc9-bzmfn-" pod_name_mutator) "default"
             (numbered "nginx-service-" service_name_mutator)))
    (Some (PodInfo.mk (numbered "nginx-doppelganger-9997cd54b-rz55s-" pod_name_mutator) "nfm"
             (numbered "nginx-doppelganger-" service_name_mutator))).

(** One turn of the loop over flows; [None] is the [unwrap] of a context of no known family. *)
Definition build_flow (address_family : Z) (include_k8s : bool) (flow_idx : nat) : rand R (option AggregateResults.t) :=
  local_ipv4 ⟵ next_u32;
  remote_ipv4 ⟵ next_u32;
  local_ipv6 ⟵ rand_ipv6;
  remote_ipv6 ⟵ rand_ipv6;
  remote_port ⟵ rand_service_port;
  let context := SockContext.default
    <| SockContext.is_client := true |> <| SockContext.address_family := address_family |>
    <| SockContext.local_ipv4 := local_ipv4 |> <| SockContext.remote_ipv4 := remote_ipv4 |>
    <| SockContext.local_ipv6 := local_ipv6 |> <| SockContext.remote_ipv6 := remote_ipv6 |>
    <| SockContext.local_port := 0 |> <| SockContext.remote_port := remote_port |> in
  stats ⟵ build_random_network_stats;
  return_rand (
    flow ← flow_of context;
    let flow := if include_k8s then flow <| FlowProperties.kubernetes_metadata := Some (pods_of flow_idx) |> else flow in
    Some (AggregateResults.mk flow stats)).

Fixpoint build_flows (num_flows flow_idx : nat) (address_family : Z) (include_k8s : bool) :
    rand R (option (list AggregateResults.t)) :=
  match num_flows with
  | O => return_rand (Some [])
  | S num_flows =>
      result ⟵ build_flow address_family include_k8s flow_idx;
      results ⟵ build_flows num_flows (S flow_idx) address_family include_k8s;
      return_rand (result ← result; results ← results; Some (result :: results))
  end.

Definition build_report (num_flows : nat) (address_family : Z) (include_k8s : bool) : rand R (option NfmReport.t) :=
  aggregated_results ⟵ build_flows num_flows 0 address_family include_k8s;
  return_rand (
    aggregated_results ← aggregated_results;
    let report := NfmReport.set_network_stats new_report aggregated_results in
    let report := NfmReport.set_service_metadata report (ServiceMetadata.mk (ReportValue.String "network-flow-monitor")
                    (ReportValue.String "1.0") (ReportValue.String "the-build-ts")) in
    let report := NfmReport.set_env_metadata report build_env_metadata in
    let report := NfmReport.set_process_stats report build_process_stats in
    let report := NfmReport.set_host_stats report build_host_stats in
    Some (if include_k8s then NfmReport.set_k8s_metadata report build_k8s_metadata else report)).

(** ** The tests *)
Section compression.
Context {Bytes Client : Type} `{EqDecision Bytes} (c : crates Bytes Client) `{!CratesLaws c}.
(** The length of bytes, and flate2's decoder. *)
Context (len : Bytes → Z) (gunzip : Bytes → option Bytes).

Definition build_publisher (compression : ReportCompression) : option (t Client) :=
  new_without_proxy c "http://localhost" "us-west-1" compression.

Definition decompress (compression : ReportCompression) (data : Bytes) : option Bytes :=
  match compression with
  | NoCompression => Some data
  | Gzip => gunzip data
  end.

Definition run_compression_test (num_flows : nat) (address_family : Z) (include_k8s : bool) (rng : R) : test :=
  publisher_with_compression ← build_publisher Gzip;
  publisher_no_compression ← build_publisher NoCompression;
  report ← (build_report num_flows address_family include_k8s rng).1;
  let now := FakeClock.now_timespec (FakeClock.mk 1718716821050) in
  body_no_compression ← build_report_body c publisher_no_compression report now;
  body_with_compression ← build_report_body c publisher_with_compression report now;
  (* Aiming for a min 50% compression ratio. *)
  _ ← assert (len body_with_compression <? len body_no_compression / 2);
  decompressed ← decompress Gzip body_with_compression;
  assert_eq body_no_compression decompressed.

Definition test_compression_ec2_report_ipv4 : R → test := run_compression_test 500 AF_INET false.
Definition test_compression_k8s_report_ipv4 : R → test := run_compression_test 500 AF_INET true.
Definition test_compression_ec2_report_ipv6 : R → test := run_compression_test 500 AF_INET6 false.
Definition test_compression_k8s_report_ipv6 : R → test := run_compression_test 500 AF_INET6 true.

(** A client can be built, the decoder inverts the encoder, and messages compress to less than half. *)
Class FlateLaws : Prop := {
  client_built : is_Some (build_client c None);
  gunzip_gzip encoded zipped : gzip c encoded = Some zipped → gunzip zipped = Some encoded;
  gzip_halves message encoded zipped :
    encode c message = Some encoded → gzip c encoded = Some zipped → len zipped < len encoded / 2;
}.

Lemma build_flows_some num_flows flow_idx address_family include_k8s rng :
  address_family = AF_INET ∨ address_family = AF_INET6 →
  is_Some (build_flows num_flows flow_idx address_family include_k8s rng).1.
Proof.
  intros Hf. revert flow_idx rng. induction num_flows as [|n IH]; intros flow_idx rng; [by eexists|].
  cbn [build_flows]. assert (is_Some (build_flow address_family include_k8s flow_idx rng).1) as [result Hr].
  { unfold build_flow. repeat case_match; cbn; destruct Hf as [-> | ->]; by eexists. }
  destruct (build_flow _ _ _ rng) as [r rng']. cbn in Hr. subst r.
  destruct (IH (S flow_idx) rng') as [results Hrs]. destruct (build_flows n _ _ _ rng') as [rs rng'']. cbn in Hrs |- *. subst rs.
  by eexists.
Qed.

Lemma build_report_plain num_flows address_family include_k8s rng :
  address_family = AF_INET ∨ address_family = AF_INET6 →
  ∃ report, (build_report num_flows address_family include_k8s rng).1 = Some report ∧ metadata_plain report.
Proof.
  intros Hf. unfold build_report. destruct (build_flows_some num_flows 0 address_family include_k8s rng Hf) as [results Hr].
  destruct (build_flows num_flows _ _ _ rng) as [r rng']. cbn in Hr |- *. subst r. cbn [mbind option_bind].
  eexists. split; [done|]. destruct include_k8s; repeat constructor.
Qed.

(** The test passes for any number of flows and any draws. *)
Lemma run_compression_test_passes `{!FlateLaws} num_flows address_family include_k8s rng :
  address_family = AF_INET ∨ address_family = AF_INET6 →
  passed (run_compression_test num_flows address_family include_k8s rng) = true.
Proof.
  intros Hf. destruct (build_report_plain num_flows address_family include_k8s rng Hf) as (report & Hr & Hm).
  unfold run_compression_test, build_publisher, new_without_proxy, new. destruct client_built as [cl Hcl].
  rewrite bool_decide_eq_true_2 by done. cbn [mbind option_bind]. rewrite Hcl. cbn [mbind option_bind]. rewrite Hr. cbn [mbind option_bind].
  set (now := FakeClock.now_timespec _). assert (timespec.wf now) as Hnow by (unfold timespec.wf; by_eval).
  destruct (build_report_body_ok c (mk cl "http://localhost" "us-west-1" NoCompression) report now Hnow Hm)
    as (b0 & -> & export & encoded & He & Henc & ->).
  destruct (build_report_body_ok c (mk cl "http://localhost" "us-west-1" Gzip) report now Hnow Hm)
    as (b1 & -> & export' & encoded' & He' & Henc' & Hz).
  rewrite He in He'. injection He' as <-. rewrite Henc in Henc'. injection Henc' as <-. cbn [compression] in Hz.
  cbn [mbind option_bind]. rewrite (proj2 (Z.ltb_lt _ _)) by (by eapply gzip_halves). cbn.
  rewrite (gunzip_gzip _ _ Hz). cbn. by rewrite assert_eq_refl.
Qed.

Lemma compression_tests_pass `{!FlateLaws} rng : all_passed [test_compression_ec2_report_ipv4 rng;
  test_compression_k8s_report_ipv4 rng; test_compression_ec2_report_ipv6 rng; test_compression_k8s_report_ipv6 rng] = true.
Proof.
  cbn [all_passed forallb]. unfold test_compression_ec2_report_ipv4, test_compression_k8s_report_ipv4,
    test_compression_ec2_report_ipv6, test_compression_k8s_report_ipv6.
  by rewrite !run_compression_test_passes by auto.
Qed.

End compression.
End draws.

(** ** Crates that meet the laws, and a generator

    Bytes are the number of times they were compressed. *)
Definition layered_crates : crates nat unit :=
  mk_crates unit (λ _, Some ()) (λ _, Some ()) (λ _, Err ()) visible (λ _, "20240618T132021Z"%string)
    (λ _, Some 0%nat) (λ n, Some (S n)) (λ _ _ _ _ _ _ _ _ _, "AWS4-HMAC-SHA256"%string) (λ _, "ip"%string) (Ok tt) (Some tt).
#[local] Instance layered_crates_laws : CratesLaws layered_crates.
Proof. split; by cbn. Qed.

Definition layered_len (n : nat) : Z := match n with O => 1000 | _ => 10 end.
#[local] Instance layered_flate_laws : FlateLaws layered_crates layered_len (λ n, match n with O => None | S n => Some n end).
Proof. split; cbn; [by eexists|by intros ? ? [= <-]|by intros ? ? ? [= <-] [= <-]]. Qed.

(** A generator that counts. *)
#[local] Instance counting : Rng Z := {
  next_u32 n := (n mod 2 ^ 32, n + 1);
  gen_u8 n := (n mod 2 ^ 8, n + 1);
  gen_range low high n := (low + n mod (high - low), n + 1);
}.

Example compression_run :
  passed (run_compression_test layered_crates layered_len (λ n, match n with O => None | S n => Some n end)
    20 AF_INET6 true 0) = true.
Proof. apply run_compression_test_passes; [apply _|apply _|by right]. Qed.
